(** * Baldwin County News Hub: scrape orchestration, normalisation and store

    A shallow embedding of the back end of the news aggregator:
    - [Js]              the JavaScript string primitives the scrapers rely on;
    - [BaseScraper]     categorizeArticle, extractTags, fetchHTML, saveArticle;
    - [Article]         the Article model over the PostgreSQL schema;
    - [CheerioScraper], [RSSScraper], [NitterScraper]   the three extractors;
    - [ScraperManager]  scrapeAll, scrapeSingle and scrapeSelected.

    Strings are sequences of code units ([ascii], read as the code units
    0..255); INTEGER columns are [Z] with their range check written out;
    JavaScript counters are natural numbers. *)

From Stdlib Require Import String Ascii List Arith NArith ZArith Bool Lia.
From Stdlib Require Import DecimalString.
Import ListNotations.
Open Scope string_scope.
Open Scope nat_scope.

(* ===================================================================== *)
(** ** JavaScript string primitives *)
(* ===================================================================== *)

Module Js.

(** [c.toLowerCase()] on one code unit below 256: the letters A..Z and the
    Latin-1 capitals U+00C0..U+00DE (U+00D7, the multiplication sign,
    excepted) move up by 32. *)
Definition lower_char (c : ascii) : ascii :=
  let n := nat_of_ascii c in
  if (65 <=? n) && (n <=? 90) then ascii_of_nat (n + 32)
  else if (192 <=? n) && (n <=? 222) && negb (n =? 215) then ascii_of_nat (n + 32)
  else c.

(** [s.toLowerCase()] *)
Fixpoint toLowerCase (s : string) : string :=
  match s with
  | EmptyString => EmptyString
  | String c r => String (lower_char c) (toLowerCase r)
  end.

(** [s.startsWith(p)] *)
Fixpoint startsWith (p s : string) : bool :=
  match p, s with
  | EmptyString, _ => true
  | String a p', String b s' => Ascii.eqb a b && startsWith p' s'
  | String _ _, EmptyString => false
  end.

(** [s.includes(p)]: [p] occurs in [s] at some offset. *)
Fixpoint includes (p s : string) : bool :=
  startsWith p s ||
  match s with
  | EmptyString => false
  | String _ s' => includes p s'
  end.

(** [/k1|k2|...|kn/.test(s)] for a regular expression that is an alternation
    of literal words: some alternative occurs in [s]. *)
Definition test_alternation (alts : list string) (s : string) : bool :=
  existsb (fun k => includes k s) alts.

(** [s.substring(0, n)]: the first [n] code units, the whole of [s] when it
    is shorter. *)
Fixpoint substring0 (n : nat) (s : string) : string :=
  match n, s with
  | 0, _ => EmptyString
  | S _, EmptyString => EmptyString
  | S n', String c r => String c (substring0 n' r)
  end.

(** JavaScript white space (what trim() removes and \s matches) among the
    code units below 256, which are all a string of this development can
    hold: TAB, LF, VT, FF, CR, SPACE and NBSP. *)
Definition is_space (c : ascii) : bool :=
  let n := nat_of_ascii c in
  ((9 <=? n) && (n <=? 13)) || (n =? 32) || (n =? 160).

Fixpoint skip_spaces (s : string) : string :=
  match s with
  | EmptyString => EmptyString
  | String c r => if is_space c then skip_spaces r else s
  end.

(** Copy [s], writing one space for each run of white space that is followed
    by a visible character; [pending] tells that such a run is open. *)
Fixpoint squeeze (pending : bool) (s : string) : string :=
  match s with
  | EmptyString => EmptyString
  | String c r =>
      if is_space c then squeeze true r
      else if pending then String " " (String c (squeeze false r))
      else String c (squeeze false r)
  end.

(** [t.trim().replace(/\s+/g, ' ')], the body of BaseScraper.cleanText. *)
Definition trim_collapse (t : string) : string :=
  squeeze false (skip_spaces t).

(** [s.replace(p, r)] with a string pattern: the first occurrence only. *)
Fixpoint replace_first (p r s : string) : string :=
  if startsWith p s then
    r ++ String.substring (String.length p) (String.length s - String.length p) s
  else
    match s with
    | EmptyString => EmptyString
    | String c s' => String c (replace_first p r s')
    end.

(** [\w]: a letter, a digit or the underscore. *)
Definition is_word (c : ascii) : bool :=
  let n := nat_of_ascii c in
  ((48 <=? n) && (n <=? 57)) || ((65 <=? n) && (n <=? 90))
  || ((97 <=? n) && (n <=? 122)) || (n =? 95).

(** [s.match(/#[\w]+/g) || []]: scan left to right; [cur] is the match that
    is open, a "#" followed by the word characters read so far. *)
Fixpoint hashtag_scan (cur : option string) (s : string) : list string :=
  let close :=
    match cur with
    | Some (String _ (String _ _) as m) => [m]
    | _ => []
    end in
  match s with
  | EmptyString => close
  | String c r =>
      match cur with
      | Some m =>
          if is_word c then hashtag_scan (Some (m ++ String c EmptyString)) r
          else (close ++ hashtag_scan
                          (if Ascii.eqb c "#" then Some "#" else None) r)%list
      | None =>
          hashtag_scan (if Ascii.eqb c "#" then Some "#" else None) r
      end
  end.

Definition match_hashtags (s : string) : list string := hashtag_scan None s.

(** [[...new Set(l)]]: the first occurrence of each element, in order. *)
Fixpoint set_of (seen l : list string) : list string :=
  match l with
  | [] => []
  | x :: r =>
      if existsb (String.eqb x) seen then set_of seen r
      else x :: set_of (x :: seen) r
  end.

Definition uniq (l : list string) : list string := set_of [] l.

(** [a || b] on values that may be undefined or empty. *)
Definition or_else (a b : option string) : option string :=
  match a with
  | Some (String _ _) => a
  | _ => b
  end.

(** A value that may be [undefined]/[null] inside a template literal. *)
Definition template (v : option string) : string :=
  match v with
  | Some s => s
  | None => "undefined"
  end.

(** Truthiness of an optional number: [undefined] and [0] are falsy. *)
Definition truthy (v : option nat) : bool :=
  match v with
  | Some (S _) => true
  | _ => false
  end.

(** Truthiness of an optional number of milliseconds. *)
Definition truthy_ms (v : option N) : bool :=
  match v with
  | Some (Npos _) => true
  | _ => false
  end.

(** A number inside a template literal: Number::toString writes a safe
    integer (at most 2^53 - 1 in absolute value) with all its digits; it is
    for these integers only that [show] is the text JavaScript prints. *)
Definition show (z : Z) : string := NilZero.string_of_int (Z.to_int z).

Definition safe_integer (z : Z) : Prop :=
  (- 9007199254740991 <= z <= 9007199254740991)%Z.

(** The delay setTimeout(f, ms) really uses: a delay below 1 or above
    2^31 - 1 is set to 1. *)
Definition timer_delay (ms : Z) : N :=
  if ((1 <=? ms) && (ms <=? 2147483647))%Z then Z.to_N ms else 1%N.

(** Truthiness of an optional string: [undefined], [null] and [''] are falsy. *)
Definition truthy_str (v : option string) : bool :=
  match v with
  | Some (String _ _) => true
  | _ => false
  end.

End Js.

(* ===================================================================== *)
(** ** Words in a text, said without the string primitives *)
(* ===================================================================== *)

Module Words.

(** The capital letters A..Z. *)
Definition capital (c : ascii) : Prop :=
  65 <= nat_of_ascii c <= 90.

(** [a] and [b] are the same character up to the case of a letter A..Z. *)
Definition same_letter (a b : ascii) : Prop :=
  a = b
  \/ (capital a /\ nat_of_ascii b = nat_of_ascii a + 32)
  \/ (capital b /\ nat_of_ascii a = nat_of_ascii b + 32).

(** [s] reads [w], character by character, letter case ignored. *)
Fixpoint reads (s w : string) : Prop :=
  match s, w with
  | EmptyString, EmptyString => True
  | String a s', String b w' => same_letter a b /\ reads s' w'
  | _, _ => False
  end.

(** [w] occurs in [text], letter case ignored. *)
Definition occurs (w text : string) : Prop :=
  exists pre mid post, text = pre ++ mid ++ post /\ reads mid w.

(** The white space characters below U+0100: TAB, LF, VT, FF, CR, SPACE
    and NBSP. *)
Definition white_space : list ascii :=
  ["009"; "010"; "011"; "012"; "013"; " "; "160"]%char.

(** [c] is one of the white space characters. *)
Definition white (c : ascii) : bool := existsb (Ascii.eqb c) white_space.

(** The characters of the class \w. *)
Definition word_characters : string :=
  "ABCDEFGHIJKLMNOPQRSTUVWXYZabcdefghijklmnopqrstuvwxyz0123456789_".

(** [c] is a character of the class \w. *)
Definition word (c : ascii) : bool :=
  existsb (Ascii.eqb c) (list_ascii_of_string word_characters).

(** [rest] does not go on with a word character: a run of word characters
    that stands before it ends there. *)
Definition breaks (rest : string) : Prop :=
  match rest with
  | EmptyString => True
  | String c _ => word c = false
  end.

(** Every character of [s] is below U+0080. *)
Fixpoint plain (s : string) : bool :=
  match s with
  | EmptyString => true
  | String c r => (nat_of_ascii c <? 128) && plain r
  end.

(** [s] is made of U+0020 spaces only. *)
Definition spaces (s : string) : Prop :=
  forall c, In c (list_ascii_of_string s) -> c = " "%char.

(** A term written in small letters. *)
Definition small (w : string) : Prop :=
  plain w = true /\ Js.toLowerCase w = w.

End Words.

(* ===================================================================== *)
(** ** BaseScraper: keyword categorisation *)
(* ===================================================================== *)

Module Categorize.

Definition weather_re : list string :=
  ["weather"; "storm"; "hurricane"; "flood"; "tornado"; "forecast"].
Definition politics_re : list string :=
  ["election"; "council"; "mayor"; "government"; "vote"; "policy"; "bill"].
Definition sports_re : list string :=
  ["football"; "basketball"; "baseball"; "sports"; "game"; "team"; "player"].
Definition education_re : list string :=
  ["school"; "education"; "student"; "teacher"; "university"; "college"].
Definition tourism_re : list string :=
  ["beach"; "tourism"; "visitor"; "hotel"; "resort"; "festival"].
Definition development_re : list string :=
  ["development"; "construction"; "zoning"; "building"; "property"].

(** BaseScraper.categorizeArticle(title, excerpt) *)
Definition categorizeArticle (title excerpt : string) : string :=
  let text := Js.toLowerCase (title ++ " " ++ excerpt) in
  if Js.test_alternation weather_re text then "weather"
  else if Js.test_alternation politics_re text then "politics"
  else if Js.test_alternation sports_re text then "sports"
  else if Js.test_alternation education_re text then "education"
  else if Js.test_alternation tourism_re text then "tourism"
  else if Js.test_alternation development_re text then "development"
  else "local".

(** The classification as the design document words it: keyword rules in
    the precedence weather, politics, sports, education, tourism,
    development, each with its terms; the first rule one of whose terms
    occurs in the text, letter case ignored, wins, and "local" is the
    default. *)
Definition rules : list (list string * string) :=
  [ (["weather"; "storm"; "hurricane"; "flood"; "tornado"; "forecast"],
     "weather");
    (["election"; "council"; "mayor"; "government"; "vote"; "policy"; "bill"],
     "politics");
    (["football"; "basketball"; "baseball"; "sports"; "game"; "team"; "player"],
     "sports");
    (["school"; "education"; "student"; "teacher"; "university"; "college"],
     "education");
    (["beach"; "tourism"; "visitor"; "hotel"; "resort"; "festival"],
     "tourism");
    (["development"; "construction"; "zoning"; "building"; "property"],
     "development") ].

(** A term of [terms] occurs in [text]. *)
Definition applies (terms : list string) (text : string) : Prop :=
  exists w, In w terms /\ Words.occurs w text.

(** [cat] is the category of the first rule of [rs] that applies to [text],
    "local" when none does. *)
Fixpoint selects (rs : list (list string * string)) (text cat : string) : Prop :=
  match rs with
  | [] => cat = "local"
  | (terms, c) :: rest =>
      (applies terms text /\ cat = c)
      \/ (~ applies terms text /\ selects rest text cat)
  end.

Definition categories : list string :=
  ["weather"; "politics"; "sports"; "education"; "tourism"; "development"; "local"].

End Categorize.

(* ===================================================================== *)
(** ** The PostgreSQL schema (config/schema.sql) and the Article model *)
(* ===================================================================== *)

Module Schema.

(** Points in time and durations, in milliseconds. *)
Definition timestamp := N.

(** A JavaScript Date: a point in time, or the Invalid Date that
    [new Date(text)] yields for a text it cannot read. *)
Inductive js_date : Type :=
| DateAt (t : timestamp)
| InvalidDate.

(** Errors a statement of the Article model can raise. *)
Inductive pg_error : Type :=
| InvalidDatetimeFormat
| NotNullViolation (column : string)
| StringTooLong (column : string)
| ForeignKeyViolation (constraint : string)
| UniqueViolation (constraint : string)
| IntegerOutOfRange
| SequenceLimitExceeded (sequence : string).

Inductive result (A : Type) : Type :=
| Ok (a : A)
| Err (e : pg_error).
Arguments Ok {A} a.
Arguments Err {A} e.

(** Largest value of an INTEGER (and of a SERIAL) column. *)
Definition int_max : Z := 2147483647%Z.

(** Table [articles]. *)
Record article_row : Type := {
  a_id : Z;
  a_source_id : option Z;
  a_title : string;
  a_excerpt : option string;
  a_content : option string;
  a_url : string;
  a_author : option string;
  a_category : option string;
  a_content_type : string;
  a_platform : option string;
  a_image_url : option string;
  a_published_at : option timestamp;
  a_scraped_at : timestamp;
  a_created_at : timestamp;
  a_updated_at : timestamp
}.

(** Table [tags]. *)
Record tag_row : Type := {
  t_id : Z;
  t_name : string;
  t_type : string;
  t_count : Z;
  t_created_at : timestamp
}.

(** The tables the Article model reads and writes.  [sources] keeps the ids
    of the rows of table sources (the target of articles.source_id);
    [articles_id_seq] and [tags_id_seq] are the last values handed out by
    the sequences behind the two SERIAL keys.  A value a statement drew
    from a sequence stays drawn when the statement fails or its transaction
    is rolled back. *)
Record db : Type := {
  sources : list Z;
  articles : list article_row;
  articles_id_seq : Z;
  tags : list tag_row;
  tags_id_seq : Z;
  article_tags : list (Z * Z)
}.

(** [s] is made of U+0020 spaces only. *)
Fixpoint blank (s : string) : bool :=
  match s with
  | EmptyString => true
  | String c r => Ascii.eqb c " " && blank r
  end.

(** What is left of [s] after its first [n] characters. *)
Fixpoint excess (n : nat) (s : string) : string :=
  match n, s with
  | 0, _ => s
  | S _, EmptyString => EmptyString
  | S n', String _ r => excess n' r
  end.

(** The value a VARCHAR(n) column takes for [s]: [s] itself when it has at
    most [n] characters; its first [n] characters when the excess is made of
    spaces only; no value (the assignment is rejected) otherwise. *)
Definition fit (n : nat) (s : string) : option string :=
  if String.length s <=? n then Some s
  else if blank (excess n s) then Some (Js.substring0 n s)
  else None.

(** [s'] is what a VARCHAR(n) column holds of [s]: [s] itself, of at most
    [n] characters, or the first [n] characters of an [s] that goes on with
    spaces only. *)
Definition cut (n : nat) (s s' : string) : Prop :=
  String.length s' <= n
  /\ exists pad, s = s' ++ pad /\ Words.spaces pad
                /\ (pad = "" \/ String.length s' = n).

(** Assignment to a VARCHAR(n) column. *)
Definition varchar (n : nat) (column : string) (v : option string)
  : result (option string) :=
  match v with
  | None => Ok None
  | Some s =>
      match fit n s with
      | Some s' => Ok (Some s')
      | None => Err (StringTooLong column)
      end
  end.

(** A parameter of type INTEGER. *)
Definition in_int4 (z : Z) : bool := ((- 2147483648 <=? z) && (z <=? int_max))%Z.

Definition integer (v : option Z) : result (option Z) :=
  match v with
  | None => Ok None
  | Some z => if in_int4 z then Ok (Some z) else Err IntegerOutOfRange
  end.

(** Assignment to a TIMESTAMP column. *)
Definition timestamp_of (v : option js_date) : result (option timestamp) :=
  match v with
  | None => Ok None
  | Some (DateAt t) => Ok (Some t)
  | Some InvalidDate => Err InvalidDatetimeFormat
  end.

Definition not_null {A : Type} (column : string) (v : option A) : result A :=
  match v with
  | Some x => Ok x
  | None => Err (NotNullViolation column)
  end.

Definition bind {A B : Type} (r : result A) (k : A -> result B) : result B :=
  match r with
  | Ok a => k a
  | Err e => Err e
  end.

Definition find_article_by_url (u : string) (rows : list article_row)
  : option article_row :=
  find (fun r => String.eqb (a_url r) u) rows.

Definition has_url (u : string) (r : article_row) : bool :=
  String.eqb (a_url r) u.

Definition find_tag_by_name (n : string) (rows : list tag_row) : option tag_row :=
  find (fun r => String.eqb (t_name r) n) rows.

Definition linked (article_id tag_id : Z) (links : list (Z * Z)) : bool :=
  existsb (fun l => (fst l =? article_id)%Z && (snd l =? tag_id)%Z) links.

(** Two states of the store with the same rows in every table: they differ
    at most in the values the two sequences have handed out. *)
Definition same_rows (d d' : db) : Prop :=
  sources d' = sources d /\ articles d' = articles d
  /\ tags d' = tags d /\ article_tags d' = article_tags d.

End Schema.

Module Article.
Import Schema.

Notation "x <- r ;; k" := (bind r (fun x => k))
  (at level 100, r at next level, right associativity, only parsing).

(** The object handed to [Article.create]; a field the caller left out is
    [None] and reaches the statement as NULL. *)
Record article_data : Type := {
  source_id : option Z;
  title : option string;
  excerpt : option string;
  content : option string;
  url : option string;
  author : option string;
  category : option string;
  content_type : option string;
  platform : option string;
  image_url : option string;
  published_at : option js_date
}.

(** ON CONFLICT (url) DO UPDATE SET title, excerpt, content = EXCLUDED...,
    updated_at = NOW() on the row that holds the url (the BEFORE UPDATE
    trigger update_articles_updated_at sets updated_at = NOW() as well). *)
Definition conflict_update (now : timestamp) (new_title : string)
    (new_excerpt new_content : option string) (r : article_row) : article_row :=
  {| a_id := a_id r; a_source_id := a_source_id r;
     a_title := new_title; a_excerpt := new_excerpt; a_content := new_content;
     a_url := a_url r; a_author := a_author r; a_category := a_category r;
     a_content_type := a_content_type r; a_platform := a_platform r;
     a_image_url := a_image_url r; a_published_at := a_published_at r;
     a_scraped_at := a_scraped_at r; a_created_at := a_created_at r;
     a_updated_at := now |}.

Fixpoint update_by_url (u : string) (f : article_row -> article_row)
    (rows : list article_row) : list article_row :=
  match rows with
  | [] => []
  | r :: rest =>
      if String.eqb (a_url r) u then f r :: update_by_url u f rest
      else r :: update_by_url u f rest
  end.

Definition with_articles (d : db) (rows : list article_row) (seq : Z) : db :=
  {| sources := sources d; articles := rows; articles_id_seq := seq;
     tags := tags d; tags_id_seq := tags_id_seq d;
     article_tags := article_tags d |}.

(** source_id INTEGER REFERENCES sources(id): NULL, or the id of a row. *)
Definition references_source (d : db) (s : option Z) : result unit :=
  match s with
  | Some i =>
      if existsb (Z.eqb i) (sources d) then Ok tt
      else Err (ForeignKeyViolation "articles_source_id_fkey")
  | None => Ok tt
  end.

(** The values of the statement of Article.create once its parameters were
    read (an INTEGER, a TIMESTAMP) and the values of the VARCHAR columns
    were brought to their length.  Both happen before the statement runs:
    an error here leaves the database, sequences included, as it was. *)
Record proposal : Type := {
  p_source_id : option Z;
  p_title : option string;
  p_excerpt : option string;
  p_content : option string;
  p_url : option string;
  p_author : option string;
  p_category : option string;
  p_content_type : option string;
  p_platform : option string;
  p_image_url : option string;
  p_published_at : option timestamp
}.

Definition propose (data : article_data) : result proposal :=
  v_source_id <- integer (source_id data) ;;
  v_published_at <- timestamp_of (published_at data) ;;
  v_title <- varchar 500 "title" (title data) ;;
  v_url <- varchar 1000 "url" (url data) ;;
  v_author <- varchar 200 "author" (author data) ;;
  v_category <- varchar 50 "category" (category data) ;;
  v_content_type <- varchar 20 "content_type" (content_type data) ;;
  v_platform <- varchar 50 "platform" (platform data) ;;
  v_image_url <- varchar 1000 "image_url" (image_url data) ;;
  Ok {| p_source_id := v_source_id; p_title := v_title;
        p_excerpt := excerpt data; p_content := content data;
        p_url := v_url; p_author := v_author; p_category := v_category;
        p_content_type := v_content_type; p_platform := v_platform;
        p_image_url := v_image_url; p_published_at := v_published_at |}.

(** The three NOT NULL columns the statement supplies. *)
Definition required (p : proposal) : result (string * string * string) :=
  n_title <- not_null "title" (p_title p) ;;
  n_url <- not_null "url" (p_url p) ;;
  n_content_type <- not_null "content_type" (p_content_type p) ;;
  Ok (n_title, n_url, n_content_type).

(** Article.create(articleData) at time [now]:
    INSERT INTO articles (...) VALUES (...) ON CONFLICT (url) DO UPDATE ...
    RETURNING *.  The row is formed with the next id of the sequence, the
    NOT NULL columns are checked, then the url is looked up: the row that
    holds it is updated, or the new row is inserted (primary key, then the
    reference to sources).  Returns the row, or the error, and the database
    the statement leaves. *)
Definition create (d : db) (data : article_data) (now : timestamp)
  : result article_row * db :=
  match propose data with
  | Err e => (Err e, d)
  | Ok p =>
      let id := (articles_id_seq d + 1)%Z in
      if (int_max <? id)%Z
      then (Err (SequenceLimitExceeded "articles_id_seq"), d)
      else
        let drawn := with_articles d (articles d) id in
        match required p with
        | Err e => (Err e, drawn)
        | Ok (n_title, n_url, n_content_type) =>
            match find_article_by_url n_url (articles d) with
            | Some old =>
                (Ok (conflict_update now n_title (p_excerpt p) (p_content p) old),
                 with_articles d
                   (update_by_url n_url
                      (conflict_update now n_title (p_excerpt p) (p_content p))
                      (articles d))
                   id)
            | None =>
                if existsb (fun r => (a_id r =? id)%Z) (articles d)
                then (Err (UniqueViolation "articles_pkey"), drawn)
                else
                  match references_source d (p_source_id p) with
                  | Err e => (Err e, drawn)
                  | Ok _ =>
                      let row :=
                        {| a_id := id; a_source_id := p_source_id p;
                           a_title := n_title; a_excerpt := p_excerpt p;
                           a_content := p_content p; a_url := n_url;
                           a_author := p_author p; a_category := p_category p;
                           a_content_type := n_content_type;
                           a_platform := p_platform p;
                           a_image_url := p_image_url p;
                           a_published_at := p_published_at p;
                           a_scraped_at := now; a_created_at := now;
                           a_updated_at := now |} in
                      (Ok row, with_articles d (articles d ++ [row])%list id)
                  end
            end
        end
  end.

(** Article.findByUrl(url): SELECT * FROM articles WHERE url = $1. *)
Definition findByUrl (d : db) (u : string) : option article_row :=
  find_article_by_url u (articles d).

(** A database right after schema.sql ran with one source row, and an
    observation of one article, used to exercise the model. *)
Definition fresh_db : db :=
  {| sources := [1%Z]; articles := []; articles_id_seq := 0%Z;
     tags := []; tags_id_seq := 0%Z; article_tags := [] |}.

(** Values one space longer than their columns: 500 letters and a space,
    a url of 1000 characters and a space. *)
Fixpoint letters (n : nat) : string :=
  match n with
  | 0 => ""
  | S n' => String "a" (letters n')
  end.

Definition padded_title : string := letters 500 ++ " ".

Definition padded_url : string := "https://x.com/" ++ letters 986 ++ " ".

Definition observation (u ttl ex : string) : article_data :=
  {| source_id := Some 1%Z; title := Some ttl; excerpt := Some ex;
     content := None; url := Some u; author := None;
     category := Some "local"; content_type := Some "news";
     platform := None; image_url := None; published_at := None |}.

End Article.

Module Tags.
Import Schema.

Notation "x <- r ;; k" := (bind r (fun x => k))
  (at level 100, r at next level, right associativity, only parsing).

Definition with_tags (d : db) (rows : list tag_row) (seq : Z)
    (links : list (Z * Z)) : db :=
  {| sources := sources d; articles := articles d;
     articles_id_seq := articles_id_seq d;
     tags := rows; tags_id_seq := seq; article_tags := links |}.

(** INSERT INTO tags (name, type) VALUES ($1, $2)
    ON CONFLICT (name) DO UPDATE SET name = EXCLUDED.name RETURNING id.
    Returns the id, or the error, and the database the statement leaves. *)
Definition upsert_tag (d : db) (name type : string) (now : timestamp)
  : result Z * db :=
  match fit 100 name, fit 20 type with
  | None, _ => (Err (StringTooLong "name"), d)
  | Some _, None => (Err (StringTooLong "type"), d)
  | Some v_name, Some v_type =>
      let id := (tags_id_seq d + 1)%Z in
      if (int_max <? id)%Z
      then (Err (SequenceLimitExceeded "tags_id_seq"), d)
      else
        let drawn := with_tags d (tags d) id (article_tags d) in
        match find_tag_by_name v_name (tags d) with
        | Some old => (Ok (t_id old), drawn)
        | None =>
            if existsb (fun r => (t_id r =? id)%Z) (tags d)
            then (Err (UniqueViolation "tags_pkey"), drawn)
            else
              let row := {| t_id := id; t_name := v_name; t_type := v_type;
                            t_count := 0%Z; t_created_at := now |} in
              (Ok id, with_tags d (tags d ++ [row])%list id (article_tags d))
        end
  end.

(** increment_tag_count(): UPDATE tags SET count = count + 1 WHERE id = NEW.tag_id *)
Fixpoint increment_tag_count (tag_id : Z) (rows : list tag_row)
  : result (list tag_row) :=
  match rows with
  | [] => Ok []
  | r :: rest =>
      rest' <- increment_tag_count tag_id rest ;;
      if (t_id r =? tag_id)%Z then
        if (int_max <? t_count r + 1)%Z then Err IntegerOutOfRange
        else Ok ({| t_id := t_id r; t_name := t_name r; t_type := t_type r;
                    t_count := (t_count r + 1)%Z;
                    t_created_at := t_created_at r |} :: rest')
      else Ok (r :: rest')
  end.

(** INSERT INTO article_tags (article_id, tag_id) VALUES ($1, $2)
    ON CONFLICT DO NOTHING, with the AFTER INSERT trigger
    increment_tag_count_trigger on a row that is really inserted. *)
Definition link_tag (d : db) (article_id tag_id : Z) : result db :=
  if negb (in_int4 article_id && in_int4 tag_id) then Err IntegerOutOfRange
  else if linked article_id tag_id (article_tags d) then Ok d
  else if negb (existsb (fun r => (a_id r =? article_id)%Z) (articles d))
  then Err (ForeignKeyViolation "article_tags_article_id_fkey")
  else if negb (existsb (fun r => (t_id r =? tag_id)%Z) (tags d))
  then Err (ForeignKeyViolation "article_tags_tag_id_fkey")
  else
    rows <- increment_tag_count tag_id (tags d) ;;
    Ok (with_tags d rows (tags_id_seq d)
          (article_tags d ++ [(article_id, tag_id)])%list).

(** The body of the transaction: for (const tagName of tagNames) { ... }.
    Returns the database the statements left, as the transaction sees it,
    with the error of the statement that failed, if one did. *)
Fixpoint addTags_loop (d : db) (articleId : Z) (tagNames : list string)
    (now : timestamp) : result unit * db :=
  match tagNames with
  | [] => (Ok tt, d)
  | tagName :: rest =>
      match upsert_tag d tagName
              (if Js.startsWith "#" tagName then "hashtag" else "general") now
      with
      | (Err e, d1) => (Err e, d1)
      | (Ok tagId, d1) =>
          match link_tag d1 articleId tagId with
          | Err e => (Err e, d1)
          | Ok d2 => addTags_loop d2 articleId rest now
          end
      end
  end.

(** Article.addTags(articleId, tagNames): BEGIN; the loop; COMMIT, or
    ROLLBACK and rethrow when a statement fails.  A rollback restores the
    tables as they were at BEGIN; the sequence of tag ids keeps the values
    the statements drew. *)
Definition addTags (d : db) (articleId : Z) (tagNames : list string)
    (now : timestamp) : result unit * db :=
  match addTags_loop d articleId tagNames now with
  | (Ok _, d') => (Ok tt, d')
  | (Err e, d') =>
      (Err e, with_tags d (tags d) (tags_id_seq d') (article_tags d))
  end.

(** The names under which tags.name, a VARCHAR(100), holds the names of
    [tagNames]. *)
Definition held_names (tagNames : list string) : list string :=
  flat_map (fun n => match fit 100 n with Some v => [v] | None => [] end)
           tagNames.

(** The usage counter of the tag called [n]; 0 while no such tag exists. *)
Definition count_of (d : db) (n : string) : Z :=
  match find_tag_by_name n (tags d) with
  | Some r => t_count r
  | None => 0%Z
  end.

(** Article [article_id] carries the tag called [n]. *)
Definition has_tag (d : db) (article_id : Z) (n : string) : bool :=
  match find_tag_by_name n (tags d) with
  | Some r => linked article_id (t_id r) (article_tags d)
  | None => false
  end.

(** [Article.fresh_db] after one article was stored (it received id 1). *)
Definition one_article_db : db :=
  Eval vm_compute in
    snd (Article.create Article.fresh_db
           (Article.observation "https://x.com/a" "Storm warning in Foley" "")
           10%N).

(** [one_article_db] after that article was given three tag names. *)
Definition tagged_db : db :=
  Eval vm_compute in
    snd (addTags one_article_db 1%Z ["#Storm"; "Foley"; "#Storm"] 11%N).

(** The row of a tag after the trigger fired for tag [tag_id]. *)
Definition bump (tag_id : Z) (r : tag_row) : tag_row :=
  if (t_id r =? tag_id)%Z then
    {| t_id := t_id r; t_name := t_name r; t_type := t_type r;
       t_count := (t_count r + 1)%Z; t_created_at := t_created_at r |}
  else r.

(** What the schema keeps true of the tag tables: tags.name is UNIQUE,
    tags.id is the primary key, and article_tags.tag_id REFERENCES tags(id). *)
Definition consistent (d : db) : Prop :=
  NoDup (map t_name (tags d))
  /\ NoDup (map t_id (tags d))
  /\ (forall l, In l (article_tags d) -> In (snd l) (map t_id (tags d))).

(** [r'] is the row [r] up to its usage counter. *)
Definition same_tag (r r' : tag_row) : Prop :=
  t_id r' = t_id r /\ t_name r' = t_name r /\ t_type r' = t_type r
  /\ t_created_at r' = t_created_at r.

End Tags.

(* ===================================================================== *)
(** ** The scrapers: effects, BaseScraper and the three extractors *)
(* ===================================================================== *)

Module Effects.
Import Schema.

(** What a scraper does to the outside world, in the order it does it. *)
Inductive event : Type :=
| HttpGet (url user_agent : string) (timeout_ms : N)   (* axios.get(url, {headers, timeout}) *)
| Sleep (ms : Z)                                        (* BaseScraper.sleep(ms) *)
| FeedFetch (url : string)                                (* rss-parser: parser.parseURL(url) *)
| ArticleCreate (data : Article.article_data)             (* Article.create(data) *)
| ArticleAddTags (article_id : Z) (tagNames : list string). (* Article.addTags(id, names) *)

Inductive exn : Type :=
| NetworkError (message : string)
| TypeError (message : string)
| StoreError (e : pg_error).

(** The store, the clock (in ms) and the events so far. *)
Record world : Type := {
  store : db;
  clock : timestamp;
  log : list event
}.

Inductive outcome (A : Type) : Type :=
| Returned (a : A)
| Thrown (e : exn).
Arguments Returned {A} a.
Arguments Thrown {A} e.

(** An async function: it runs on a world and returns or throws. *)
Definition M (A : Type) : Type := world -> outcome A * world.

Definition ret {A : Type} (a : A) : M A := fun w => (Returned a, w).

Definition throw {A : Type} (e : exn) : M A := fun w => (Thrown e, w).

Definition bind {A B : Type} (m : M A) (k : A -> M B) : M B :=
  fun w =>
    match m w with
    | (Returned a, w') => k a w'
    | (Thrown e, w') => (Thrown e, w')
    end.

(** try { m } catch (error) { handler(error) } *)
Definition try_catch {A : Type} (m : M A) (handler : exn -> M A) : M A :=
  fun w =>
    match m w with
    | (Returned a, w') => (Returned a, w')
    | (Thrown e, w') => handler e w'
    end.

Definition emit (e : event) : M unit :=
  fun w => (Returned tt,
            {| store := store w; clock := clock w; log := (log w ++ [e])%list |}).

Definition pass (ms : N) : M unit :=
  fun w => (Returned tt,
            {| store := store w; clock := (clock w + ms)%N; log := log w |}).

Definition now : M timestamp := fun w => (Returned (clock w), w).

(** A statement of the Article model run on the store. *)
Definition on_store {A : Type} (q : db -> result A * db) : M A :=
  fun w =>
    match q (store w) with
    | (Ok a, d) => (Returned a, {| store := d; clock := clock w; log := log w |})
    | (Err e, d) =>
        (Thrown (StoreError e), {| store := d; clock := clock w; log := log w |})
    end.

Definition read_store {A : Type} (q : db -> A) : M A :=
  fun w => (Returned (q (store w)), w).

End Effects.

Module Web.

(** What a request comes back with. *)
Inductive reply (A : Type) : Type :=
| Responded (body : A)
| Failed (message : string).
Arguments Responded {A} body.
Arguments Failed {A} message.

(** An article block of a page, as the selectors of CheerioScraper see it:
    the [.text()] of the first title, excerpt, date and author element
    (empty when there is none) and the attributes read from the first link,
    date and image element. *)
Record article_element : Type := {
  title_text : string;
  link_href : option string;
  excerpt_text : string;
  date_datetime : option string;
  date_text : string;
  author_text : string;
  image_src : option string;
  image_data_src : option string
}.

(** A .timeline-item of a Nitter search page. *)
Record tweet_element : Type := {
  tweet_content_text : string;
  username_text : string;
  tweet_link_href : option string;
  tweet_date_title : option string;
  attachment_image : option (option string)   (* an img, with its src *)
}.

(** A fetched page after cheerio.load: the blocks that match
    selectors.articleList, the .timeline-item blocks, and for a selector of
    scrapeArticleContent the text of what it matches, if anything. *)
Record document : Type := {
  article_elements : list article_element;
  timeline_items : list tweet_element;
  select_text : string -> option string
}.

(** An item of a parsed feed (rss-parser, with the custom fields). *)
Record feed_item : Type := {
  item_title : option string;
  item_link : option string;
  contentSnippet : option string;
  summary : option string;
  description : option string;
  contentEncoded : option string;
  item_content : option string;
  creator : option string;
  item_author : option string;
  pubDate : option string;
  enclosure_url : option string;             (* item.enclosure && item.enclosure.url *)
  mediaContent_url : option (option string);   (* item.mediaContent.$, with its url *)
  mediaThumbnail_url : option (option string);
  categories : option (list string)
}.

(** The network and the platform functions the scrapers call. *)
Record internet : Type := {
  axios_get : string -> reply document;          (* axios.get, then cheerio.load *)
  parseURL : string -> reply (list feed_item);   (* rss-parser's own request *)
  url_href : string -> string -> option string;  (* new URL(rel, base).href, if it parses *)
  new_Date : string -> Schema.js_date            (* new Date(text) *)
}.

(** process.env, as far as the scrapers read it. *)
Record process_env : Type := {
  SCRAPE_DELAY_MS : option Z;    (* parseInt(process.env.SCRAPE_DELAY_MS), unless NaN *)
  USER_AGENT : option string
}.

End Web.

Module BaseScraper.
Import Schema Effects Web.

Notation "x <- m ;; k" := (bind m (fun x => k))
  (at level 100, m at next level, right associativity, only parsing).

(** The fields the constructor sets. *)
Record scraper : Type := {
  sourceName : string;
  sourceUrl : string;
  sourceId : option Z;
  scraperType : string;
  delay : Z;
  userAgent : string
}.

(** sourceConfig *)
Record config : Type := {
  cfg_url : string;
  cfg_id : option Z;
  cfg_scraper_type : string;
  cfg_rss_url : option string
}.

Definition default_user_agent : string :=
  "BaldwinNewsBot/1.0 (+https://baldwincountynews.com/about)".

(** constructor(sourceName, sourceConfig) *)
Definition constructor (env : process_env) (name : string) (c : config) : scraper :=
  {| sourceName := name;
     sourceUrl := cfg_url c;
     sourceId := cfg_id c;
     scraperType := cfg_scraper_type c;
     delay := match SCRAPE_DELAY_MS env with
              | Some 0%Z | None => 2000%Z
              | Some ms => ms
              end;
     userAgent := match USER_AGENT env with
                  | Some (String a r) => String a r
                  | _ => default_user_agent
                  end |}.

(** sleep(ms): new Promise((resolve) => setTimeout(resolve, ms)) *)
Definition sleep (ms : Z) : M unit :=
  _ <- emit (Sleep ms) ;; pass (Js.timer_delay ms).

(** fetchHTML(url) *)
Definition fetchHTML (net : internet) (self : scraper) (url : string) : M document :=
  try_catch
    (_ <- emit (HttpGet url (userAgent self) 30000%N) ;;
     match axios_get net url with
     | Responded data =>
         _ <- sleep (delay self) ;;
         ret data
     | Failed message => throw (NetworkError message)
     end)
    (fun error => throw error).

(** cleanText(element), on the [.text()] of the element *)
Definition cleanText (text : string) : string := Js.trim_collapse text.

(** getAbsoluteUrl(relativeUrl, baseUrl) *)
Definition getAbsoluteUrl (net : internet) (relativeUrl baseUrl : string) : string :=
  match url_href net relativeUrl baseUrl with
  | Some href => href
  | None => relativeUrl
  end.

(** The articleData object an extractor builds; [content], [content_type]
    and [platform] are keys that only some extractors set. *)
Record articleData : Type := {
  title : string;
  excerpt : string;
  content : option string;
  url : option string;
  author : option string;
  category : string;
  content_type : option string;
  platform : option string;
  image_url : option string;
  published_at : js_date;
  tags : list string
}.

(** { source_id: this.sourceId, content_type: 'news', category: 'local',
      ...articleData } *)
Definition with_defaults (self : scraper) (a : articleData) : Article.article_data :=
  {| Article.source_id := sourceId self;
     Article.title := Some (title a);
     Article.excerpt := Some (excerpt a);
     Article.content := content a;
     Article.url := url a;
     Article.author := author a;
     Article.category := Some (category a);
     Article.content_type := Some (match content_type a with
                                   | Some c => c
                                   | None => "news"
                                   end);
     Article.platform := platform a;
     Article.image_url := image_url a;
     Article.published_at := Some (published_at a) |}.

Definition Article_create (data : Article.article_data) : M article_row :=
  _ <- emit (ArticleCreate data) ;;
  t <- now ;;
  on_store (fun d => Article.create d data t).

Definition Article_addTags (article_id : Z) (names : list string) : M unit :=
  _ <- emit (ArticleAddTags article_id names) ;;
  fun w =>
    match Tags.addTags (store w) article_id names (clock w) with
    | (Ok _, d) => (Returned tt, {| store := d; clock := clock w; log := log w |})
    | (Err e, d) => (Thrown (StoreError e),
                     {| store := d; clock := clock w; log := log w |})
    end.

(** saveArticle(articleData) *)
Definition saveArticle (self : scraper) (a : articleData) : M article_row :=
  try_catch
    (article <- Article_create (with_defaults self a) ;;
     _ <- match tags a with
          | [] => ret tt
          | _ :: _ => Article_addTags (a_id article) (tags a)
          end ;;
     ret article)
    (fun error => throw error).

Definition locations : list string :=
  ["Orange Beach"; "Gulf Shores"; "Foley"; "Baldwin County"; "Mobile";
   "Fairhope"; "Daphne"].

(** extractTags(title, excerpt) *)
Definition extractTags (title excerpt : string) : list string :=
  let text := title ++ " " ++ excerpt in
  Js.uniq
    (filter (fun loc => Js.includes (Js.toLowerCase loc) (Js.toLowerCase text))
       locations
     ++ Js.match_hashtags text)%list.

(** The loop of the three scrape() methods:
    for each block { try { const a = await process(block); if (a) push(a) }
                     catch (error) { log } } *)
Fixpoint collect {X : Type} (process : X -> M (option article_row))
    (blocks : list X) : M (list article_row) :=
  match blocks with
  | [] => ret []
  | b :: rest =>
      found <- try_catch (process b) (fun _ => ret None) ;;
      more <- collect process rest ;;
      ret (match found with
           | Some a => a :: more
           | None => more
           end)
  end.

End BaseScraper.

Module CheerioScraper.
Import Schema Effects Web BaseScraper.

Notation "x <- m ;; k" := (bind m (fun x => k))
  (at level 100, m at next level, right associativity, only parsing).

(** processArticleElement($, $article) *)
Definition processArticleElement (net : internet) (self : scraper)
    (el : article_element) : M (option article_row) :=
  let title := cleanText (title_text el) in
  if (String.length title =? 0) || (String.length title <? 10) then ret None else
  match link_href el with
  | None | Some EmptyString => ret None
  | Some href =>
      let url := getAbsoluteUrl net href (sourceUrl self) in
      existing <- read_store (fun d => Article.findByUrl d url) ;;
      match existing with
      | Some _ => ret None
      | None =>
          let excerpt := cleanText (excerpt_text el) in
          t <- now ;;
          let published_at :=
            match Js.or_else (date_datetime el) (Some (date_text el)) with
            | Some (String a r) => new_Date net (String a r)
            | _ => DateAt t
            end in
          let author :=
            match cleanText (author_text el) with
            | EmptyString => None
            | String a r => Some (String a r)
            end in
          let image_url :=
            match Js.or_else (image_src el) (image_data_src el) with
            | Some (String a r) =>
                Some (getAbsoluteUrl net (String a r) (sourceUrl self))
            | other => other
            end in
          let category := Categorize.categorizeArticle title excerpt in
          let tags := extractTags title excerpt in
          saved <- saveArticle self
                     {| BaseScraper.title := Js.substring0 500 title;
                        excerpt := Js.substring0 1000 excerpt;
                        content := None;
                        url := Some url;
                        author := author;
                        category := category;
                        content_type := None;
                        platform := None;
                        image_url := image_url;
                        published_at := published_at;
                        tags := tags |} ;;
          ret (Some saved)
      end
  end.

(** scrape() *)
Definition scrape (net : internet) (self : scraper) : M (list article_row) :=
  try_catch
    (page <- fetchHTML net self (sourceUrl self) ;;
     collect (processArticleElement net self) (article_elements page))
    (fun error => throw error).

Definition contentSelectors : list string :=
  ["article .content"; ".article-content"; ".entry-content"; ".post-content";
   "[itemprop=articleBody]"; "main article"].

Fixpoint first_selected (page : document) (selectors : list string) : string :=
  match selectors with
  | [] => ""
  | s :: rest =>
      match select_text page s with
      | Some text => cleanText text
      | None => first_selected page rest
      end
  end.

(** scrapeArticleContent(url) *)
Definition scrapeArticleContent (net : internet) (self : scraper) (url : string)
  : M string :=
  try_catch
    (page <- fetchHTML net self url ;;
     ret (first_selected page contentSelectors))
    (fun _ => ret "").

End CheerioScraper.

Module RSSScraper.
Import Schema Effects Web BaseScraper.

Notation "x <- m ;; k" := (bind m (fun x => k))
  (at level 100, m at next level, right associativity, only parsing).

Record rss_scraper : Type := {
  base : scraper;
  rssUrl : string
}.

(** constructor(sourceName, sourceConfig) *)
Definition constructor (env : process_env) (name : string) (c : config)
  : rss_scraper :=
  {| base := BaseScraper.constructor env name c;
     rssUrl := match cfg_rss_url c with
               | Some (String a r) => String a r
               | _ => cfg_url c
               end |}.

(** checkIfExists(url); an undefined url reaches the query as NULL and
    matches no row. *)
Definition checkIfExists (url : option string) : M bool :=
  read_store (fun d =>
    match url with
    | Some u => match Article.findByUrl d u with Some _ => true | None => false end
    | None => false
    end).

Definition or_empty (v : option string) : string :=
  match v with
  | Some s => s
  | None => ""
  end.

(** item.contentSnippet || item.summary || item.description || '' *)
Definition excerpt_of (item : feed_item) : string :=
  or_empty (Js.or_else (contentSnippet item)
              (Js.or_else (summary item)
                 (Js.or_else (description item) (Some "")))).

(** item.contentEncoded || item.content || excerpt *)
Definition content_of (item : feed_item) : string :=
  or_empty (Js.or_else (contentEncoded item)
              (Js.or_else (item_content item) (Some (excerpt_of item)))).

(** processItem(item) *)
Definition processItem (net : internet) (self : rss_scraper) (item : feed_item)
  : M (option article_row) :=
  existing <- checkIfExists (item_link item) ;;
  if existing : bool then ret None else
  let title := item_title item in
  let url := item_link item in
  let excerpt := excerpt_of item in
  let content := content_of item in
  let author := Js.or_else (creator item) (Js.or_else (item_author item) None) in
  t <- now ;;
  let published_at :=
    match pubDate item with
    | Some (String a r) => new_Date net (String a r)
    | _ => DateAt t
    end in
  let image_url :=
    match enclosure_url item with
    | Some (String a r) => Some (String a r)
    | _ =>
        match mediaContent_url item with
        | Some u => u
        | None =>
            match mediaThumbnail_url item with
            | Some u => u
            | None => None
            end
        end
    end in
  let category := Categorize.categorizeArticle (Js.template title) excerpt in
  let tags := extractTags (Js.template title) excerpt in
  let tags := match categories item with
              | Some cats => (tags ++ cats)%list
              | None => tags
              end in
  match title with
  | None => throw (TypeError "Cannot read properties of undefined (reading 'substring')")
  | Some title =>
      saved <- saveArticle (base self)
                 {| BaseScraper.title := Js.substring0 500 title;
                    excerpt := Js.substring0 1000 excerpt;
                    content := Some content;
                    url := url;
                    author := author;
                    category := category;
                    content_type := None;
                    platform := None;
                    image_url := image_url;
                    published_at := published_at;
                    tags := tags |} ;;
      ret (Some saved)
  end.

(** scrape() *)
Definition scrape (net : internet) (self : rss_scraper) : M (list article_row) :=
  try_catch
    (_ <- emit (FeedFetch (rssUrl self)) ;;
     match parseURL net (rssUrl self) with
     | Responded items => collect (processItem net self) items
     | Failed message => throw (NetworkError message)
     end)
    (fun error => throw error).

End RSSScraper.

Module NitterScraper.
Import Schema Effects Web BaseScraper.

Notation "x <- m ;; k" := (bind m (fun x => k))
  (at level 100, m at next level, right associativity, only parsing).

Definition nitterInstances : list string :=
  ["https://nitter.net"; "https://nitter.1d4.us"; "https://nitter.kavin.rocks";
   "https://nitter.unixfox.eu"].

Record nitter_scraper : Type := {
  base : scraper;
  hashtag : string;
  nitterInstance : string
}.

(** constructor(hashtag) *)
Definition constructor (env : process_env) (hashtag : string) : nitter_scraper :=
  let first := hd "" nitterInstances in
  {| base := BaseScraper.constructor env ("Nitter-" ++ hashtag)
               {| cfg_url := first ++ "/search?f=tweets&q=%23" ++ hashtag;
                  cfg_id := None;
                  cfg_scraper_type := "cheerio";
                  cfg_rss_url := None |};
     hashtag := hashtag;
     nitterInstance := first |}.

(** processTweetElement($, $tweet) *)
Definition processTweetElement (net : internet) (self : nitter_scraper)
    (el : tweet_element) : M (option article_row) :=
  let content := cleanText (tweet_content_text el) in
  if (String.length content =? 0) || (String.length content <? 5) then ret None else
  let author := cleanText (username_text el) in
  match tweet_link_href el with
  | None | Some EmptyString => ret None
  | Some href =>
      let tweetUrl := "https://twitter.com" ++ Js.replace_first "/i/web" "" href in
      existing <- read_store (fun d => Article.findByUrl d tweetUrl) ;;
      match existing with
      | Some _ => ret None
      | None =>
          t <- now ;;
          let published_at :=
            match tweet_date_title el with
            | Some (String a r) => new_Date net (String a r)
            | _ => DateAt t
            end in
          let image_url :=
            match attachment_image el with
            | Some (Some src) =>
                if negb (String.length src =? 0) && Js.startsWith "/" src
                then Some (nitterInstance self ++ src)
                else Some src
            | Some None => None
            | None => None
            end in
          let title :=
            if 100 <? String.length content
            then Js.substring0 100 content ++ "..."
            else content in
          let hashtagMatches := Js.match_hashtags content in
          let tags :=
            Js.uniq (hashtagMatches ++ [("#" ++ hashtag self)%string])%list in
          saved <- saveArticle (base self)
                     {| BaseScraper.title := title;
                        excerpt := content;
                        content := Some content;
                        url := Some tweetUrl;
                        author := Some (match author with
                                        | EmptyString => "Unknown"
                                        | String a r => String a r
                                        end);
                        category := "social";
                        content_type := Some "social";
                        platform := Some "twitter";
                        image_url := image_url;
                        published_at := published_at;
                        tags := tags |} ;;
          ret (Some saved)
      end
  end.

(** scrape() *)
Definition scrape (net : internet) (self : nitter_scraper) : M (list article_row) :=
  try_catch
    (page <- fetchHTML net (base self) (sourceUrl (base self)) ;;
     collect (processTweetElement net self) (timeline_items page))
    (fun error => throw error).

End NitterScraper.

(* ===================================================================== *)
(** ** Observing the scrapers: fetches and what is handed to the store *)
(* ===================================================================== *)

Module Observe.
Import Schema Effects Web.

(** The events [m] adds to the log all satisfy [P]. *)
Definition adds {A : Type} (P : event -> Prop) (m : M A) : Prop :=
  forall w, exists l, log (snd (m w)) = (log w ++ l)%list /\ Forall P l.

(** The events [m] adds to the log when it runs on [w]. *)
Definition new_events {A : Type} (m : M A) (w : world) : list event :=
  skipn (List.length (log w)) (log (snd (m w))).

(** A request for a document. *)
Definition is_fetch (e : event) : bool :=
  match e with
  | HttpGet _ _ _ | FeedFetch _ => true
  | _ => false
  end.

(** A call of the Article model. *)
Definition is_store_call (e : event) : Prop :=
  match e with
  | ArticleCreate _ | ArticleAddTags _ _ => True
  | _ => False
  end.

(** Every request for a document in [l] is an axios request that carries
    the user agent [ua] and the 30 s timeout, and the next event is the
    sleep of [d] ms. *)
Fixpoint polite (ua : string) (d : Z) (l : list event) : bool :=
  match l with
  | [] => true
  | HttpGet _ ua' t :: rest =>
      String.eqb ua' ua && (t =? 30000)%N
      && match rest with
         | Sleep d' :: _ => (d' =? d)%Z
         | _ => false
         end
      && polite ua d rest
  | FeedFetch _ :: _ => false
  | _ :: rest => polite ua d rest
  end.

Definition at_most (n : nat) (v : option string) : bool :=
  match v with
  | Some s => String.length s <=? n
  | None => true
  end.

(** Title of at most 500 characters, excerpt and content of at most 1000. *)
Definition within_caps (data : Article.article_data) : bool :=
  at_most 500 (Article.title data)
  && at_most 1000 (Article.excerpt data)
  && at_most 1000 (Article.content data).

(** Every object handed to Article.create satisfies [P]. *)
Definition handed_over (P : Article.article_data -> Prop) (e : event) : Prop :=
  match e with
  | ArticleCreate data => P data
  | _ => True
  end.

(** Title [t.substring(0, 500)] and excerpt [x.substring(0, 1000)]. *)
Definition cut_from (t x : string) (data : Article.article_data) : Prop :=
  Article.title data = Some (Js.substring0 500 t)
  /\ Article.excerpt data = Some (Js.substring0 1000 x).

Definition title_excerpt_capped (data : Article.article_data) : Prop :=
  at_most 500 (Article.title data) = true
  /\ at_most 1000 (Article.excerpt data) = true.

(** The title NitterScraper makes of a tweet body. *)
Definition tweet_title (body : string) : string :=
  if 100 <? String.length body then Js.substring0 100 body ++ "..." else body.

(** A tweet: excerpt and content are the whole body. *)
Definition tweet_of (body : string) (data : Article.article_data) : Prop :=
  Article.title data = Some (tweet_title body)
  /\ Article.excerpt data = Some body
  /\ Article.content data = Some body.

(** The objects handed to Article.create, in order. *)
Fixpoint created (l : list event) : list Article.article_data :=
  match l with
  | [] => []
  | ArticleCreate data :: rest => data :: created rest
  | _ :: rest => created rest
  end.

(** [n] copies of the character [c]. *)
Fixpoint replicate (n : nat) (c : ascii) : string :=
  match n with
  | 0 => EmptyString
  | S k => String c (replicate k c)
  end.

(** Sample inputs. *)
Definition no_env : process_env :=
  {| SCRAPE_DELAY_MS := None; USER_AGENT := None |}.

Definition feed_config : BaseScraper.config :=
  {| BaseScraper.cfg_url := "https://www.al.com/news/mobile/baldwin/";
     BaseScraper.cfg_id := Some 1%Z;
     BaseScraper.cfg_scraper_type := "rss";
     BaseScraper.cfg_rss_url := Some "https://www.al.com/arc/outboundfeeds/rss/" |}.

(** A feed item whose content:encoded holds [n] characters. *)
Definition long_item (n : nat) : feed_item :=
  {| item_title := Some "Storm warning issued for coast";
     item_link := Some "https://x.com/a";
     contentSnippet := Some "A short summary.";
     summary := None; description := None;
     contentEncoded := Some (replicate n "a");
     item_content := None; creator := None; item_author := None;
     pubDate := None; enclosure_url := None;
     mediaContent_url := None; mediaThumbnail_url := None;
     categories := None |}.

Definition empty_page : document :=
  {| article_elements := []; timeline_items := []; select_text := fun _ => None |}.

Definition one_feed (items : list feed_item) : internet :=
  {| axios_get := fun _ => Responded empty_page;
     parseURL := fun _ => Responded items;
     url_href := fun rel _ => Some rel;
     new_Date := fun _ => InvalidDate |}.

Definition start : world :=
  {| store := Article.fresh_db; clock := 1000%N; log := [] |}.

(** An internet on which every request fails. *)
Definition offline : internet :=
  {| axios_get := fun _ => Failed "connect ECONNREFUSED";
     parseURL := fun _ => Failed "connect ECONNREFUSED";
     url_href := fun rel _ => Some rel;
     new_Date := fun _ => InvalidDate |}.

End Observe.

(* ===================================================================== *)
(** ** ScraperManager *)
(* ===================================================================== *)

Module ScraperManager.

(** What the manager asks of the outside: the statements it sends to the
    database and the call of a scraper's scrape(). *)
Inductive command : Type :=
| UpdateSourceTimestamp (sourceId : Z) (field : string)
| UpdateSourceCount (sourceId : Z) (count : nat)
| UpdateSourceError (sourceId : Z) (errorMessage : string)
| LogScrape (sourceId : Z) (status : string) (articlesFound : nat)
            (duration : N) (errorMessage : option string)
| Scrape (sourceName : string).

(** How an awaited promise settles, and after how many milliseconds. *)
Inductive settled (A : Type) : Type :=
| Fulfilled (a : A)
| RejectedWith (message : string).
Arguments Fulfilled {A} a.
Arguments RejectedWith {A} message.

Record reply (A : Type) : Type := {
  latency : N;
  outcome : settled A
}.
Arguments latency {A} r.
Arguments outcome {A} r.

(** The replies to the awaits one pass over a source can make;
    [scrape_reply] carries articles.length. *)
Record attempt : Type := {
  last_scraped_reply : reply unit;
  scrape_reply : reply nat;
  last_successful_reply : reply unit;
  count_reply : reply unit;
  error_reply : reply unit;
  log_reply : reply unit
}.

(** The outside world of a call: the replies to pass number i of its loop. *)
Definition script : Type := nat -> attempt.

(** An entry of results.details. *)
Record detail : Type := {
  source : string;
  status : string;
  found : nat;            (* articles *)
  duration : N;
  error : option string
}.

(** The results object of a run; [timedOut] is false while the key is absent. *)
Record results : Type := {
  total : nat;
  successful : nat;
  failed : nat;
  articles : nat;
  details : list detail;
  timedOut : bool
}.

(** let status, articlesFound, errorMessage of the loop body. *)
Record frame : Type := {
  v_status : string;
  v_articlesFound : nat;
  v_errorMessage : option string
}.

(** The state a call works on: the manager's flag, the clock (Date.now()),
    the results object of the current run, the variables of the loop body,
    and the commands issued so far. *)
Record process : Type := {
  isRunning : bool;
  clock : N;
  run : results;
  vars : frame;
  issued : list command
}.

(** The points at which a call was suspended in an await: for how long, and
    in which state. *)
Definition trace : Type := list (N * process).

Inductive completion (A : Type) : Type :=
| Done (a : A)
| Threw (message : string).
Arguments Done {A} a.
Arguments Threw {A} message.

(** An asynchronous computation. *)
Definition R (A : Type) : Type := process -> trace * completion A * process.

Definition ret {A : Type} (a : A) : R A := fun p => ([], Done a, p).

Definition throw {A : Type} (message : string) : R A :=
  fun p => ([], Threw message, p).

Definition bind {A B : Type} (m : R A) (k : A -> R B) : R B :=
  fun p =>
    match m p with
    | (t, Done a, p') =>
        match k a p' with
        | (t', c, p'') => ((t ++ t')%list, c, p'')
        end
    | (t, Threw e, p') => (t, Threw e, p')
    end.

Definition try_catch {A : Type} (m : R A) (handler : string -> R A) : R A :=
  fun p =>
    match m p with
    | (t, Done a, p') => (t, Done a, p')
    | (t, Threw e, p') =>
        match handler e p' with
        | (t', c, p'') => ((t ++ t')%list, c, p'')
        end
    end.

Notation "x <- m ;; k" := (bind m (fun x => k))
  (at level 100, m at next level, right associativity, only parsing).

Definition gets {A : Type} (f : process -> A) : R A := fun p => ([], Done (f p), p).

Definition update (f : process -> process) : R unit := fun p => ([], Done tt, f p).

Definition set_isRunning (b : bool) (p : process) : process :=
  {| isRunning := b; clock := clock p; run := run p; vars := vars p;
     issued := issued p |}.

Definition set_clock (t : N) (p : process) : process :=
  {| isRunning := isRunning p; clock := t; run := run p; vars := vars p;
     issued := issued p |}.

Definition set_run (r : results) (p : process) : process :=
  {| isRunning := isRunning p; clock := clock p; run := r; vars := vars p;
     issued := issued p |}.

Definition set_vars (v : frame) (p : process) : process :=
  {| isRunning := isRunning p; clock := clock p; run := run p; vars := v;
     issued := issued p |}.

Definition issue (c : command) (p : process) : process :=
  {| isRunning := isRunning p; clock := clock p; run := run p; vars := vars p;
     issued := (issued p ++ [c])%list |}.

(** await of a call that sends [c]: the command goes out, the computation
    is suspended for the latency of the reply, then resumes with its
    outcome. *)
Definition await {A : Type} (c : command) (r : reply A) : R A :=
  fun p =>
    let p1 := issue c p in
    ([(latency r, p1)],
     match outcome r with
     | Fulfilled a => Done a
     | RejectedWith e => Threw e
     end,
     set_clock (clock p1 + latency r)%N p1).

(** results.successful++ *)
Definition count_success (r : results) : results :=
  {| total := total r; successful := S (successful r); failed := failed r;
     articles := articles r; details := details r; timedOut := timedOut r |}.

(** results.articles += n *)
Definition add_articles (n : nat) (r : results) : results :=
  {| total := total r; successful := successful r; failed := failed r;
     articles := articles r + n; details := details r; timedOut := timedOut r |}.

(** results.failed++ *)
Definition count_failure (r : results) : results :=
  {| total := total r; successful := successful r; failed := S (failed r);
     articles := articles r; details := details r; timedOut := timedOut r |}.

(** results.details.push(d) *)
Definition push_detail (d : detail) (r : results) : results :=
  {| total := total r; successful := successful r; failed := failed r;
     articles := articles r; details := (details r ++ [d])%list;
     timedOut := timedOut r |}.

(** finalResults.timedOut = true *)
Definition mark_timed_out (r : results) : results :=
  {| total := total r; successful := successful r; failed := failed r;
     articles := articles r; details := details r; timedOut := true |}.

Definition on_run (f : results -> results) : R unit :=
  update (fun p => set_run (f (run p)) p).

Definition on_vars (f : frame -> frame) : R unit :=
  update (fun p => set_vars (f (vars p)) p).

(** maxArticles && results.articles >= maxArticles *)
Definition cap_reached (maxArticles : option nat) (r : results) : bool :=
  match maxArticles with
  | Some (S m) => S m <=? articles r
  | _ => false
  end.

(** How the body of the loop hands control back. *)
Inductive control : Type := Next | Break.

(** How the loop ended. *)
Inductive loop_exit : Type := Exhausted | Broken.

(** The body of the loop of scrapeSelected for a source that has a scraper;
    the body of the loop of scrapeAll is the same text without the check of
    maxArticles, that is, this body with [maxArticles] undefined. *)
Definition attempt_source (maxArticles : option nat) (sourceId : Z)
    (scraper : BaseScraper.scraper) (a : attempt) : R control :=
  scrapeStart <- gets clock ;;
  _ <- on_vars (fun _ => {| v_status := "error"; v_articlesFound := 0;
                            v_errorMessage := None |}) ;;
  ctl <- try_catch
    (_ <- await (UpdateSourceTimestamp sourceId "last_scraped")
                (last_scraped_reply a) ;;
     n <- await (Scrape (BaseScraper.sourceName scraper)) (scrape_reply a) ;;
     _ <- on_vars (fun v => {| v_status := v_status v; v_articlesFound := n;
                               v_errorMessage := v_errorMessage v |}) ;;
     _ <- (if 0 <? n then
             _ <- on_vars (fun v => {| v_status := "success";
                                       v_articlesFound := v_articlesFound v;
                                       v_errorMessage := v_errorMessage v |}) ;;
             _ <- on_run (fun r => add_articles n (count_success r)) ;;
             _ <- await (UpdateSourceTimestamp sourceId "last_successful_scrape")
                        (last_successful_reply a) ;;
             await (UpdateSourceCount sourceId n) (count_reply a)
           else
             _ <- on_vars (fun v => {| v_status := "success";
                                       v_articlesFound := v_articlesFound v;
                                       v_errorMessage := v_errorMessage v |}) ;;
             on_run count_success) ;;
     r <- gets run ;;
     if cap_reached maxArticles r then ret Break else ret Next)
    (fun message =>
       _ <- on_vars (fun v => {| v_status := "error";
                                 v_articlesFound := v_articlesFound v;
                                 v_errorMessage := Some message |}) ;;
       _ <- on_run count_failure ;;
       _ <- await (UpdateSourceError sourceId message) (error_reply a) ;;
       ret Next) ;;
  match ctl with
  | Break => ret Break
  | Next =>
      t <- gets clock ;;
      v <- gets vars ;;
      let duration := (t - scrapeStart)%N in
      _ <- await (LogScrape sourceId (v_status v) (v_articlesFound v) duration
                            (v_errorMessage v))
                 (log_reply a) ;;
      _ <- on_run (push_detail
                     {| source := BaseScraper.sourceName scraper;
                        status := v_status v;
                        found := v_articlesFound v;
                        duration := duration;
                        error := v_errorMessage v |}) ;;
      ret Next
  end.

(** this.scrapers.get(sourceId) *)
Fixpoint get (sourceId : Z) (scrapers : list (Z * BaseScraper.scraper))
  : option BaseScraper.scraper :=
  match scrapers with
  | [] => None
  | (k, v) :: rest => if (k =? sourceId)%Z then Some v else get sourceId rest
  end.

(** for (const [sourceId, scraper] of this.scrapers.entries()) { ... } of
    scrapeAll, from pass [i] on. *)
Fixpoint all_loop (w : script) (i : nat)
    (entries : list (Z * BaseScraper.scraper)) : R loop_exit :=
  match entries with
  | [] => ret Exhausted
  | (sourceId, scraper) :: rest =>
      _ <- attempt_source None sourceId scraper (w i) ;;
      all_loop w (S i) rest
  end.

(** for (const sourceId of sourceIds) { ... } of scrapeSelected, from pass
    [i] on. *)
Fixpoint selected_loop (scrapers : list (Z * BaseScraper.scraper))
    (maxArticles : option nat) (w : script) (i : nat) (sourceIds : list Z)
  : R loop_exit :=
  match sourceIds with
  | [] => ret Exhausted
  | sourceId :: rest =>
      match get sourceId scrapers with
      | None =>
          _ <- on_run count_failure ;;
          selected_loop scrapers maxArticles w (S i) rest
      | Some scraper =>
          ctl <- attempt_source maxArticles sourceId scraper (w i) ;;
          match ctl with
          | Break => ret Broken
          | Next => selected_loop scrapers maxArticles w (S i) rest
          end
      end
  end.

(** What a call resolves to. *)
Inductive response : Type :=
| Refused (message : string)               (* { success: false, message } *)
| RunReport (duration : N) (r : results)   (* { success: true, duration, ...results } *)
| SingleReport (source : string) (found : nat). (* { success: true, source, articles } *)

(** A call of the manager, seen from outside: what it resolved to or threw,
    the state it left, the awaits it went through before it returned, and,
    when it returned while its loop was still suspended, the awaits that
    loop goes through afterwards on its own. *)
Record call : Type := {
  result : completion response;
  after : process;
  observed : trace;
  background : trace
}.

Definition refuse (p : process) : call :=
  {| result := Done (Refused "Scraping already in progress");
     after := p; observed := []; background := [] |}.

(** const results = { total: n, successful: 0, failed: 0, articles: 0,
                      details: [] } *)
Definition new_results (n : nat) : results :=
  {| total := n; successful := 0; failed := 0; articles := 0; details := [];
     timedOut := false |}.

(** this.isRunning = true; const startTime = Date.now(); const results = ... *)
Definition begin_run (n : nat) (p : process) : process :=
  set_run (new_results n) (set_isRunning true p).

(** this.isRunning = false; return { success: true, duration, ...finalResults } *)
Definition report (startTime : N) (p : process) (seen later : trace) : call :=
  {| result := Done (RunReport (clock p - startTime)%N (run p));
     after := set_isRunning false p;
     observed := seen;
     background := later |}.

(** scrapeAll() *)
Definition scrapeAll (scrapers : list (Z * BaseScraper.scraper)) (w : script)
    (p : process) : call :=
  if isRunning p then refuse p
  else
    let p0 := begin_run (List.length scrapers) p in
    match all_loop w 0 scrapers p0 with
    | (t, Done _, p1) => report (clock p0) p1 t []
    | (t, Threw e, p1) =>
        {| result := Threw e; after := p1; observed := t; background := [] |}
    end.

(** scrapeSingle(sourceId) *)
Definition scrapeSingle (scrapers : list (Z * BaseScraper.scraper))
    (sourceId : Z) (w : script) (p : process) : call :=
  match get sourceId scrapers with
  | None =>
      {| result := Threw ("No scraper found for source ID: " ++ Js.show sourceId);
         after := p; observed := []; background := [] |}
  | Some scraper =>
      let a := w 0 in
      match
        try_catch
          (n <- await (Scrape (BaseScraper.sourceName scraper)) (scrape_reply a) ;;
           _ <- await (UpdateSourceTimestamp sourceId "last_scraped")
                      (last_scraped_reply a) ;;
           _ <- await (UpdateSourceTimestamp sourceId "last_successful_scrape")
                      (last_successful_reply a) ;;
           _ <- await (UpdateSourceCount sourceId n) (count_reply a) ;;
           ret (SingleReport (BaseScraper.sourceName scraper) n))
          (fun message =>
             _ <- await (UpdateSourceError sourceId message) (error_reply a) ;;
             throw message)
          p
      with
      | (t, c, p1) =>
          {| result := c; after := p1; observed := t; background := [] |}
      end
  end.

(** options of scrapeSelected *)
Record options : Type := {
  timeout : option N;
  maxArticles : option nat
}.

(** The timer set for [T] ms against a computation with the awaits [t]:
    the awaits the computation got through before the timer fired, the
    state it was suspended in when the timer fired, and the awaits that
    were still ahead of it; [None] when the computation settled first.  An
    await that completes at the very millisecond of the timer completes
    after it: a turn of the event loop runs the timers that are due before
    the callbacks of the requests that completed. *)
Fixpoint expire (T : N) (t : trace) : option (trace * process * trace) :=
  match t with
  | [] => None
  | (l, p) :: rest =>
      if (T <=? l)%N then Some ([(l, p)], p, rest)
      else
        match expire (T - l)%N rest with
        | Some (seen, q, later) => Some ((l, p) :: seen, q, later)
        | None => None
        end
  end.

(** The delay setTimeout really uses: a delay above 2^31 - 1 ms is set to 1. *)
Definition setTimeout_delay (T : N) : N :=
  if (2147483647 <? T)%N then 1%N else T.

(** scrapeSelected(sourceIds, options) *)
Definition scrapeSelected (scrapers : list (Z * BaseScraper.scraper))
    (sourceIds : list Z) (opts : options) (w : script) (p : process) : call :=
  if isRunning p then refuse p
  else
    let p0 := begin_run (List.length sourceIds) p in
    let startTime := clock p0 in
    match selected_loop scrapers (maxArticles opts) w 0 sourceIds p0 with
    | (t, c, p1) =>
        match timeout opts with
        | Some (Npos T) =>
            match expire (setTimeout_delay (Npos T)) t with
            | Some (seen, q, later) =>
                (* the timer won the race: catch (error) { ... } *)
                report startTime
                  (set_run (mark_timed_out (run q))
                     (set_clock (startTime + setTimeout_delay (Npos T))%N q))
                  seen later
            | None =>
                match c with
                | Done _ => report startTime p1 t []
                | Threw _ =>
                    (* the loop rejected: the same catch (error) { ... } *)
                    report startTime (set_run (mark_timed_out (run p1)) p1) t []
                end
            end
        | _ =>
            match c with
            | Done _ => report startTime p1 t []
            | Threw e =>
                {| result := Threw e; after := p1; observed := t;
                   background := [] |}
            end
        end
    end.

(** Reading a script. *)
Definition fulfilled {A : Type} (r : reply A) : bool :=
  match outcome r with
  | Fulfilled _ => true
  | RejectedWith _ => false
  end.

(** The try block of a pass runs to its end, having found [n] articles. *)
Definition completes (a : attempt) : option nat :=
  match outcome (last_scraped_reply a), outcome (scrape_reply a) with
  | Fulfilled _, Fulfilled 0 => Some 0
  | Fulfilled _, Fulfilled (S n) =>
      if fulfilled (last_successful_reply a) && fulfilled (count_reply a)
      then Some (S n) else None
  | _, _ => None
  end.

(** The articles a pass adds to results.articles. *)
Definition yield (a : attempt) : nat :=
  match outcome (last_scraped_reply a), outcome (scrape_reply a) with
  | Fulfilled _, Fulfilled n => n
  | _, _ => 0
  end.

(** No write that follows a successful scrape fails in this pass. *)
Definition writes_ok (a : attempt) : bool :=
  match outcome (last_scraped_reply a), outcome (scrape_reply a) with
  | Fulfilled _, Fulfilled (S _) =>
      fulfilled (last_successful_reply a) && fulfilled (count_reply a)
  | _, _ => true
  end.

(** The time a computation with the awaits [t] takes. *)
Fixpoint span (t : trace) : N :=
  match t with
  | [] => 0%N
  | (l, _) :: rest => (l + span rest)%N
  end.

(** Every state a computation was suspended in, and the state it ended in. *)
Definition states {A : Type} (x : trace * completion A * process) : list process :=
  (map snd (fst (fst x)) ++ [snd x])%list.

(** The source a statement sent to the database is about. *)
Definition about (c : command) : option Z :=
  match c with
  | UpdateSourceTimestamp i _ | UpdateSourceCount i _ | UpdateSourceError i _
  | LogScrape i _ _ _ _ => Some i
  | Scrape _ => None
  end.

Definition is_log (c : command) : bool :=
  match c with
  | LogScrape _ _ _ _ _ => true
  | _ => false
  end.

(** Both loops at once: a list of source ids, each with the scraper the
    loop finds for it, if any. *)
Fixpoint passes (maxArticles : option nat) (w : script) (i : nat)
    (items : list (Z * option BaseScraper.scraper)) : R loop_exit :=
  match items with
  | [] => ret Exhausted
  | (_, None) :: rest =>
      _ <- on_run count_failure ;;
      passes maxArticles w (S i) rest
  | (sourceId, Some scraper) :: rest =>
      ctl <- attempt_source maxArticles sourceId scraper (w i) ;;
      match ctl with
      | Break => ret Broken
      | Next => passes maxArticles w (S i) rest
      end
  end.

Definition looked_up (scrapers : list (Z * BaseScraper.scraper))
    (sourceIds : list Z) : list (Z * option BaseScraper.scraper) :=
  map (fun id => (id, get id scrapers)) sourceIds.

Definition entries (scrapers : list (Z * BaseScraper.scraper))
  : list (Z * option BaseScraper.scraper) :=
  map (fun e => (fst e, Some (snd e))) scrapers.

(** The articles the passes number [i], [i+1], ... over [items] add. *)
Fixpoint contributed (w : script) (i : nat)
    (items : list (Z * option BaseScraper.scraper)) : nat :=
  match items with
  | [] => 0
  | (_, None) :: rest => contributed w (S i) rest
  | (_, Some _) :: rest => yield (w i) + contributed w (S i) rest
  end.

(** The ids among [items] that have no scraper. *)
Fixpoint unregistered (items : list (Z * option BaseScraper.scraper)) : nat :=
  match items with
  | [] => 0
  | (_, None) :: rest => S (unregistered rest)
  | (_, Some _) :: rest => unregistered rest
  end.

(** [l] starts with [k]. *)
Definition extends {A : Type} (k l : list A) : Prop := exists more, l = (k ++ more)%list.

(** Each state of [l] is related to the one before it, the first to [p]. *)
Fixpoint chain (Rel : process -> process -> Prop) (p : process)
    (l : list process) : Prop :=
  match l with
  | [] => True
  | q :: r => Rel p q /\ chain Rel q r
  end.

(** How the state of a run moves on: flag, total and timedOut stay, details
    only grow at the end, no counter goes down. *)
Definition moves_on (p q : process) : Prop :=
  isRunning q = isRunning p
  /\ total (run q) = total (run p)
  /\ timedOut (run q) = timedOut (run p)
  /\ extends (details (run p)) (details (run q))
  /\ successful (run p) <= successful (run q)
  /\ failed (run p) <= failed (run q)
  /\ articles (run p) <= articles (run q).

(** Bounds on a state [q] reached from [p] by the passes over [items]. *)
Definition within (w : script) (i : nat)
    (items : list (Z * option BaseScraper.scraper)) (p q : process) : Prop :=
  successful (run q) <= successful (run p) + List.length items
  /\ failed (run q) <= failed (run p) + List.length items
  /\ articles (run q) <= articles (run p) + contributed w i items
  /\ List.length (details (run q))
     <= List.length (details (run p)) + List.length items
  /\ ((forall j, writes_ok (w j) = true) ->
      successful (run q) + failed (run q)
      <= successful (run p) + failed (run p) + List.length items).

(** The articles the passes over [ids], numbered from [i], add. *)
Definition found_by (scrapers : list (Z * BaseScraper.scraper)) (w : script)
    (i : nat) (ids : list Z) : nat :=
  contributed w i (looked_up scrapers ids).

(** Between [p] and [q] no statement about the source [id] was sent to the
    database: neither an update of its sources row nor an insert into
    scrape_logs. *)
Definition silent_about (id : Z) (p q : process) : Prop :=
  exists l, issued q = (issued p ++ l)%list
            /\ Forall (fun c => about c <> Some id) l.

(** The time the loop of a scrapeSelected call takes when no timer stops
    the call: the awaits of the passes it makes, up to the pass at which
    the maxArticles cap ends it. *)
Definition time_needed (scrapers : list (Z * BaseScraper.scraper))
    (ids : list Z) (opts : options) (w : script) (p : process) : N :=
  span (fst (fst (selected_loop scrapers (maxArticles opts) w 0 ids
                    (begin_run (List.length ids) p)))).

(** The time it takes to go through all of [ids]: the time the loop takes
    when no cap ends it. *)
Definition time_for_all (scrapers : list (Z * BaseScraper.scraper))
    (ids : list Z) (w : script) (p : process) : N :=
  time_needed scrapers ids {| timeout := None; maxArticles := None |} w p.

(** successful + failed <= total *)
Definition tallied (q : process) : Prop :=
  successful (run q) + failed (run q) <= total (run q).

(** successful <= total and failed <= total *)
Definition each_tallied (q : process) : Prop :=
  successful (run q) <= total (run q) /\ failed (run q) <= total (run q).

(** Sample inputs: a manager with two cheerio scrapers, a world in which
    every write succeeds at once and a scrape takes [ms] milliseconds and
    finds [n] articles, and a process at rest. *)
Definition scraper_of (name : string) (id : Z) : BaseScraper.scraper :=
  BaseScraper.constructor
    {| Web.SCRAPE_DELAY_MS := None; Web.USER_AGENT := None |} name
    {| BaseScraper.cfg_url := "https://example.test";
       BaseScraper.cfg_id := Some id;
       BaseScraper.cfg_scraper_type := "cheerio";
       BaseScraper.cfg_rss_url := None |}.

Definition two_scrapers : list (Z * BaseScraper.scraper) :=
  [(1%Z, scraper_of "Baldwin Times" 1%Z); (2%Z, scraper_of "Foley Observer" 2%Z)].

Definition at_once : reply unit := {| latency := 0%N; outcome := Fulfilled tt |}.

Definition finds (ms : N) (n : nat) : attempt :=
  {| last_scraped_reply := at_once;
     scrape_reply := {| latency := ms; outcome := Fulfilled n |};
     last_successful_reply := at_once;
     count_reply := at_once;
     error_reply := at_once;
     log_reply := at_once |}.

(** Every scrape takes three seconds and finds five articles. *)
Definition steady : script := fun _ => finds 3000 5.

(** Every scrape finds five articles, and the updateSourceCount that
    follows is rejected. *)
Definition count_rejected : script :=
  fun _ =>
    {| last_scraped_reply := at_once;
       scrape_reply := {| latency := 3000%N; outcome := Fulfilled 5 |};
       last_successful_reply := at_once;
       count_reply := {| latency := 5%N;
                         outcome := RejectedWith "connection terminated" |};
       error_reply := at_once;
       log_reply := at_once |}.

Definition five_found (name : string) : detail :=
  {| source := name; status := "success"; found := 5; duration := 3000%N;
     error := None |}.

Definition at_rest : process :=
  {| isRunning := false; clock := 0%N; run := new_results 0;
     vars := {| v_status := "error"; v_articlesFound := 0;
                v_errorMessage := None |};
     issued := [] |}.

End ScraperManager.

(* ===================================================================== *)
(** ** Shapes of the values the helpers produce *)
(* ===================================================================== *)

Module Shape.

(** Every character of [s] satisfies [P]. *)
Fixpoint all_chars (P : ascii -> bool) (s : string) : bool :=
  match s with
  | EmptyString => true
  | String c r => P c && all_chars P r
  end.

(** The characters of [s] that are not white space (TAB, LF, VT, FF, CR,
    SPACE, NBSP), in order. *)
Fixpoint visible (s : string) : string :=
  match s with
  | EmptyString => EmptyString
  | String c r => if Words.white c then visible r else String c (visible r)
  end.

(** From here on [s] holds no white space but single U+0020 spaces, each
    between two visible characters; [after_space] tells that the character
    before [s] was a space (or that [s] is the start of the text). *)
Fixpoint tidy_from (after_space : bool) (s : string) : bool :=
  match s with
  | EmptyString => negb after_space
  | String c r =>
      if Words.white c
      then Ascii.eqb c " " && negb after_space && tidy_from true r
      else tidy_from false r
  end.

(** [s] is empty, or starts and ends with a visible character and holds no
    white space but single spaces. *)
Definition tidy (s : string) : bool :=
  match s with
  | EmptyString => true
  | String _ _ => tidy_from true s
  end.

(** A match of /#[\w]+/: a "#" and one or more word characters. *)
Definition is_hashtag (s : string) : bool :=
  match s with
  | String c (String d r) => Ascii.eqb c "#" && all_chars Words.word (String d r)
  | _ => false
  end.

(** The match the scan has open is a "#" and word characters. *)
Definition hashtag_open (cur : option string) : Prop :=
  match cur with
  | None => True
  | Some m => exists w, m = String "#" w /\ all_chars Words.word w = true
  end.

End Shape.

(* ===================================================================== *)
(** ** Worlds after a step of a scraper *)
(* ===================================================================== *)

Module After.
Import Schema Effects.

(** The world [w] with the events [l] added to its log and [d] as its store. *)
Definition stored (w : world) (d : db) (l : list event) : world :=
  {| store := d; clock := clock w; log := (log w ++ l)%list |}.

(** The world [w] with the events [l] added to its log. *)
Definition logged (w : world) (l : list event) : world := stored w (store w) l.

(** [r'] is the row [r] up to the columns ON CONFLICT (url) DO UPDATE sets:
    title, excerpt, content and updated_at. *)
Definition same_article (r r' : article_row) : Prop :=
  a_id r' = a_id r /\ a_url r' = a_url r /\ a_source_id r' = a_source_id r
  /\ a_author r' = a_author r /\ a_category r' = a_category r
  /\ a_content_type r' = a_content_type r /\ a_platform r' = a_platform r
  /\ a_image_url r' = a_image_url r /\ a_published_at r' = a_published_at r
  /\ a_scraped_at r' = a_scraped_at r /\ a_created_at r' = a_created_at r.

(** If [e] is a call of Article.create, the url it hands over has at most
    1000 characters, the length of the column. *)
Definition short_url (e : event) : Prop :=
  match e with
  | ArticleCreate data => Observe.at_most 1000 (Article.url data) = true
  | _ => True
  end.

(** What happened to table articles between [w] and [w'], with the events
    [ev] in between: the rows it had are still there, in their order and up
    to the columns an upsert sets ([kept]), and the rows [added] came after
    them, each under a url that was not in the table and that no other
    added row has.  When every url handed to Article.create had at most
    1000 characters, the rows it had are exactly as they were. *)
Definition grown (w w' : world) (kept added : list article_row)
    (ev : list event) : Prop :=
  log w' = (log w ++ ev)%list
  /\ articles (store w') = (kept ++ added)%list
  /\ Forall2 same_article (articles (store w)) kept
  /\ Forall (fun row => Article.findByUrl (store w) (a_url row) = None) added
  /\ NoDup (map a_url added)
  /\ (Forall short_url ev -> kept = articles (store w)).

(** A step of an extractor on one block adds at most one row; when the urls
    it handed over had at most 1000 characters, a row it returns is the row
    it added. *)
Definition adds_at_most_one (m : M (option article_row)) : Prop :=
  forall w,
    exists kept added ev,
      grown w (snd (m w)) kept added ev
      /\ List.length added <= 1
      /\ (Forall short_url ev ->
          forall row, fst (m w) = Returned (Some row) -> added = [row]).

(** A scraper used in examples, and an article with one tag. *)
Definition news_scraper : BaseScraper.scraper :=
  BaseScraper.constructor Observe.no_env "Baldwin Times"
    {| BaseScraper.cfg_url := "https://www.baldwintimes.com";
       BaseScraper.cfg_id := Some 1%Z;
       BaseScraper.cfg_scraper_type := "cheerio";
       BaseScraper.cfg_rss_url := None |}.

Definition tagged_article (tag : string) : BaseScraper.articleData :=
  {| BaseScraper.title := "Storm warning issued for coast";
     BaseScraper.excerpt := "";
     BaseScraper.content := None;
     BaseScraper.url := Some "https://x.com/a";
     BaseScraper.author := None;
     BaseScraper.category := "weather";
     BaseScraper.content_type := None;
     BaseScraper.platform := None;
     BaseScraper.image_url := None;
     BaseScraper.published_at := DateAt 5%N;
     BaseScraper.tags := [tag] |}.

(** A hashtag of 101 characters, one more than tags.name holds. *)
Definition long_tag : string := String "#" (Observe.replicate 100 "a").

(** What a scrape() that went from [w] to the world of [r] did, given what
    its fetch came back with (the blocks of the document, or the failure):
    table articles grew as [grown] says; the scrape throws exactly when the
    fetch failed, with the store as it was, and otherwise returns at most
    one row per block, and adds at most one row per block; when every url
    handed to Article.create had at most 1000 characters, the rows it
    returns are rows it added. *)
Definition scrape_outcome {X : Type} (w : world)
    (r : outcome (list article_row) * world) (fetched : Web.reply (list X))
  : Prop :=
  exists kept added ev,
    grown w (snd r) kept added ev
    /\ match fetched with
       | Web.Failed message =>
           fst r = Thrown (NetworkError message) /\ store (snd r) = store w
       | Web.Responded blocks =>
           exists l, fst r = Returned l
                     /\ List.length l <= List.length blocks
                     /\ List.length added <= List.length blocks
                     /\ (Forall short_url ev -> incl l added)
       end.

(** Sample blocks: a feed that answers with [items], an item that is
    complete, one without a link, a page block whose title is too short, and
    a page block with a date that does not parse. *)
Definition feed_scraper : RSSScraper.rss_scraper :=
  RSSScraper.constructor Observe.no_env "AL.com Baldwin" Observe.feed_config.

Definition plain_item : Web.feed_item := Observe.long_item 10.

Definition unlinked_item : Web.feed_item :=
  {| Web.item_title := Some "Storm warning issued for coast";
     Web.item_link := None;
     Web.contentSnippet := Some "A short summary.";
     Web.summary := None; Web.description := None;
     Web.contentEncoded := None;
     Web.item_content := None; Web.creator := None; Web.item_author := None;
     Web.pubDate := None; Web.enclosure_url := None;
     Web.mediaContent_url := None; Web.mediaThumbnail_url := None;
     Web.categories := None |}.

(** A feed item whose link is one space longer than articles.url holds. *)
Definition padded_item (ttl : string) : Web.feed_item :=
  {| Web.item_title := Some ttl;
     Web.item_link := Some Article.padded_url;
     Web.contentSnippet := Some "A short summary.";
     Web.summary := None; Web.description := None;
     Web.contentEncoded := None;
     Web.item_content := None; Web.creator := None; Web.item_author := None;
     Web.pubDate := None; Web.enclosure_url := None;
     Web.mediaContent_url := None; Web.mediaThumbnail_url := None;
     Web.categories := None |}.

Definition dated_block (date : string) : Web.article_element :=
  {| Web.title_text := "Storm warning issued for coast";
     Web.link_href := Some "/news/storm";
     Web.excerpt_text := "A short summary.";
     Web.date_datetime := None;
     Web.date_text := date;
     Web.author_text := "";
     Web.image_src := None;
     Web.image_data_src := None |}.

(** What the extractors put into every object they hand to Article.create
    and every list of tags they hand to Article.addTags. *)
Definition news_data (self : BaseScraper.scraper) (e : event) : Prop :=
  match e with
  | ArticleCreate data =>
      Article.source_id data = BaseScraper.sourceId self
      /\ Article.content_type data = Some "news"
      /\ Article.platform data = None
      /\ exists c, Article.category data = Some c /\ In c Categorize.categories
  | ArticleAddTags _ names => names <> []
  | _ => False
  end.

Definition tweet_data (self : NitterScraper.nitter_scraper) (e : event) : Prop :=
  match e with
  | ArticleCreate data =>
      Article.source_id data = BaseScraper.sourceId (NitterScraper.base self)
      /\ Article.content_type data = Some "social"
      /\ Article.platform data = Some "twitter"
      /\ Article.category data = Some "social"
      /\ (exists c r, Article.author data = Some (String c r))
      /\ exists path, Article.url data = Some ("https://twitter.com" ++ path)
  | ArticleAddTags _ names =>
      In ("#" ++ NitterScraper.hashtag self) names /\ NoDup names
  | _ => False
  end.

End After.

(* ===================================================================== *)
(** ** Reading the report and the statements of a run *)
(* ===================================================================== *)

Module Ledger.
Import ScraperManager.

(** The insert into scrape_logs that goes with the details entry [d] of the
    source [id]. *)
Definition log_of (e : Z * detail) : command :=
  LogScrape (fst e) (status (snd e)) (found (snd e)) (duration (snd e))
    (error (snd e)).

(** The inserts into scrape_logs among the statements [l]. *)
Definition logs (l : list command) : list command := filter is_log l.

(** The items the loop has a scraper for. *)
Fixpoint registered (items : list (Z * option BaseScraper.scraper))
  : list (Z * BaseScraper.scraper) :=
  match items with
  | [] => []
  | (id, Some sc) :: rest => (id, sc) :: registered rest
  | (_, None) :: rest => registered rest
  end.

Definition succeeded (d : detail) : bool := String.eqb (status d) "success".

(** The entries of [ds] with status 'success', and those with 'error'. *)
Definition successes (ds : list detail) : nat :=
  List.length (filter succeeded ds).

Definition errors (ds : list detail) : nat :=
  List.length (filter (fun d => String.eqb (status d) "error") ds).

(** The articles the entries [ds] report. *)
Definition sum_found (ds : list detail) : nat :=
  fold_right (fun d n => found d + n) 0 ds.

(** The entry [d] of a pass that started in [p] and ended in [q] says what
    the pass did to the tallies: a 'success' with its articles, or an
    'error' with none. *)
Definition entry_tallies (p q : process) (d : detail) : Prop :=
  (status d = "success" /\ error d = None
   /\ successful (run q) = S (successful (run p))
   /\ failed (run q) = failed (run p)
   /\ articles (run q) = articles (run p) + found d)
  \/ (status d = "error" /\ error d <> None /\ found d = 0
      /\ successful (run q) = successful (run p)
      /\ failed (run q) = S (failed (run p))
      /\ articles (run q) = articles (run p)).

(** A script in which every write of updateSourceError and logScrape is
    rejected, and the report of scrapeAll on the two sample scrapers. *)
Definition no_ledger : script :=
  fun _ =>
    {| last_scraped_reply := at_once;
       scrape_reply := {| latency := 3000%N; outcome := RejectedWith "timeout of 30000ms exceeded" |};
       last_successful_reply := at_once;
       count_reply := at_once;
       error_reply := at_once;
       log_reply := {| latency := 5%N; outcome := RejectedWith "connection terminated" |} |}.

Definition steady_report : results :=
  Eval vm_compute in run (after (scrapeAll two_scrapers steady at_rest)).

Definition no_options : options := {| timeout := None; maxArticles := None |}.

(** The report of scrapeSelected on the ids 2, 7 (which has no scraper)
    and 1. *)
Definition selected_report : results :=
  Eval vm_compute in
    run (after (scrapeSelected two_scrapers [2%Z; 7%Z; 1%Z] no_options steady
                  at_rest)).

End Ledger.

(* ===================================================================== *)
(** ** ScraperManager: initialize and createScraper *)
(* ===================================================================== *)

Module Registry.
Import Web.

(** A row of table sources as SELECT * returns it, with the columns
    createScraper and initialize read; the table has no column rss_url. *)
Record source_row : Type := {
  s_id : Z;
  s_name : string;
  s_url : string;
  s_scraper_type : string;
  s_enabled : option bool
}.

(** What this.scrapers holds: an RSSScraper or a CheerioScraper. *)
Inductive extractor : Type :=
| Feed (s : RSSScraper.rss_scraper)
| Page (s : BaseScraper.scraper).

Definition base_of (e : extractor) : BaseScraper.scraper :=
  match e with
  | Feed s => RSSScraper.base s
  | Page s => s
  end.

(** createScraper(source); [None] is the null it returns for 'puppeteer'
    and for a type it does not know. *)
Definition createScraper (env : process_env) (source : source_row)
  : option extractor :=
  let config :=
    {| BaseScraper.cfg_url := s_url source;
       BaseScraper.cfg_id := Some (s_id source);
       BaseScraper.cfg_scraper_type := s_scraper_type source;
       BaseScraper.cfg_rss_url := None |} in
  if String.eqb (s_scraper_type source) "rss"
  then Some (Feed (RSSScraper.constructor env (s_name source) config))
  else if String.eqb (s_scraper_type source) "cheerio"
  then Some (Page (BaseScraper.constructor env (s_name source) config))
  else None.

(** Map.prototype.set: the value of a key that is present is replaced in
    place, a new key goes to the end. *)
Fixpoint set (k : Z) (v : extractor) (m : list (Z * extractor))
  : list (Z * extractor) :=
  match m with
  | [] => [(k, v)]
  | (k', v') :: rest =>
      if (k' =? k)%Z then (k, v) :: rest else (k', v') :: set k v rest
  end.

(** Map.prototype.get *)
Fixpoint get (k : Z) (m : list (Z * extractor)) : option extractor :=
  match m with
  | [] => None
  | (k', v) :: rest => if (k' =? k)%Z then Some v else get k rest
  end.

(** for (const source of sources) { const scraper = this.createScraper(source);
      if (scraper) this.scrapers.set(source.id, scraper) } *)
Fixpoint register (env : process_env) (sources : list source_row)
    (m : list (Z * extractor)) : list (Z * extractor) :=
  match sources with
  | [] => m
  | source :: rest =>
      register env rest
        match createScraper env source with
        | Some scraper => set (s_id source) scraper m
        | None => m
        end
  end.

(** initialize(): [answer] is what the query
    SELECT * FROM sources WHERE enabled = true ORDER BY name comes back with. *)
Definition initialize (env : process_env) (answer : reply (list source_row))
    (m : list (Z * extractor))
  : ScraperManager.completion unit * list (Z * extractor) :=
  match answer with
  | Responded rows => (ScraperManager.Done tt, register env rows m)
  | Failed message => (ScraperManager.Threw message, m)
  end.

(** The map as the loops of the manager read it. *)
Definition scrapers_of (m : list (Z * extractor))
  : list (Z * BaseScraper.scraper) :=
  map (fun e => (fst e, base_of (snd e))) m.

(** The scraper types createScraper knows. *)
Definition supported (source : source_row) : bool :=
  String.eqb (s_scraper_type source) "rss"
  || String.eqb (s_scraper_type source) "cheerio".

(** [rows] is what SELECT * FROM sources WHERE enabled = true returns from
    [table], in whatever order: each enabled row once (id is the primary
    key). *)
Definition answers (table rows : list source_row) : Prop :=
  NoDup (map s_id rows)
  /\ forall s, In s rows <-> In s table /\ s_enabled s = Some true.

(** Three of the sources schema.sql inserts, ordered by name, and a source
    of type 'puppeteer'; the same table after the Foley Observer was
    disabled. *)
Definition seed (id : Z) (name url type : string) : source_row :=
  {| s_id := id; s_name := name; s_url := url; s_scraper_type := type;
     s_enabled := Some true |}.

Definition seeded : list source_row :=
  [ seed 4 "AL.com Baldwin" "https://www.al.com/news/mobile/baldwin/" "rss";
    seed 1 "Baldwin Times" "https://www.baldwintimes.com" "cheerio";
    seed 5 "Foley Observer" "https://www.foleyobserver.com" "cheerio";
    seed 8 "Gulf Coast Media" "https://www.gulfcoastmedia.com" "puppeteer" ].

Definition disable (k : Z) (s : source_row) : source_row :=
  if (s_id s =? k)%Z
  then {| s_id := s_id s; s_name := s_name s; s_url := s_url s;
          s_scraper_type := s_scraper_type s; s_enabled := Some false |}
  else s.

Definition enabled (s : source_row) : bool :=
  match s_enabled s with
  | Some true => true
  | _ => false
  end.

End Registry.

(* ===================================================================== *)
(** ** What the schema and the model keep true of the store *)
(* ===================================================================== *)

Module Counts.
Import Schema.

(** The rows of article_tags that point to the tag [tag_id]. *)
Definition links_to (tag_id : Z) (links : list (Z * Z)) : Z :=
  Z.of_nat (List.length (filter (fun l => (snd l =? tag_id)%Z) links)).

(** tags.count is the number of articles that carry the tag. *)
Definition counts_exact (d : db) : Prop :=
  forall r, In r (tags d) -> t_count r = links_to (t_id r) (article_tags d).

(** The urls of the articles differ, tag names and tag ids differ, every
    link points to a tag, and the usage counters are exact. *)
Definition well_formed (d : db) : Prop :=
  NoDup (map a_url (articles d)) /\ Tags.consistent d /\ counts_exact d.

(** [m] keeps [I] true of the store. *)
Definition preserves {A : Type} (I : db -> Prop) (m : Effects.M A) : Prop :=
  forall w, I (Effects.store w) -> I (Effects.store (snd (m w))).

(** Article.deleteOld(days), with [cutoff] the value the database computes
    for NOW() - INTERVAL '<days> days':
    DELETE FROM articles WHERE created_at < cutoff.  The links of the
    deleted articles go with them (article_tags.article_id REFERENCES
    articles(id) ON DELETE CASCADE); no trigger fires on article_tags for a
    delete.  Returns result.rowCount. *)
Definition expired (cutoff : timestamp) (r : article_row) : bool :=
  (a_created_at r <? cutoff)%N.

Definition of_deleted (gone : list article_row) (l : Z * Z) : bool :=
  existsb (fun r => (a_id r =? fst l)%Z) gone.

Definition deleteOld (d : db) (cutoff : timestamp) : nat * db :=
  let gone := filter (expired cutoff) (articles d) in
  (List.length gone,
   {| sources := sources d;
      articles := filter (fun r => negb (expired cutoff r)) (articles d);
      articles_id_seq := articles_id_seq d;
      tags := tags d;
      tags_id_seq := tags_id_seq d;
      article_tags := filter (fun l => negb (of_deleted gone l)) (article_tags d) |}).

End Counts.

(* ===================================================================== *)
(** * Properties *)
(* ===================================================================== *)

(* --------------------------------------------------------------------- *)
(** ** Lists *)
(* --------------------------------------------------------------------- *)

Lemma NoDup_snoc {A : Type} (l : list A) (x : A) :
  NoDup l -> ~ In x l -> NoDup (l ++ [x])%list.
Proof.
  induction l as [|y l IH]; simpl; intros Hnd Hx.
  - constructor; [easy|constructor].
  - inversion Hnd as [|? ? Hy Hnd']; subst. constructor.
    + rewrite in_app_iff. intros [H|[H|[]]]; [now apply Hy|].
      apply Hx. now left.
    + apply IH; auto.
Qed.

(* --------------------------------------------------------------------- *)
(** ** Strings *)
(* --------------------------------------------------------------------- *)

Section StringFacts.
Import Js.

Lemma toLowerCase_app (s t : string) :
  toLowerCase (s ++ t) = toLowerCase s ++ toLowerCase t.
Proof.
  induction s as [|c s IH]; simpl; [reflexivity|]. now rewrite IH.
Qed.

Lemma startsWith_app (p s t : string) :
  startsWith p s = true -> startsWith p (s ++ t) = true.
Proof.
  revert s; induction p as [|a p IH]; intros [|b s]; simpl; try easy.
  intros H. apply andb_true_iff in H as [Hab Hps].
  rewrite Hab. simpl. now apply IH.
Qed.

Lemma includes_app_l (p s t : string) :
  includes p s = true -> includes p (s ++ t) = true.
Proof.
  induction s as [|c s IH]; simpl.
  - destruct p; simpl; [destruct t; reflexivity|discriminate].
  - intros H. apply orb_true_iff in H as [H|H].
    + change (String c (s ++ t)) with (String c s ++ t).
      now rewrite (startsWith_app _ _ t H).
    + rewrite (IH H). apply orb_true_r.
Qed.

Lemma includes_app_r (p s t : string) :
  includes p t = true -> includes p (s ++ t) = true.
Proof.
  intros H. induction s as [|c s IH]; simpl; [exact H|].
  rewrite IH. apply orb_true_r.
Qed.

Lemma length_append (s t : string) :
  String.length (s ++ t) = String.length s + String.length t.
Proof. induction s as [|c s IH]; simpl; [reflexivity|]. now rewrite IH. Qed.

Lemma substring0_length (n : nat) (s : string) :
  String.length (substring0 n s) = Nat.min n (String.length s).
Proof.
  revert s; induction n as [|n IH]; intros [|c s]; simpl; auto.
Qed.

Lemma substring0_prefix (n : nat) (s : string) :
  exists rest, s = substring0 n s ++ rest.
Proof.
  revert s; induction n as [|n IH]; intros s.
  - exists s. now destruct s.
  - destruct s as [|c s]; [now exists ""|].
    destruct (IH s) as [r Hr]. exists r. simpl. now rewrite <- Hr.
Qed.

Lemma substring0_short (n : nat) (s : string) :
  String.length s <= n -> substring0 n s = s.
Proof.
  revert s; induction n as [|n IH]; intros [|c s]; simpl; intros H;
    try reflexivity; try lia.
  f_equal. apply IH. lia.
Qed.

End StringFacts.

(* --------------------------------------------------------------------- *)
(** ** Category classification *)
(* --------------------------------------------------------------------- *)

Section CategorizeFacts.
Import Categorize Words.

Lemma lower_char_nat (c : ascii) :
  nat_of_ascii (Js.lower_char c)
  = let n := nat_of_ascii c in
    if (65 <=? n) && (n <=? 90) then n + 32
    else if (192 <=? n) && (n <=? 222) && negb (n =? 215) then n + 32
    else n.
Proof.
  unfold Js.lower_char. cbv zeta.
  destruct ((65 <=? nat_of_ascii c) && (nat_of_ascii c <=? 90)) eqn:E1.
  - apply andb_prop in E1 as [_ E1]. apply Nat.leb_le in E1.
    apply nat_ascii_embedding. lia.
  - destruct ((192 <=? nat_of_ascii c) && (nat_of_ascii c <=? 222)
              && negb (nat_of_ascii c =? 215)) eqn:E2; [|reflexivity].
    apply andb_prop in E2 as [E2 _]. apply andb_prop in E2 as [_ E2].
    apply Nat.leb_le in E2. apply nat_ascii_embedding. lia.
Qed.

Lemma ascii_by_nat (a b : ascii) : nat_of_ascii a = nat_of_ascii b -> a = b.
Proof.
  intros H. rewrite <- (ascii_nat_embedding a), <- (ascii_nat_embedding b).
  now rewrite H.
Qed.

(** Lower-casing identifies exactly the characters that are the same
    letter, when one of them is below U+0080. *)
Lemma lower_char_same_letter (c k : ascii) :
  nat_of_ascii k < 128 ->
  Js.lower_char c = Js.lower_char k <-> same_letter c k.
Proof.
  intros Hk. unfold same_letter, capital. split.
  - intros H. apply (f_equal nat_of_ascii) in H.
    rewrite !lower_char_nat in H. cbv zeta in H.
    destruct ((65 <=? nat_of_ascii c) && (nat_of_ascii c <=? 90)) eqn:Ec;
      destruct ((65 <=? nat_of_ascii k) && (nat_of_ascii k <=? 90)) eqn:Ek;
      destruct ((192 <=? nat_of_ascii c) && (nat_of_ascii c <=? 222)
                && negb (nat_of_ascii c =? 215)) eqn:Ec';
      destruct ((192 <=? nat_of_ascii k) && (nat_of_ascii k <=? 222)
                && negb (nat_of_ascii k =? 215)) eqn:Ek';
      repeat match goal with
             | E : (_ && _) = true |- _ => apply andb_prop in E as [? ?]
             | E : (_ <=? _) = true |- _ => apply Nat.leb_le in E
             end;
      try lia;
      try (left; apply ascii_by_nat; lia);
      try (right; left; lia);
      try (right; right; lia).
    all: exfalso;
      repeat match goal with
             | E : (_ && _) = false |- _ => apply andb_false_iff in E as [E|E]
             | E : (_ <=? _) = false |- _ => apply Nat.leb_gt in E
             | E : negb _ = false |- _ => apply negb_false_iff in E
             | E : (_ =? _) = true |- _ => apply Nat.eqb_eq in E
             end; lia.
  - intros [->|[[Hc E]|[Hc E]]]; [reflexivity| |];
      apply ascii_by_nat; rewrite !lower_char_nat; cbv zeta.
    + replace ((65 <=? nat_of_ascii c) && (nat_of_ascii c <=? 90)) with true
        by (symmetry; apply andb_true_iff; split; apply Nat.leb_le; lia).
      replace ((65 <=? nat_of_ascii k) && (nat_of_ascii k <=? 90)) with false
        by (symmetry; apply andb_false_iff; right; apply Nat.leb_gt; lia).
      replace ((192 <=? nat_of_ascii k) && (nat_of_ascii k <=? 222)
               && negb (nat_of_ascii k =? 215)) with false; [lia|].
      symmetry. apply andb_false_iff. left. apply andb_false_iff. left.
      apply Nat.leb_gt. lia.
    + replace ((65 <=? nat_of_ascii k) && (nat_of_ascii k <=? 90)) with true
        by (symmetry; apply andb_true_iff; split; apply Nat.leb_le; lia).
      replace ((65 <=? nat_of_ascii c) && (nat_of_ascii c <=? 90)) with false
        by (symmetry; apply andb_false_iff; right; apply Nat.leb_gt; lia).
      replace ((192 <=? nat_of_ascii c) && (nat_of_ascii c <=? 222)
               && negb (nat_of_ascii c =? 215)) with false; [lia|].
      symmetry. apply andb_false_iff. left. apply andb_false_iff. left.
      apply Nat.leb_gt. lia.
Qed.

Lemma reads_lower (s w : string) :
  plain w = true -> Js.toLowerCase s = Js.toLowerCase w <-> reads s w.
Proof.
  revert w. induction s as [|c s IH]; intros [|k w]; simpl; try tauto;
    try (intros _; split; [discriminate|contradiction]).
  intros H. apply andb_prop in H as [Hk Hw]. apply Nat.ltb_lt in Hk.
  rewrite <- (IH w Hw), <- (lower_char_same_letter c k Hk). split.
  - intros E. now inversion E.
  - intros [E1 E2]. now rewrite E1, E2.
Qed.

Lemma startsWith_prefix (p s : string) :
  Js.startsWith p s = true <-> exists post, s = p ++ post.
Proof.
  revert s. induction p as [|a p IH]; intros s; simpl.
  - split; [intros _; now exists s|reflexivity].
  - destruct s as [|b s]; [split; [discriminate|intros [post E]; discriminate]|].
    rewrite andb_true_iff, IH. split.
    + intros [Hab [post E]]. apply Ascii.eqb_eq in Hab. subst. now exists post.
    + intros [post E]. inversion E; subst. split; [apply Ascii.eqb_refl|now exists post].
Qed.

Lemma includes_infix (p s : string) :
  Js.includes p s = true <-> exists pre post, s = pre ++ p ++ post.
Proof.
  induction s as [|c s IH]; simpl.
  - rewrite orb_false_r, startsWith_prefix. split.
    + intros [post E]. now exists "", post.
    + intros (pre & post & E). destruct pre; [now exists post|discriminate].
  - rewrite orb_true_iff, IH, startsWith_prefix. split.
    + intros [[post E]|(pre & post & E)].
      * now exists "", post.
      * exists (String c pre), post. simpl. now rewrite E.
    + intros (pre & post & E). destruct pre as [|a pre].
      * left. now exists post.
      * right. simpl in E. inversion E. now exists pre, post.
Qed.

Lemma toLowerCase_split (s a b : string) :
  Js.toLowerCase s = a ++ b ->
  exists s1 s2, s = s1 ++ s2 /\ Js.toLowerCase s1 = a /\ Js.toLowerCase s2 = b.
Proof.
  revert s. induction a as [|x a IH]; intros s E.
  - now exists "", s.
  - destruct s as [|c s]; [discriminate|]. simpl in E. inversion E as [[Hx Hr]].
    destruct (IH s Hr) as (s1 & s2 & E1 & E2 & E3).
    exists (String c s1), s2. simpl. now rewrite E1, E2.
Qed.

(** The test the code makes, a term against the lower-cased text, is the
    occurrence of the term in the text, letter case ignored. *)
Lemma includes_occurs (w text : string) :
  plain w = true ->
  Js.includes (Js.toLowerCase w) (Js.toLowerCase text) = true <-> occurs w text.
Proof.
  intros Hw. rewrite includes_infix. unfold occurs. split.
  - intros (pre & post & E).
    apply toLowerCase_split in E as (s1 & r & E1 & E2 & E3).
    apply toLowerCase_split in E3 as (mid & s3 & E4 & E5 & E6).
    exists s1, mid, s3. split; [now rewrite E1, E4|]. now apply reads_lower.
  - intros (pre & mid & post & E & Hr). apply reads_lower in Hr; [|exact Hw].
    exists (Js.toLowerCase pre), (Js.toLowerCase post).
    now rewrite E, !toLowerCase_app, Hr.
Qed.

Lemma test_alternation_applies (terms : list string) (text : string) :
  Forall small terms ->
  Js.test_alternation terms (Js.toLowerCase text) = true <-> applies terms text.
Proof.
  intros Hs. unfold Js.test_alternation, applies. rewrite existsb_exists.
  rewrite Forall_forall in Hs. split.
  - intros (w & Hin & Hw). exists w. split; [exact Hin|].
    destruct (Hs w Hin) as [Hp Hl]. apply includes_occurs; [exact Hp|].
    now rewrite Hl.
  - intros (w & Hin & Hw). exists w. split; [exact Hin|].
    destruct (Hs w Hin) as [Hp Hl]. rewrite <- Hl.
    now apply includes_occurs.
Qed.

Lemma terms_small :
  Forall small weather_re /\ Forall small politics_re /\ Forall small sports_re
  /\ Forall small education_re /\ Forall small tourism_re
  /\ Forall small development_re.
Proof.
  repeat split; repeat (constructor; [split; reflexivity|]); constructor.
Qed.

(** categorizeArticle picks the first rule that applies. *)
Lemma categorizeArticle_selects (title excerpt cat : string) :
  categorizeArticle title excerpt = cat
  <-> selects rules (title ++ " " ++ excerpt) cat.
Proof.
  destruct terms_small as (H1 & H2 & H3 & H4 & H5 & H6).
  unfold categorizeArticle. cbv zeta.
  set (text := title ++ " " ++ excerpt).
  pose proof (test_alternation_applies weather_re text H1) as T1.
  pose proof (test_alternation_applies politics_re text H2) as T2.
  pose proof (test_alternation_applies sports_re text H3) as T3.
  pose proof (test_alternation_applies education_re text H4) as T4.
  pose proof (test_alternation_applies tourism_re text H5) as T5.
  pose proof (test_alternation_applies development_re text H6) as T6.
  unfold weather_re, politics_re, sports_re, education_re, tourism_re,
    development_re in *.
  cbn [selects rules].
  destruct (Js.test_alternation _ _);
    [split; [intros <-; left; split; [now apply T1|reflexivity]
            |intros [[_ E]|[N _]]; [now symmetry|exfalso; apply N; now apply T1]]|].
  assert (N1 : ~ applies ["weather"; "storm"; "hurricane"; "flood"; "tornado";
                          "forecast"] text)
    by (intros A; apply T1 in A; discriminate A).
  destruct (Js.test_alternation _ _);
    [split; [intros <-; right; split; [exact N1|]; left;
             split; [now apply T2|reflexivity]
            |intros [[A _]|[_ [[_ E]|[N _]]]];
             [contradiction|now symmetry|exfalso; apply N; now apply T2]]|].
  assert (N2 : ~ applies ["election"; "council"; "mayor"; "government"; "vote";
                          "policy"; "bill"] text)
    by (intros A; apply T2 in A; discriminate A).
  destruct (Js.test_alternation _ _);
    [split; [intros <-; right; split; [exact N1|]; right; split; [exact N2|];
             left; split; [now apply T3|reflexivity]
            |intros [[A _]|[_ [[A _]|[_ [[_ E]|[N _]]]]]];
             [contradiction|contradiction|now symmetry
             |exfalso; apply N; now apply T3]]|].
  assert (N3 : ~ applies ["football"; "basketball"; "baseball"; "sports"; "game";
                          "team"; "player"] text)
    by (intros A; apply T3 in A; discriminate A).
  destruct (Js.test_alternation _ _);
    [split; [intros <-; right; split; [exact N1|]; right; split; [exact N2|];
             right; split; [exact N3|]; left; split; [now apply T4|reflexivity]
            |intros [[A _]|[_ [[A _]|[_ [[A _]|[_ [[_ E]|[N _]]]]]]]];
             [contradiction|contradiction|contradiction|now symmetry
             |exfalso; apply N; now apply T4]]|].
  assert (N4 : ~ applies ["school"; "education"; "student"; "teacher";
                          "university"; "college"] text)
    by (intros A; apply T4 in A; discriminate A).
  destruct (Js.test_alternation _ _);
    [split; [intros <-; right; split; [exact N1|]; right; split; [exact N2|];
             right; split; [exact N3|]; right; split; [exact N4|];
             left; split; [now apply T5|reflexivity]
            |intros [[A _]|[_ [[A _]|[_ [[A _]|[_ [[A _]|[_ [[_ E]|[N _]]]]]]]]]];
             [contradiction|contradiction|contradiction|contradiction
             |now symmetry|exfalso; apply N; now apply T5]]|].
  assert (N5 : ~ applies ["beach"; "tourism"; "visitor"; "hotel"; "resort";
                          "festival"] text)
    by (intros A; apply T5 in A; discriminate A).
  destruct (Js.test_alternation _ _).
  - split.
    + intros <-. right; split; [exact N1|]; right; split; [exact N2|];
        right; split; [exact N3|]; right; split; [exact N4|];
        right; split; [exact N5|]. left. split; [now apply T6|reflexivity].
    + intros [[A _]|[_ [[A _]|[_ [[A _]|[_ [[A _]|[_ [[A _]|[_ [[_ E]|[N _]]]]]]]]]]]];
        try contradiction; [now symmetry|exfalso; apply N; now apply T6].
  - assert (N6 : ~ applies ["development"; "construction"; "zoning"; "building";
                            "property"] text)
      by (intros A; apply T6 in A; discriminate A).
    split.
    + intros <-. right; split; [exact N1|]; right; split; [exact N2|];
        right; split; [exact N3|]; right; split; [exact N4|];
        right; split; [exact N5|]; right; split; [exact N6|]. reflexivity.
    + intros [[A _]|[_ [[A _]|[_ [[A _]|[_ [[A _]|[_ [[A _]|[_ [[A _]|[_ E]]]]]]]]]]]];
        try contradiction. now symmetry.
Qed.

Lemma selects_first (pre post : list (list string * string))
    (terms : list string) (cat text : string) :
  (forall r, In r pre -> ~ applies (fst r) text) ->
  applies terms text ->
  selects (pre ++ (terms, cat) :: post)%list text cat.
Proof.
  induction pre as [|[ts c] pre IH]; simpl; intros Hpre Hhit.
  - now left.
  - right. split; [exact (Hpre (ts, c) (or_introl eq_refl))|].
    apply IH; auto.
Qed.

Lemma selects_default (rs : list (list string * string)) (text : string) :
  (forall r, In r rs -> ~ applies (fst r) text) -> selects rs text "local".
Proof.
  induction rs as [|[ts c] rs IH]; simpl; intros H; [reflexivity|].
  right. split; [exact (H (ts, c) (or_introl eq_refl))|]. apply IH; auto.
Qed.

Lemma occurs_app_l (w s t : string) : occurs w s -> occurs w (s ++ t).
Proof.
  intros (pre & mid & post & E & H). exists pre, mid, (post ++ t).
  split; [|exact H]. rewrite E.
  clear. induction pre as [|c pre IH]; simpl.
  - induction mid as [|c mid IH]; simpl; [reflexivity|now rewrite IH].
  - now rewrite IH.
Qed.

Lemma occurs_app_r (w s t : string) : occurs w t -> occurs w (s ++ t).
Proof.
  intros (pre & mid & post & E & H). exists (s ++ pre), mid, post.
  split; [|exact H]. rewrite E.
  clear. induction s as [|c s IH]; simpl; [reflexivity|now rewrite IH].
Qed.

(** C6. categorizeArticle is a function of the text "title excerpt": its
    result is the category of the first rule, in the order weather,
    politics, sports, education, tourism, development, one of whose terms
    occurs in that text, letter case ignored, and "local" when no rule has
    one; exactly one category is assigned, one of these seven; and an input
    that holds a weather term and a sports term is classified "weather". *)
Theorem categorizeArticle_first_rule_wins :
  (forall title excerpt cat,
     categorizeArticle title excerpt = cat
     <-> selects rules (title ++ " " ++ excerpt) cat)
  /\ (forall title excerpt pre terms cat post,
        rules = (pre ++ (terms, cat) :: post)%list ->
        (forall r, In r pre -> ~ applies (fst r) (title ++ " " ++ excerpt)) ->
        applies terms (title ++ " " ++ excerpt) ->
        categorizeArticle title excerpt = cat)
  /\ (forall title excerpt,
        (forall r, In r rules -> ~ applies (fst r) (title ++ " " ++ excerpt)) ->
        categorizeArticle title excerpt = "local")
  /\ (forall title excerpt, In (categorizeArticle title excerpt) categories)
  /\ (forall t1 e1 t2 e2,
        t1 ++ " " ++ e1 = t2 ++ " " ++ e2 ->
        categorizeArticle t1 e1 = categorizeArticle t2 e2)
  /\ (forall title excerpt w s,
        In w ["weather"; "storm"; "hurricane"; "flood"; "tornado"; "forecast"] ->
        In s ["football"; "basketball"; "baseball"; "sports"; "game"; "team";
              "player"] ->
        occurs w title \/ occurs w excerpt ->
        occurs s title \/ occurs s excerpt ->
        categorizeArticle title excerpt = "weather").
Proof.
  split; [exact categorizeArticle_selects|].
  split.
  { intros title excerpt pre terms cat post Hr Hpre Hhit.
    apply categorizeArticle_selects. rewrite Hr. now apply selects_first. }
  split.
  { intros title excerpt Hnone. apply categorizeArticle_selects.
    now apply selects_default. }
  split.
  { intros title excerpt. unfold categorizeArticle, categories.
    repeat match goal with
           | |- context [if ?b then _ else _] => destruct b
           end; simpl; auto 10. }
  split.
  { intros t1 e1 t2 e2 Heq.
    apply categorizeArticle_selects. rewrite Heq.
    now apply categorizeArticle_selects. }
  intros title excerpt w s Hw _ Hmw _.
  apply categorizeArticle_selects. cbn [selects rules]. left.
  split; [|reflexivity]. exists w. split; [exact Hw|].
  destruct Hmw as [H|H]; [now apply occurs_app_l|].
  now apply occurs_app_r, occurs_app_r.
Qed.

Lemma categorizeArticle_first_rule_wins_witness :
  (occurs "hurricane" "Football game delayed"
   \/ occurs "hurricane" "Hurricane WARNING for the coast")
  /\ (occurs "football" "Football game delayed"
      \/ occurs "football" "Hurricane WARNING for the coast")
  /\ categorizeArticle "Football game delayed" "Hurricane WARNING for the coast"
     = "weather"
  /\ categorizeArticle "County COUNCIL to vote on school zoning" ""
     = "politics"
  /\ categorizeArticle "Fish fry on Saturday" "Bring a chair" = "local".
Proof.
  assert (Hw : occurs "hurricane" "Football game delayed"
               \/ occurs "hurricane" "Hurricane WARNING for the coast").
  { right. exists "", "Hurricane", " WARNING for the coast".
    split; [reflexivity|]. cbn [reads].
    repeat (split; [first [left; reflexivity
                          |right; left; split; [split; vm_compute; lia|reflexivity]]|]).
    exact I. }
  assert (Hs : occurs "football" "Football game delayed"
               \/ occurs "football" "Hurricane WARNING for the coast").
  { left. exists "", "Football", " game delayed".
    split; [reflexivity|]. cbn [reads].
    repeat (split; [first [left; reflexivity
                          |right; left; split; [split; vm_compute; lia|reflexivity]]|]).
    exact I. }
  split; [exact Hw|]. split; [exact Hs|].
  split.
  { apply (proj2 (proj2 (proj2 (proj2 (proj2 categorizeArticle_first_rule_wins))))
             "Football game delayed" "Hurricane WARNING for the coast"
             "hurricane" "football"); simpl; auto. }
  destruct terms_small as (H1 & H2 & H3 & H4 & H5 & H6).
  split.
  { apply (proj1 (proj2 categorizeArticle_first_rule_wins)
             "County COUNCIL to vote on school zoning" ""
             [(["weather"; "storm"; "hurricane"; "flood"; "tornado"; "forecast"],
               "weather")]
             ["election"; "council"; "mayor"; "government"; "vote"; "policy";
              "bill"]
             "politics"
             (tl (tl rules)) eq_refl).
    - intros r [<-|[]] A. apply (test_alternation_applies _ _ H1) in A.
      vm_compute in A. discriminate A.
    - apply (test_alternation_applies _ _ H2). vm_compute. reflexivity. }
  apply (proj1 (proj2 (proj2 categorizeArticle_first_rule_wins))).
  intros r Hr A. simpl in Hr.
  destruct Hr as [<-|[<-|[<-|[<-|[<-|[<-|[]]]]]]]; cbn [fst] in A;
    [apply (test_alternation_applies _ _ H1) in A
    |apply (test_alternation_applies _ _ H2) in A
    |apply (test_alternation_applies _ _ H3) in A
    |apply (test_alternation_applies _ _ H4) in A
    |apply (test_alternation_applies _ _ H5) in A
    |apply (test_alternation_applies _ _ H6) in A];
    vm_compute in A; discriminate A.
Defined.

End CategorizeFacts.

(* --------------------------------------------------------------------- *)
(** ** Values of VARCHAR columns *)
(* --------------------------------------------------------------------- *)

Section VarcharFacts.
Import Schema.

Lemma excess_split (n : nat) (s : string) :
  s = Js.substring0 n s ++ excess n s.
Proof.
  revert s. induction n as [|n IH]; intros s; [reflexivity|].
  destruct s as [|c s]; [reflexivity|]. simpl. now rewrite <- IH.
Qed.

(** What a VARCHAR(n) column makes of a value: the value when it has at
    most [n] characters, its first [n] characters when what follows them is
    spaces only. *)
Lemma fit_Some (n : nat) (s s' : string) :
  fit n s = Some s' <->
  (String.length s <= n /\ s' = s)
  \/ (n < String.length s /\ String.length s' = n
      /\ exists pad, s = s' ++ pad /\ blank pad = true).
Proof.
  unfold fit. destruct (String.length s <=? n) eqn:E.
  - apply Nat.leb_le in E. split.
    + intros H. inversion H; subst. left. split; [exact E|reflexivity].
    + intros [[_ ->]|[H _]]; [reflexivity|lia].
  - apply Nat.leb_gt in E. split.
    + destruct (blank (excess n s)) eqn:B; [|discriminate].
      intros H. inversion H. right. split; [exact E|]. split.
      * rewrite substring0_length. lia.
      * exists (excess n s). split; [apply excess_split|exact B].
    + intros [[H _]|(_ & Hl & pad & Hs & Hb)]; [lia|].
      assert (Hcut : Js.substring0 n s = s' /\ excess n s = pad).
      { subst s n. clear. induction s' as [|c s' IH]; simpl.
        - split; [now destruct pad|now destruct pad].
        - destruct IH as [-> ->]. now split. }
      destruct Hcut as [-> ->]. now rewrite Hb.
Qed.

Lemma fit_length (n : nat) (s s' : string) :
  fit n s = Some s' -> String.length s' <= n.
Proof. intros H. apply fit_Some in H as [[H ->]|(_ & H & _)]; lia. Qed.

Lemma fit_short (n : nat) (s : string) :
  String.length s <= n -> fit n s = Some s.
Proof. intros H. apply fit_Some. now left. Qed.

Lemma fit_as_is (n : nat) (s s' : string) :
  fit n s = Some s' -> String.length s <= n -> s' = s.
Proof. intros H Hl. apply fit_Some in H as [[_ ->]|(H & _)]; [reflexivity|lia]. Qed.

Lemma fit_again (n : nat) (s s' : string) :
  fit n s = Some s' -> fit n s' = Some s'.
Proof. intros H. apply fit_short. now apply fit_length in H. Qed.

Lemma varchar_Ok (n : nat) (column : string) (v v' : option string) :
  varchar n column v = Ok v' ->
  match v, v' with
  | None, None => True
  | Some s, Some s' => fit n s = Some s'
  | _, _ => False
  end.
Proof.
  unfold varchar. destruct v as [s|]; [|intros H; now inversion H].
  destruct (fit n s) as [s'|]; [|discriminate]. intros H. now inversion H.
Qed.

Lemma append_nil_r (s : string) : s ++ "" = s.
Proof. induction s as [|c s IH]; simpl; now rewrite ?IH. Qed.

Lemma blank_spaces (s : string) : blank s = true <-> Words.spaces s.
Proof.
  unfold Words.spaces. induction s as [|c s IH]; simpl.
  - split; [intros _ c []|reflexivity].
  - rewrite andb_true_iff, IH. split.
    + intros [Hc Hs] x [<-|Hx]; [symmetry; now apply Ascii.eqb_eq|now apply Hs].
    + intros H. split; [apply Ascii.eqb_eq; apply H; now left|].
      intros x Hx. apply H. now right.
Qed.

Lemma fit_cut (n : nat) (s s' : string) : fit n s = Some s' <-> cut n s s'.
Proof.
  rewrite fit_Some. unfold cut. split.
  - intros [[Hl ->]|(Hl & Hn & pad & Hs & Hb)].
    + split; [exact Hl|]. exists "". split; [now rewrite append_nil_r|].
      split; [now apply blank_spaces|now left].
    + split; [lia|]. exists pad. split; [exact Hs|].
      split; [now apply blank_spaces|now right].
  - intros (Hl & pad & Hs & Hb & Hp).
    destruct pad as [|c pad].
    + left. rewrite append_nil_r in Hs. subst s'. now split.
    + destruct Hp as [Hp|Hp]; [discriminate|]. right.
      split; [subst s; rewrite length_append; simpl; lia|].
      split; [exact Hp|]. exists (String c pad). split; [exact Hs|].
      now apply blank_spaces.
Qed.

End VarcharFacts.

(* --------------------------------------------------------------------- *)
(** ** Article.create: upsert by url *)
(* --------------------------------------------------------------------- *)

Section CreateFacts.
Import Schema Article.

Lemma find_url_Some (u : string) (rows : list article_row) (r : article_row) :
  find_article_by_url u rows = Some r -> In r rows /\ a_url r = u.
Proof.
  intros H. apply find_some in H as [Hin Heq]. split; [exact Hin|].
  now apply String.eqb_eq.
Qed.

Lemma find_url_None (u : string) (rows : list article_row) :
  find_article_by_url u rows = None -> ~ In u (map a_url rows).
Proof.
  intros H Hin. apply in_map_iff in Hin as [r [Hr Hin]].
  pose proof (find_none _ _ H r Hin) as Hne. simpl in Hne.
  rewrite Hr, String.eqb_refl in Hne. discriminate.
Qed.

Lemma filter_url_absent (u : string) (rows : list article_row) :
  ~ In u (map a_url rows) -> filter (has_url u) rows = [].
Proof.
  induction rows as [|r rows IH]; simpl; intros H; [reflexivity|].
  unfold has_url at 1. destruct (String.eqb_spec (a_url r) u) as [E|E].
  - exfalso; apply H; now left.
  - apply IH. intros Hin; apply H; now right.
Qed.

Lemma filter_url_unique (u : string) (rows : list article_row) (r : article_row) :
  NoDup (map a_url rows) ->
  find_article_by_url u rows = Some r ->
  filter (has_url u) rows = [r].
Proof.
  induction rows as [|x rows IH]; simpl; intros Hnd Hfind; [discriminate|].
  inversion Hnd as [|? ? Hnotin Hnd']; subst.
  unfold has_url at 1.
  destruct (String.eqb_spec (a_url x) u) as [E|E].
  - inversion Hfind; subst. f_equal. now apply filter_url_absent.
  - now apply IH.
Qed.

Lemma update_by_url_urls (u : string) (f : article_row -> article_row)
    (rows : list article_row) :
  (forall r, a_url (f r) = a_url r) ->
  map a_url (update_by_url u f rows) = map a_url rows.
Proof.
  intros Hf. induction rows as [|r rows IH]; simpl; [reflexivity|].
  destruct (String.eqb (a_url r) u); simpl; now rewrite ?Hf, IH.
Qed.

Lemma update_by_url_find (u : string) (f : article_row -> article_row)
    (rows : list article_row) :
  (forall r, a_url (f r) = a_url r) ->
  find_article_by_url u (update_by_url u f rows)
  = option_map f (find_article_by_url u rows).
Proof.
  intros Hf. induction rows as [|r rows IH]; simpl; [reflexivity|].
  destruct (String.eqb (a_url r) u) eqn:E; simpl.
  - now rewrite Hf, E.
  - now rewrite E.
Qed.

Lemma find_url_app_new (u : string) (rows : list article_row) (r : article_row) :
  find_article_by_url u rows = None -> a_url r = u ->
  find_article_by_url u (rows ++ [r])%list = Some r.
Proof.
  intros Hnone Hu. induction rows as [|x rows IH]; simpl in *.
  - now rewrite Hu, String.eqb_refl.
  - destruct (String.eqb (a_url x) u); [discriminate|]. now apply IH.
Qed.

Lemma NoDup_urls_app_new (u : string) (rows : list article_row) (r : article_row) :
  NoDup (map a_url rows) -> ~ In u (map a_url rows) -> a_url r = u ->
  NoDup (map a_url (rows ++ [r])%list).
Proof.
  intros Hnd Hnotin Hu. rewrite map_app. simpl. rewrite Hu.
  now apply NoDup_snoc.
Qed.

(** The values a statement that got past its parameters works with. *)
Lemma propose_Ok (data : article_data) (p : proposal) :
  propose data = Ok p ->
  p_excerpt p = excerpt data /\ p_content p = content data
  /\ varchar 500 "title" (title data) = Ok (p_title p)
  /\ varchar 1000 "url" (url data) = Ok (p_url p)
  /\ published_at data <> Some InvalidDate.
Proof.
  unfold propose, bind.
  destruct (integer (source_id data)); [|discriminate].
  destruct (timestamp_of (published_at data)) eqn:Ed; [|discriminate].
  destruct (varchar 500 "title" (title data)); [|discriminate].
  destruct (varchar 1000 "url" (url data)); [|discriminate].
  destruct (varchar 200 "author" (author data)); [|discriminate].
  destruct (varchar 50 "category" (category data)); [|discriminate].
  destruct (varchar 20 "content_type" (content_type data)); [|discriminate].
  destruct (varchar 50 "platform" (platform data)); [|discriminate].
  destruct (varchar 1000 "image_url" (image_url data)); [|discriminate].
  intros H. inversion H; subst; clear H. cbn.
  repeat split. intros Hd. rewrite Hd in Ed. discriminate.
Qed.

Lemma conflict_update_url now ttl ex co (r : article_row) :
  a_url (conflict_update now ttl ex co r) = a_url r.
Proof. reflexivity. Qed.

(** Whatever the outcome, the statement touches the table articles and its
    sequence only, and the sequence moves by at most one. *)
Lemma create_beside (d d' : db) (data : article_data) (now : timestamp)
    (o : result article_row) :
  create d data now = (o, d') ->
  sources d' = sources d /\ tags d' = tags d /\ tags_id_seq d' = tags_id_seq d
  /\ article_tags d' = article_tags d
  /\ (articles_id_seq d' = articles_id_seq d
      \/ articles_id_seq d' = (articles_id_seq d + 1)%Z).
Proof.
  unfold create.
  destruct (propose data) as [p|e]; [|intros H; inversion H; auto 6].
  destruct (int_max <? articles_id_seq d + 1)%Z; [intros H; inversion H; auto 6|].
  destruct (required p) as [[[nt nu] nc]|e]; [|intros H; inversion H; simpl; auto 6].
  destruct (find_article_by_url nu (articles d));
    [intros H; inversion H; simpl; auto 6|].
  destruct (existsb _ (articles d)); [intros H; inversion H; simpl; auto 6|].
  destruct (references_source d (p_source_id p));
    intros H; inversion H; simpl; auto 6.
Qed.

(** A statement that fails leaves every table as it was. *)
Lemma create_Err (d d' : db) (data : article_data) (now : timestamp)
    (e : pg_error) :
  create d data now = (Err e, d') -> same_rows d d'.
Proof.
  intros H. destruct (create_beside _ _ _ _ _ H) as (Hs & Ht & _ & Hl & _).
  unfold same_rows. repeat split; auto. revert H. unfold create.
  destruct (propose data) as [p|e']; [|intros H; now inversion H].
  destruct (int_max <? articles_id_seq d + 1)%Z; [intros H; now inversion H|].
  destruct (required p) as [[[nt nu] nc]|e']; [|intros H; now inversion H].
  destruct (find_article_by_url nu (articles d)); [discriminate|].
  destruct (existsb _ (articles d)); [intros H; now inversion H|].
  destruct (references_source d (p_source_id p)); [discriminate|].
  intros H; now inversion H.
Qed.

Lemma create_Ok (d d' : db) (data : article_data) (now : timestamp)
    (row : article_row) :
  create d data now = (Ok row, d') ->
  exists t0 u0,
    title data = Some t0 /\ url data = Some u0 /\
    fit 500 t0 = Some (a_title row) /\ fit 1000 u0 = Some (a_url row) /\
    a_excerpt row = excerpt data /\
    a_content row = content data /\ a_updated_at row = now /\
    published_at data <> Some InvalidDate /\
    ((exists old,
        find_article_by_url (a_url row) (articles d) = Some old /\
        row = conflict_update now (a_title row) (excerpt data) (content data) old /\
        articles d' =
          update_by_url (a_url row)
            (conflict_update now (a_title row) (excerpt data) (content data))
            (articles d))
     \/ (find_article_by_url (a_url row) (articles d) = None /\
         a_created_at row = now /\
         a_id row = (articles_id_seq d + 1)%Z /\
         articles d' = (articles d ++ [row])%list)).
Proof.
  unfold create.
  destruct (propose data) as [p|e] eqn:Ep; [|discriminate].
  apply propose_Ok in Ep as (Hex & Hco & Ht & Hu & Hd).
  destruct (int_max <? articles_id_seq d + 1)%Z; [discriminate|].
  unfold required, bind.
  destruct (p_title p) as [ttl|]; [|discriminate].
  destruct (p_url p) as [u|]; [|discriminate].
  destruct (p_content_type p) as [ct|]; [|discriminate]. cbn [not_null].
  apply varchar_Ok in Ht, Hu.
  destruct (title data) as [t0|]; [|contradiction].
  destruct (url data) as [u0|]; [|contradiction].
  rewrite Hex, Hco.
  destruct (find_article_by_url u (articles d)) as [old|] eqn:Ef.
  - intros H. inversion H; subst; clear H.
    pose proof (find_url_Some _ _ _ Ef) as [_ Hold].
    exists t0, u0. cbn. rewrite Hold. repeat split; auto.
    left. exists old. auto.
  - destruct (existsb _ (articles d)); [discriminate|].
    destruct (references_source d (p_source_id p)); [|discriminate].
    intros H. inversion H; subst; clear H.
    exists t0, u0. cbn. repeat split; auto.
Qed.

Lemma create_keeps_urls_unique (d d' : db) (data : article_data)
    (now : timestamp) (row : article_row) :
  NoDup (map a_url (articles d)) ->
  create d data now = (Ok row, d') ->
  NoDup (map a_url (articles d'))
  /\ find_article_by_url (a_url row) (articles d') = Some row.
Proof.
  intros Hnd Hc.
  destruct (create_Ok _ _ _ _ _ Hc)
    as (t0 & u0 & _ & _ & _ & _ & _ & _ & _ & _
        & [(old & Hf & Hrow & Hd')|(Hf & _ & _ & Hd')]).
  - rewrite Hd'. split.
    + rewrite update_by_url_urls; auto.
    + rewrite update_by_url_find by auto. rewrite Hf. simpl. now rewrite <- Hrow.
  - rewrite Hd'. split.
    + apply (NoDup_urls_app_new (a_url row)); auto. now apply find_url_None.
    + now apply find_url_app_new.
Qed.

(** C1. Two successive successful calls of Article.create with the same url
    leave exactly one row for that url; its excerpt and content are those
    of the second call, its title is the title of the second call as a
    VARCHAR(500) column holds it, its url is the url as a VARCHAR(1000)
    column holds it (the value itself when it is within the length, cut to
    the length when what exceeds it is spaces only), its updated_at is the
    time of the second call, and its id and created_at are those the first
    call returned (the time of the first call when the url was new
    then). *)
Theorem create_twice_same_url
    (d d1 d2 : db) (data1 data2 : article_data) (t1 t2 : timestamp)
    (row1 row2 : article_row) (u : string) :
  NoDup (map a_url (articles d)) ->
  url data1 = Some u ->
  url data2 = Some u ->
  create d data1 t1 = (Ok row1, d1) ->
  create d1 data2 t2 = (Ok row2, d2) ->
  cut 1000 u (a_url row2)
  /\ (String.length u <= 1000 -> a_url row2 = u)
  /\ filter (has_url (a_url row2)) (articles d2) = [row2]
  /\ findByUrl d2 (a_url row2) = Some row2
  /\ (exists t, title data2 = Some t /\ cut 500 t (a_title row2)
                /\ (String.length t <= 500 -> a_title row2 = t))
  /\ a_excerpt row2 = excerpt data2
  /\ a_content row2 = content data2
  /\ a_updated_at row2 = t2
  /\ a_id row2 = a_id row1
  /\ a_created_at row2 = a_created_at row1
  /\ (findByUrl d (a_url row2) = None -> a_created_at row2 = t1).
Proof.
  intros Hnd Hu1 Hu2 Hc1 Hc2.
  destruct (create_keeps_urls_unique _ _ _ _ _ Hnd Hc1) as [Hnd1 Hf1].
  destruct (create_keeps_urls_unique _ _ _ _ _ Hnd1 Hc2) as [Hnd2 Hf2].
  destruct (create_Ok _ _ _ _ _ Hc1)
    as (s1 & u1 & _ & Hu1' & _ & Hr1 & _ & _ & _ & _ & Hcase1).
  destruct (create_Ok _ _ _ _ _ Hc2)
    as (s2 & u2 & Ht2 & Hu2' & Htt2 & Hr2 & He2 & Hco2 & Hup2 & _ & Hcase2).
  assert (E1 : u1 = u) by congruence. assert (E2 : u2 = u) by congruence.
  subst u1 u2.
  assert (Hsame : a_url row1 = a_url row2) by congruence.
  rewrite Hsame in Hf1.
  assert (Hold : row2 = conflict_update t2 (a_title row2) (excerpt data2)
                          (content data2) row1).
  { destruct Hcase2 as [(old & Hf & Hrow & _)|(Hf & _)]; congruence. }
  split; [now apply fit_cut|].
  split; [intros Hl; now apply (fit_as_is 1000)|].
  split; [now apply filter_url_unique|].
  split; [exact Hf2|].
  split.
  { exists s2. split; [exact Ht2|]. split; [now apply fit_cut|].
    intros Hl. now apply (fit_as_is 500). }
  repeat (split; [assumption|]).
  split; [now rewrite Hold|].
  split; [now rewrite Hold|].
  unfold findByUrl. intros Hnew. rewrite Hold. simpl.
  rewrite <- Hsame in Hnew.
  destruct Hcase1 as [(old & Hf & _)|(_ & Hcr & _)]; congruence.
Qed.

Lemma create_twice_same_url_witness :
  exists row1 d1 row2 d2,
    create fresh_db (observation "https://x.com/a" "Storm warning" "first") 10%N
      = (Ok row1, d1)
    /\ create d1 (observation "https://x.com/a" "Storm warning lifted" "second") 25%N
      = (Ok row2, d2)
    /\ filter (has_url "https://x.com/a") (articles d2) = [row2]
    /\ a_title row2 = "Storm warning lifted"
    /\ a_updated_at row2 = 25%N
    /\ a_created_at row2 = 10%N.
Proof.
  do 4 eexists.
  split; [reflexivity|]. split; [reflexivity|].
  pose proof (create_twice_same_url fresh_db _ _
                (observation "https://x.com/a" "Storm warning" "first")
                (observation "https://x.com/a" "Storm warning lifted" "second")
                10%N 25%N _ _ "https://x.com/a"
                (NoDup_nil _) eq_refl eq_refl eq_refl eq_refl)
    as (_ & _ & Hone & _ & _ & _ & _ & Hup & _ & _ & Hcr).
  split; [exact Hone|]. split; [reflexivity|]. split; [exact Hup|].
  exact (Hcr eq_refl).
Defined.

(** A title of 500 letters and a space is stored without the space, and a
    url of 1000 characters and a space is stored without it: after two
    calls with such values the row holds neither the title nor the url the
    second call supplied. *)
Lemma create_stores_padded_values_cut :
  (exists row1 d1 row2 d2,
     create fresh_db (observation "https://x.com/a" "Storm warning" "first") 10%N
       = (Ok row1, d1)
     /\ create d1 (observation "https://x.com/a" padded_title "second") 25%N
       = (Ok row2, d2)
     /\ String.length padded_title = 501
     /\ String.length (a_title row2) = 500
     /\ a_title row2 <> padded_title)
  /\ (exists row1 d1 row2 d2,
        create fresh_db (observation padded_url "Storm warning" "first") 10%N
          = (Ok row1, d1)
        /\ create d1 (observation padded_url "Storm warning lifted" "second") 25%N
          = (Ok row2, d2)
        /\ String.length padded_url = 1001
        /\ articles d2 = [row2]
        /\ a_url row2 <> padded_url
        /\ findByUrl d2 padded_url = None).
Proof.
  split.
  - do 4 eexists. split; [reflexivity|]. split; [vm_compute; reflexivity|].
    split; [reflexivity|]. split; [vm_compute; reflexivity|].
    intros H. apply (f_equal String.length) in H. vm_compute in H. discriminate.
  - do 4 eexists. split; [vm_compute; reflexivity|].
    split; [vm_compute; reflexivity|].
    split; [reflexivity|]. split; [reflexivity|].
    split; [|vm_compute; reflexivity].
    intros H. apply (f_equal String.length) in H. vm_compute in H. discriminate.
Qed.

End CreateFacts.

(* --------------------------------------------------------------------- *)
(** ** Article.addTags: tags, links and usage counters *)
(* --------------------------------------------------------------------- *)

Section TagFacts.
Import Schema Tags.

Lemma find_tag_Some (n : string) (rows : list tag_row) (r : tag_row) :
  find_tag_by_name n rows = Some r -> In r rows /\ t_name r = n.
Proof.
  intros H. apply find_some in H as [Hin Heq]. split; [exact Hin|].
  now apply String.eqb_eq.
Qed.

Lemma find_tag_None (n : string) (rows : list tag_row) :
  find_tag_by_name n rows = None -> ~ In n (map t_name rows).
Proof.
  intros H Hin. apply in_map_iff in Hin as [r [Hr Hin]].
  pose proof (find_none _ _ H r Hin) as Hne. simpl in Hne.
  rewrite Hr, String.eqb_refl in Hne. discriminate.
Qed.

Lemma find_tag_app (n : string) (rows : list tag_row) (r : tag_row) :
  find_tag_by_name n (rows ++ [r])%list
  = match find_tag_by_name n rows with
    | Some x => Some x
    | None => if String.eqb (t_name r) n then Some r else None
    end.
Proof.
  induction rows as [|x rows IH]; simpl; [reflexivity|].
  now destruct (String.eqb (t_name x) n).
Qed.

Lemma bump_same (i : Z) (r : tag_row) : same_tag r (bump i r).
Proof. unfold bump, same_tag. destruct (t_id r =? i)%Z; simpl; auto. Qed.

Lemma find_tag_bump (i : Z) (n : string) (rows : list tag_row) :
  find_tag_by_name n (map (bump i) rows)
  = option_map (bump i) (find_tag_by_name n rows).
Proof.
  induction rows as [|x rows IH]; simpl; [reflexivity|].
  destruct (bump_same i x) as (_ & Hn & _). rewrite Hn.
  now destruct (String.eqb (t_name x) n).
Qed.

Lemma map_bump_names (i : Z) (rows : list tag_row) :
  map t_name (map (bump i) rows) = map t_name rows.
Proof.
  rewrite map_map. apply map_ext. intros r. now destruct (bump_same i r) as (_ & H & _).
Qed.

Lemma map_bump_ids (i : Z) (rows : list tag_row) :
  map t_id (map (bump i) rows) = map t_id rows.
Proof.
  rewrite map_map. apply map_ext. intros r. now destruct (bump_same i r) as (H & _).
Qed.

Lemma increment_tag_count_Ok (i : Z) (rows rows' : list tag_row) :
  increment_tag_count i rows = Ok rows' -> rows' = map (bump i) rows.
Proof.
  revert rows'. induction rows as [|r rows IH]; simpl; intros rows' H.
  - now inversion H.
  - destruct (increment_tag_count i rows) as [rest|]; [|discriminate].
    simpl in H. unfold bump at 1. pose proof (IH rest eq_refl) as E. subst rest.
    destruct (t_id r =? i)%Z.
    + destruct (int_max <? t_count r + 1)%Z; [discriminate|]. now inversion H.
    + now inversion H.
Qed.

Lemma tag_id_injective (rows : list tag_row) (r r' : tag_row) :
  NoDup (map t_id rows) -> In r rows -> In r' rows -> t_id r = t_id r' -> r = r'.
Proof.
  induction rows as [|x rows IH]; simpl; intros Hnd Hr Hr' Hid; [easy|].
  inversion Hnd as [|? ? Hx Hnd']; subst.
  destruct Hr as [Hr|Hr], Hr' as [Hr'|Hr']; subst.
  - reflexivity.
  - exfalso. apply Hx. rewrite Hid. now apply in_map.
  - exfalso. apply Hx. rewrite <- Hid. now apply in_map.
  - now apply IH.
Qed.

Lemma linked_app (a t : Z) (links : list (Z * Z)) (a' t' : Z) :
  linked a t (links ++ [(a', t')])%list
  = linked a t links || ((a' =? a)%Z && (t' =? t)%Z).
Proof.
  unfold linked. rewrite existsb_app. simpl. now rewrite orb_false_r.
Qed.

Lemma linked_In (a t : Z) (links : list (Z * Z)) :
  linked a t links = true -> In (a, t) links.
Proof.
  unfold linked. intros H. apply existsb_exists in H as [[x y] [Hin H]].
  simpl in H. apply andb_true_iff in H as [Hx Hy].
  apply Z.eqb_eq in Hx, Hy. now subst.
Qed.

(** The upsert of a tag name leaves counters and links alone and makes the
    name, as the column holds it, resolve to the returned id. *)
Lemma upsert_tag_Ok (d d1 : db) (n ty : string) (now : timestamp) (id : Z) :
  consistent d ->
  upsert_tag d n ty now = (Ok id, d1) ->
  exists v,
    fit 100 n = Some v
    /\ consistent d1
    /\ article_tags d1 = article_tags d
    /\ articles d1 = articles d
    /\ (exists rn, find_tag_by_name v (tags d1) = Some rn /\ t_id rn = id)
    /\ (forall m, count_of d1 m = count_of d m)
    /\ (forall a m, has_tag d1 a m = has_tag d a m)
    /\ (forall r, In r (tags d) -> In r (tags d1)).
Proof.
  intros (Hnames & Hids & Hfk). unfold upsert_tag.
  destruct (fit 100 n) as [v|]; [|discriminate].
  destruct (fit 20 ty) as [vt|]; [|discriminate].
  destruct (int_max <? tags_id_seq d + 1)%Z; [discriminate|].
  exists v. split; [reflexivity|]. revert H.
  destruct (find_tag_by_name v (tags d)) as [old|] eqn:Ef.
  - intros H; inversion H; subst; clear H. simpl.
    repeat split; auto. exists old; auto.
  - destruct (existsb _ (tags d)) eqn:Epk; [discriminate|].
    intros H; inversion H; subst; clear H.
    set (id := (tags_id_seq d + 1)%Z) in *.
    set (row := {| t_id := id; t_name := v; t_type := vt; t_count := 0%Z;
                   t_created_at := now |}).
    assert (Hfresh : ~ In id (map t_id (tags d))).
    { intros Hin. apply in_map_iff in Hin as [r [Hr Hin]].
      assert (existsb (fun r => (t_id r =? id)%Z) (tags d) = true) as Hx.
      { apply existsb_exists. exists r. split; [exact Hin|]. now apply Z.eqb_eq. }
      congruence. }
    unfold consistent, count_of, has_tag. simpl.
    repeat split.
    + rewrite map_app. simpl. apply NoDup_snoc; [exact Hnames|].
      now apply find_tag_None.
    + rewrite map_app. simpl. now apply NoDup_snoc.
    + intros l Hl. rewrite map_app, in_app_iff. left. now apply Hfk.
    + exists row. rewrite find_tag_app, Ef. simpl. now rewrite String.eqb_refl.
    + intros m. rewrite find_tag_app.
      destruct (find_tag_by_name m (tags d)); [reflexivity|].
      simpl. now destruct (String.eqb v m).
    + intros aid m. rewrite find_tag_app.
      destruct (find_tag_by_name m (tags d)); [reflexivity|].
      simpl. destruct (String.eqb v m); [|reflexivity]. simpl.
      destruct (linked aid id (article_tags d)) eqn:El; [|reflexivity].
      exfalso. apply Hfresh. apply linked_In in El. exact (Hfk _ El).
    + intros r Hr. apply in_or_app. now left.
Qed.

(** Linking article [a] to the tag [id] named [n]: a new link bumps the
    counter of that tag and of no other; an existing link changes nothing. *)
Lemma link_tag_Ok (d d2 : db) (a id : Z) (n : string) (rn : tag_row) :
  consistent d ->
  find_tag_by_name n (tags d) = Some rn -> t_id rn = id ->
  link_tag d a id = Ok d2 ->
  consistent d2
  /\ articles d2 = articles d
  /\ (forall m, count_of d2 m
                = (count_of d m
                   + if String.eqb m n && negb (has_tag d a m) then 1 else 0)%Z)
  /\ (forall m, has_tag d2 a m = has_tag d a m || String.eqb m n)
  /\ (forall r, In r (tags d) -> exists r', In r' (tags d2) /\ same_tag r r').
Proof.
  intros (Hnames & Hids & Hfk) Hfn Hid. unfold link_tag.
  destruct (find_tag_Some _ _ _ Hfn) as [Hrn_in Hrn_name].
  assert (Hname_id : forall m r, find_tag_by_name m (tags d) = Some r ->
                                 (t_id r =? id)%Z = String.eqb m n).
  { intros m r Hfm. destruct (find_tag_Some _ _ _ Hfm) as [Hr_in Hr_name].
    destruct (Z.eqb_spec (t_id r) id) as [E|E].
    - assert (r = rn) by (apply (tag_id_injective (tags d)); auto; congruence).
      subst r. symmetry. apply String.eqb_eq. congruence.
    - symmetry. apply String.eqb_neq. intros Hmn. subst m.
      apply E. congruence. }
  assert (Hnone : forall m, find_tag_by_name m (tags d) = None ->
                            String.eqb m n = false).
  { intros m Hm. apply String.eqb_neq. intros ->. congruence. }
  destruct (negb (in_int4 a && in_int4 id)); [discriminate|].
  destruct (linked a id (article_tags d)) eqn:El.
  - intros H; inversion H; subst d2; clear H.
    repeat split; auto.
    + intros m. unfold count_of, has_tag.
      destruct (find_tag_by_name m (tags d)) as [r|] eqn:Em.
      * destruct (String.eqb_spec m n) as [->|_]; simpl; [|lia].
        assert (r = rn) by congruence. subst r. rewrite Hid, El. simpl. lia.
      * rewrite (Hnone m Em). simpl. lia.
    + intros m. unfold has_tag.
      destruct (find_tag_by_name m (tags d)) as [r|] eqn:Em.
      * destruct (String.eqb_spec m n) as [->|_]; [|now rewrite orb_false_r].
        assert (r = rn) by congruence. subst r. now rewrite Hid, El.
      * now rewrite (Hnone m Em).
    + intros r Hr. exists r. unfold same_tag. auto.
  - destruct (negb (existsb _ (articles d))); [discriminate|].
    destruct (negb (existsb _ (tags d))); [discriminate|].
    destruct (increment_tag_count id (tags d)) as [rows|] eqn:Ei; [|discriminate].
    apply increment_tag_count_Ok in Ei. subst rows. simpl.
    intros H; inversion H; subst d2; clear H.
    unfold consistent, count_of, has_tag. simpl.
    rewrite map_bump_names, map_bump_ids.
    repeat split; auto.
    + intros l Hl. apply in_app_or in Hl as [Hl|[<-|[]]]; [now apply Hfk|].
      simpl. rewrite <- Hid. now apply in_map.
    + intros m. rewrite find_tag_bump.
      destruct (find_tag_by_name m (tags d)) as [r|] eqn:Em; simpl.
      * unfold bump. rewrite (Hname_id m r Em).
        destruct (String.eqb_spec m n) as [->|_]; simpl; [|lia].
        assert (r = rn) by congruence. subst r. rewrite Hid, El. simpl. lia.
      * rewrite (Hnone m Em). simpl. lia.
    + intros m. rewrite find_tag_bump.
      destruct (find_tag_by_name m (tags d)) as [r|] eqn:Em; simpl.
      * destruct (bump_same id r) as (Hsame & _). rewrite Hsame.
        rewrite linked_app, Z.eqb_refl. simpl.
        rewrite (Z.eqb_sym id), (Hname_id m r Em). reflexivity.
      * now rewrite (Hnone m Em).
    + intros r Hr. exists (bump id r). split; [now apply in_map|apply bump_same].
Qed.

Lemma same_tag_trans (r1 r2 r3 : tag_row) :
  same_tag r1 r2 -> same_tag r2 r3 -> same_tag r1 r3.
Proof. unfold same_tag. intuition congruence. Qed.

Lemma held_names_cons (n v : string) (rest : list string) :
  fit 100 n = Some v -> held_names (n :: rest) = v :: held_names rest.
Proof. intros H. unfold held_names. simpl. now rewrite H. Qed.

Lemma held_names_In (v : string) (tagNames : list string) :
  In v (held_names tagNames) <-> exists n, In n tagNames /\ fit 100 n = Some v.
Proof.
  unfold held_names. rewrite in_flat_map. split.
  - intros (n & Hn & Hv). exists n. split; [exact Hn|].
    destruct (fit 100 n) as [w|]; [|contradiction].
    destruct Hv as [->|[]]. reflexivity.
  - intros (n & Hn & Hv). exists n. split; [exact Hn|]. rewrite Hv. now left.
Qed.

Lemma addTags_loop_Ok (tagNames : list string) :
  forall (d d' : db) (a : Z) (now : timestamp),
  consistent d ->
  addTags_loop d a tagNames now = (Ok tt, d') ->
  consistent d'
  /\ articles d' = articles d
  /\ Forall (fun n => fit 100 n <> None) tagNames
  /\ (forall m, count_of d' m
                = (count_of d m
                   + if existsb (String.eqb m) (held_names tagNames)
                        && negb (has_tag d a m)
                     then 1 else 0)%Z)
  /\ (forall m, has_tag d' a m
                = has_tag d a m || existsb (String.eqb m) (held_names tagNames))
  /\ (forall r, In r (tags d) -> exists r', In r' (tags d') /\ same_tag r r').
Proof.
  induction tagNames as [|n rest IH]; intros d d' a now Hok;
    cbn [addTags_loop].
  - intros H; inversion H; subst d'; clear H.
    split; [exact Hok|]. split; [reflexivity|]. split; [constructor|].
    split; [|split].
    + intros m. simpl. lia.
    + intros m. simpl. now rewrite orb_false_r.
    + intros r Hr. exists r. unfold same_tag; auto.
  - destruct (upsert_tag d n _ now) as [[id|e] d1] eqn:Eu; [|discriminate].
    destruct (link_tag d1 a id) as [d2|] eqn:El; [|discriminate].
    intros Hrest.
    destruct (upsert_tag_Ok _ _ _ _ _ _ Hok Eu)
      as (v & Hv & Hok1 & _ & Ha1 & (rn & Hfn & Hid) & Hc1 & Hh1 & Ht1).
    destruct (link_tag_Ok _ _ _ _ _ _ Hok1 Hfn Hid El)
      as (Hok2 & Ha2 & Hc2 & Hh2 & Ht2).
    destruct (IH _ _ _ _ Hok2 Hrest) as (Hok' & Ha' & Hfit & Hc' & Hh' & Ht').
    rewrite (held_names_cons n v rest Hv). simpl.
    split; [exact Hok'|].
    split; [congruence|].
    split; [constructor; [congruence|exact Hfit]|].
    split; [|split].
    + intros m. rewrite Hc', Hc2, Hh2, Hh1, Hc1.
      destruct (String.eqb m v), (existsb (String.eqb m) (held_names rest)),
               (has_tag d a m); simpl; lia.
    + intros m. rewrite Hh', Hh2, Hh1. now rewrite orb_assoc.
    + intros r Hr. destruct (Ht2 r (Ht1 r Hr)) as (r2 & Hr2 & Hs2).
      destruct (Ht' r2 Hr2) as (r' & Hr' & Hs').
      exists r'. split; [exact Hr'|]. now apply (same_tag_trans r r2 r').
Qed.

Lemma existsb_eqb_In (m : string) (l : list string) :
  existsb (String.eqb m) l = true <-> In m l.
Proof.
  rewrite existsb_exists. split.
  - intros [x [Hin Hx]]. apply String.eqb_eq in Hx. now subst.
  - intros Hin. exists m. split; [exact Hin|apply String.eqb_refl].
Qed.

(** A failing addTags leaves every table as it was. *)
Lemma addTags_Err (d d' : db) (a : Z) (tagNames : list string)
    (now : timestamp) (e : pg_error) :
  addTags d a tagNames now = (Err e, d') -> same_rows d d'.
Proof.
  unfold addTags. destruct (addTags_loop d a tagNames now) as [[[]|e'] d2];
    intros H; inversion H; subst; clear H.
  unfold same_rows. simpl. auto.
Qed.

(** C9. When Article.addTags commits, every tag name that was given exists
    as a tag, under the name the column tags.name holds for it (the name
    itself when it has at most 100 characters, its first 100 characters
    when the rest is spaces only), and is linked to the article; the usage
    counter of a tag went up by exactly one when the call created a link
    between the article and that tag, and did not move otherwise; every tag
    row that existed before is still there with its id, name, type and
    creation time.  When the call fails the transaction is rolled back: the
    rows of every table are as before (the sequence of tag ids keeps the
    values the call drew). *)
Theorem addTags_counts_each_new_link
    (d d' : db) (articleId : Z) (tagNames : list string) (now : timestamp)
    (outcome : result unit) :
  consistent d ->
  addTags d articleId tagNames now = (outcome, d') ->
  match outcome with
  | Ok _ =>
      (forall n, In n tagNames ->
                 exists v, cut 100 n v
                   /\ (String.length n <= 100 -> v = n)
                   /\ has_tag d' articleId v = true
                   /\ exists r, find_tag_by_name v (tags d') = Some r)
      /\ (forall v, has_tag d articleId v = false ->
                    has_tag d' articleId v = true ->
                    (exists n, In n tagNames /\ cut 100 n v)
                    /\ count_of d' v = (count_of d v + 1)%Z)
      /\ (forall v, has_tag d' articleId v = has_tag d articleId v ->
                    count_of d' v = count_of d v)
      /\ (forall r, In r (tags d) ->
                    exists r', In r' (tags d') /\ same_tag r r')
  | Err _ =>
      sources d' = sources d /\ articles d' = articles d
      /\ articles_id_seq d' = articles_id_seq d
      /\ tags d' = tags d /\ article_tags d' = article_tags d
  end.
Proof.
  intros Hok. unfold addTags.
  destruct (addTags_loop d articleId tagNames now) as [[[]|e] d2] eqn:El;
    intros H; inversion H; subst; clear H; [|simpl; auto].
  destruct (addTags_loop_Ok _ _ _ _ _ Hok El) as (_ & _ & Hfit & Hc & Hh & Ht).
  split; [|split; [|split]].
  - intros n Hin.
    destruct (fit 100 n) as [v|] eqn:Hv;
      [|exfalso; now apply (proj1 (Forall_forall _ _) Hfit n Hin)].
    exists v. split; [now apply fit_cut|].
    split; [intros Hl; now apply (fit_as_is 100)|].
    assert (Hl : has_tag d' articleId v = true).
    { rewrite Hh. apply orb_true_iff. right. apply existsb_eqb_In.
      apply held_names_In. now exists n. }
    split; [exact Hl|]. unfold has_tag in Hl.
    destruct (find_tag_by_name v (tags d')) as [r|]; [now exists r|discriminate].
  - intros v Hold Hnew. rewrite Hh, Hold in Hnew. simpl in Hnew.
    split.
    + apply existsb_eqb_In, held_names_In in Hnew as (n & Hn & Hv).
      exists n. split; [exact Hn|now apply fit_cut].
    + rewrite Hc, Hnew, Hold. reflexivity.
  - intros v Hsame. rewrite Hc. rewrite Hh in Hsame.
    destruct (has_tag d articleId v); simpl in *.
    + rewrite andb_false_r. lia.
    + rewrite Hsame. simpl. lia.
  - exact Ht.
Qed.

Lemma addTags_counts_each_new_link_witness :
  addTags one_article_db 1%Z ["#Storm"; "Foley"; "#Storm"] 11%N
  = (Ok tt, tagged_db)
  /\ count_of tagged_db "#Storm" = 1%Z
  /\ count_of tagged_db "Foley" = 1%Z
  /\ has_tag tagged_db 1%Z "Foley" = true
  /\ (exists d2,
        addTags one_article_db 1%Z [Article.letters 100 ++ " "] 11%N = (Ok tt, d2)
        /\ has_tag d2 1%Z (Article.letters 100) = true
        /\ count_of d2 (Article.letters 100) = 1%Z)
  /\ (exists e d2,
        addTags one_article_db 9%Z ["Foley"] 11%N = (Err e, d2)
        /\ tags d2 = [] /\ article_tags d2 = [] /\ tags_id_seq d2 = 1%Z).
Proof.
  assert (E : addTags one_article_db 1%Z ["#Storm"; "Foley"; "#Storm"] 11%N
              = (Ok tt, tagged_db)) by (vm_compute; reflexivity).
  assert (Hok : consistent one_article_db).
  { repeat split; simpl; try constructor. intros l []. }
  pose proof (addTags_counts_each_new_link one_article_db tagged_db 1%Z
                ["#Storm"; "Foley"; "#Storm"] 11%N (Ok tt) Hok E)
    as (Hin & Hnew & _ & _).
  split; [exact E|].
  split; [refine (proj2 (Hnew "#Storm" _ _)); vm_compute; reflexivity|].
  split; [refine (proj2 (Hnew "Foley" _ _)); vm_compute; reflexivity|].
  split.
  { destruct (Hin "Foley" (or_intror (or_introl eq_refl))) as (v & _ & Hv & Hl & _).
    rewrite <- (Hv (proj1 (Nat.leb_le 5 100) eq_refl)). exact Hl. }
  split.
  - eexists. split; [vm_compute; reflexivity|]. split; vm_compute; reflexivity.
  - do 2 eexists. split; [vm_compute; reflexivity|]. repeat split.
Defined.

End TagFacts.

(* --------------------------------------------------------------------- *)
(** ** What the scrapers add to the event log *)
(* --------------------------------------------------------------------- *)

Section ObserveFacts.
Import Schema Effects Web BaseScraper Observe.

Lemma adds_ret {A : Type} (P : event -> Prop) (a : A) : adds P (ret a).
Proof. intros w. exists []. simpl. now rewrite app_nil_r. Qed.

Lemma adds_throw {A : Type} (P : event -> Prop) (e : exn) : adds P (@throw A e).
Proof. intros w. exists []. simpl. now rewrite app_nil_r. Qed.

Lemma adds_bind {A B : Type} (P : event -> Prop) (m : M A) (k : A -> M B) :
  adds P m -> (forall a, adds P (k a)) -> adds P (bind m k).
Proof.
  intros Hm Hk w. destruct (Hm w) as (l1 & E1 & F1). unfold bind.
  destruct (m w) as [[a|e] w1]; simpl in *.
  - destruct (Hk a w1) as (l2 & E2 & F2). exists (l1 ++ l2)%list.
    rewrite E2, E1, app_assoc. split; [reflexivity|]. now apply Forall_app.
  - now exists l1.
Qed.

Lemma adds_try_catch {A : Type} (P : event -> Prop) (m : M A) (h : exn -> M A) :
  adds P m -> (forall e, adds P (h e)) -> adds P (try_catch m h).
Proof.
  intros Hm Hh w. destruct (Hm w) as (l1 & E1 & F1). unfold try_catch.
  destruct (m w) as [[a|e] w1]; simpl in *.
  - now exists l1.
  - destruct (Hh e w1) as (l2 & E2 & F2). exists (l1 ++ l2)%list.
    rewrite E2, E1, app_assoc. split; [reflexivity|]. now apply Forall_app.
Qed.

Lemma adds_emit (P : event -> Prop) (e : event) : P e -> adds P (emit e).
Proof. intros He w. exists [e]. simpl. split; [reflexivity|]. now constructor. Qed.

Lemma adds_pass (P : event -> Prop) (ms : N) : adds P (pass ms).
Proof. intros w. exists []. simpl. now rewrite app_nil_r. Qed.

Lemma adds_now (P : event -> Prop) : adds P now.
Proof. intros w. exists []. simpl. now rewrite app_nil_r. Qed.

Lemma adds_on_store {A : Type} (P : event -> Prop) (q : db -> result A * db) :
  adds P (on_store q).
Proof.
  intros w. exists []. unfold on_store.
  destruct (q (store w)) as [[a|e] d]; simpl; now rewrite app_nil_r.
Qed.

Lemma adds_read_store {A : Type} (P : event -> Prop) (q : db -> A) :
  adds P (read_store q).
Proof. intros w. exists []. simpl. now rewrite app_nil_r. Qed.

Lemma adds_new_events {A : Type} (P : event -> Prop) (m : M A) (w : world) :
  adds P m -> log (snd (m w)) = (log w ++ new_events m w)%list
              /\ Forall P (new_events m w).
Proof.
  intros H. destruct (H w) as (l & E & F). unfold new_events.
  rewrite E, skipn_app, skipn_all, Nat.sub_diag. simpl. auto.
Qed.

Ltac adds_step :=
  match goal with
  | |- adds _ (bind _ _) => apply adds_bind; [|intros ?]
  | |- adds _ (try_catch _ _) => apply adds_try_catch; [|intros ?]
  | |- adds _ (ret _) => apply adds_ret
  | |- adds _ (throw _) => apply adds_throw
  | |- adds _ now => apply adds_now
  | |- adds _ (pass _) => apply adds_pass
  | |- adds _ (on_store _) => apply adds_on_store
  | |- adds _ (read_store _) => apply adds_read_store
  | |- adds _ (match ?x with _ => _ end) => destruct x
  | |- adds _ (if ?b then _ else _) => destruct b
  end.

Lemma adds_Article_addTags (P : event -> Prop) (id : Z) (names : list string) :
  P (ArticleAddTags id names) -> adds P (Article_addTags id names).
Proof.
  intros HP. unfold Article_addTags. apply adds_bind; [now apply adds_emit|].
  intros _ w. exists [].
  destruct (Tags.addTags (store w) id names (clock w)) as [[u|e] d];
    simpl; now rewrite app_nil_r.
Qed.

Lemma adds_saveArticle (P : event -> Prop) (self : scraper) (a : articleData) :
  P (ArticleCreate (with_defaults self a)) ->
  (forall id, P (ArticleAddTags id (tags a))) ->
  adds P (saveArticle self a).
Proof.
  intros Hc Ht. unfold saveArticle, Article_create.
  repeat adds_step; try (now apply adds_emit).
  now apply adds_Article_addTags.
Qed.

Lemma adds_collect {X : Type} (P : event -> Prop)
    (process : X -> M (option article_row)) (blocks : list X) :
  (forall b, adds P (process b)) -> adds P (collect process blocks).
Proof.
  intros Hp. induction blocks as [|b rest IH]; simpl; repeat adds_step; auto.
Qed.

Lemma adds_fetchHTML (P : event -> Prop) (net : internet) (self : scraper)
    (url : string) :
  P (HttpGet url (userAgent self) 30000%N) -> P (Sleep (delay self)) ->
  adds P (fetchHTML net self url).
Proof.
  intros Hg Hs. unfold fetchHTML, sleep.
  repeat adds_step; now apply adds_emit.
Qed.

(* --------------------------------------------------------------------- *)
(** ** Truncation of what the extractors hand to the store *)
(* --------------------------------------------------------------------- *)

Lemma adds_weaken {A : Type} (P Q : event -> Prop) (m : M A) :
  (forall e, P e -> Q e) -> adds P m -> adds Q m.
Proof.
  intros HPQ Hm w. destruct (Hm w) as (l & E & F). exists l.
  split; [exact E|]. eapply Forall_impl; eauto.
Qed.

Lemma cut_from_capped (t x : string) (data : Article.article_data) :
  cut_from t x data -> title_excerpt_capped data.
Proof.
  intros [Ht Hx]. unfold title_excerpt_capped. rewrite Ht, Hx.
  split; apply Nat.leb_le; rewrite substring0_length; apply Nat.le_min_l.
Qed.

Lemma processArticleElement_cuts (net : internet) (self : scraper)
    (el : article_element) :
  adds (handed_over (fun data =>
          cut_from (cleanText (title_text el)) (cleanText (excerpt_text el)) data
          /\ Article.content data = None))
       (CheerioScraper.processArticleElement net self el).
Proof.
  unfold CheerioScraper.processArticleElement.
  repeat adds_step.
  apply adds_saveArticle.
  - simpl. unfold cut_from. simpl. auto.
  - intros id. exact I.
Qed.

Lemma processItem_cuts (net : internet) (self : RSSScraper.rss_scraper)
    (item : feed_item) :
  adds (handed_over (fun data =>
          cut_from (RSSScraper.or_empty (item_title item))
                   (RSSScraper.excerpt_of item) data
          /\ Article.content data = Some (RSSScraper.content_of item)))
       (RSSScraper.processItem net self item).
Proof.
  unfold RSSScraper.processItem, RSSScraper.checkIfExists.
  repeat adds_step.
  apply adds_saveArticle.
  - simpl. unfold cut_from. simpl. auto.
  - intros id. exact I.
Qed.

Lemma tweet_title_length (body : string) :
  String.length (tweet_title body) <= 103.
Proof.
  unfold tweet_title. destruct (100 <? String.length body) eqn:E.
  - rewrite length_append, substring0_length.
    change (String.length "...") with 3.
    pose proof (Nat.le_min_l 100 (String.length body)). lia.
  - apply Nat.ltb_ge in E. lia.
Qed.

Lemma processTweetElement_whole_body (net : internet)
    (self : NitterScraper.nitter_scraper) (el : tweet_element) :
  adds (handed_over (tweet_of (cleanText (tweet_content_text el))))
       (NitterScraper.processTweetElement net self el).
Proof.
  unfold NitterScraper.processTweetElement.
  repeat adds_step.
  apply adds_saveArticle.
  - simpl. unfold tweet_of. simpl. auto.
  - intros id. exact I.
Qed.

(** C8. CheerioScraper hands each article to Article.create with the first
    500 characters of the cleaned title, the first 1000 characters of the
    cleaned excerpt and no content; RSSScraper with the first 500
    characters of the item title, the first 1000 of the item excerpt, and
    the item content whole; NitterScraper with the whole tweet body as
    excerpt and as content and, as title, the body or its first 100
    characters followed by "..." when it is longer.  So every title handed
    over has at most 500 characters (103 from NitterScraper) and every
    excerpt from CheerioScraper and RSSScraper at most 1000; the cut is
    substring(0, n), a prefix of the text with nothing added. *)
Theorem extractors_truncate_title_and_excerpt :
  (forall net self el,
     adds (handed_over (fun data =>
             cut_from (cleanText (title_text el)) (cleanText (excerpt_text el)) data
             /\ Article.content data = None))
          (CheerioScraper.processArticleElement net self el))
  /\ (forall net self item,
        adds (handed_over (fun data =>
                cut_from (RSSScraper.or_empty (item_title item))
                         (RSSScraper.excerpt_of item) data
                /\ Article.content data = Some (RSSScraper.content_of item)))
             (RSSScraper.processItem net self item))
  /\ (forall net self el,
        adds (handed_over (tweet_of (cleanText (tweet_content_text el))))
             (NitterScraper.processTweetElement net self el))
  /\ (forall net self,
        adds (handed_over title_excerpt_capped) (CheerioScraper.scrape net self))
  /\ (forall net self,
        adds (handed_over title_excerpt_capped) (RSSScraper.scrape net self))
  /\ (forall net self,
        adds (handed_over (fun data => at_most 103 (Article.title data) = true))
             (NitterScraper.scrape net self))
  /\ (forall n s,
        String.length (Js.substring0 n s) = Nat.min n (String.length s)
        /\ exists rest, s = Js.substring0 n s ++ rest).
Proof.
  split; [exact processArticleElement_cuts|].
  split; [exact processItem_cuts|].
  split; [exact processTweetElement_whole_body|].
  split; [|split; [|split]].
  - intros net self. unfold CheerioScraper.scrape.
    apply adds_try_catch; [|intros e; apply adds_throw].
    apply adds_bind; [apply adds_fetchHTML; exact I|].
    intros page. apply adds_collect. intros el.
    eapply adds_weaken; [|apply processArticleElement_cuts].
    intros [] H; simpl in *; auto. destruct H as [H _].
    now apply cut_from_capped in H.
  - intros net self. unfold RSSScraper.scrape.
    apply adds_try_catch; [|intros e; apply adds_throw].
    apply adds_bind; [now apply adds_emit|]. intros _.
    destruct (parseURL net (RSSScraper.rssUrl self)); [|apply adds_throw].
    apply adds_collect. intros item.
    eapply adds_weaken; [|apply processItem_cuts].
    intros [] H; simpl in *; auto. destruct H as [H _].
    now apply cut_from_capped in H.
  - intros net self. unfold NitterScraper.scrape.
    apply adds_try_catch; [|intros e; apply adds_throw].
    apply adds_bind; [apply adds_fetchHTML; exact I|].
    intros page. apply adds_collect. intros el.
    eapply adds_weaken; [|apply processTweetElement_whole_body].
    intros [] H; simpl in *; auto. destruct H as (H & _). rewrite H. simpl.
    apply Nat.leb_le. apply tweet_title_length.
  - intros n s. split; [apply substring0_length|apply substring0_prefix].
Qed.

(** The specification as worded fails: a feed item whose content:encoded holds 1001
    characters reaches Article.create with all 1001 of them. *)
Lemma rss_content_is_not_truncated :
  map within_caps
    (created (new_events
                (RSSScraper.scrape (one_feed [long_item 1001])
                   (RSSScraper.constructor no_env "AL.com Baldwin" feed_config))
                start))
  = [false]
  /\ map (fun d => option_map String.length (Article.content d))
       (created (new_events
                   (RSSScraper.scrape (one_feed [long_item 1001])
                      (RSSScraper.constructor no_env "AL.com Baldwin" feed_config))
                   start))
     = [Some 1001].
Proof. split; vm_compute; reflexivity. Qed.

(* --------------------------------------------------------------------- *)
(** ** Which requests the extractors make *)
(* --------------------------------------------------------------------- *)

Lemma new_events_of_log {A : Type} (m : M A) (w : world) (l : list event) :
  log (snd (m w)) = (log w ++ l)%list -> new_events m w = l.
Proof.
  intros E. unfold new_events.
  now rewrite E, skipn_app, skipn_all, Nat.sub_diag.
Qed.

Lemma store_calls_polite (ua : string) (d : Z) (l : list event) :
  Forall is_store_call l -> polite ua d l = true.
Proof.
  induction 1 as [|e l He _ IH]; [reflexivity|].
  destruct e; simpl in *; try contradiction; exact IH.
Qed.

Lemma store_calls_no_fetch (l : list event) :
  Forall is_store_call l -> filter is_fetch l = [].
Proof.
  induction 1 as [|e l He _ IH]; [reflexivity|].
  destruct e; simpl in *; try contradiction; exact IH.
Qed.

Lemma processArticleElement_store_calls (net : internet) (self : scraper)
    (el : article_element) :
  adds is_store_call (CheerioScraper.processArticleElement net self el).
Proof.
  unfold CheerioScraper.processArticleElement.
  repeat adds_step. apply adds_saveArticle; [exact I|intros id; exact I].
Qed.

Lemma processItem_store_calls (net : internet) (self : RSSScraper.rss_scraper)
    (item : feed_item) :
  adds is_store_call (RSSScraper.processItem net self item).
Proof.
  unfold RSSScraper.processItem, RSSScraper.checkIfExists.
  repeat adds_step. apply adds_saveArticle; [exact I|intros id; exact I].
Qed.

Lemma processTweetElement_store_calls (net : internet)
    (self : NitterScraper.nitter_scraper) (el : tweet_element) :
  adds is_store_call (NitterScraper.processTweetElement net self el).
Proof.
  unfold NitterScraper.processTweetElement.
  repeat adds_step. apply adds_saveArticle; [exact I|intros id; exact I].
Qed.

(** fetchHTML: the request with the scraper's user agent and the 30 s
    timeout, then, on a response only, sleep(delay), which lasts as long as
    the timer of setTimeout(resolve, delay). *)
Lemma fetchHTML_run (net : internet) (self : scraper) (url : string) (w : world) :
  fetchHTML net self url w =
  match axios_get net url with
  | Responded data =>
      (Returned data,
       {| store := store w; clock := (clock w + Js.timer_delay (delay self))%N;
          log := (log w ++ [HttpGet url (userAgent self) 30000%N;
                            Sleep (delay self)])%list |})
  | Failed message =>
      (Thrown (NetworkError message),
       {| store := store w; clock := clock w;
          log := (log w ++ [HttpGet url (userAgent self) 30000%N])%list |})
  end.
Proof.
  unfold fetchHTML, try_catch, bind, sleep, bind, emit, pass, ret, throw. simpl.
  destruct (axios_get net url); simpl; [|reflexivity].
  now rewrite <- app_assoc.
Qed.

(** A scrape() that starts with fetchHTML and then only calls the store. *)
Lemma scrape_through_fetchHTML {X : Type} (net : internet) (self : scraper)
    (process : X -> M (option article_row)) (blocks : document -> list X)
    (w : world) :
  (forall b, adds is_store_call (process b)) ->
  exists l,
    Forall is_store_call l /\
    new_events
      (try_catch
         (bind (fetchHTML net self (sourceUrl self))
               (fun page => collect process (blocks page)))
         (fun error => throw error)) w
    = match axios_get net (sourceUrl self) with
      | Responded _ =>
          HttpGet (sourceUrl self) (userAgent self) 30000%N
            :: Sleep (delay self) :: l
      | Failed _ => [HttpGet (sourceUrl self) (userAgent self) 30000%N]
      end.
Proof.
  intros Hp.
  destruct (axios_get net (sourceUrl self)) as [page|msg] eqn:Eg.
  - pose (w1 := {| store := store w; clock := (clock w + Js.timer_delay (delay self))%N;
                   log := (log w ++ [HttpGet (sourceUrl self) (userAgent self)
                                       30000%N;
                                     Sleep (delay self)])%list |}).
    destruct (adds_collect is_store_call process (blocks page) Hp w1)
      as (l & E & F).
    exists l. split; [exact F|].
    apply new_events_of_log. unfold try_catch, bind.
    rewrite fetchHTML_run, Eg. fold w1.
    destruct (collect process (blocks page) w1) as [[r|e] w2];
      simpl in *; rewrite E; unfold w1; simpl; now rewrite <- app_assoc.
  - exists []. split; [constructor|].
    apply new_events_of_log. unfold try_catch, bind.
    now rewrite fetchHTML_run, Eg.
Qed.

Lemma polite_fetch_then_store (ua : string) (d : Z) (url : string)
    (l : list event) :
  Forall is_store_call l ->
  polite ua d (HttpGet url ua 30000%N :: Sleep d :: l) = true.
Proof.
  intros F. simpl. rewrite String.eqb_refl, Z.eqb_refl. simpl.
  now apply store_calls_polite.
Qed.

(** C7. fetchHTML sends the request with the scraper's user agent (the
    BaldwinNewsBot string unless USER_AGENT is set) and a 30000 ms timeout
    and, when a response arrives, calls sleep(delay) before it returns;
    when the request fails it rethrows without sleeping.  The delay is
    parseInt(SCRAPE_DELAY_MS) || 2000: 2000 when the variable is unset, not
    a number or 0, its value otherwise, negative values included.  The
    sleep lasts [delay] ms when 1 <= delay <= 2147483647 and 1 ms
    otherwise, as setTimeout has it.  CheerioScraper.scrape,
    CheerioScraper.scrapeArticleContent and NitterScraper.scrape fetch
    their page through fetchHTML, once, and make no other request.
    RSSScraper.scrape does not: its only request is parser.parseURL on the
    feed url, with no fetchHTML request and no sleep. *)
Theorem page_scrapers_fetch_through_fetchHTML :
  (forall net self url w,
     fetchHTML net self url w =
     match axios_get net url with
     | Responded data =>
         (Returned data,
          {| store := store w; clock := (clock w + Js.timer_delay (delay self))%N;
             log := (log w ++ [HttpGet url (userAgent self) 30000%N;
                               Sleep (delay self)])%list |})
     | Failed message =>
         (Thrown (NetworkError message),
          {| store := store w; clock := clock w;
             log := (log w ++ [HttpGet url (userAgent self) 30000%N])%list |})
     end)
  /\ (forall net self w,
        exists l,
          Forall is_store_call l /\
          new_events (CheerioScraper.scrape net self) w
          = match axios_get net (sourceUrl self) with
            | Responded _ =>
                HttpGet (sourceUrl self) (userAgent self) 30000%N
                  :: Sleep (delay self) :: l
            | Failed _ => [HttpGet (sourceUrl self) (userAgent self) 30000%N]
            end)
  /\ (forall net self w,
        exists l,
          Forall is_store_call l /\
          new_events (NitterScraper.scrape net self) w
          = match axios_get net (sourceUrl (NitterScraper.base self)) with
            | Responded _ =>
                HttpGet (sourceUrl (NitterScraper.base self))
                        (userAgent (NitterScraper.base self)) 30000%N
                  :: Sleep (delay (NitterScraper.base self)) :: l
            | Failed _ =>
                [HttpGet (sourceUrl (NitterScraper.base self))
                         (userAgent (NitterScraper.base self)) 30000%N]
            end)
  /\ (forall net self url w,
        new_events (CheerioScraper.scrapeArticleContent net self url) w
        = match axios_get net url with
          | Responded _ =>
              [HttpGet url (userAgent self) 30000%N; Sleep (delay self)]
          | Failed _ => [HttpGet url (userAgent self) 30000%N]
          end)
  /\ (forall net self w,
        match axios_get net (sourceUrl self) with
        | Responded _ =>
            polite (userAgent self) (delay self)
              (new_events (CheerioScraper.scrape net self) w) = true
        | Failed _ =>
            polite (userAgent self) (delay self)
              (new_events (CheerioScraper.scrape net self) w) = false
        end)
  /\ (forall net self w,
        match axios_get net (sourceUrl (NitterScraper.base self)) with
        | Responded _ =>
            polite (userAgent (NitterScraper.base self))
                   (delay (NitterScraper.base self))
              (new_events (NitterScraper.scrape net self) w) = true
        | Failed _ =>
            polite (userAgent (NitterScraper.base self))
                   (delay (NitterScraper.base self))
              (new_events (NitterScraper.scrape net self) w) = false
        end)
  /\ (forall net self w,
        exists l,
          Forall is_store_call l /\
          new_events (RSSScraper.scrape net self) w
          = FeedFetch (RSSScraper.rssUrl self) :: l)
  /\ (forall net self w ua d,
        polite ua d (new_events (RSSScraper.scrape net self) w) = false)
  /\ (forall name c,
        userAgent (BaseScraper.constructor no_env name c) = default_user_agent
        /\ delay (BaseScraper.constructor no_env name c) = 2000%Z)
  /\ (forall env name c,
        delay (BaseScraper.constructor env name c)
        = match SCRAPE_DELAY_MS env with
          | Some ms => if (ms =? 0)%Z then 2000%Z else ms
          | None => 2000%Z
          end)
  /\ (forall ms,
        ((1 <= ms <= 2147483647)%Z -> Js.timer_delay ms = Z.to_N ms)
        /\ ((ms < 1)%Z \/ (2147483647 < ms)%Z -> Js.timer_delay ms = 1%N)).
Proof.
  assert (HC : forall net self w,
             exists l,
               Forall is_store_call l /\
               new_events (CheerioScraper.scrape net self) w
               = match axios_get net (sourceUrl self) with
                 | Responded _ =>
                     HttpGet (sourceUrl self) (userAgent self) 30000%N
                       :: Sleep (delay self) :: l
                 | Failed _ => [HttpGet (sourceUrl self) (userAgent self) 30000%N]
                 end).
  { intros net self w.
    exact (scrape_through_fetchHTML net self
             (CheerioScraper.processArticleElement net self) article_elements w
             (processArticleElement_store_calls net self)). }
  assert (HN : forall net self w,
             exists l,
               Forall is_store_call l /\
               new_events (NitterScraper.scrape net self) w
               = match axios_get net (sourceUrl (NitterScraper.base self)) with
                 | Responded _ =>
                     HttpGet (sourceUrl (NitterScraper.base self))
                             (userAgent (NitterScraper.base self)) 30000%N
                       :: Sleep (delay (NitterScraper.base self)) :: l
                 | Failed _ =>
                     [HttpGet (sourceUrl (NitterScraper.base self))
                              (userAgent (NitterScraper.base self)) 30000%N]
                 end).
  { intros net self w.
    exact (scrape_through_fetchHTML net (NitterScraper.base self)
             (NitterScraper.processTweetElement net self) timeline_items w
             (processTweetElement_store_calls net self)). }
  assert (HR : forall net self w,
             exists l,
               Forall is_store_call l /\
               new_events (RSSScraper.scrape net self) w
               = FeedFetch (RSSScraper.rssUrl self) :: l).
  { intros net self w.
    pose (w1 := {| store := store w; clock := clock w;
                   log := (log w ++ [FeedFetch (RSSScraper.rssUrl self)])%list |}).
    destruct (parseURL net (RSSScraper.rssUrl self)) as [items|msg] eqn:Ep.
    - destruct (adds_collect is_store_call (RSSScraper.processItem net self)
                  items (processItem_store_calls net self) w1) as (l & E & F).
      exists l. split; [exact F|]. apply new_events_of_log.
      unfold RSSScraper.scrape, try_catch, bind, emit. rewrite Ep. fold w1.
      destruct (collect (RSSScraper.processItem net self) items w1)
        as [[r|e] w2]; simpl in *; rewrite E; unfold w1; simpl;
        now rewrite <- app_assoc.
    - exists []. split; [constructor|]. apply new_events_of_log.
      unfold RSSScraper.scrape, try_catch, bind, emit. now rewrite Ep. }
  split; [exact fetchHTML_run|].
  split; [exact HC|].
  split; [exact HN|].
  split.
  { intros net self url w. apply new_events_of_log.
    unfold CheerioScraper.scrapeArticleContent, try_catch, bind.
    rewrite fetchHTML_run. now destruct (axios_get net url). }
  split.
  { intros net self w. destruct (HC net self w) as (l & F & E). rewrite E.
    destruct (axios_get net (sourceUrl self)).
    - now apply polite_fetch_then_store.
    - simpl. now rewrite String.eqb_refl. }
  split.
  { intros net self w. destruct (HN net self w) as (l & F & E). rewrite E.
    destruct (axios_get net (sourceUrl (NitterScraper.base self))).
    - now apply polite_fetch_then_store.
    - simpl. now rewrite String.eqb_refl. }
  split; [exact HR|].
  split.
  { intros net self w ua d. destruct (HR net self w) as (l & _ & E).
    now rewrite E. }
  split; [intros name c; split; reflexivity|].
  split.
  { intros env name c. simpl. destruct (SCRAPE_DELAY_MS env) as [[|ms|ms]|];
      reflexivity. }
  intros ms. unfold Js.timer_delay. split.
  - intros [H1 H2]. apply Z.leb_le in H1, H2. now rewrite H1, H2.
  - intros [H|H].
    + apply Z.leb_gt in H. now rewrite H.
    + apply Z.leb_gt in H. rewrite H. now rewrite andb_false_r.
Qed.

Lemma page_scrapers_fetch_through_fetchHTML_witness :
  (forall ms,
     snd (fetchHTML (one_feed [])
            (BaseScraper.constructor
               {| SCRAPE_DELAY_MS := Some ms; USER_AGENT := None |}
               "Gulf Coast News" feed_config)
            "https://x.com/a" start)
     = {| store := store start;
          clock := (clock start + Js.timer_delay (if (ms =? 0)%Z then 2000 else ms))%N;
          log := [HttpGet "https://x.com/a" default_user_agent 30000%N;
                  Sleep (if (ms =? 0)%Z then 2000 else ms)%Z] |})
  /\ Js.timer_delay 2000 = 2000%N
  /\ Js.timer_delay (-5) = 1%N
  /\ Js.timer_delay 3000000000 = 1%N.
Proof.
  destruct page_scrapers_fetch_through_fetchHTML
    as (Hf & _ & _ & _ & _ & _ & _ & _ & _ & Hd & Ht).
  split.
  - intros ms. rewrite Hf. cbn [one_feed axios_get snd].
    rewrite Hd. reflexivity.
  - split; [apply Ht; lia|]. split; apply Ht; [left|right]; lia.
Defined.

(** The specification as worded fails for the feed extractor: scraping a
    feed makes one request, parser.parseURL, which is no fetchHTML request:
    no BaldwinNewsBot user agent, no 30 s timeout, no sleep after it.  And
    it fails for a fetch that fails: fetchHTML rethrows at once, with no
    sleep before control returns. *)
Lemma feed_fetch_bypasses_fetchHTML :
  filter is_fetch
    (new_events
       (RSSScraper.scrape (one_feed [long_item 3])
          (RSSScraper.constructor no_env "AL.com Baldwin" feed_config))
       start)
  = [FeedFetch "https://www.al.com/arc/outboundfeeds/rss/"]
  /\ polite default_user_agent 2000%Z
       (new_events
          (RSSScraper.scrape (one_feed [long_item 3])
             (RSSScraper.constructor no_env "AL.com Baldwin" feed_config))
          start)
     = false
  /\ fetchHTML offline After.news_scraper "https://www.baldwintimes.com" start
     = (Thrown (NetworkError "connect ECONNREFUSED"),
        {| store := store start; clock := clock start;
           log := [HttpGet "https://www.baldwintimes.com" default_user_agent
                     30000%N] |}).
Proof. repeat split; vm_compute; reflexivity. Qed.

End ObserveFacts.

(* --------------------------------------------------------------------- *)
(** ** ScraperManager: one pass of the loop *)
(* --------------------------------------------------------------------- *)

Section ManagerFacts.
Import ScraperManager.

(** Case analysis on how the replies of a pass settle, then evaluation. *)
Ltac settle a :=
  destruct a as [[l1 [[]|m1]] [l2 [[|n]|m2]] [l3 [[]|m3]] [l4 [[]|m4]]
                 [l5 [[]|m5]] [l6 [[]|m6]]].

Ltac run_pass :=
  cbv beta iota zeta delta
      [states attempt_source bind try_catch ret throw await gets update on_run
       on_vars issue set_clock set_run set_vars latency outcome
       last_scraped_reply scrape_reply last_successful_reply count_reply
       error_reply log_reply fst snd map Nat.ltb Nat.leb completes yield
       writes_ok fulfilled andb isRunning clock run vars issued total
       successful failed articles details timedOut count_success count_failure
       add_articles push_detail v_status v_articlesFound v_errorMessage].

Ltac pass_cases a p :=
  settle a; destruct p as [b t [tot s f ar ds to] [vs va ve] iss];
  run_pass; cbn [app];
  try match goal with
      | |- context [cap_reached ?m ?r] => destruct (cap_reached m r) eqn:?
      end;
  run_pass; cbn [app].

Lemma attempt_source_keeps (mx : option nat) (id : Z)
    (sc : BaseScraper.scraper) (a : attempt) (p : process) :
  Forall (fun q => isRunning q = isRunning p
                   /\ total (run q) = total (run p)
                   /\ timedOut (run q) = timedOut (run p))
         (states (attempt_source mx id sc a p)).
Proof.
  pass_cases a p; repeat (apply Forall_cons; [auto|]); apply Forall_nil.
Qed.

(** While a pass is suspended: no entry was added to details yet, each tally
    went up by at most one, and articles by at most the yield of the pass. *)
Lemma attempt_source_suspended (mx : option nat) (id : Z)
    (sc : BaseScraper.scraper) (a : attempt) (p : process) :
  Forall (fun q => details (run q) = details (run p)
                   /\ successful (run p) <= successful (run q) <= S (successful (run p))
                   /\ failed (run p) <= failed (run q) <= S (failed (run p))
                   /\ articles (run p) <= articles (run q) <= articles (run p) + yield a
                   /\ (writes_ok a = true ->
                       successful (run q) + failed (run q)
                       <= S (successful (run p) + failed (run p))))
         (map snd (fst (fst (attempt_source mx id sc a p)))).
Proof.
  pass_cases a p;
    repeat (apply Forall_cons;
            [repeat split; try lia; try discriminate|]);
    apply Forall_nil.
Qed.

(** When a pass is over: articles went up by the yield of the pass; a pass
    that ran to its end counted the source once and, unless it left the
    loop, added one entry to details. *)
Lemma attempt_source_final (mx : option nat) (id : Z)
    (sc : BaseScraper.scraper) (a : attempt) (p : process) :
  let x := attempt_source mx id sc a p in
  articles (run (snd x)) = articles (run p) + yield a
  /\ successful (run p) <= successful (run (snd x)) <= S (successful (run p))
  /\ failed (run p) <= failed (run (snd x)) <= S (failed (run p))
  /\ S (successful (run p) + failed (run p))
     <= successful (run (snd x)) + failed (run (snd x))
  /\ (writes_ok a = true ->
      match snd (fst x) with
      | Done _ => successful (run (snd x)) + failed (run (snd x))
                  = S (successful (run p) + failed (run p))
      | Threw _ => successful (run (snd x)) + failed (run (snd x))
                   <= S (successful (run p) + failed (run p))
      end)
  /\ match snd (fst x) with
     | Done Next =>
         exists d, details (run (snd x)) = (details (run p) ++ [d])%list
                   /\ source d = BaseScraper.sourceName sc
     | _ => details (run (snd x)) = details (run p)
     end.
Proof.
  pass_cases a p; repeat split; try lia; try discriminate;
    try (eexists; split; reflexivity).
Qed.

(** A pass leaves the loop exactly when a cap is set, its try block ran to
    its end, and the articles found so far reach the cap; the source was
    then counted as successful. *)
Lemma attempt_source_break (mx : option nat) (id : Z)
    (sc : BaseScraper.scraper) (a : attempt) (p : process) :
  let x := attempt_source mx id sc a p in
  (snd (fst x) = Done Break <->
   exists n, completes a = Some n
             /\ cap_reached mx (add_articles n (run p)) = true)
  /\ (snd (fst x) = Done Break ->
      successful (run (snd x)) = S (successful (run p))
      /\ failed (run (snd x)) = failed (run p)
      /\ cap_reached mx (run (snd x)) = true)
  /\ (snd (fst x) = Done Next -> completes a <> None ->
      cap_reached mx (run (snd x)) = false).
Proof.
  pass_cases a p.
  all: unfold cap_reached, add_articles in *;
       cbn [total successful failed articles details timedOut] in *;
       try rewrite Nat.add_0_r in *.
  all: split; [split; [intros H; try discriminate H
                      |intros (k & Hk & Hc); try discriminate Hk;
                       try (inversion Hk; subst k; clear Hk)]
              |split; [intros H; try discriminate H
                      |intros H Hk; try discriminate H;
                       try (exfalso; apply Hk; reflexivity)]].
  all: try (eexists; split; [reflexivity|]).
  all: try rewrite Nat.add_0_r in *.
  all: try congruence.
  all: try (repeat split; congruence).
Qed.

(** The statements a pass sends are about its own source. *)
Lemma attempt_source_issued (mx : option nat) (id : Z)
    (sc : BaseScraper.scraper) (a : attempt) (p : process) :
  exists l,
    issued (snd (attempt_source mx id sc a p)) = (issued p ++ l)%list
    /\ Forall (fun c => about c = Some id \/ about c = None) l.
Proof.
  pass_cases a p; repeat rewrite <- app_assoc; cbn [app];
    (eexists; split; [reflexivity|]);
    repeat (apply Forall_cons; [cbn; auto|]); apply Forall_nil.
Qed.

(* --------------------------------------------------------------------- *)
(** ** ScraperManager: the loops *)
(* --------------------------------------------------------------------- *)

Lemma cap_reached_articles (mx : option nat) (r r' : results) :
  articles r = articles r' -> cap_reached mx r = cap_reached mx r'.
Proof. intros H. unfold cap_reached. now rewrite H. Qed.

Lemma attempt_source_no_cap (mx : option nat) (id : Z)
    (sc : BaseScraper.scraper) (a : attempt) (p : process) :
  (forall r, cap_reached mx r = false) ->
  snd (fst (attempt_source mx id sc a p)) <> Done Break.
Proof.
  intros Hno H.
  apply (proj1 (attempt_source_break mx id sc a p)) in H as (n & _ & Hc).
  now rewrite Hno in Hc.
Qed.

Lemma selected_loop_passes (scrapers : list (Z * BaseScraper.scraper))
    (mx : option nat) (w : script) (ids : list Z) :
  forall i, selected_loop scrapers mx w i ids
            = passes mx w i (looked_up scrapers ids).
Proof.
  induction ids as [|id rest IH]; intros i; simpl; [reflexivity|].
  destruct (get id scrapers) as [sc|]; now rewrite IH.
Qed.

Lemma all_loop_passes (w : script) (scrapers : list (Z * BaseScraper.scraper)) :
  forall i p, all_loop w i scrapers p = passes None w i (entries scrapers) p.
Proof.
  induction scrapers as [|[id sc] rest IH]; intros i p; simpl; [reflexivity|].
  unfold bind.
  pose proof (attempt_source_no_cap None id sc (w i) p (fun _ => eq_refl)) as Hnb.
  destruct (attempt_source None id sc (w i) p) as [[t [[]|e]] p1]; simpl in *;
    try reflexivity; [now rewrite IH|congruence].
Qed.

Lemma extends_refl {A : Type} (l : list A) : extends l l.
Proof. exists []. now rewrite app_nil_r. Qed.

Lemma extends_trans {A : Type} (k l m : list A) :
  extends k l -> extends l m -> extends k m.
Proof.
  intros [x ->] [y ->]. exists (x ++ y)%list. now rewrite app_assoc.
Qed.

Lemma extends_length {A : Type} (k l : list A) :
  extends k l -> List.length k <= List.length l.
Proof. intros [x ->]. rewrite length_app. lia. Qed.

Lemma moves_on_refl (p : process) : moves_on p p.
Proof. unfold moves_on. repeat split; auto using extends_refl. Qed.

Lemma moves_on_trans (p q r : process) :
  moves_on p q -> moves_on q r -> moves_on p r.
Proof.
  unfold moves_on. intros (A1 & A2 & A3 & A4 & A5 & A6 & A7)
                          (B1 & B2 & B3 & B4 & B5 & B6 & B7).
  repeat split; try congruence; try lia. eapply extends_trans; eauto.
Qed.

Lemma last_cons_indep {A : Type} (l : list A) :
  forall x d d', last (x :: l) d = last (x :: l) d'.
Proof.
  induction l as [|y l IH]; intros x d d'; [reflexivity|].
  change (last (y :: l) d = last (y :: l) d'). apply IH.
Qed.

Lemma chain_app (Rel : process -> process -> Prop) (l1 l2 : list process) :
  forall p, chain Rel p (l1 ++ l2)%list
            <-> chain Rel p l1 /\ chain Rel (last l1 p) l2.
Proof.
  induction l1 as [|q l1 IH]; intros p; [simpl; tauto|].
  change (Rel p q /\ chain Rel q (l1 ++ l2)%list
          <-> (Rel p q /\ chain Rel q l1) /\ chain Rel (last (q :: l1) p) l2).
  rewrite IH. destruct l1 as [|x l1]; [simpl; tauto|].
  rewrite (last_cons_indep l1 x q p).
  change (last (q :: x :: l1) p) with (last (x :: l1) p). tauto.
Qed.

Lemma chain_Forall (l : list process) :
  forall p, chain moves_on p l -> Forall (moves_on p) l.
Proof.
  induction l as [|q l IH]; intros p; simpl; [constructor|].
  intros [Hpq Hl]. constructor; [exact Hpq|].
  eapply Forall_impl; [|apply IH; exact Hl].
  intros r Hr. eapply moves_on_trans; eauto.
Qed.

Lemma last_states {A : Type} (x : trace * completion A * process) (p : process) :
  last (states x) p = snd x.
Proof. unfold states. now rewrite last_last. Qed.

Lemma chain_seq {A B : Type} (t t' : trace) (c : completion A)
    (c' : completion B) (p p1 p2 : process) :
  chain moves_on p (states (t, c, p1)) ->
  chain moves_on p1 (states (t', c', p2)) ->
  chain moves_on p (states ((t ++ t')%list, c', p2)).
Proof.
  unfold states. simpl. rewrite map_app, <- app_assoc.
  intros H1 H2. apply chain_app in H1 as [H1 H1'].
  apply chain_app. split; [exact H1|].
  simpl in H1'. destruct H1' as [Hlast _].
  destruct (map snd t') as [|q r] eqn:E; simpl in *.
  - destruct H2 as [H2 _]. split; [|exact I]. eapply moves_on_trans; eauto.
  - destruct H2 as [H2 H2']. split; [|exact H2'].
    eapply moves_on_trans; eauto.
Qed.

(** One pass moves the state on, step by step. *)
Lemma attempt_source_chain (mx : option nat) (id : Z)
    (sc : BaseScraper.scraper) (a : attempt) (p : process) :
  chain moves_on p (states (attempt_source mx id sc a p)).
Proof.
  pass_cases a p; cbn [chain]; unfold moves_on;
    cbn [isRunning run total timedOut details successful failed articles];
    repeat split; try lia;
    first [apply extends_refl | now (eexists; reflexivity)].
Qed.

Lemma passes_some (mx : option nat) (w : script) (i : nat) (id : Z)
    (sc : BaseScraper.scraper) (rest : list (Z * option BaseScraper.scraper))
    (p : process) :
  passes mx w i ((id, Some sc) :: rest) p
  = match attempt_source mx id sc (w i) p with
    | (t, Done Next, p1) =>
        match passes mx w (S i) rest p1 with
        | (t', c, p2) => ((t ++ t')%list, c, p2)
        end
    | (t, Done Break, p1) => ((t ++ [])%list, Done Broken, p1)
    | (t, Threw e, p1) => (t, Threw e, p1)
    end.
Proof.
  simpl. unfold bind.
  now destruct (attempt_source mx id sc (w i) p) as [[t [[]|e]] p1].
Qed.

Lemma passes_none (mx : option nat) (w : script) (i : nat) (id : Z)
    (rest : list (Z * option BaseScraper.scraper)) (p : process) :
  passes mx w i ((id, None) :: rest) p
  = passes mx w (S i) rest (set_run (count_failure (run p)) p).
Proof.
  simpl. unfold bind, on_run, update.
  now destruct (passes mx w (S i) rest (set_run (count_failure (run p)) p))
    as [[t c] p2].
Qed.

(** The loop moves the state on, step by step. *)
Lemma passes_chain (mx : option nat) (w : script)
    (items : list (Z * option BaseScraper.scraper)) :
  forall i p, chain moves_on p (states (passes mx w i items p)).
Proof.
  induction items as [|[id [sc|]] rest IH]; intros i p.
  - simpl. split; [apply moves_on_refl|exact I].
  - rewrite passes_some.
    pose proof (attempt_source_chain mx id sc (w i) p) as Hc.
    destruct (attempt_source mx id sc (w i) p) as [[t [[]|e]] p1].
    + specialize (IH (S i) p1).
      destruct (passes mx w (S i) rest p1) as [[t' c] p2].
      eapply chain_seq; eauto.
    + now rewrite app_nil_r.
    + exact Hc.
  - rewrite passes_none.
    specialize (IH (S i) (set_run (count_failure (run p)) p)).
    destruct (passes mx w (S i) rest (set_run (count_failure (run p)) p))
      as [[t c] p2].
    assert (Hstep : moves_on p (set_run (count_failure (run p)) p)).
    { unfold moves_on. simpl. repeat split; auto using extends_refl. }
    unfold states in *. simpl in *.
    destruct (map snd t) as [|q r]; simpl in *.
    + destruct IH as [IH _]. split; [|exact I]. eapply moves_on_trans; eauto.
    + destruct IH as [IH IH']. split; [|exact IH'].
      eapply moves_on_trans; eauto.
Qed.

Lemma final_details_length (mx : option nat) (id : Z)
    (sc : BaseScraper.scraper) (a : attempt) (p : process) :
  let x := attempt_source mx id sc a p in
  List.length (details (run (snd x))) <= S (List.length (details (run p)))
  /\ (snd (fst x) = Done Next ->
      List.length (details (run (snd x))) = S (List.length (details (run p)))).
Proof.
  intros x. destruct (attempt_source_final mx id sc a p) as (_ & _ & _ & _ & _ & Hd).
  fold x in Hd. destruct (snd (fst x)) as [[]|e].
  - destruct Hd as (d & Hd & _). rewrite Hd, length_app. simpl.
    split; [lia|intros _; lia].
  - rewrite Hd. split; [lia|discriminate].
  - rewrite Hd. split; [lia|discriminate].
Qed.

(** Bounds that hold in every state of the loop. *)
Lemma passes_within (mx : option nat) (w : script)
    (items : list (Z * option BaseScraper.scraper)) :
  forall i p, Forall (within w i items p) (states (passes mx w i items p)).
Proof.
  induction items as [|[id [sc|]] rest IH]; intros i p.
  - simpl. constructor; [|constructor]. unfold within. simpl.
    repeat split; intros; lia.
  - rewrite passes_some.
    pose proof (attempt_source_suspended mx id sc (w i) p) as Hs.
    pose proof (attempt_source_final mx id sc (w i) p) as (Ha & Hsu & Hfa & _ & Hw & _).
    pose proof (final_details_length mx id sc (w i) p) as (Hd & _).
    assert (Hsus : Forall (within w i ((id, Some sc) :: rest) p)
                     (map snd (fst (fst (attempt_source mx id sc (w i) p))))).
    { eapply Forall_impl; [|exact Hs]. intros q (Q1 & Q2 & Q3 & Q4 & Q5).
      unfold within. simpl. rewrite Q1. repeat split; try lia.
      intros Hok. specialize (Q5 (Hok i)). lia. }
    assert (Hfin : within w i ((id, Some sc) :: rest) p
                     (snd (attempt_source mx id sc (w i) p))).
    { unfold within. simpl. repeat split; try lia.
      intros Hok. specialize (Hw (Hok i)).
      destruct (snd (fst (attempt_source mx id sc (w i) p))); lia. }
    destruct (attempt_source mx id sc (w i) p) as [[t [[]|e]] p1];
      cbn [fst snd] in *.
    + specialize (IH (S i) p1).
      destruct (passes mx w (S i) rest p1) as [[t' c] p2].
      unfold states in *. cbn [fst snd] in *.
      rewrite map_app, <- app_assoc. apply Forall_app. split; [exact Hsus|].
      eapply Forall_impl; [|exact IH]. intros q (Q1 & Q2 & Q3 & Q4 & Q5).
      unfold within. simpl. repeat split; try lia.
      intros Hok. specialize (Q5 Hok). specialize (Hw (Hok i)). simpl in Hw. lia.
    + unfold states. cbn [fst snd]. rewrite app_nil_r.
      apply Forall_app. split; [exact Hsus|]. now constructor.
    + unfold states. cbn [fst snd].
      apply Forall_app. split; [exact Hsus|]. now constructor.
  - rewrite passes_none.
    specialize (IH (S i) (set_run (count_failure (run p)) p)).
    eapply Forall_impl; [|exact IH]. intros q (Q1 & Q2 & Q3 & Q4 & Q5).
    unfold within. simpl in *. repeat split; try lia.
    intros Hok. specialize (Q5 Hok). lia.
Qed.

(** While the loop is suspended, details holds fewer entries than the loop
    has sources. *)
Lemma passes_suspended_details (mx : option nat) (w : script)
    (items : list (Z * option BaseScraper.scraper)) :
  forall i p,
    Forall (fun q => List.length (details (run q))
                     < List.length (details (run p)) + List.length items)
           (map snd (fst (fst (passes mx w i items p)))).
Proof.
  induction items as [|[id [sc|]] rest IH]; intros i p.
  - simpl. constructor.
  - rewrite passes_some.
    pose proof (attempt_source_suspended mx id sc (w i) p) as Hs.
    pose proof (final_details_length mx id sc (w i) p) as (Hd & _).
    assert (Hsus : Forall (fun q => List.length (details (run q))
                                    < List.length (details (run p))
                                      + List.length ((id, Some sc) :: rest))
                     (map snd (fst (fst (attempt_source mx id sc (w i) p))))).
    { eapply Forall_impl; [|exact Hs]. intros q (Q1 & _). rewrite Q1. simpl. lia. }
    destruct (attempt_source mx id sc (w i) p) as [[t [[]|e]] p1];
      cbn [fst snd] in *.
    + specialize (IH (S i) p1).
      destruct (passes mx w (S i) rest p1) as [[t' c] p2]. cbn [fst snd] in *.
      rewrite map_app. apply Forall_app. split; [exact Hsus|].
      eapply Forall_impl; [|exact IH]. intros q Hq. cbv beta in Hq. simpl. lia.
    + now rewrite app_nil_r.
    + exact Hsus.
  - rewrite passes_none.
    specialize (IH (S i) (set_run (count_failure (run p)) p)).
    eapply Forall_impl; [|exact IH]. intros q Hq. cbv beta in Hq. simpl in *. lia.
Qed.

(** A loop that went through all its sources. *)
Lemma passes_exhausted (mx : option nat) (w : script)
    (items : list (Z * option BaseScraper.scraper)) :
  forall i p,
    let x := passes mx w i items p in
    snd (fst x) = Done Exhausted ->
    articles (run (snd x)) = articles (run p) + contributed w i items
    /\ failed (run p) + unregistered items <= failed (run (snd x))
    /\ List.length (details (run (snd x))) + unregistered items
       + successful (run p) + failed (run p)
       <= List.length (details (run p))
          + successful (run (snd x)) + failed (run (snd x))
    /\ successful (run p) + failed (run p) + List.length items
       <= successful (run (snd x)) + failed (run (snd x))
    /\ ((forall j, writes_ok (w j) = true) ->
        successful (run (snd x)) + failed (run (snd x))
        = successful (run p) + failed (run p) + List.length items).
Proof.
  induction items as [|[id [sc|]] rest IH]; intros i p.
  - simpl. intros _. repeat split; try lia.
  - intros x. subst x. rewrite passes_some.
    pose proof (attempt_source_final mx id sc (w i) p) as (Ha & Hsu & Hfa & Hlow & Hw & _).
    pose proof (final_details_length mx id sc (w i) p) as (Hd & _).
    destruct (attempt_source mx id sc (w i) p) as [[t [[]|e]] p1];
      cbn [fst snd] in *; try discriminate.
    specialize (IH (S i) p1).
    destruct (passes mx w (S i) rest p1) as [[t' c] p2]. cbn [fst snd] in *.
    intros Hc. destruct (IH Hc) as (I1 & I2 & I3 & I4 & I5). simpl.
    repeat split; try lia.
    intros Hok. specialize (I5 Hok). specialize (Hw (Hok i)). simpl in Hw. lia.
  - intros x. subst x. rewrite passes_none.
    specialize (IH (S i) (set_run (count_failure (run p)) p)).
    intros Hc. destruct (IH Hc) as (I1 & I2 & I3 & I4 & I5). simpl in *.
    repeat split; try lia.
    intros Hok. specialize (I5 Hok). lia.
Qed.

(** A loop that was left through the cap. *)
Lemma passes_broken (mx : option nat) (w : script)
    (items : list (Z * option BaseScraper.scraper)) :
  forall i p,
    snd (fst (passes mx w i items p)) = Done Broken ->
    cap_reached mx (run (snd (passes mx w i items p))) = true.
Proof.
  induction items as [|[id [sc|]] rest IH]; intros i p.
  - simpl. discriminate.
  - rewrite passes_some.
    pose proof (attempt_source_break mx id sc (w i) p) as (_ & Hb & _).
    destruct (attempt_source mx id sc (w i) p) as [[t [[]|e]] p1];
      cbn [fst snd] in *; try discriminate.
    + specialize (IH (S i) p1).
      now destruct (passes mx w (S i) rest p1) as [[t' c] p2].
    + intros _. now apply Hb.
  - rewrite passes_none. apply IH.
Qed.

(* --------------------------------------------------------------------- *)
(** ** ScraperManager: the timer *)
(* --------------------------------------------------------------------- *)

(** When the timer fires first, the computation was suspended in the last
    of the awaits seen, and those seen and those still ahead make up its
    trace. *)
Lemma expire_Some (t : trace) :
  forall T seen q later,
    expire T t = Some (seen, q, later) ->
    t = (seen ++ later)%list
    /\ (exists before l, seen = (before ++ [(l, q)])%list)
    /\ (T <= span seen)%N.
Proof.
  induction t as [|[l p] rest IH]; intros T seen q later; simpl; [discriminate|].
  destruct (T <=? l)%N eqn:E.
  - intros H; inversion H; subst; clear H. simpl.
    split; [reflexivity|]. split; [now exists [], l|].
    apply N.leb_le in E. lia.
  - destruct (expire (T - l) rest) as [[[s' q'] l']|] eqn:Er; [|discriminate].
    intros H; inversion H; subst; clear H.
    destruct (IH _ _ _ _ Er) as (Ht & (before & l0 & Hs) & Hsp).
    apply N.leb_gt in E. simpl.
    split; [now rewrite Ht|].
    split; [exists ((l, p) :: before), l0; now rewrite Hs|]. lia.
Qed.

(** A timer that is set fires first exactly when it is set for no more than
    the time the computation takes. *)
Lemma expire_None (t : trace) :
  forall T, (0 < T)%N -> expire T t = None <-> (span t < T)%N.
Proof.
  induction t as [|[l p] rest IH]; intros T HT; simpl.
  - split; [intros _; exact HT|reflexivity].
  - destruct (T <=? l)%N eqn:E.
    + apply N.leb_le in E. split; [discriminate|lia].
    + apply N.leb_gt in E.
      assert (Hpos : (0 < T - l)%N) by lia.
      specialize (IH (T - l)%N Hpos).
      destruct (expire (T - l) rest) as [[[s' q'] l']|].
      * split; [discriminate|]. intros H.
        assert (H0 : (span rest < T - l)%N) by lia.
        apply IH in H0. discriminate.
      * split; [|reflexivity]. intros _.
        assert (span rest < T - l)%N by now apply IH. lia.
Qed.

Lemma span_app (t1 t2 : trace) : span (t1 ++ t2)%list = (span t1 + span t2)%N.
Proof.
  induction t1 as [|[l p] t1 IH]; simpl; [reflexivity|]. rewrite IH. lia.
Qed.

(* --------------------------------------------------------------------- *)
(** ** ScraperManager: one run at a time *)
(* --------------------------------------------------------------------- *)

Lemma passes_flag (mx : option nat) (w : script)
    (items : list (Z * option BaseScraper.scraper)) (i : nat) (p : process) :
  Forall (fun q => isRunning q = isRunning p) (states (passes mx w i items p)).
Proof.
  eapply Forall_impl; [|apply chain_Forall, passes_chain].
  intros q Hq. apply Hq.
Qed.

Lemma Forall_map_snd {A : Type} (P : process -> Prop) (t : list (A * process)) :
  Forall P (map snd t) <-> Forall (fun x => P (snd x)) t.
Proof. now rewrite Forall_map. Qed.

Lemma states_suspended {A : Type} (P : process -> Prop)
    (x : trace * completion A * process) :
  Forall P (states x) -> Forall (fun y => P (snd y)) (fst (fst x)) /\ P (snd x).
Proof.
  unfold states. intros H. apply Forall_app in H as [H1 H2].
  split; [now apply Forall_map_snd|]. now inversion H2.
Qed.

Ltac settle_single a :=
  destruct a as [[l1 [[]|m1]] [l2 [n|m2]] [l3 [[]|m3]] [l4 [[]|m4]]
                 [l5 [[]|m5]] [l6 [[]|m6]]].

(** scrapeSingle never looks at the flag and never touches the flag or the
    results object of a run. *)
Lemma scrapeSingle_unguarded (scrapers : list (Z * BaseScraper.scraper))
    (id : Z) (w : script) (p : process) :
  isRunning (after (scrapeSingle scrapers id w p)) = isRunning p
  /\ run (after (scrapeSingle scrapers id w p)) = run p
  /\ Forall (fun x => isRunning (snd x) = isRunning p /\ run (snd x) = run p)
            (observed (scrapeSingle scrapers id w p))
  /\ (forall m, result (scrapeSingle scrapers id w p) <> Done (Refused m))
  /\ (forall b, result (scrapeSingle scrapers id w (set_isRunning b p))
                = result (scrapeSingle scrapers id w p)).
Proof.
  unfold scrapeSingle. destruct (get id scrapers) as [sc|].
  - settle_single (w 0); destruct p as [b t r v iss];
      cbv beta iota zeta delta
          [bind try_catch ret throw await issue set_clock set_isRunning latency
           outcome last_scraped_reply scrape_reply last_successful_reply
           count_reply error_reply log_reply fst snd isRunning clock run vars
           issued result after observed];
      cbn [app];
      (split; [reflexivity|]); (split; [reflexivity|]);
      (split; [repeat (apply Forall_cons; [split; reflexivity|]);
               apply Forall_nil|]);
      (split; [intros m; discriminate|intros b0; reflexivity]).
  - simpl. repeat split; auto. intros m; discriminate.
Qed.

(** C2. scrapeAll and scrapeSelected called while the flag isRunning is set
    resolve at once, without any await, to "Scraping already in progress"
    and leave the whole state (flag, clock, results object of the run in
    progress, commands issued) as it was; a call they accept holds the flag
    set at every point at which it is suspended, so that every scrapeAll or
    scrapeSelected call made at such a point is refused.  scrapeSingle is
    not guarded: it neither reads nor writes the flag, is never refused, and
    leaves the results object of a run in progress untouched. *)
Theorem scrapeAll_and_scrapeSelected_are_single_flight :
  (forall scrapers w p,
     isRunning p = true ->
     scrapeAll scrapers w p
     = {| result := Done (Refused "Scraping already in progress");
          after := p; observed := []; background := [] |})
  /\ (forall scrapers ids opts w p,
        isRunning p = true ->
        scrapeSelected scrapers ids opts w p
        = {| result := Done (Refused "Scraping already in progress");
             after := p; observed := []; background := [] |})
  /\ (forall scrapers w p,
        isRunning p = false ->
        Forall (fun x => isRunning (snd x) = true)
               (observed (scrapeAll scrapers w p)))
  /\ (forall scrapers ids opts w p,
        isRunning p = false ->
        Forall (fun x => isRunning (snd x) = true)
               (observed (scrapeSelected scrapers ids opts w p)))
  /\ (forall scrapers id w p,
        isRunning (after (scrapeSingle scrapers id w p)) = isRunning p
        /\ run (after (scrapeSingle scrapers id w p)) = run p
        /\ Forall (fun x => isRunning (snd x) = isRunning p
                            /\ run (snd x) = run p)
                  (observed (scrapeSingle scrapers id w p))
        /\ (forall m, result (scrapeSingle scrapers id w p) <> Done (Refused m))
        /\ (forall b, result (scrapeSingle scrapers id w (set_isRunning b p))
                      = result (scrapeSingle scrapers id w p))).
Proof.
  split; [intros scrapers w p H; unfold scrapeAll; now rewrite H|].
  split; [intros scrapers ids opts w p H; unfold scrapeSelected; now rewrite H|].
  split.
  { intros scrapers w p H. unfold scrapeAll. rewrite H, all_loop_passes.
    pose proof (passes_flag None w (entries scrapers) 0
                  (begin_run (List.length scrapers) p)) as Hf.
    apply states_suspended in Hf as [Hf _].
    destruct (passes None w 0 (entries scrapers)
                (begin_run (List.length scrapers) p)) as [[t [x|e]] p1];
      exact Hf. }
  split; [|exact scrapeSingle_unguarded].
  intros scrapers ids opts w p H. unfold scrapeSelected.
  rewrite H, selected_loop_passes.
  pose proof (passes_flag (maxArticles opts) w (looked_up scrapers ids) 0
                (begin_run (List.length ids) p)) as Hf.
  apply states_suspended in Hf as [Hf _].
  destruct (passes (maxArticles opts) w 0 (looked_up scrapers ids)
              (begin_run (List.length ids) p)) as [[t c] p1].
  cbn [fst snd] in Hf.
  destruct (timeout opts) as [[|T]|].
  - destruct c; exact Hf.
  - destruct (expire (setTimeout_delay (N.pos T)) t) as [[[seen q] later]|] eqn:E.
    + apply expire_Some in E as (Ht & _ & _). subst t.
      apply Forall_app in Hf as [Hf _]. exact Hf.
    + destruct c; exact Hf.
  - destruct c; exact Hf.
Qed.

Lemma scrapeAll_and_scrapeSelected_are_single_flight_witness :
  isRunning (set_isRunning true at_rest) = true
  /\ result (scrapeAll two_scrapers steady
               (set_isRunning true at_rest))
     = Done (Refused "Scraping already in progress")
  /\ Forall (fun x => isRunning (snd x) = true)
            (observed (scrapeAll two_scrapers steady at_rest)).
Proof.
  split; [reflexivity|]. split.
  - rewrite (proj1 scrapeAll_and_scrapeSelected_are_single_flight
               two_scrapers steady (set_isRunning true at_rest)
               eq_refl).
    reflexivity.
  - exact (proj1 (proj2 (proj2 scrapeAll_and_scrapeSelected_are_single_flight))
             two_scrapers steady at_rest eq_refl).
Defined.

(** The specification as worded fails for scrapeSingle: called while a run is in
    progress it is not refused; it runs the scraper and reports. *)
Lemma scrapeSingle_runs_while_a_run_is_active :
  isRunning (set_isRunning true at_rest) = true
  /\ result (scrapeSingle two_scrapers 1%Z steady
               (set_isRunning true at_rest))
     = Done (SingleReport "Baldwin Times" 5)
  /\ issued (after (scrapeSingle two_scrapers 1%Z steady
                      (set_isRunning true at_rest)))
     = [Scrape "Baldwin Times";
        UpdateSourceTimestamp 1 "last_scraped";
        UpdateSourceTimestamp 1 "last_successful_scrape";
        UpdateSourceCount 1 5].
Proof. repeat split; vm_compute; reflexivity. Qed.

(* --------------------------------------------------------------------- *)
(** ** ScraperManager: successful + failed against total *)
(* --------------------------------------------------------------------- *)

Lemma looked_up_length scrapers ids :
  List.length (looked_up scrapers ids) = List.length ids.
Proof. apply length_map. Qed.

Lemma entries_length scrapers : List.length (entries scrapers) = List.length scrapers.
Proof. apply length_map. Qed.

(** The states of a loop started on a new results object for [n] sources. *)
Lemma passes_from_begin (mx : option nat) (w : script)
    (items : list (Z * option BaseScraper.scraper)) (p : process) :
  Forall (fun q => total (run q) = List.length items
                   /\ each_tallied q
                   /\ ((forall j, writes_ok (w j) = true) -> tallied q))
         (states (passes mx w 0 items (begin_run (List.length items) p))).
Proof.
  pose proof (passes_within mx w items 0 (begin_run (List.length items) p)) as Hw.
  pose proof (chain_Forall _ _ (passes_chain mx w items 0
                                  (begin_run (List.length items) p))) as Hm.
  rewrite Forall_forall in *. intros q Hq.
  destruct (Hw q Hq) as (W1 & W2 & _ & _ & W5).
  destruct (Hm q Hq) as (_ & M2 & _).
  unfold each_tallied, tallied. simpl in *. rewrite M2.
  repeat split; try lia. intros Hok. specialize (W5 Hok). lia.
Qed.

Lemma passes_never_broken_without_cap (w : script)
    (items : list (Z * option BaseScraper.scraper)) (i : nat) (p : process) :
  snd (fst (passes None w i items p)) <> Done Broken.
Proof. intros H. apply passes_broken in H. discriminate. Qed.

(** The report of a run that went through all its sources. *)
Lemma exhausted_from_begin (mx : option nat) (w : script)
    (items : list (Z * option BaseScraper.scraper)) (p : process) :
  let x := passes mx w 0 items (begin_run (List.length items) p) in
  snd (fst x) = Done Exhausted ->
  total (run (snd x)) = List.length items
  /\ List.length items <= successful (run (snd x)) + failed (run (snd x))
  /\ unregistered items <= failed (run (snd x))
  /\ List.length (details (run (snd x))) + unregistered items
     <= successful (run (snd x)) + failed (run (snd x))
  /\ articles (run (snd x)) = contributed w 0 items
  /\ ((forall j, writes_ok (w j) = true) ->
      successful (run (snd x)) + failed (run (snd x)) = total (run (snd x))).
Proof.
  intros x Hx.
  destruct (passes_exhausted mx w items 0 _ Hx) as (E1 & E2 & E3 & E4 & E5).
  pose proof (passes_from_begin mx w items p) as Hb.
  apply states_suspended in Hb as [_ (Ht & _)]. fold x in Ht.
  fold x in E1, E2, E3, E4, E5. simpl in *.
  repeat split; try lia. intros Hok. specialize (E5 Hok). lia.
Qed.

(** The ways an accepted scrapeSelected call can end. *)
Lemma scrapeSelected_cases (scrapers : list (Z * BaseScraper.scraper))
    (ids : list Z) (opts : options) (w : script) (p : process) :
  isRunning p = false ->
  let p0 := begin_run (List.length ids) p in
  let x := passes (maxArticles opts) w 0 (looked_up scrapers ids) p0 in
  let c := scrapeSelected scrapers ids opts w p in
  (exists T seen q later,
      timeout opts = Some (N.pos T)
      /\ expire (setTimeout_delay (N.pos T)) (fst (fst x)) = Some (seen, q, later)
      /\ c = report (clock p0)
               (set_run (mark_timed_out (run q))
                  (set_clock (clock p0 + setTimeout_delay (N.pos T))%N q))
               seen later)
  \/ (exists e,
        snd (fst x) = Done e
        /\ (forall T, timeout opts = Some (N.pos T) ->
                      expire (setTimeout_delay (N.pos T)) (fst (fst x)) = None)
        /\ c = report (clock p0) (snd x) (fst (fst x)) [])
  \/ (exists m T,
        timeout opts = Some (N.pos T)
        /\ expire (setTimeout_delay (N.pos T)) (fst (fst x)) = None
        /\ snd (fst x) = Threw m
        /\ c = report (clock p0) (set_run (mark_timed_out (run (snd x))) (snd x))
                 (fst (fst x)) [])
  \/ (exists m,
        Js.truthy_ms (timeout opts) = false
        /\ snd (fst x) = Threw m
        /\ c = {| result := Threw m; after := snd x; observed := fst (fst x);
                  background := [] |}).
Proof.
  intros H p0 x c. subst c. unfold scrapeSelected.
  rewrite H, selected_loop_passes. fold p0. fold x.
  destruct x as [[t e] p1]. cbn [fst snd].
  destruct (timeout opts) as [[|T]|] eqn:Et.
  - destruct e as [e|m].
    + right; left. exists e. repeat split; auto. intros T HT; discriminate.
    + right; right; right. exists m. repeat split; auto.
  - destruct (expire (setTimeout_delay (N.pos T)) t) as [[[seen q] later]|] eqn:E.
    + left. exists T, seen, q, later. repeat split; auto.
    + destruct e as [e|m].
      * right; left. exists e. repeat split; auto.
        intros T' HT'. inversion HT'; subst. exact E.
      * right; right; left. exists m, T. repeat split; auto.
  - destruct e as [e|m].
    + right; left. exists e. repeat split; auto. intros T HT; discriminate.
    + right; right; right. exists m. repeat split; auto.
Qed.

(** A property of the states of the loop that the way out of the call does
    not disturb holds during the call, when it returned, and in the loop
    left behind. *)
Lemma scrapeSelected_states (P : process -> Prop)
    (scrapers : list (Z * BaseScraper.scraper))
    (ids : list Z) (opts : options) (w : script) (p : process) :
  isRunning p = false ->
  (forall q b, P q -> P (set_isRunning b q)) ->
  (forall q t, P q -> P (set_clock t q)) ->
  (forall q, P q -> P (set_run (mark_timed_out (run q)) q)) ->
  Forall P (states (passes (maxArticles opts) w 0 (looked_up scrapers ids)
                      (begin_run (List.length ids) p))) ->
  let c := scrapeSelected scrapers ids opts w p in
  Forall P (map snd (observed c) ++ [after c] ++ map snd (background c))%list.
Proof.
  intros H Hflag Hclock Hmark HP c.
  apply states_suspended in HP as [Ht Hp1].
  destruct (scrapeSelected_cases scrapers ids opts w p H)
    as [(T & seen & q & later & _ & E & Hc)
       |[(e & _ & _ & Hc)|[(m & T & _ & _ & _ & Hc)|(m & _ & _ & Hc)]]];
    fold c in Hc; rewrite Hc; clear Hc; cbn [observed after background report].
  - apply expire_Some in E as (Hsplit & (before & l & Hseen) & _).
    rewrite Hsplit in Ht. apply Forall_app in Ht as [Hs Hl].
    apply Forall_app. split; [now apply Forall_map_snd|].
    apply Forall_app. split; [|now apply Forall_map_snd].
    constructor; [|constructor].
    apply Hflag. apply (Hmark (set_clock _ q)). apply Hclock.
    rewrite Hseen in Hs. apply Forall_app in Hs as [_ Hs]. now inversion Hs.
  - apply Forall_app. split; [now apply Forall_map_snd|].
    simpl. constructor; [|constructor]. now apply Hflag.
  - apply Forall_app. split; [now apply Forall_map_snd|].
    simpl. constructor; [|constructor]. now apply Hflag, Hmark.
  - apply Forall_app. split; [now apply Forall_map_snd|].
    simpl. constructor; [|constructor]. exact Hp1.
Qed.

Lemma scrapeAll_states (P : process -> Prop)
    (scrapers : list (Z * BaseScraper.scraper)) (w : script) (p : process) :
  isRunning p = false ->
  (forall q b, P q -> P (set_isRunning b q)) ->
  Forall P (states (passes None w 0 (entries scrapers)
                      (begin_run (List.length scrapers) p))) ->
  let c := scrapeAll scrapers w p in
  Forall P (map snd (observed c) ++ [after c])%list.
Proof.
  intros H Hflag HP c. subst c. unfold scrapeAll. rewrite H, all_loop_passes.
  apply states_suspended in HP as [Ht Hp1].
  destruct (passes None w 0 (entries scrapers)
              (begin_run (List.length scrapers) p)) as [[t [e|m]] p1];
    cbn [fst snd observed after report] in *;
    (apply Forall_app; split; [now apply Forall_map_snd|]);
    constructor; try constructor; auto.
Qed.

Lemma Forall_and_l {A : Type} (P Q : A -> Prop) (l : list A) :
  Forall (fun x => P x /\ Q x) l -> Forall P l.
Proof. apply Forall_impl. tauto. Qed.

(** C3. In every state of a scrapeAll or scrapeSelected run (at each await,
    at the return, and in the loop a timed-out call leaves behind)
    successful and failed are each at most total; when no write that
    follows a successful scrape fails, successful + failed is at most
    total.  Then also: a scrapeAll run that returns a report has
    successful + failed = total, and so has a scrapeSelected run that
    returns a report without timedOut and with the articles found below
    the maxArticles cap (or without a cap). *)
Theorem tallies_stay_within_total :
  (forall scrapers w p,
     isRunning p = false ->
     let c := scrapeAll scrapers w p in
     Forall each_tallied (map snd (observed c) ++ [after c])%list
     /\ ((forall j, writes_ok (w j) = true) ->
         Forall tallied (map snd (observed c) ++ [after c])%list
         /\ forall d r, result c = Done (RunReport d r) ->
                        successful r + failed r = total r))
  /\ (forall scrapers ids opts w p,
        isRunning p = false ->
        let c := scrapeSelected scrapers ids opts w p in
        Forall each_tallied
          (map snd (observed c) ++ [after c] ++ map snd (background c))%list
        /\ ((forall j, writes_ok (w j) = true) ->
            Forall tallied
              (map snd (observed c) ++ [after c] ++ map snd (background c))%list
            /\ forall d r, result c = Done (RunReport d r) ->
                           timedOut r = false ->
                           cap_reached (maxArticles opts) r = false ->
                           successful r + failed r = total r)).
Proof.
  split.
  - intros scrapers w p H c.
    pose proof (passes_from_begin None w (entries scrapers) p) as Hb.
    rewrite entries_length in Hb.
    split.
    + apply scrapeAll_states; auto.
      eapply Forall_impl; [|exact Hb]. intros q (_ & Hq & _). exact Hq.
    + intros Hok. split.
      * apply scrapeAll_states; auto.
        eapply Forall_impl; [|exact Hb]. intros q (_ & _ & Hq). now apply Hq.
      * intros d r. subst c. unfold scrapeAll. rewrite H, all_loop_passes.
        pose proof (exhausted_from_begin None w (entries scrapers) p) as He.
        pose proof (passes_never_broken_without_cap w (entries scrapers) 0
                      (begin_run (List.length (entries scrapers)) p)) as Hnb.
        rewrite entries_length in He, Hnb. cbv zeta in He.
        destruct (passes None w 0 (entries scrapers)
                    (begin_run (List.length scrapers) p)) as [[t [[]|m]] p1];
          cbn [fst snd result report] in *; try discriminate; try congruence.
        intros Hr. inversion Hr; subst; clear Hr.
        destruct (He eq_refl) as (_ & _ & _ & _ & _ & Heq). now apply Heq.
  - intros scrapers ids opts w p H c.
    pose proof (passes_from_begin (maxArticles opts) w (looked_up scrapers ids) p)
      as Hb.
    rewrite looked_up_length in Hb.
    split.
    + apply scrapeSelected_states; auto.
      eapply Forall_impl; [|exact Hb]. intros q (_ & Hq & _). exact Hq.
    + intros Hok. split.
      * apply scrapeSelected_states; auto.
        eapply Forall_impl; [|exact Hb]. intros q (_ & _ & Hq). now apply Hq.
      * intros d r Hr Hto Hcap.
        pose proof (exhausted_from_begin (maxArticles opts) w
                      (looked_up scrapers ids) p) as He.
        pose proof (passes_broken (maxArticles opts) w (looked_up scrapers ids) 0
                      (begin_run (List.length (looked_up scrapers ids)) p)) as Hbr.
        rewrite looked_up_length in He, Hbr. cbv zeta in He.
        destruct (scrapeSelected_cases scrapers ids opts w p H)
          as [(T & seen & q & later & _ & _ & Hc)
             |[(e & Hx & _ & Hc)|[(m & T & _ & _ & _ & Hc)|(m & _ & _ & Hc)]]];
          fold c in Hc; rewrite Hc in Hr; cbn [result report] in Hr;
          inversion Hr; subst r; clear Hr; try discriminate Hto.
        destruct e.
        -- destruct (He Hx) as (_ & _ & _ & _ & _ & Heq). now apply Heq.
        -- rewrite (Hbr Hx) in Hcap. discriminate.
Qed.

Lemma tallies_stay_within_total_witness :
  isRunning at_rest = false
  /\ (forall j, writes_ok (steady j) = true)
  /\ result (scrapeAll two_scrapers steady at_rest)
     = Done (RunReport 6000 (run (after (scrapeAll two_scrapers steady at_rest))))
  /\ successful (run (after (scrapeAll two_scrapers steady at_rest)))
     + failed (run (after (scrapeAll two_scrapers steady at_rest)))
     = total (run (after (scrapeAll two_scrapers steady at_rest))).
Proof.
  split; [reflexivity|]. split; [intros j; reflexivity|].
  split; [vm_compute; reflexivity|].
  refine (proj2 (proj2 (proj1 tallies_stay_within_total two_scrapers
                          steady at_rest eq_refl)
                   (fun j => eq_refl))
            6000%N _ _).
  vm_compute. reflexivity.
Defined.

(** The specification as worded fails twice.  A selected run that the
    maxArticles cap stops completes, without timing out, with
    successful + failed below total.  And a run in which the
    updateSourceCount that follows a successful scrape is rejected counts
    that source as successful and as failed: it completes with
    successful + failed above total. *)
Lemma capped_run_completes_below_total :
  result (scrapeSelected two_scrapers [1%Z; 2%Z]
            {| timeout := None; maxArticles := Some 3 |} steady at_rest)
  = Done (RunReport 3000
            {| total := 2; successful := 1; failed := 0; articles := 5;
               details := []; timedOut := false |})
  /\ (exists d r,
        result (scrapeAll two_scrapers count_rejected at_rest)
        = Done (RunReport d r)
        /\ total r = 2 /\ successful r = 2 /\ failed r = 2
        /\ timedOut r = false).
Proof.
  split; [vm_compute; reflexivity|].
  do 2 eexists. split; [vm_compute; reflexivity|]. repeat split.
Qed.

(* --------------------------------------------------------------------- *)
(** ** ScraperManager: the maxArticles cap *)
(* --------------------------------------------------------------------- *)

(** The loop over [pre ++ post]: the loop over [pre] and, only when that
    one went through all of [pre], the loop over [post]. *)
Lemma passes_app (mx : option nat) (w : script)
    (pre post : list (Z * option BaseScraper.scraper)) :
  forall i p,
    passes mx w i (pre ++ post)%list p
    = match passes mx w i pre p with
      | (t, Done Exhausted, p1) =>
          match passes mx w (i + List.length pre) post p1 with
          | (t', c, p2) => ((t ++ t')%list, c, p2)
          end
      | other => other
      end.
Proof.
  induction pre as [|[id [sc|]] pre IH]; intros i p.
  - simpl. rewrite Nat.add_0_r. now destruct (passes mx w i post p) as [[t c] p2].
  - change (((id, Some sc) :: pre) ++ post)%list
      with ((id, Some sc) :: (pre ++ post))%list.
    rewrite !passes_some.
    destruct (attempt_source mx id sc (w i) p) as [[t [[]|e]] p1]; try reflexivity.
    rewrite IH. simpl List.length. rewrite Nat.add_succ_r.
    destruct (passes mx w (S i) pre p1) as [[t1 [[]|e1]] p2]; try reflexivity.
    simpl. destruct (passes mx w (S (i + List.length pre)) post p2) as [[t2 c2] p3].
    now rewrite app_assoc.
  - change (((id, None) :: pre) ++ post)%list
      with ((id, None) :: (pre ++ post))%list.
    rewrite !passes_none, IH. simpl List.length. now rewrite Nat.add_succ_r.
Qed.

Lemma contributed_app (w : script)
    (pre post : list (Z * option BaseScraper.scraper)) :
  forall i, contributed w i (pre ++ post)%list
            = contributed w i pre + contributed w (i + List.length pre) post.
Proof.
  induction pre as [|[id [sc|]] pre IH]; intros i; simpl.
  - now rewrite Nat.add_0_r.
  - rewrite IH, Nat.add_succ_r. simpl. lia.
  - rewrite IH, Nat.add_succ_r. reflexivity.
Qed.

(** A loop left through the cap: the sources before the one that reached
    the cap were all gone through, and that one ran to its end. *)
Lemma passes_broken_shape (mx : option nat) (w : script)
    (items : list (Z * option BaseScraper.scraper)) :
  forall i p,
    snd (fst (passes mx w i items p)) = Done Broken ->
    exists pre id sc post n,
      items = (pre ++ (id, Some sc) :: post)%list
      /\ snd (fst (passes mx w i pre p)) = Done Exhausted
      /\ completes (w (i + List.length pre)) = Some n
      /\ cap_reached mx
           (add_articles n (run (snd (passes mx w i pre p)))) = true
      /\ passes mx w i items p = passes mx w i (pre ++ [(id, Some sc)])%list p.
Proof.
  induction items as [|[id [sc|]] rest IH]; intros i p.
  - simpl. discriminate.
  - intros Hb.
    pose proof (attempt_source_break mx id sc (w i) p) as (Hiff & _ & _).
    destruct (attempt_source mx id sc (w i) p) as [[t [[]|e]] p1] eqn:Ea.
    + rewrite passes_some, Ea in Hb.
      specialize (IH (S i) p1).
      destruct (passes mx w (S i) rest p1) as [[t' c] p2] eqn:Er.
      cbn [fst snd] in *.
      destruct (IH Hb) as (pre & id' & sc' & post & n & Hi & He & Hc & Hr & Hp).
      exists ((id, Some sc) :: pre), id', sc', post, n.
      simpl List.length. rewrite Nat.add_succ_r.
      split; [now rewrite Hi|].
      change (((id, Some sc) :: pre) ++ [(id', Some sc')])%list
        with ((id, Some sc) :: (pre ++ [(id', Some sc')]))%list.
      rewrite !passes_some, Ea, Er.
      destruct (passes mx w (S i) pre p1) as [[t1 c1] p3]. cbn [fst snd] in *.
      repeat split; auto. now rewrite <- Hp.
    + exists [], id, sc, rest. cbn [fst snd] in Hiff.
      destruct (proj1 Hiff eq_refl) as (n & Hn & Hc). exists n.
      simpl. rewrite Nat.add_0_r. repeat split; auto.
      unfold bind. rewrite Ea. reflexivity.
    + rewrite passes_some, Ea in Hb. discriminate.
  - intros Hb. rewrite passes_none in Hb.
    destruct (IH (S i) _ Hb) as (pre & id' & sc' & post & n & Hi & He & Hc & Hr & Hp).
    exists ((id, None) :: pre), id', sc', post, n.
    simpl List.length. rewrite Nat.add_succ_r.
    split; [now rewrite Hi|].
    change (((id, None) :: pre) ++ [(id', Some sc')])%list
      with ((id, None) :: (pre ++ [(id', Some sc')]))%list.
    rewrite !passes_none. repeat split; auto.
Qed.

(** The articles of every state are those the passes made so far added. *)
Lemma passes_articles (mx : option nat) (w : script)
    (items : list (Z * option BaseScraper.scraper)) (i : nat) (p : process) :
  match snd (fst (passes mx w i items p)) with
  | Done Exhausted =>
      articles (run (snd (passes mx w i items p)))
      = articles (run p) + contributed w i items
  | _ =>
      articles (run (snd (passes mx w i items p)))
      <= articles (run p) + contributed w i items
  end.
Proof.
  pose proof (passes_within mx w items i p) as Hw.
  apply states_suspended in Hw as [_ (_ & _ & Ha & _)].
  pose proof (passes_exhausted mx w items i p) as He. cbv zeta in He.
  destruct (snd (fst (passes mx w i items p))) as [[]|e]; auto.
  now destruct (He eq_refl).
Qed.

Lemma looked_up_app scrapers (a b : list Z) :
  looked_up scrapers (a ++ b)%list
  = (looked_up scrapers a ++ looked_up scrapers b)%list.
Proof. apply map_app. Qed.

Lemma selected_loop_broken_shape (scrapers : list (Z * BaseScraper.scraper))
    (mx : option nat) (w : script) (ids : list Z) (i : nat) (p : process) :
  snd (fst (selected_loop scrapers mx w i ids p)) = Done Broken ->
  exists pre id post n,
    ids = (pre ++ id :: post)%list
    /\ get id scrapers <> None
    /\ snd (fst (selected_loop scrapers mx w i pre p)) = Done Exhausted
    /\ completes (w (i + List.length pre)) = Some n
    /\ cap_reached mx
         (add_articles n (run (snd (selected_loop scrapers mx w i pre p)))) = true
    /\ selected_loop scrapers mx w i ids p
       = selected_loop scrapers mx w i (pre ++ [id])%list p.
Proof.
  rewrite selected_loop_passes. intros Hb.
  destruct (passes_broken_shape mx w _ i p Hb)
    as (pre' & id & sc & post' & n & Hi & He & Hc & Hr & Hp).
  unfold looked_up in Hi. apply map_eq_app in Hi as (pre & rest & Hids & Hpre & Hrest).
  apply map_eq_cons in Hrest as (id' & post & Hrest & Hid & Hpost).
  inversion Hid; subst id'. subst rest.
  exists pre, id, post, n.
  assert (Hlen : List.length pre' = List.length pre)
    by (rewrite <- Hpre; apply length_map).
  assert (Hlook : looked_up scrapers pre = pre') by exact Hpre.
  assert (Hlast : looked_up scrapers (pre ++ [id])
                  = (pre' ++ [(id, Some sc)])%list).
  { rewrite looked_up_app, Hlook. simpl. now rewrite H1. }
  split; [exact Hids|].
  split; [congruence|].
  split; [now rewrite selected_loop_passes, Hlook|].
  split; [now rewrite <- Hlen|].
  split; [now rewrite selected_loop_passes, Hlook|].
  now rewrite !selected_loop_passes, Hlast.
Qed.

(** After a loop that went through all of [pre], one more pass adds its
    yield, however it ends. *)
Lemma passes_articles_last (mx : option nat) (w : script)
    (pre : list (Z * option BaseScraper.scraper)) (id : Z)
    (sc : BaseScraper.scraper) (i : nat) (p : process) :
  snd (fst (passes mx w i pre p)) = Done Exhausted ->
  articles (run (snd (passes mx w i (pre ++ [(id, Some sc)])%list p)))
  = articles (run p) + contributed w i (pre ++ [(id, Some sc)])%list.
Proof.
  intros He.
  destruct (passes_exhausted mx w pre i p He) as (Ha & _).
  rewrite passes_app, contributed_app.
  destruct (passes mx w i pre p) as [[t1 c1] p1]. cbn [fst snd] in *. subst c1.
  rewrite passes_some.
  pose proof (attempt_source_final mx id sc (w (i + List.length pre)) p1)
    as (Hf & _).
  destruct (attempt_source mx id sc (w (i + List.length pre)) p1)
    as [[t2 [[]|e]] p2]; simpl in *; lia.
Qed.

Lemma cap_reached_set (m : nat) (r : results) :
  cap_reached (Some (S m)) r = true <-> S m <= articles r.
Proof. unfold cap_reached. apply Nat.leb_le. Qed.

Lemma cap_reached_unset (mx : option nat) (r : results) :
  Js.truthy mx = false -> cap_reached mx r = false.
Proof. destruct mx as [[|m]|]; simpl; auto; discriminate. Qed.

(** C4. With maxArticles = N > 0: a pass leaves the loop exactly when its
    source completed (scrape and bookkeeping) and the articles found so far
    are N or more; a loop that was left that way went through all sources
    before that one without reaching the cap, and the sources after it
    are not attempted: the loop behaves as if the list ended there, so
    they add to no tally, no command and no detail; the articles of the
    report are those contributed by the sources up to that one, and
    successful and failed count none but these.  With maxArticles 0 or
    absent the loop is never left early. *)
Theorem cap_stops_the_selected_loop
    (scrapers : list (Z * BaseScraper.scraper)) (m : nat) (w : script) :
  (forall id sc a p,
     snd (fst (attempt_source (Some (S m)) id sc a p)) = Done Break
     <-> exists n, completes a = Some n /\ S m <= articles (run p) + n)
  /\ (forall pre post i p,
        snd (fst (selected_loop scrapers (Some (S m)) w i pre p)) = Done Broken ->
        selected_loop scrapers (Some (S m)) w i (pre ++ post)%list p
        = selected_loop scrapers (Some (S m)) w i pre p)
  /\ (forall ids i p,
        snd (fst (selected_loop scrapers (Some (S m)) w i ids p)) = Done Broken ->
        exists pre id post n,
          ids = (pre ++ id :: post)%list
          /\ get id scrapers <> None
          /\ snd (fst (selected_loop scrapers (Some (S m)) w i pre p))
             = Done Exhausted
          /\ completes (w (i + List.length pre)) = Some n
          /\ S m <= articles (run (snd (selected_loop scrapers (Some (S m)) w i
                                          pre p))) + n
          /\ selected_loop scrapers (Some (S m)) w i ids p
             = selected_loop scrapers (Some (S m)) w i (pre ++ [id])%list p)
  /\ (forall ids opts p d r,
        isRunning p = false ->
        maxArticles opts = Some (S m) ->
        timeout opts = None ->
        result (scrapeSelected scrapers ids opts w p) = Done (RunReport d r) ->
        exists k,
          k <= List.length ids
          /\ articles r = found_by scrapers w 0 (firstn k ids)
          /\ successful r <= k
          /\ failed r <= k
          /\ (k < List.length ids -> S m <= articles r))
  /\ (forall mx ids i p,
        Js.truthy mx = false ->
        snd (fst (selected_loop scrapers mx w i ids p)) <> Done Broken).
Proof.
  split.
  { intros id sc a p.
    destruct (attempt_source_break (Some (S m)) id sc a p) as (Hiff & _).
    rewrite Hiff. split; intros (n & Hn & Hc); exists n; (split; [exact Hn|]);
      apply cap_reached_set in Hc || apply cap_reached_set; simpl in *; exact Hc. }
  split.
  { intros pre post i p Hb. rewrite !selected_loop_passes in *.
    rewrite looked_up_app, passes_app.
    now destruct (passes (Some (S m)) w i (looked_up scrapers pre) p)
      as [[t [[]|e]] p1]. }
  split.
  { intros ids i p Hb.
    destruct (selected_loop_broken_shape scrapers (Some (S m)) w ids i p Hb)
      as (pre & id & post & n & H1 & H2 & H3 & H4 & H5 & H6).
    exists pre, id, post, n. repeat split; auto.
    apply cap_reached_set in H5. exact H5. }
  split.
  { intros ids opts p d r Hrun Hmax Hto Hres.
    destruct (scrapeSelected_cases scrapers ids opts w p Hrun)
      as [(T & seen & q & later & HT & _)
         |[(e & Hx & _ & Hc)|[(m0 & T & HT & _)|(m0 & _ & _ & Hc)]]];
      try congruence;
      rewrite Hc in Hres; cbn [result report] in Hres; try discriminate Hres.
    inversion Hres; subst d r; clear Hres Hc. rewrite Hmax in *.
    set (p0 := begin_run (List.length ids) p) in *.
    destruct e.
    - exists (List.length ids). rewrite firstn_all.
      pose proof (passes_articles (Some (S m)) w (looked_up scrapers ids) 0 p0) as Ha.
      pose proof (passes_within (Some (S m)) w (looked_up scrapers ids) 0 p0) as Hw.
      apply states_suspended in Hw as [_ (W1 & W2 & _)].
      rewrite Hx in Ha. rewrite looked_up_length in *. unfold found_by.
      simpl in *. repeat split; try lia.
    - rewrite <- selected_loop_passes in *.
      destruct (selected_loop_broken_shape scrapers (Some (S m)) w ids 0 p0 Hx)
        as (pre & id & post & n & H1 & H2 & H3 & H4 & H5 & H6).
      exists (S (List.length pre)).
      assert (Hfirst : firstn (S (List.length pre)) ids = (pre ++ [id])%list).
      { rewrite H1.
        change (pre ++ id :: post)%list with (pre ++ [id] ++ post)%list.
        rewrite app_assoc.
        replace (S (List.length pre)) with (List.length (pre ++ [id])%list + 0)
          by (rewrite length_app; simpl; lia).
        rewrite firstn_app_2. simpl. now rewrite app_nil_r. }
      assert (Hk : List.length ids = List.length pre + S (List.length post))
        by (rewrite H1, length_app; reflexivity).
      destruct (get id scrapers) as [sc|] eqn:Eg; [|congruence].
      assert (Hlast : looked_up scrapers (pre ++ [id])
                      = (looked_up scrapers pre ++ [(id, Some sc)])%list).
      { rewrite looked_up_app. simpl. now rewrite Eg. }
      pose proof (passes_within (Some (S m)) w
                    (looked_up scrapers (pre ++ [id])) 0 p0) as Hw.
      apply states_suspended in Hw as [_ (W1 & W2 & _)].
      rewrite looked_up_length, length_app in W1, W2. simpl in W1, W2.
      pose proof Hx as Hbr. rewrite selected_loop_passes in Hbr.
      apply passes_broken, cap_reached_set in Hbr.
      rewrite selected_loop_passes in H3.
      pose proof (passes_articles_last (Some (S m)) w (looked_up scrapers pre)
                    id sc 0 p0 H3) as Ha.
      rewrite <- Hlast in Ha. simpl in Ha.
      rewrite <- selected_loop_passes in Hbr.
      rewrite Hfirst. unfold found_by.
      rewrite H6 in Hbr |- *. rewrite selected_loop_passes in Hbr |- *.
      repeat split; try lia. }
  intros mx ids i p Hf Hb. rewrite selected_loop_passes in Hb.
  apply passes_broken in Hb. rewrite (cap_reached_unset mx _ Hf) in Hb.
  discriminate.
Qed.

Lemma cap_stops_the_selected_loop_witness :
  isRunning at_rest = false
  /\ result (scrapeSelected two_scrapers [1%Z; 2%Z]
               {| timeout := None; maxArticles := Some 3 |} steady at_rest)
     = Done (RunReport 3000
               {| total := 2; successful := 1; failed := 0; articles := 5;
                  details := []; timedOut := false |})
  /\ exists k,
       k <= 2
       /\ 5 = found_by two_scrapers steady 0 (firstn k [1%Z; 2%Z])
       /\ 1 <= k
       /\ 0 <= k
       /\ (k < 2 -> 3 <= 5).
Proof.
  split; [reflexivity|].
  assert (E : result (scrapeSelected two_scrapers [1%Z; 2%Z]
                        {| timeout := None; maxArticles := Some 3 |}
                        steady at_rest)
              = Done (RunReport 3000
                        {| total := 2; successful := 1; failed := 0;
                           articles := 5; details := []; timedOut := false |}))
    by (vm_compute; reflexivity).
  split; [exact E|].
  exact (proj1 (proj2 (proj2 (proj2 (cap_stops_the_selected_loop two_scrapers 2
                                       steady))))
           [1%Z; 2%Z] {| timeout := None; maxArticles := Some 3 |} at_rest
           3000%N _ eq_refl eq_refl eq_refl E).
Defined.

(** The specification as worded fails for maxArticles = 0: the first source brings
    the count to 5, which is 0 or more, and the loop goes on to the second
    source all the same. *)
Lemma zero_cap_does_not_stop_the_loop :
  result (scrapeSelected two_scrapers [1%Z; 2%Z]
            {| timeout := None; maxArticles := Some 0 |} steady at_rest)
  = Done (RunReport 6000
            {| total := 2; successful := 2; failed := 0; articles := 10;
               details := [five_found "Baldwin Times";
                           five_found "Foley Observer"];
               timedOut := false |}).
Proof. vm_compute. reflexivity. Qed.

(* --------------------------------------------------------------------- *)
(** ** ScraperManager: the timeout *)
(* --------------------------------------------------------------------- *)

Lemma chain_pairwise (l1 l2 : list process) :
  forall p, chain moves_on p (l1 ++ l2)%list ->
            forall x, In x l1 -> Forall (moves_on x) l2.
Proof.
  induction l1 as [|q l1 IH]; intros p Hc x Hx; [contradiction|].
  simpl in Hc. destruct Hc as [_ Hc]. destruct Hx as [<-|Hx].
  - apply chain_Forall in Hc. now apply Forall_app in Hc as [_ Hc].
  - now apply (IH q).
Qed.

Lemma setTimeout_delay_le (T : positive) :
  (0 < setTimeout_delay (N.pos T) <= N.pos T)%N.
Proof.
  unfold setTimeout_delay.
  destruct (2147483647 <? N.pos T)%N eqn:E; [apply N.ltb_lt in E|]; lia.
Qed.

(** C5. A scrapeSelected call with a timeout that is not 0 never throws: it
    returns a report.  When that timeout is shorter than the time the loop
    of the call takes (the passes it makes, up to the one at which the
    maxArticles cap, if there is one, ends it), the report is made at the
    expiry of the timer (after the delay setTimeout uses): timedOut is
    true, details holds the entries pushed before the expiry (every list of
    details seen during the call is a prefix of it) and has fewer entries
    than total; the flag is cleared while the loop goes on behind the call,
    pushing to that same details array. *)
Theorem timed_out_run_returns_partial_results
    (scrapers : list (Z * BaseScraper.scraper)) (ids : list Z) (opts : options)
    (w : script) (p : process) (T : positive) :
  isRunning p = false ->
  timeout opts = Some (N.pos T) ->
  (exists d r, result (scrapeSelected scrapers ids opts w p)
               = Done (RunReport d r))
  /\ ((N.pos T < time_needed scrapers ids opts w p)%N ->
      exists r,
        result (scrapeSelected scrapers ids opts w p)
        = Done (RunReport (setTimeout_delay (N.pos T)) r)
        /\ timedOut r = true
        /\ total r = List.length ids
        /\ List.length (details r) < total r
        /\ Forall (fun x => extends (details (run (snd x))) (details r))
                  (observed (scrapeSelected scrapers ids opts w p))
        /\ Forall (fun x => extends (details r) (details (run (snd x))))
                  (background (scrapeSelected scrapers ids opts w p))
        /\ observed (scrapeSelected scrapers ids opts w p) <> []
        /\ isRunning (after (scrapeSelected scrapers ids opts w p)) = false).
Proof.
  intros Hrun HT.
  pose proof (scrapeSelected_cases scrapers ids opts w p Hrun) as Hcases.
  cbv zeta in Hcases.
  set (p0 := begin_run (List.length ids) p) in *.
  set (x := passes (maxArticles opts) w 0 (looked_up scrapers ids) p0) in *.
  split.
  { destruct Hcases
      as [(T' & seen & q & later & _ & _ & Hc)
         |[(e & _ & _ & Hc)|[(m & T' & _ & _ & _ & Hc)|(m & Hf & _)]]];
      try (rewrite Hc; cbn [result report]; eauto).
    rewrite HT in Hf. discriminate. }
  intros Htime. unfold time_needed in Htime.
  rewrite selected_loop_passes in Htime. fold p0 in Htime. fold x in Htime.
  pose proof (setTimeout_delay_le T) as Hd.
  destruct Hcases
    as [(T' & seen & q & later & HT' & E & Hc)
       |[(e & _ & Hn & _)|[(m & T' & HT' & Hn & _)|(m & Hf & _)]]].
  - rewrite HT in HT'. inversion HT'; subst T'; clear HT'.
    rewrite Hc. cbn [result report observed background after].
    destruct (expire_Some _ _ _ _ _ E) as (Hsplit & (before & l & Hseen) & _).
    pose proof (passes_chain (maxArticles opts) w (looked_up scrapers ids) 0 p0)
      as Hchain.
    fold x in Hchain. unfold states in Hchain.
    rewrite Hsplit, Hseen in Hchain.
    rewrite !map_app, <- !app_assoc in Hchain. simpl in Hchain.
    pose proof (passes_suspended_details (maxArticles opts) w
                  (looked_up scrapers ids) 0 p0) as Hsd.
    fold x in Hsd. rewrite Hsplit, Hseen, !map_app in Hsd.
    apply Forall_app in Hsd as [Hsd _]. apply Forall_app in Hsd as [_ Hsd].
    inversion Hsd as [|? ? Hq _]; subst. rewrite looked_up_length in Hq.
    assert (Hq0 : moves_on p0 q).
    { apply chain_Forall in Hchain. apply Forall_app in Hchain as [_ Hchain].
      now inversion Hchain. }
    destruct Hq0 as (_ & Htot & _).
    eexists. split.
    { f_equal. f_equal. simpl. lia. }
    cbn [timedOut total details mark_timed_out run set_run set_clock isRunning
         set_isRunning].
    split; [reflexivity|]. split; [exact Htot|].
    split; [rewrite Htot; simpl in Hq |- *; lia|].
    split; [|split; [|split; [|reflexivity]]].
    + apply Forall_app. split.
      * apply Forall_forall. intros y Hy.
        pose proof (chain_pairwise _ _ _ Hchain (snd y) (in_map snd _ _ Hy)) as Hf.
        inversion Hf as [|? ? Hyq _]; subst. apply Hyq.
      * constructor; [apply extends_refl|constructor].
    + apply Forall_forall. intros y Hy.
      change (map snd before ++ q :: map snd later ++ [snd x])%list
        with (map snd before ++ [q] ++ map snd later ++ [snd x])%list in Hchain.
      rewrite app_assoc in Hchain.
      assert (Hin : In q (map snd before ++ [q])%list)
        by (apply in_or_app; right; now left).
      pose proof (chain_pairwise _ _ _ Hchain q Hin) as Hf.
      apply Forall_app in Hf as [Hf _].
      rewrite Forall_forall in Hf. apply (Hf (snd y)). now apply in_map.
    + intros Hnil. destruct before; discriminate.
  - specialize (Hn T HT). apply expire_None in Hn; lia.
  - rewrite HT in HT'. inversion HT'; subst. apply expire_None in Hn; lia.
  - rewrite HT in Hf. discriminate.
Qed.

Lemma timed_out_run_returns_partial_results_witness :
  isRunning at_rest = false
  /\ (4000 < time_needed two_scrapers [1%Z; 2%Z]
               {| timeout := Some 4000%N; maxArticles := None |} steady at_rest)%N
  /\ exists r,
       result (scrapeSelected two_scrapers [1%Z; 2%Z]
                 {| timeout := Some 4000%N; maxArticles := None |} steady at_rest)
       = Done (RunReport (setTimeout_delay 4000) r)
       /\ timedOut r = true
       /\ total r = 2
       /\ List.length (details r) < total r
       /\ Forall (fun x => extends (details (run (snd x))) (details r))
                 (observed (scrapeSelected two_scrapers [1%Z; 2%Z]
                              {| timeout := Some 4000%N; maxArticles := None |}
                              steady at_rest))
       /\ Forall (fun x => extends (details r) (details (run (snd x))))
                 (background (scrapeSelected two_scrapers [1%Z; 2%Z]
                                {| timeout := Some 4000%N; maxArticles := None |}
                                steady at_rest))
       /\ observed (scrapeSelected two_scrapers [1%Z; 2%Z]
                      {| timeout := Some 4000%N; maxArticles := None |}
                      steady at_rest) <> []
       /\ isRunning (after (scrapeSelected two_scrapers [1%Z; 2%Z]
                               {| timeout := Some 4000%N; maxArticles := None |}
                               steady at_rest)) = false.
Proof.
  split; [reflexivity|].
  assert (Hshort : (4000 < time_needed two_scrapers [1%Z; 2%Z]
                              {| timeout := Some 4000%N; maxArticles := None |}
                              steady at_rest)%N)
    by (vm_compute; reflexivity).
  split; [exact Hshort|].
  exact (proj2 (timed_out_run_returns_partial_results two_scrapers [1%Z; 2%Z]
                  {| timeout := Some 4000%N; maxArticles := None |} steady
                  at_rest 4000%positive eq_refl eq_refl) Hshort).
Defined.

(** The specification as worded fails twice.  For timeout = 0, which is
    shorter than the six seconds the two sources take: no timer is set and
    the call returns after six seconds with both entries and no timedOut
    flag.  And for a call with a maxArticles cap: with a timeout of 4000 ms,
    again shorter than the six seconds it takes to go through both
    sources, and a cap of 3 that the first source reaches, the loop ends
    after three seconds and the call returns then, without timedOut. *)
Lemma zero_timeout_sets_no_timer :
  ((0 < time_for_all two_scrapers [1%Z; 2%Z] steady at_rest)%N
   /\ result (scrapeSelected two_scrapers [1%Z; 2%Z]
                {| timeout := Some 0%N; maxArticles := None |} steady at_rest)
      = Done (RunReport 6000
                {| total := 2; successful := 2; failed := 0; articles := 10;
                   details := [five_found "Baldwin Times";
                               five_found "Foley Observer"];
                   timedOut := false |}))
  /\ ((4000 < time_for_all two_scrapers [1%Z; 2%Z] steady at_rest)%N
      /\ result (scrapeSelected two_scrapers [1%Z; 2%Z]
                   {| timeout := Some 4000%N; maxArticles := Some 3 |}
                   steady at_rest)
         = Done (RunReport 3000
                   {| total := 2; successful := 1; failed := 0; articles := 5;
                      details := []; timedOut := false |})).
Proof. repeat split; vm_compute; reflexivity. Qed.

(* --------------------------------------------------------------------- *)
(** ** ScraperManager: ids without a scraper *)
(* --------------------------------------------------------------------- *)

Lemma silent_about_refl (id : Z) (p : process) : silent_about id p p.
Proof. exists []. split; [now rewrite app_nil_r|constructor]. Qed.

Lemma silent_about_trans (id : Z) (p q r : process) :
  silent_about id p q -> silent_about id q r -> silent_about id p r.
Proof.
  intros (l & E & H) (l' & E' & H'). exists (l ++ l')%list.
  split; [now rewrite E', E, app_assoc|now apply Forall_app].
Qed.

(** A pass sends statements about its own source only. *)
Lemma attempt_source_silent (mx : option nat) (id id' : Z)
    (sc : BaseScraper.scraper) (a : attempt) (p : process) :
  id' <> id ->
  Forall (silent_about id' p) (states (attempt_source mx id sc a p)).
Proof.
  intros Hne.
  assert (Hc : forall c, about c = Some id \/ about c = None ->
                         about c <> Some id') by (intros c [E|E]; congruence).
  pass_cases a p; unfold silent_about; cbn [issued];
    repeat (apply Forall_cons;
            [eexists; split;
             [repeat rewrite <- app_assoc; cbn [app]; reflexivity
             |repeat (apply Forall_cons; [apply Hc; cbn; auto|]);
              apply Forall_nil]|]);
    apply Forall_nil.
Qed.

Lemma passes_silent (mx : option nat) (w : script) (id : Z)
    (items : list (Z * option BaseScraper.scraper)) :
  Forall (fun e => snd e <> None -> fst e <> id) items ->
  forall i p, Forall (silent_about id p) (states (passes mx w i items p)).
Proof.
  induction items as [|[id' [sc|]] rest IH]; intros Hreg i p.
  - simpl. constructor; [apply silent_about_refl|constructor].
  - inversion Hreg as [|? ? Hid Hrest]; subst. cbn [fst snd] in Hid.
    assert (Hne : id <> id') by (intros E; apply Hid; [discriminate|now symmetry]).
    rewrite passes_some.
    pose proof (attempt_source_silent mx id' id sc (w i) p Hne) as Hs.
    destruct (attempt_source mx id' sc (w i) p) as [[t [[]|e]] p1].
    + specialize (IH Hrest (S i) p1).
      destruct (passes mx w (S i) rest p1) as [[t' c] p2].
      unfold states in *. cbn [fst snd] in *.
      apply Forall_app in Hs as [Hs Hp1].
      inversion Hp1 as [|? ? Hp1' _]; subst.
      rewrite map_app, <- app_assoc. apply Forall_app. split; [exact Hs|].
      eapply Forall_impl; [|exact IH].
      intros q. now apply silent_about_trans.
    + unfold states in *. cbn [fst snd] in *. now rewrite app_nil_r.
    + exact Hs.
  - inversion Hreg as [|? ? _ Hrest]; subst.
    rewrite passes_none.
    specialize (IH Hrest (S i) (set_run (count_failure (run p)) p)).
    eapply Forall_impl; [|exact IH]. intros q Hq. exact Hq.
Qed.

Lemma looked_up_registered (scrapers : list (Z * BaseScraper.scraper))
    (id : Z) (ids : list Z) :
  get id scrapers = None ->
  Forall (fun e => snd e <> None -> fst e <> id) (looked_up scrapers ids).
Proof.
  intros Hid. unfold looked_up. apply Forall_map, Forall_forall.
  intros id' _ Hsome E. cbn [fst snd] in *. subst id'. contradiction.
Qed.

Lemma unregistered_count_occ (scrapers : list (Z * BaseScraper.scraper))
    (id : Z) (ids : list Z) :
  get id scrapers = None ->
  count_occ Z.eq_dec ids id <= unregistered (looked_up scrapers ids).
Proof.
  intros Hid. induction ids as [|a rest IH]; simpl; [lia|].
  destruct (Z.eq_dec a id) as [E|E].
  - subst a. rewrite Hid. lia.
  - destruct (get a scrapers); lia.
Qed.

(** C10. When scrapeSelected comes to an id for which this.scrapers holds no
    scraper, the pass adds one to failed and goes on to the next id without
    an await: successful, articles and details stay as they are and nothing
    is sent to the database.  In a whole call no statement about such an id
    is sent at all, so no scrape_logs row is written for it.  In a call that
    went through its list (it returned a report without timedOut and without
    having reached the cap) failed counts every occurrence of the id, and
    details has fewer entries than successful + failed. *)
Theorem unregistered_id_fails_without_entry
    (scrapers : list (Z * BaseScraper.scraper)) (id : Z) :
  get id scrapers = None ->
  (forall mx w i rest p,
     selected_loop scrapers mx w i (id :: rest) p
     = selected_loop scrapers mx w (S i) rest
         (set_run (count_failure (run p)) p)
     /\ failed (count_failure (run p)) = S (failed (run p))
     /\ successful (count_failure (run p)) = successful (run p)
     /\ articles (count_failure (run p)) = articles (run p)
     /\ details (count_failure (run p)) = details (run p)
     /\ issued (set_run (count_failure (run p)) p) = issued p)
  /\ (forall ids opts w p,
        isRunning p = false ->
        Forall (silent_about id p)
          (map snd (observed (scrapeSelected scrapers ids opts w p))
           ++ [after (scrapeSelected scrapers ids opts w p)]
           ++ map snd (background (scrapeSelected scrapers ids opts w p)))%list)
  /\ (forall ids opts w p d r,
        isRunning p = false ->
        In id ids ->
        result (scrapeSelected scrapers ids opts w p) = Done (RunReport d r) ->
        timedOut r = false ->
        cap_reached (maxArticles opts) r = false ->
        count_occ Z.eq_dec ids id <= failed r
        /\ List.length (details r) + count_occ Z.eq_dec ids id
           <= successful r + failed r
        /\ List.length (details r) < successful r + failed r).
Proof.
  intros Hid. split; [|split].
  - intros mx w i rest p. split; [|repeat split].
    simpl. rewrite Hid. unfold bind, on_run, update.
    now destruct (selected_loop scrapers mx w (S i) rest
                    (set_run (count_failure (run p)) p)) as [[t c] p2].
  - intros ids opts w p H.
    apply scrapeSelected_states; auto.
    + pose proof (passes_silent (maxArticles opts) w id (looked_up scrapers ids)
                    (looked_up_registered scrapers id ids Hid) 0
                    (begin_run (List.length ids) p)) as Hs.
      eapply Forall_impl; [|exact Hs]. intros q Hq. exact Hq.
  - intros ids opts w p d r H Hin Hr Hto Hcap.
    pose proof (unregistered_count_occ scrapers id ids Hid) as Hocc.
    apply (count_occ_In Z.eq_dec) in Hin.
    pose proof (exhausted_from_begin (maxArticles opts) w
                  (looked_up scrapers ids) p) as He.
    pose proof (passes_broken (maxArticles opts) w (looked_up scrapers ids) 0
                  (begin_run (List.length (looked_up scrapers ids)) p)) as Hbr.
    rewrite looked_up_length in He, Hbr. cbv zeta in He.
    destruct (scrapeSelected_cases scrapers ids opts w p H)
      as [(T & seen & q & later & _ & _ & Hc)
         |[(e & Hx & _ & Hc)|[(m & T & _ & _ & _ & Hc)|(m & _ & _ & Hc)]]];
      rewrite Hc in Hr; cbn [result report] in Hr;
      inversion Hr; subst r; clear Hr; try discriminate Hto.
    destruct e.
    + destruct (He Hx) as (_ & _ & Hf & Hd & _). lia.
    + rewrite (Hbr Hx) in Hcap. discriminate.
Qed.

Lemma unregistered_id_fails_without_entry_witness :
  get 7%Z two_scrapers = None
  /\ result (scrapeSelected two_scrapers [1%Z; 7%Z; 2%Z]
               {| timeout := None; maxArticles := None |} steady at_rest)
     = Done (RunReport 6000
               {| total := 3; successful := 2; failed := 1; articles := 10;
                  details := [five_found "Baldwin Times";
                              five_found "Foley Observer"];
                  timedOut := false |})
  /\ count_occ Z.eq_dec [1%Z; 7%Z; 2%Z] 7%Z <= 1
  /\ 2 + count_occ Z.eq_dec [1%Z; 7%Z; 2%Z] 7%Z <= 2 + 1
  /\ 2 < 2 + 1.
Proof.
  split; [reflexivity|].
  assert (E : result (scrapeSelected two_scrapers [1%Z; 7%Z; 2%Z]
                        {| timeout := None; maxArticles := None |}
                        steady at_rest)
              = Done (RunReport 6000
                        {| total := 3; successful := 2; failed := 1;
                           articles := 10;
                           details := [five_found "Baldwin Times";
                                       five_found "Foley Observer"];
                           timedOut := false |}))
    by (vm_compute; reflexivity).
  split; [exact E|].
  exact (proj2 (proj2 (unregistered_id_fails_without_entry two_scrapers 7%Z
                         eq_refl))
           [1%Z; 7%Z; 2%Z] {| timeout := None; maxArticles := None |} steady
           at_rest 6000%N _ eq_refl (or_intror (or_introl eq_refl)) E eq_refl
           eq_refl).
Defined.

(* --------------------------------------------------------------------- *)
(** ** ScraperManager: details, scrape_logs and the tallies *)
(* --------------------------------------------------------------------- *)

Section LedgerFacts.
Import Ledger.

Lemma logs_app (l1 l2 : list command) : logs (l1 ++ l2) = (logs l1 ++ logs l2)%list.
Proof. apply filter_app. Qed.

(** A pass that goes on to the next source wrote one row to scrape_logs and
    pushed the entry that says the same. *)
Lemma attempt_source_entry (mx : option nat) (id : Z)
    (sc : BaseScraper.scraper) (a : attempt) (p : process) :
  let x := attempt_source mx id sc a p in
  match snd (fst x) with
  | Done Next =>
      exists d,
        details (run (snd x)) = (details (run p) ++ [d])%list
        /\ source d = BaseScraper.sourceName sc
        /\ logs (issued (snd x)) = (logs (issued p) ++ [log_of (id, d)])%list
        /\ (writes_ok a = true -> entry_tallies p (snd x) d)
  | Done Break =>
      details (run (snd x)) = details (run p)
      /\ logs (issued (snd x)) = logs (issued p)
  | Threw m =>
      outcome (error_reply a) = RejectedWith m
      \/ outcome (log_reply a) = RejectedWith m
  end.
Proof.
  pass_cases a p; repeat rewrite logs_app; cbn [logs filter is_log app];
    repeat rewrite app_nil_r;
    try (split; reflexivity); try (left; reflexivity); try (right; reflexivity);
    (eexists; split; [reflexivity|]; split; [reflexivity|];
     split; [reflexivity|]; intros Hw; try discriminate Hw;
     unfold entry_tallies; cbn;
     first [left; repeat split; (reflexivity || lia)
           |right; repeat split; (reflexivity || lia || discriminate)]).
Qed.

Lemma successes_cons (d : detail) (ds : list detail) :
  successes (d :: ds) = (if succeeded d then 1 else 0) + successes ds.
Proof. unfold successes. simpl. now destruct (succeeded d). Qed.

Lemma errors_cons (d : detail) (ds : list detail) :
  errors (d :: ds)
  = (if String.eqb (status d) "error" then 1 else 0) + errors ds.
Proof. unfold errors. simpl. now destruct (String.eqb (status d) "error"). Qed.

Lemma entry_tallies_counts (p q : process) (d : detail) :
  entry_tallies p q d ->
  successful (run q) = successful (run p) + (if succeeded d then 1 else 0)
  /\ failed (run q)
     = failed (run p) + (if String.eqb (status d) "error" then 1 else 0)
  /\ articles (run q) = articles (run p) + found d.
Proof.
  unfold succeeded.
  intros [(Hs & _ & H1 & H2 & H3)|(Hs & _ & Hf & H1 & H2 & H3)]; rewrite Hs;
    cbn; lia.
Qed.

(** The loop that ended without throwing: its entries and its rows of
    scrape_logs, source by source, and its tallies. *)
Lemma passes_entries (mx : option nat) (w : script)
    (items : list (Z * option BaseScraper.scraper)) :
  forall i p e,
    snd (fst (passes mx w i items p)) = Done e ->
    exists ds k,
      details (run (snd (passes mx w i items p))) = (details (run p) ++ ds)%list
      /\ k <= List.length (registered items)
      /\ map source ds
         = map (fun r => BaseScraper.sourceName (snd r))
             (firstn k (registered items))
      /\ logs (issued (snd (passes mx w i items p)))
         = (logs (issued p)
            ++ map log_of (combine (map fst (firstn k (registered items))) ds))%list
      /\ (e = Exhausted -> k = List.length (registered items))
      /\ (e = Exhausted -> (forall j, writes_ok (w j) = true) ->
          successful (run (snd (passes mx w i items p)))
          = successful (run p) + successes ds
          /\ failed (run (snd (passes mx w i items p)))
             = failed (run p) + errors ds + unregistered items
          /\ articles (run (snd (passes mx w i items p)))
             = articles (run p) + sum_found ds).
Proof.
  induction items as [|[id [sc|]] rest IH]; intros i p e.
  - simpl. intros _. exists [], 0. simpl. rewrite !app_nil_r.
    repeat split; auto; cbn; lia.
  - rewrite passes_some.
    pose proof (attempt_source_entry mx id sc (w i) p) as He. cbv zeta in He.
    destruct (attempt_source mx id sc (w i) p) as [[t [[]|m]] p1];
      cbn [fst snd] in *.
    + destruct He as (d & Hd & Hs & Hl & Ht).
      specialize (IH (S i) p1 e).
      destruct (passes mx w (S i) rest p1) as [[t' c] p2]; cbn [fst snd] in *.
      intros Hc. destruct (IH Hc) as (ds & k & H1 & H2 & H3 & H4 & H5 & H6).
      exists (d :: ds), (S k). cbn [registered firstn map combine List.length].
      rewrite H1, Hd, <- app_assoc. split; [reflexivity|]. split; [lia|].
      split; [now rewrite H3, Hs|]. split; [|split].
      * rewrite H4, Hl, <- app_assoc. reflexivity.
      * intros Hx. now rewrite (H5 Hx).
      * intros Hx Hok. destruct (H6 Hx Hok) as (T1 & T2 & T3).
        destruct (entry_tallies_counts p p1 d (Ht (Hok i))) as (E1 & E2 & E3).
        rewrite successes_cons, errors_cons. cbn [sum_found fold_right unregistered].
        fold (sum_found ds). lia.
    + destruct He as (Hd & Hl). intros Hc. inversion Hc; subst e.
      exists [], 0. simpl. rewrite !app_nil_r.
      repeat split; auto; try lia; discriminate.
    + discriminate.
  - rewrite passes_none. intros Hc.
    destruct (IH (S i) (set_run (count_failure (run p)) p) e Hc)
      as (ds & k & H1 & H2 & H3 & H4 & H5 & H6).
    exists ds, k. cbn [registered].
    split; [exact H1|]. split; [exact H2|]. split; [exact H3|].
    split; [exact H4|]. split; [exact H5|].
    intros Hx Hok. destruct (H6 Hx Hok) as (T1 & T2 & T3).
    cbn in *. lia.
Qed.

(** The loop that the cap ended: the source at which it ended was scraped
    and counted, and has no entry. *)
Lemma passes_broken_entries (mx : option nat) (w : script)
    (items : list (Z * option BaseScraper.scraper)) :
  forall i p,
    snd (fst (passes mx w i items p)) = Done Broken ->
    exists ds,
      details (run (snd (passes mx w i items p))) = (details (run p) ++ ds)%list
      /\ List.length ds < List.length (registered items)
      /\ ((forall j, writes_ok (w j) = true) ->
          successful (run (snd (passes mx w i items p)))
          = S (successful (run p) + successes ds)).
Proof.
  induction items as [|[id [sc|]] rest IH]; intros i p.
  - simpl. discriminate.
  - rewrite passes_some.
    pose proof (attempt_source_entry mx id sc (w i) p) as He. cbv zeta in He.
    pose proof (attempt_source_break mx id sc (w i) p) as (_ & Hb & _).
    destruct (attempt_source mx id sc (w i) p) as [[t [[]|m]] p1];
      cbn [fst snd] in *.
    + destruct He as (d & Hd & Hs & Hl & Ht).
      specialize (IH (S i) p1).
      destruct (passes mx w (S i) rest p1) as [[t' c] p2]; cbn [fst snd] in *.
      intros Hc. destruct (IH Hc) as (ds & H1 & H2 & H3).
      exists (d :: ds). cbn [registered List.length].
      rewrite H1, Hd, <- app_assoc. split; [reflexivity|]. split; [lia|].
      intros Hok. rewrite (H3 Hok).
      destruct (entry_tallies_counts p p1 d (Ht (Hok i))) as (E1 & _).
      rewrite successes_cons. lia.
    + intros _. destruct He as (Hd & _). destruct (Hb eq_refl) as (Hs & _).
      exists []. cbn [registered List.length]. rewrite app_nil_r.
      split; [exact Hd|]. split; [lia|]. intros _. rewrite Hs. cbn. lia.
    + discriminate.
  - rewrite passes_none. intros Hc.
    destruct (IH (S i) _ Hc) as (ds & H1 & H2 & H3).
    exists ds. cbn [registered]. split; [exact H1|]. split; [exact H2|].
    intros Hok. rewrite (H3 Hok). reflexivity.
Qed.

Lemma passes_thrown (mx : option nat) (w : script)
    (items : list (Z * option BaseScraper.scraper)) :
  forall i p m,
    snd (fst (passes mx w i items p)) = Threw m ->
    exists j, i <= j < i + List.length items
              /\ (outcome (error_reply (w j)) = RejectedWith m
                  \/ outcome (log_reply (w j)) = RejectedWith m).
Proof.
  induction items as [|[id [sc|]] rest IH]; intros i p m.
  - simpl. discriminate.
  - rewrite passes_some.
    pose proof (attempt_source_entry mx id sc (w i) p) as He. cbv zeta in He.
    destruct (attempt_source mx id sc (w i) p) as [[t [[]|m']] p1];
      cbn [fst snd] in *.
    + specialize (IH (S i) p1 m).
      destruct (passes mx w (S i) rest p1) as [[t' c] p2]; cbn [fst snd] in *.
      intros Hc. destruct (IH Hc) as (j & Hj & Hm).
      exists j. cbn [List.length]. split; [lia|exact Hm].
    + discriminate.
    + intros Hc. inversion Hc; subst m'. exists i. cbn [List.length].
      split; [lia|exact He].
  - rewrite passes_none. intros Hc.
    destruct (IH (S i) _ m Hc) as (j & Hj & Hm).
    exists j. cbn [List.length]. split; [lia|exact Hm].
Qed.

Lemma registered_entries (scrapers : list (Z * BaseScraper.scraper)) :
  registered (entries scrapers) = scrapers.
Proof.
  induction scrapers as [|[id sc] rest IH]; simpl; [reflexivity|].
  now rewrite IH.
Qed.

Lemma unregistered_entries (scrapers : list (Z * BaseScraper.scraper)) :
  unregistered (entries scrapers) = 0.
Proof. induction scrapers as [|[id sc] rest IH]; simpl; auto. Qed.

Lemma passes_final (mx : option nat) (w : script)
    (items : list (Z * option BaseScraper.scraper)) (i : nat) (p : process) :
  moves_on p (snd (passes mx w i items p)).
Proof.
  pose proof (chain_Forall _ _ (passes_chain mx w items i p)) as H.
  apply states_suspended in H. apply H.
Qed.

(** X10. A scrapeAll call that returns its report has gone through every
    registered scraper: total is their number, details holds one entry per
    scraper, in the order of this.scrapers and under the scraper's source
    name, timedOut is not set, and the rows the call inserted into
    scrape_logs are these entries, one for one, with the same status,
    article count, duration and error message.  When no write that follows
    a successful scrape fails, the tallies are those of the entries:
    successful counts the entries with status 'success', failed those with
    status 'error', and articles is the sum of their article counts. *)
Theorem scrapeAll_report_matches_scrape_logs
    (scrapers : list (Z * BaseScraper.scraper)) (w : script) (p : process)
    (d : N) (r : results) :
  isRunning p = false ->
  result (scrapeAll scrapers w p) = Done (RunReport d r) ->
  total r = List.length scrapers
  /\ map source (details r)
     = map (fun e => BaseScraper.sourceName (snd e)) scrapers
  /\ logs (issued (after (scrapeAll scrapers w p)))
     = (logs (issued p)
        ++ map log_of (combine (map fst scrapers) (details r)))%list
  /\ timedOut r = false
  /\ isRunning (after (scrapeAll scrapers w p)) = false
  /\ ((forall j, writes_ok (w j) = true) ->
      successful r = successes (details r)
      /\ failed r = errors (details r)
      /\ articles r = sum_found (details r)).
Proof.
  intros H. unfold scrapeAll. rewrite H, all_loop_passes.
  set (p0 := begin_run (List.length scrapers) p).
  pose proof (passes_entries None w (entries scrapers) 0 p0) as He.
  pose proof (passes_never_broken_without_cap w (entries scrapers) 0 p0) as Hnb.
  pose proof (passes_final None w (entries scrapers) 0 p0) as Hm.
  destruct (passes None w 0 (entries scrapers) p0) as [[t [e|m]] p1];
    cbn [fst snd result report after] in *; [|discriminate].
  intros Hr. inversion Hr; subst d r; clear Hr.
  destruct e; [|congruence].
  destruct (He Exhausted eq_refl) as (ds & k & H1 & _ & H3 & H4 & H5 & H6).
  rewrite (H5 eq_refl), registered_entries, firstn_all in *.
  rewrite unregistered_entries in H6.
  destruct Hm as (_ & Ht & Hto & _).
  subst p0. cbn in H1, H4, H6, Ht, Hto. subst ds.
  split; [exact Ht|]. split; [exact H3|]. split; [exact H4|].
  split; [exact Hto|]. split; [reflexivity|].
  intros Hok. destruct (H6 eq_refl Hok) as (T1 & T2 & T3). lia.
Qed.

Lemma scrapeAll_report_matches_scrape_logs_witness :
  isRunning at_rest = false
  /\ result (scrapeAll two_scrapers steady at_rest)
     = Done (RunReport 6000 steady_report)
  /\ map source (details steady_report) = ["Baldwin Times"; "Foley Observer"]
  /\ logs (issued (after (scrapeAll two_scrapers steady at_rest)))
     = [LogScrape 1 "success" 5 3000 None; LogScrape 2 "success" 5 3000 None]
  /\ successful steady_report = successes (details steady_report).
Proof.
  assert (E : result (scrapeAll two_scrapers steady at_rest)
              = Done (RunReport 6000 steady_report)) by (vm_compute; reflexivity).
  destruct (scrapeAll_report_matches_scrape_logs two_scrapers steady at_rest
              6000%N steady_report eq_refl E)
    as (_ & Hs & Hl & _ & _ & Ht).
  split; [reflexivity|]. split; [exact E|]. split; [exact Hs|].
  split; [exact Hl|]. apply Ht. intros j. reflexivity.
Defined.

(** X11. A scrapeSelected call that returns its report without timedOut
    has k details entries, under the source names of the first k ids given
    that have a scraper and in their order, and one row in scrape_logs for
    each entry with the same status, article count, duration and error
    message; ids without a scraper have neither.  Either the loop went
    through all the ids: then k is the number of ids with a scraper and,
    when no write that follows a successful scrape fails, successful counts
    the 'success' entries, failed the 'error' entries and the ids without a
    scraper, and articles is the sum of the article counts of the entries.
    Or the maxArticles cap ended the loop: then the source at which it was
    reached, the one after the k sources with an entry, has neither a
    details entry nor a row in scrape_logs although it was scraped and
    counted: when no write fails, successful is one more than the number
    of 'success' entries.  The first case is the one of a report in which
    the cap is not reached. *)
Theorem scrapeSelected_report_matches_scrape_logs
    (scrapers : list (Z * BaseScraper.scraper)) (ids : list Z) (opts : options)
    (w : script) (p : process) (d : N) (r : results) :
  isRunning p = false ->
  result (scrapeSelected scrapers ids opts w p) = Done (RunReport d r) ->
  timedOut r = false ->
  exists k,
    k = List.length (details r)
    /\ k <= List.length (registered (looked_up scrapers ids))
    /\ map source (details r)
       = map (fun e => BaseScraper.sourceName (snd e))
           (firstn k (registered (looked_up scrapers ids)))
    /\ logs (issued (after (scrapeSelected scrapers ids opts w p)))
       = (logs (issued p)
          ++ map log_of
               (combine (map fst (firstn k (registered (looked_up scrapers ids))))
                  (details r)))%list
    /\ ((k = List.length (registered (looked_up scrapers ids))
         /\ ((forall j, writes_ok (w j) = true) ->
             successful r = successes (details r)
             /\ failed r
                = errors (details r) + unregistered (looked_up scrapers ids)
             /\ articles r = sum_found (details r)))
        \/ (k < List.length (registered (looked_up scrapers ids))
            /\ cap_reached (maxArticles opts) r = true
            /\ ((forall j, writes_ok (w j) = true) ->
                successful r = S (successes (details r)))))
    /\ (cap_reached (maxArticles opts) r = false ->
        k = List.length (registered (looked_up scrapers ids))
        /\ ((forall j, writes_ok (w j) = true) ->
            successful r = successes (details r)
            /\ failed r
               = errors (details r) + unregistered (looked_up scrapers ids)
            /\ articles r = sum_found (details r))).
Proof.
  intros H Hr Hto.
  set (p0 := begin_run (List.length ids) p).
  pose proof (passes_entries (maxArticles opts) w (looked_up scrapers ids) 0 p0)
    as He.
  pose proof (passes_broken (maxArticles opts) w (looked_up scrapers ids) 0 p0)
    as Hbr.
  pose proof (passes_broken_entries (maxArticles opts) w
                (looked_up scrapers ids) 0 p0) as Hbe.
  destruct (scrapeSelected_cases scrapers ids opts w p H)
    as [(T & seen & q & later & _ & _ & Hc)
       |[(e & Hx & _ & Hc)|[(m & T & _ & _ & _ & Hc)|(m & _ & _ & Hc)]]];
    rewrite Hc in *; cbn [result report after] in *;
    inversion Hr; subst d r; clear Hr; try discriminate Hto.
  fold p0 in Hx, Hbr, Hbe |- *.
  destruct (He e Hx) as (ds & k & H1 & H2 & H3 & H4 & H5 & H6).
  assert (Hk : k = List.length ds).
  { apply (f_equal (@List.length _)) in H3.
    rewrite !length_map, length_firstn in H3. lia. }
  subst p0. cbn in H1, H4, H6. subst ds.
  exists k. split; [exact Hk|]. split; [exact H2|]. split; [exact H3|].
  split; [exact H4|].
  destruct e.
  - assert (Hall : k = List.length (registered (looked_up scrapers ids))
                   /\ ((forall j, writes_ok (w j) = true) ->
                       successful (run (snd (passes (maxArticles opts) w 0
                                               (looked_up scrapers ids)
                                               (begin_run (List.length ids) p))))
                       = successes (details (run (snd (passes (maxArticles opts) w 0
                                               (looked_up scrapers ids)
                                               (begin_run (List.length ids) p)))))
                       /\ failed (run (snd (passes (maxArticles opts) w 0
                                               (looked_up scrapers ids)
                                               (begin_run (List.length ids) p))))
                          = errors (details (run (snd (passes (maxArticles opts) w 0
                                               (looked_up scrapers ids)
                                               (begin_run (List.length ids) p)))))
                            + unregistered (looked_up scrapers ids)
                       /\ articles (run (snd (passes (maxArticles opts) w 0
                                               (looked_up scrapers ids)
                                               (begin_run (List.length ids) p))))
                          = sum_found (details (run (snd (passes (maxArticles opts) w 0
                                               (looked_up scrapers ids)
                                               (begin_run (List.length ids) p))))))).
    { split; [now apply H5|].
      intros Hok. destruct (H6 eq_refl Hok) as (T1 & T2 & T3). lia. }
    split; [left; exact Hall|intros _; exact Hall].
  - destruct (Hbe Hx) as (ds' & D1 & D2 & D3). cbn in D1, D3. subst ds'.
    split.
    + right. split; [lia|]. split; [exact (Hbr Hx)|].
      intros Hok. rewrite (D3 Hok). reflexivity.
    + intros Hcap. rewrite (Hbr Hx) in Hcap. discriminate.
Qed.

Lemma scrapeSelected_report_matches_scrape_logs_witness :
  isRunning at_rest = false
  /\ result (scrapeSelected two_scrapers [2%Z; 7%Z; 1%Z] no_options steady
               at_rest)
     = Done (RunReport 6000 selected_report)
  /\ timedOut selected_report = false
  /\ map source (details selected_report) = ["Foley Observer"; "Baldwin Times"]
  /\ logs (issued (after (scrapeSelected two_scrapers [2%Z; 7%Z; 1%Z]
                            no_options steady at_rest)))
     = [LogScrape 2 "success" 5 3000 None; LogScrape 1 "success" 5 3000 None]
  /\ successful selected_report = successes (details selected_report)
  /\ failed selected_report = errors (details selected_report) + 1
  /\ articles selected_report = sum_found (details selected_report)
  /\ (exists r,
        result (scrapeSelected two_scrapers [1%Z; 2%Z]
                  {| timeout := None; maxArticles := Some 3 |} steady at_rest)
        = Done (RunReport 3000 r)
        /\ details r = []
        /\ logs (issued (after (scrapeSelected two_scrapers [1%Z; 2%Z]
                                  {| timeout := None; maxArticles := Some 3 |}
                                  steady at_rest))) = []
        /\ successful r = 1).
Proof.
  assert (E : result (scrapeSelected two_scrapers [2%Z; 7%Z; 1%Z] no_options
                        steady at_rest)
              = Done (RunReport 6000 selected_report))
    by (vm_compute; reflexivity).
  split; [reflexivity|]. split; [exact E|]. split; [reflexivity|].
  destruct (scrapeSelected_report_matches_scrape_logs two_scrapers
              [2%Z; 7%Z; 1%Z] no_options steady at_rest 6000%N selected_report
              eq_refl E eq_refl)
    as (k & Hk & _ & Hs & Hl & _ & Hall).
  subst k.
  split; [exact Hs|]. split; [exact Hl|].
  destruct (Hall eq_refl) as (_ & Ht).
  destruct (Ht (fun j => eq_refl)) as (T1 & T2 & T3).
  split; [exact T1|]. split; [exact T2|]. split; [exact T3|].
  eexists. split; [vm_compute; reflexivity|].
  split; [reflexivity|]. split; [vm_compute; reflexivity|reflexivity].
Defined.

(** X12. A scrapeAll call, or a scrapeSelected call without a timeout, that
    throws never resets isRunning: the flag stays set, and every scrapeAll
    or scrapeSelected call made from then on is refused with 'Scraping
    already in progress'.  Such a call throws only with the message of a
    rejected updateSourceError or logScrape write of one of its passes; a
    failure of a scraper, or of the other writes, is caught and reported in
    details.  So when no updateSourceError and no logScrape write is
    rejected, the call returns a report. *)
Theorem thrown_run_leaves_the_flag_set
    (scrapers : list (Z * BaseScraper.scraper)) (w : script) (p : process) :
  isRunning p = false ->
  (forall m,
     result (scrapeAll scrapers w p) = Threw m ->
     isRunning (after (scrapeAll scrapers w p)) = true
     /\ (exists j, j < List.length scrapers
                   /\ (outcome (error_reply (w j)) = RejectedWith m
                       \/ outcome (log_reply (w j)) = RejectedWith m))
     /\ (forall w', scrapeAll scrapers w' (after (scrapeAll scrapers w p))
                    = refuse (after (scrapeAll scrapers w p)))
     /\ (forall ids opts w',
           scrapeSelected scrapers ids opts w' (after (scrapeAll scrapers w p))
           = refuse (after (scrapeAll scrapers w p))))
  /\ (forall ids opts m,
        Js.truthy_ms (timeout opts) = false ->
        result (scrapeSelected scrapers ids opts w p) = Threw m ->
        isRunning (after (scrapeSelected scrapers ids opts w p)) = true
        /\ (exists j, j < List.length ids
                      /\ (outcome (error_reply (w j)) = RejectedWith m
                          \/ outcome (log_reply (w j)) = RejectedWith m))
        /\ (forall w',
              scrapeAll scrapers w' (after (scrapeSelected scrapers ids opts w p))
              = refuse (after (scrapeSelected scrapers ids opts w p)))
        /\ (forall ids' opts' w',
              scrapeSelected scrapers ids' opts' w'
                (after (scrapeSelected scrapers ids opts w p))
              = refuse (after (scrapeSelected scrapers ids opts w p))))
  /\ ((forall j, fulfilled (error_reply (w j)) = true
                 /\ fulfilled (log_reply (w j)) = true) ->
      (exists d r, result (scrapeAll scrapers w p) = Done (RunReport d r))
      /\ (forall ids opts,
            exists d r,
              result (scrapeSelected scrapers ids opts w p)
              = Done (RunReport d r))).
Proof.
  intros H.
  assert (Hrefuse : forall q, isRunning q = true ->
            (forall w', scrapeAll scrapers w' q = refuse q)
            /\ (forall ids opts w', scrapeSelected scrapers ids opts w' q = refuse q)).
  { intros q Hq. split; intros; [unfold scrapeAll|unfold scrapeSelected];
      now rewrite Hq. }
  assert (Hnever : (forall j, fulfilled (error_reply (w j)) = true
                              /\ fulfilled (log_reply (w j)) = true) ->
            forall j m, ~ (outcome (error_reply (w j)) = RejectedWith m
                           \/ outcome (log_reply (w j)) = RejectedWith m)).
  { intros Hok j m [E|E]; destruct (Hok j) as [H1 H2];
      unfold fulfilled in *; rewrite E in *; discriminate. }
  split; [|split].
  - intros m. unfold scrapeAll. rewrite H, all_loop_passes.
    set (p0 := begin_run (List.length scrapers) p).
    pose proof (passes_thrown None w (entries scrapers) 0 p0 m) as Ht.
    pose proof (passes_final None w (entries scrapers) 0 p0) as Hm.
    destruct (passes None w 0 (entries scrapers) p0) as [[t [e|m']] p1];
      cbn [fst snd result report after] in *; [discriminate|].
    intros Hr. inversion Hr; subst m'; clear Hr.
    destruct Hm as (Hf & _). subst p0. cbn in Hf.
    split; [exact Hf|]. split.
    + destruct (Ht eq_refl) as (j & Hj & Hw). rewrite entries_length in Hj.
      exists j. split; [lia|exact Hw].
    + now apply Hrefuse.
  - intros ids opts m Hno Hr.
    set (p0 := begin_run (List.length ids) p).
    pose proof (passes_thrown (maxArticles opts) w (looked_up scrapers ids) 0 p0 m)
      as Ht.
    pose proof (passes_final (maxArticles opts) w (looked_up scrapers ids) 0 p0)
      as Hm.
    destruct (scrapeSelected_cases scrapers ids opts w p H)
      as [(T & seen & q & later & HT & _ & Hc)
         |[(e & Hx & _ & Hc)|[(m' & T & HT & _ & _ & Hc)|(m' & _ & Hx & Hc)]]];
      rewrite Hc in *; cbn [result report after] in *; try discriminate Hr.
    inversion Hr; subst m'; clear Hr. fold p0 in Hx |- *.
    destruct Hm as (Hf & _). subst p0. cbn in Hf.
    split; [exact Hf|]. split.
    + destruct (Ht Hx) as (j & Hj & Hw). rewrite looked_up_length in Hj.
      exists j. split; [lia|exact Hw].
    + now apply Hrefuse.
  - intros Hok. split.
    + unfold scrapeAll. rewrite H, all_loop_passes.
      set (p0 := begin_run (List.length scrapers) p).
      pose proof (passes_thrown None w (entries scrapers) 0 p0) as Ht.
      destruct (passes None w 0 (entries scrapers) p0) as [[t [e|m']] p1];
        cbn [fst snd result report] in *; [now eexists; eexists|].
      destruct (Ht m' eq_refl) as (j & _ & Hw). now apply Hnever in Hw.
    + intros ids opts.
      set (p0 := begin_run (List.length ids) p).
      pose proof (passes_thrown (maxArticles opts) w (looked_up scrapers ids) 0 p0)
        as Ht.
      destruct (scrapeSelected_cases scrapers ids opts w p H)
        as [(T & seen & q & later & HT & _ & Hc)
           |[(e & Hx & _ & Hc)|[(m' & T & HT & _ & _ & Hc)|(m' & _ & Hx & Hc)]]];
        rewrite Hc; cbn [result report]; try (now eexists; eexists).
      fold p0 in Hx. destruct (Ht m' Hx) as (j & _ & Hw). now apply Hnever in Hw.
Qed.

Lemma thrown_run_leaves_the_flag_set_witness :
  isRunning at_rest = false
  /\ result (scrapeAll two_scrapers no_ledger at_rest)
     = Threw "connection terminated"
  /\ isRunning (after (scrapeAll two_scrapers no_ledger at_rest)) = true
  /\ result (scrapeAll two_scrapers steady
               (after (scrapeAll two_scrapers no_ledger at_rest)))
     = Done (Refused "Scraping already in progress").
Proof.
  assert (E : result (scrapeAll two_scrapers no_ledger at_rest)
              = Threw "connection terminated") by (vm_compute; reflexivity).
  destruct (proj1 (thrown_run_leaves_the_flag_set two_scrapers no_ledger at_rest
                     eq_refl) _ E) as (Hf & _ & Hall & _).
  split; [reflexivity|]. split; [exact E|]. split; [exact Hf|].
  now rewrite Hall.
Defined.

End LedgerFacts.

(* --------------------------------------------------------------------- *)
(** ** ScraperManager: time, the whole map, a single source *)
(* --------------------------------------------------------------------- *)

Section RunFacts.
Import Ledger.

(** The clock moves by the latencies of the awaits. *)
Lemma attempt_source_clock (mx : option nat) (id : Z)
    (sc : BaseScraper.scraper) (a : attempt) (p : process) :
  clock (snd (attempt_source mx id sc a p))
  = (clock p + span (fst (fst (attempt_source mx id sc a p))))%N.
Proof. pass_cases a p; cbn [span fst snd clock]; lia. Qed.

Lemma passes_clock (mx : option nat) (w : script)
    (items : list (Z * option BaseScraper.scraper)) :
  forall i p,
    clock (snd (passes mx w i items p))
    = (clock p + span (fst (fst (passes mx w i items p))))%N.
Proof.
  induction items as [|[id [sc|]] rest IH]; intros i p.
  - simpl. lia.
  - rewrite passes_some.
    pose proof (attempt_source_clock mx id sc (w i) p) as Hc.
    destruct (attempt_source mx id sc (w i) p) as [[t [[]|m]] p1];
      cbn [fst snd] in *.
    + specialize (IH (S i) p1).
      destruct (passes mx w (S i) rest p1) as [[t' c] p2]; cbn [fst snd] in *.
      rewrite span_app. lia.
    + rewrite app_nil_r. exact Hc.
    + exact Hc.
  - rewrite passes_none, (IH (S i)). reflexivity.
Qed.

(** X13. A scrapeSelected call with a timeout whose loop settles before the
    timer fires.  When the loop ran to its end, the timeout changes
    nothing: the call is the call without timeout.  When the loop threw (a
    rejected updateSourceError or logScrape write), the error is reported
    as a time-out: the call returns a report with timedOut set, after less
    time than the timeout, and resets isRunning; the message of the error
    is in neither the report nor an exception. *)
Theorem loop_settled_before_the_timer
    (scrapers : list (Z * BaseScraper.scraper)) (ids : list Z) (opts : options)
    (w : script) (p : process) (T : positive) :
  isRunning p = false ->
  timeout opts = Some (N.pos T) ->
  (time_needed scrapers ids opts w p < setTimeout_delay (N.pos T))%N ->
  (forall e,
     snd (fst (selected_loop scrapers (maxArticles opts) w 0 ids
                 (begin_run (List.length ids) p))) = Done e ->
     scrapeSelected scrapers ids opts w p
     = scrapeSelected scrapers ids
         {| timeout := None; maxArticles := maxArticles opts |} w p)
  /\ (forall m,
        snd (fst (selected_loop scrapers (maxArticles opts) w 0 ids
                    (begin_run (List.length ids) p))) = Threw m ->
        exists r,
          result (scrapeSelected scrapers ids opts w p)
          = Done (RunReport (time_needed scrapers ids opts w p) r)
          /\ timedOut r = true
          /\ (time_needed scrapers ids opts w p < N.pos T)%N
          /\ isRunning (after (scrapeSelected scrapers ids opts w p)) = false
          /\ background (scrapeSelected scrapers ids opts w p) = []).
Proof.
  intros H HT Hfit. split.
  - intros e He. unfold scrapeSelected, time_needed in *.
    rewrite H, HT. cbn [timeout maxArticles].
    destruct (selected_loop scrapers (maxArticles opts) w 0 ids
                (begin_run (List.length ids) p)) as [[t c] p1].
    cbn [fst snd] in *. subst c.
    assert (Hx : expire (setTimeout_delay (N.pos T)) t = None)
      by (apply expire_None; lia).
    now rewrite Hx.
  - intros m Hm. unfold time_needed in *.
    rewrite selected_loop_passes in *.
    set (p0 := begin_run (List.length ids) p) in *.
    pose proof (passes_clock (maxArticles opts) w (looked_up scrapers ids) 0 p0)
      as Hclock.
    pose proof (setTimeout_delay_le T) as Hd.
    destruct (scrapeSelected_cases scrapers ids opts w p H)
      as [(T' & seen & q & later & HT' & E & Hc)
         |[(e & Hx & _ & Hc)|[(m' & T' & HT' & _ & _ & Hc)|(m' & Hno & _)]]].
    + rewrite HT in HT'. inversion HT'; subst T'. fold p0 in E.
      apply expire_Some in E as (Hsplit & _ & E).
      rewrite Hsplit, span_app in Hfit. lia.
    + fold p0 in Hx. congruence.
    + rewrite Hc. cbn [result report after background]. fold p0.
      exists (mark_timed_out
                (run (snd (passes (maxArticles opts) w 0 (looked_up scrapers ids)
                             p0)))).
      split; [|split; [reflexivity|split; [lia|split; reflexivity]]].
      f_equal. f_equal. cbn [clock set_run run]. rewrite Hclock. lia.
    + rewrite HT in Hno. discriminate.
Qed.

Lemma loop_settled_before_the_timer_witness :
  isRunning at_rest = false
  /\ (time_needed two_scrapers [1%Z; 2%Z]
        {| timeout := Some 60000%N; maxArticles := None |} no_ledger at_rest
      < setTimeout_delay 60000)%N
  /\ exists r,
       result (scrapeSelected two_scrapers [1%Z; 2%Z]
                 {| timeout := Some 60000%N; maxArticles := None |} no_ledger
                 at_rest)
       = Done (RunReport
                 (time_needed two_scrapers [1%Z; 2%Z]
                    {| timeout := Some 60000%N; maxArticles := None |}
                    no_ledger at_rest) r)
       /\ timedOut r = true
       /\ (time_needed two_scrapers [1%Z; 2%Z]
             {| timeout := Some 60000%N; maxArticles := None |} no_ledger
             at_rest < 60000)%N
       /\ isRunning (after (scrapeSelected two_scrapers [1%Z; 2%Z]
                              {| timeout := Some 60000%N; maxArticles := None |}
                              no_ledger at_rest)) = false
       /\ background (scrapeSelected two_scrapers [1%Z; 2%Z]
                        {| timeout := Some 60000%N; maxArticles := None |}
                        no_ledger at_rest) = [].
Proof.
  assert (Hfit : (time_needed two_scrapers [1%Z; 2%Z]
                    {| timeout := Some 60000%N; maxArticles := None |}
                    no_ledger at_rest < setTimeout_delay 60000)%N)
    by (vm_compute; reflexivity).
  split; [reflexivity|]. split; [exact Hfit|].
  apply (proj2 (loop_settled_before_the_timer two_scrapers [1%Z; 2%Z]
                  {| timeout := Some 60000%N; maxArticles := None |} no_ledger
                  at_rest 60000%positive eq_refl eq_refl Hfit)
           "connection terminated").
  vm_compute. reflexivity.
Defined.

Lemma looked_up_all (rest : list (Z * BaseScraper.scraper)) :
  forall pre,
    NoDup (map fst rest) ->
    (forall k, In k (map fst rest) -> ~ In k (map fst pre)) ->
    looked_up (pre ++ rest)%list (map fst rest) = entries rest.
Proof.
  assert (Hget : forall (pre post : list (Z * BaseScraper.scraper)) k,
            ~ In k (map fst pre) -> get k (pre ++ post)%list = get k post).
  { induction pre as [|[k' v] pre IH]; intros post k Hk; simpl; [reflexivity|].
    simpl in Hk. destruct (Z.eqb_spec k' k) as [->|Hne]; [tauto|].
    apply IH. tauto. }
  induction rest as [|[id sc] rest IH]; intros pre Hnd Hdis; [reflexivity|].
  simpl in Hnd. inversion Hnd as [|? ? Hid Hrest]; subst.
  unfold looked_up, entries in *. cbn [map fst snd]. f_equal.
  - rewrite Hget by (apply Hdis; now left). simpl. now rewrite Z.eqb_refl.
  - specialize (IH (pre ++ [(id, sc)])%list Hrest).
    rewrite <- app_assoc in IH. apply IH.
    intros k Hk. rewrite map_app, in_app_iff. simpl.
    intros [Hp|[Hp|[]]]; [|subst; contradiction].
    apply (Hdis k); [now right|exact Hp].
Qed.

Lemma passes_zero_cap (w : script)
    (items : list (Z * option BaseScraper.scraper)) :
  forall i p, passes (Some 0) w i items p = passes None w i items p.
Proof.
  induction items as [|[id [sc|]] rest IH]; intros i p; [reflexivity| |].
  - rewrite !passes_some.
    change (attempt_source (Some 0) id sc (w i) p)
      with (attempt_source None id sc (w i) p).
    destruct (attempt_source None id sc (w i) p) as [[t [[]|m]] p1];
      try reflexivity.
    now rewrite IH.
  - rewrite !passes_none. apply IH.
Qed.

(** X14. Selecting every registered source is running them all: with the
    ids of this.scrapers in the order of the map, no timeout and no
    maxArticles (or 0 for either), scrapeSelected does what scrapeAll does:
    the same result, the same statements, the same awaits, the same
    state afterwards. *)
Theorem scrapeSelected_of_all_ids_is_scrapeAll
    (scrapers : list (Z * BaseScraper.scraper)) (opts : options) (w : script)
    (p : process) :
  NoDup (map fst scrapers) ->
  Js.truthy_ms (timeout opts) = false ->
  Js.truthy (maxArticles opts) = false ->
  scrapeSelected scrapers (map fst scrapers) opts w p = scrapeAll scrapers w p.
Proof.
  intros Hnd Hto Hmx. unfold scrapeSelected, scrapeAll.
  destruct (isRunning p); [reflexivity|].
  rewrite selected_loop_passes, all_loop_passes, length_map.
  pose proof (looked_up_all scrapers [] Hnd) as Hall.
  cbn [app] in Hall. rewrite Hall by (intros k _ []).
  assert (Hcap : passes (maxArticles opts) w 0 (entries scrapers)
                   (begin_run (List.length scrapers) p)
                 = passes None w 0 (entries scrapers)
                     (begin_run (List.length scrapers) p)).
  { destruct (maxArticles opts) as [[|n]|];
      [apply passes_zero_cap|discriminate|reflexivity]. }
  rewrite Hcap.
  destruct (passes None w 0 (entries scrapers)
              (begin_run (List.length scrapers) p)) as [[t c] p1].
  destruct (timeout opts) as [[|T]|]; [|discriminate|]; reflexivity.
Qed.

Lemma scrapeSelected_of_all_ids_is_scrapeAll_witness :
  NoDup (map fst two_scrapers)
  /\ scrapeSelected two_scrapers [1%Z; 2%Z]
       {| timeout := Some 0%N; maxArticles := Some 0 |} steady at_rest
     = scrapeAll two_scrapers steady at_rest.
Proof.
  assert (Hnd : NoDup (map fst two_scrapers)).
  { simpl. repeat constructor; simpl; intuition discriminate. }
  split; [exact Hnd|].
  exact (scrapeSelected_of_all_ids_is_scrapeAll two_scrapers
           {| timeout := Some 0%N; maxArticles := Some 0 |} steady at_rest
           Hnd eq_refl eq_refl).
Defined.

(** X15. scrapeSingle on an id without a scraper throws at once and leaves
    the state as it was; for an id that is a safe integer (at most 2^53 - 1
    in absolute value) the message is 'No scraper found for source ID: '
    followed by the digits of the id.  With a
    scraper it runs scrape() first and then only sends updates of that
    source's row: it never inserts into scrape_logs.  It returns
    { source, articles } exactly after the three updates last_scraped,
    last_successful_scrape and scrape_count went through; whenever it
    throws, its last statement was updateSourceError, and it throws the
    message of that write when the write is rejected, else the message it
    caught; a rejected scrape() is followed by updateSourceError alone. *)
Theorem scrapeSingle_bookkeeping
    (scrapers : list (Z * BaseScraper.scraper)) (id : Z) (w : script)
    (p : process) :
  (get id scrapers = None ->
   (exists m, scrapeSingle scrapers id w p
              = {| result := Threw m; after := p; observed := [];
                   background := [] |})
   /\ (Js.safe_integer id ->
       scrapeSingle scrapers id w p
       = {| result := Threw ("No scraper found for source ID: " ++ Js.show id);
            after := p; observed := []; background := [] |}))
  /\ (forall sc,
        get id scrapers = Some sc ->
        exists l,
          issued (after (scrapeSingle scrapers id w p))
          = (issued p ++ Scrape (BaseScraper.sourceName sc) :: l)%list
          /\ Forall (fun c => about c = Some id /\ is_log c = false) l
          /\ match result (scrapeSingle scrapers id w p) with
             | Done r =>
                 exists n,
                   r = SingleReport (BaseScraper.sourceName sc) n
                   /\ outcome (scrape_reply (w 0)) = Fulfilled n
                   /\ l = [UpdateSourceTimestamp id "last_scraped";
                           UpdateSourceTimestamp id "last_successful_scrape";
                           UpdateSourceCount id n]
             | Threw m =>
                 exists m0,
                   last l (Scrape "") = UpdateSourceError id m0
                   /\ (outcome (error_reply (w 0)) = Fulfilled tt -> m = m0)
                   /\ (forall m', outcome (error_reply (w 0)) = RejectedWith m' ->
                                  m = m')
                   /\ (forall ms, outcome (scrape_reply (w 0)) = RejectedWith ms ->
                                  l = [UpdateSourceError id ms])
             end).
Proof.
  split.
  - intros H. unfold scrapeSingle. rewrite H. split; [now eexists|reflexivity].
  - intros sc H. unfold scrapeSingle. rewrite H.
    settle_single (w 0); destruct p as [b t r v iss];
      cbv beta iota zeta delta
          [bind try_catch ret throw await issue set_clock set_isRunning latency
           outcome last_scraped_reply scrape_reply last_successful_reply
           count_reply error_reply log_reply fst snd isRunning clock run vars
           issued result after observed];
      repeat rewrite <- app_assoc; cbn [app];
      (eexists; split; [reflexivity|]; split;
       [repeat (apply Forall_cons; [split; reflexivity|]); apply Forall_nil|]);
      first [ eexists; split; [reflexivity|]; split; reflexivity
            | eexists; cbn [last]; split; [reflexivity|];
              split; [intros E; first [discriminate E|reflexivity]|];
              split; [intros m' E; first [discriminate E|now inversion E]|];
              intros ms E; first [discriminate E|now inversion E] ].
Qed.

Lemma scrapeSingle_bookkeeping_witness :
  get 7%Z two_scrapers = None
  /\ scrapeSingle two_scrapers 7%Z steady at_rest
     = {| result := Threw "No scraper found for source ID: 7";
          after := at_rest; observed := []; background := [] |}.
Proof.
  split; [reflexivity|].
  refine (proj2 (proj1 (scrapeSingle_bookkeeping two_scrapers 7%Z steady
                          at_rest) eq_refl) _).
  unfold Js.safe_integer. lia.
Defined.

End RunFacts.

End ManagerFacts.

(* --------------------------------------------------------------------- *)
(** ** BaseScraper: cleanText *)
(* --------------------------------------------------------------------- *)

Section CleanTextFacts.
Import Js Shape BaseScraper.

(** The white space of JavaScript among the code units below 256. *)
Lemma is_space_white (c : ascii) : is_space c = Words.white c.
Proof. destruct c as [[] [] [] [] [] [] [] []]; reflexivity. Qed.

Ltac step :=
  cbn [squeeze skip_spaces visible tidy_from all_chars tidy String.length negb
       andb];
  rewrite <- ?is_space_white.

Lemma squeeze_tidy_from (s : string) :
  forall b, tidy_from false (squeeze b s) = true.
Proof.
  induction s as [|c r IH]; intros b; step; [reflexivity|].
  destruct (is_space c) eqn:E; [apply IH|].
  destruct b; step; rewrite E; apply IH.
Qed.

Lemma skip_spaces_head (s : string) :
  skip_spaces s = EmptyString
  \/ exists c r, skip_spaces s = String c r /\ is_space c = false.
Proof.
  induction s as [|c r IH]; step; [now left|].
  destruct (is_space c) eqn:E; [exact IH|].
  right. now exists c, r.
Qed.

Lemma trim_collapse_tidy (t : string) : tidy (trim_collapse t) = true.
Proof.
  unfold trim_collapse.
  destruct (skip_spaces_head t) as [E|(c & r & E & Hc)]; rewrite E; step.
  - reflexivity.
  - rewrite Hc. step. rewrite Hc. apply squeeze_tidy_from.
Qed.

Lemma tidy_from_fixed (s : string) :
  (tidy_from false s = true -> squeeze false s = s)
  /\ (tidy_from true s = true ->
      squeeze false s = s /\ squeeze true s = String " " s /\ skip_spaces s = s).
Proof.
  induction s as [|c r [IH1 IH2]]; step.
  - split; [reflexivity|discriminate].
  - destruct (is_space c) eqn:E.
    + split.
      * intros H. apply andb_prop in H as [H Hr]. apply andb_prop in H as [Hc _].
        apply Ascii.eqb_eq in Hc. subst c.
        now destruct (IH2 Hr) as (_ & -> & _).
      * intros H. apply andb_prop in H as [H _]. apply andb_prop in H as [_ H].
        discriminate.
    + split.
      * intros H. now rewrite (IH1 H).
      * intros H. now rewrite (IH1 H).
Qed.

Lemma tidy_fixed (t : string) : tidy t = true -> trim_collapse t = t.
Proof.
  unfold trim_collapse. destruct t as [|c r]; [reflexivity|].
  intros H. unfold tidy in H.
  destruct (proj2 (tidy_from_fixed (String c r)) H) as (E1 & _ & E2).
  now rewrite E2.
Qed.

Lemma squeeze_length (s : string) :
  forall b, String.length (squeeze b s)
            <= String.length s + (if b then 1 else 0).
Proof.
  induction s as [|c r IH]; intros b; step; [lia|].
  destruct (is_space c).
  - specialize (IH true). simpl in IH. destruct b; lia.
  - specialize (IH false). simpl in IH. destruct b; step; lia.
Qed.

Lemma skip_spaces_length (s : string) :
  String.length (skip_spaces s) <= String.length s.
Proof.
  induction s as [|c r IH]; step; [lia|].
  destruct (is_space c); step; lia.
Qed.

Lemma squeeze_visible (s : string) :
  forall b, visible (squeeze b s) = visible s.
Proof.
  induction s as [|c r IH]; intros b; step; [reflexivity|].
  destruct (is_space c) eqn:E; [apply IH|].
  destruct b; step; rewrite E, IH; reflexivity.
Qed.

Lemma skip_spaces_visible (s : string) : visible (skip_spaces s) = visible s.
Proof.
  induction s as [|c r IH]; step; [reflexivity|].
  destruct (is_space c) eqn:E; [exact IH|]. step. now rewrite E.
Qed.

Lemma visible_empty (s : string) :
  visible s = EmptyString <-> all_chars Words.white s = true.
Proof.
  induction s as [|c r IH]; step; [tauto|].
  destruct (is_space c); step; [exact IH|]. split; discriminate.
Qed.

Lemma tidy_from_visible (s : string) :
  forall b, tidy_from b s = true -> visible s = EmptyString -> s = EmptyString.
Proof.
  induction s as [|c r IH]; intros b; step; [reflexivity|].
  destruct (is_space c) eqn:E; [|discriminate].
  intros H Hv. apply andb_prop in H as [_ Hr].
  specialize (IH true Hr Hv). subst r. discriminate.
Qed.

(** A word, and white space, under skip_spaces and squeeze. *)
Lemma visible_head (c : ascii) (r : string) :
  visible (String c r) = String c r -> is_space c = false /\ visible r = r.
Proof.
  step. destruct (is_space c) eqn:E.
  - intros H. exfalso. 
    assert (Hl : String.length (visible r) <= String.length r).
    { clear. induction r as [|x r IH]; step; [lia|].
      destruct (is_space x); step; lia. }
    apply (f_equal String.length) in H. simpl in H. lia.
  - intros H. split; [reflexivity|]. injection H as H. exact H.
Qed.

Lemma skip_spaces_word (a rest : string) :
  visible a = a -> a <> "" -> skip_spaces (a ++ rest) = a ++ rest.
Proof.
  destruct a as [|c a]; [congruence|]. intros H _.
  apply visible_head in H as [Hc _]. cbn [append]. step. now rewrite Hc.
Qed.

Lemma squeeze_word (a rest : string) (b : bool) :
  visible a = a -> a <> "" ->
  squeeze b (a ++ rest) = (if b then " " else "") ++ a ++ squeeze false rest.
Proof.
  revert b. induction a as [|c a IH]; intros b H Hn; [congruence|].
  apply visible_head in H as [Hc Ha]. cbn [append]. step. rewrite Hc.
  destruct a as [|c' a].
  - cbn [append]. now destruct b.
  - rewrite (IH false Ha) by discriminate. now destruct b.
Qed.

Lemma squeeze_gap (gap rest : string) (b : bool) :
  all_chars Words.white gap = true -> gap <> "" ->
  squeeze b (gap ++ rest) = squeeze true rest.
Proof.
  revert b. induction gap as [|g gap IH]; intros b H Hn; [congruence|].
  cbn [append]. step. cbn [all_chars] in H. rewrite <- is_space_white in H.
  apply andb_prop in H as [Hg Hr]. rewrite Hg.
  destruct gap as [|g' gap]; [reflexivity|]. now apply IH.
Qed.

(** X1. On a text of code units below U+0100, where white space is TAB, LF,
    VT, FF, CR, SPACE and NBSP: cleanText (trim, then every run of white
    space replaced by one space) returns a text that is empty or starts and
    ends with a visible character and holds no white space but single
    spaces; it keeps the visible characters and their order, never
    lengthens the text, leaves a text of that shape as it is (so applying
    it twice is applying it once), and returns the empty string exactly for
    a text of white space only.  Words separated by white space come out
    separated by one space. *)
Theorem cleanText_normalises_white_space :
  (forall t, tidy (cleanText t) = true)
  /\ (forall t, visible (cleanText t) = visible t)
  /\ (forall t, String.length (cleanText t) <= String.length t)
  /\ (forall t, tidy t = true <-> cleanText t = t)
  /\ (forall t, cleanText (cleanText t) = cleanText t)
  /\ (forall t, cleanText t = EmptyString <-> all_chars Words.white t = true)
  /\ (forall a b gap,
        visible a = a -> visible b = b -> a <> "" -> b <> "" ->
        gap <> "" -> all_chars Words.white gap = true ->
        cleanText (a ++ gap ++ b) = a ++ " " ++ b).
Proof.
  unfold cleanText.
  split; [exact trim_collapse_tidy|].
  assert (Hv : forall t, visible (trim_collapse t) = visible t).
  { intros t. unfold trim_collapse.
    now rewrite squeeze_visible, skip_spaces_visible. }
  split; [exact Hv|].
  split.
  { intros t. unfold trim_collapse.
    pose proof (squeeze_length (skip_spaces t) false) as H1.
    pose proof (skip_spaces_length t) as H2. simpl in H1. lia. }
  split.
  { intros t. split; [apply tidy_fixed|].
    intros E. rewrite <- E. apply trim_collapse_tidy. }
  split; [intros t; apply tidy_fixed, trim_collapse_tidy|].
  split.
  { intros t. rewrite <- visible_empty, <- (Hv t). split.
    - intros E. now rewrite E.
    - intros E. pose proof (trim_collapse_tidy t) as Ht.
      destruct (trim_collapse t) as [|c r] eqn:Et; [reflexivity|].
      unfold tidy in Ht. now apply (tidy_from_visible _ true). }
  intros a b gap Ha Hb Hna Hnb Hng Hgap. unfold trim_collapse.
  destruct a as [|c a]; [congruence|].
  rewrite (skip_spaces_word (String c a) (gap ++ b) Ha) by discriminate.
  rewrite (squeeze_word (String c a) (gap ++ b) false Ha) by discriminate.
  cbn [append].
  f_equal. destruct gap as [|g gap]; [congruence|].
  destruct b as [|e b]; [congruence|].
  rewrite (squeeze_gap (String g gap) (String e b) false Hgap) by discriminate.
  rewrite <- (append_nil_r (String e b)) at 1.
  rewrite (squeeze_word (String e b) "" true Hb) by discriminate. cbn [squeeze].
  now rewrite append_nil_r.
Qed.

Lemma cleanText_normalises_white_space_witness :
  cleanText ("Storm" ++ String "009" (String "010" (String "160" " ")) ++ "warning")
  = "Storm warning"
  /\ cleanText (String "013" " Storm" ++ String "012" (String "011" "warning "))
     = "Storm warning"
  /\ tidy "Storm warning" = true
  /\ cleanText "Storm warning" = "Storm warning".
Proof.
  split.
  - apply (proj2 (proj2 (proj2 (proj2 (proj2 (proj2
             cleanText_normalises_white_space)))))
             "Storm" "warning" (String "009" (String "010" (String "160" " "))));
      try reflexivity; discriminate.
  - split; [reflexivity|]. split; [reflexivity|].
    apply (proj1 (proj1 (proj2 (proj2 (proj2 cleanText_normalises_white_space)))
                    "Storm warning")).
    reflexivity.
Defined.

End CleanTextFacts.

(* --------------------------------------------------------------------- *)
(** ** BaseScraper: extractTags *)
(* --------------------------------------------------------------------- *)

Section ExtractTagsFacts.
Import Js Shape BaseScraper.

Lemma set_of_In (l : list string) :
  forall seen x, In x (set_of seen l) <-> In x l /\ ~ In x seen.
Proof.
  induction l as [|y r IH]; intros seen x; simpl; [tauto|].
  destruct (existsb (String.eqb y) seen) eqn:E.
  - rewrite IH. apply existsb_eqb_In in E. split.
    + intros [H1 H2]. tauto.
    + intros [[H|H] H2]; [subst; contradiction|tauto].
  - assert (Hy : ~ In y seen) by (rewrite <- existsb_eqb_In, E; discriminate).
    simpl. rewrite IH. simpl. split.
    + intros [H|[H1 H2]]; [subst; tauto|tauto].
    + intros [[H|H] H2]; [now left|].
      destruct (String.eqb_spec y x) as [->|Hne]; [now left|right; tauto].
Qed.

Lemma set_of_NoDup (l : list string) : forall seen, NoDup (set_of seen l).
Proof.
  induction l as [|y r IH]; intros seen; simpl; [constructor|].
  destruct (existsb (String.eqb y) seen); [apply IH|].
  constructor; [|apply IH]. rewrite set_of_In. simpl. tauto.
Qed.

Lemma set_of_ext (l : list string) :
  forall seen seen',
    (forall x, In x l -> existsb (String.eqb x) seen = existsb (String.eqb x) seen') ->
    set_of seen l = set_of seen' l.
Proof.
  induction l as [|y r IH]; intros seen seen' H; simpl; [reflexivity|].
  rewrite <- (H y (or_introl eq_refl)).
  destruct (existsb (String.eqb y) seen).
  - apply IH. intros x Hx. apply H. now right.
  - f_equal. apply IH. intros x Hx. simpl. f_equal. apply H. now right.
Qed.

Lemma set_of_app (l1 l2 : list string) :
  forall seen,
    set_of seen (l1 ++ l2)
    = (set_of seen l1 ++ set_of (rev (set_of seen l1) ++ seen) l2)%list.
Proof.
  induction l1 as [|y r IH]; intros seen; simpl; [reflexivity|].
  destruct (existsb (String.eqb y) seen); [apply IH|].
  simpl. f_equal. rewrite IH. f_equal. f_equal.
  now rewrite <- app_assoc.
Qed.

Lemma set_of_fresh (l : list string) :
  forall seen, NoDup l -> (forall x, In x l -> ~ In x seen) -> set_of seen l = l.
Proof.
  induction l as [|y r IH]; intros seen Hnd Hfresh; simpl; [reflexivity|].
  inversion Hnd as [|? ? Hy Hr]; subst.
  destruct (existsb (String.eqb y) seen) eqn:E.
  - apply existsb_eqb_In in E. exfalso. apply (Hfresh y); [now left|exact E].
  - f_equal. apply IH; [exact Hr|].
    intros x Hx [H|H]; [subst; contradiction|].
    apply (Hfresh x); [now right|exact H].
Qed.

Lemma all_chars_app (P : ascii -> bool) (s t : string) :
  all_chars P (s ++ t) = all_chars P s && all_chars P t.
Proof.
  induction s as [|c r IH]; simpl; [reflexivity|].
  now rewrite IH, andb_assoc.
Qed.

(** The class \w among the code units below 256. *)
Lemma is_word_word (c : ascii) : is_word c = Words.word c.
Proof. destruct c as [[] [] [] [] [] [] [] []]; reflexivity. Qed.

Lemma hashtag_scan_shape (s : string) :
  forall cur, hashtag_open cur ->
              Forall (fun m => is_hashtag m = true) (hashtag_scan cur s).
Proof.
  assert (Hclose : forall cur, hashtag_open cur ->
            Forall (fun m => is_hashtag m = true)
              match cur with
              | Some (String _ (String _ _) as m) => [m]
              | _ => []
              end).
  { intros [[|a [|b m]]|] H; try constructor; [|constructor].
    destruct H as (w & E & Hw). inversion E; subst. exact Hw. }
  assert (Hsharp : forall c : ascii,
            hashtag_open (if Ascii.eqb c "#" then Some "#" else None)).
  { intros c. destruct (Ascii.eqb c "#"); simpl; [|exact I].
    now exists EmptyString. }
  induction s as [|c r IH]; intros cur Hcur.
  - simpl. now apply Hclose.
  - destruct cur as [m|].
    + cbn [hashtag_scan]. destruct (is_word c) eqn:Ew.
      * apply IH. destruct Hcur as (w & E & Hw). subst m.
        exists (w ++ String c EmptyString). split; [reflexivity|].
        rewrite all_chars_app, Hw. cbn [all_chars].
        now rewrite <- is_word_word, Ew.
      * apply Forall_app. split; [now apply (Hclose (Some m))|].
        apply IH, Hsharp.
    + cbn [hashtag_scan]. apply IH, Hsharp.
Qed.

Lemma append_assoc (a b c : string) : (a ++ b) ++ c = a ++ b ++ c.
Proof. induction a as [|x a IH]; simpl; now rewrite ?IH. Qed.

(** The scan with a match open reads on through word characters ... *)
Lemma hashtag_scan_word (w : string) :
  forall m rest,
    all_chars Words.word w = true ->
    hashtag_scan (Some m) (w ++ rest) = hashtag_scan (Some (m ++ w)) rest.
Proof.
  induction w as [|c w IH]; intros m rest H.
  - now rewrite append_nil_r.
  - cbn [all_chars] in H. apply andb_prop in H as [Hc Hw].
    cbn [append hashtag_scan]. rewrite is_word_word, Hc.
    rewrite (IH _ rest Hw), append_assoc. reflexivity.
Qed.

(** ... and closes the match where they end. *)
Lemma hashtag_scan_break (m rest : string) :
  Words.breaks rest ->
  hashtag_scan (Some m) rest
  = (match m with
     | String _ (String _ _) => [m]
     | _ => []
     end ++ hashtag_scan None rest)%list.
Proof.
  destruct rest as [|c r]; intros H.
  - cbn [hashtag_scan]. now rewrite app_nil_r.
  - cbn [Words.breaks] in H. cbn [hashtag_scan].
    now rewrite is_word_word, H.
Qed.

Lemma set_of_drop (l : list string) :
  forall seen x,
    set_of (x :: seen) l
    = set_of seen (filter (fun y => negb (String.eqb x y)) l).
Proof.
  induction l as [|y r IH]; intros seen x; [reflexivity|].
  cbn [set_of filter existsb].
  destruct (String.eqb_spec y x) as [->|Hne].
  - rewrite String.eqb_refl. cbn [orb negb]. apply IH.
  - assert (E : String.eqb x y = false)
      by (apply String.eqb_neq; congruence).
    rewrite E. cbn [orb negb set_of].
    destruct (existsb (String.eqb y) seen); [apply IH|].
    f_equal. rewrite <- IH. apply set_of_ext.
    intros z _. cbn [existsb]. now rewrite !orb_assoc, (orb_comm (String.eqb z x)).
Qed.

Lemma uniq_two_kinds (l1 l2 : list string) :
  NoDup l1 -> (forall x, In x l1 -> ~ In x l2) ->
  uniq (l1 ++ l2) = (l1 ++ uniq l2)%list.
Proof.
  intros Hnd Hdis. unfold uniq. rewrite set_of_app.
  rewrite (set_of_fresh l1 []); [|exact Hnd|intros x _ []].
  f_equal. apply set_of_ext. intros x Hx.
  destruct (existsb (String.eqb x) (rev l1 ++ [])) eqn:E; [|reflexivity].
  apply existsb_eqb_In in E. rewrite app_nil_r in E. apply in_rev in E.
  now apply Hdis in E.
Qed.

Lemma filter_NoDup {A : Type} (f : A -> bool) (l : list A) :
  NoDup l -> NoDup (filter f l).
Proof.
  induction l as [|x r IH]; simpl; intros H; [constructor|].
  inversion H as [|? ? Hx Hr]; subst.
  destruct (f x); [|now apply IH].
  constructor; [|now apply IH]. rewrite filter_In. tauto.
Qed.

(** X2. extractTags returns the location names that occur in
    "title excerpt" (letter case ignored), in the order of the list of
    locations, followed by the hashtags of the text in the order of their
    first occurrence; no tag is returned twice and at most seven location
    names are returned.  The hashtags of a text are the matches of
    /#[\w]+/g: a character other than "#" is passed over; a "#" with the
    word characters that follow it, up to the place where they end, is a
    match when there is at least one of them, and the scan goes on behind
    it.  Word characters are the letters A-Z and a-z, the digits and the
    underscore. *)
Theorem extractTags_locations_then_hashtags :
  (forall title excerpt,
     extractTags title excerpt
     = (filter (fun loc => includes (toLowerCase loc)
                             (toLowerCase (title ++ " " ++ excerpt))) locations
        ++ uniq (match_hashtags (title ++ " " ++ excerpt)))%list
     /\ NoDup (extractTags title excerpt)
     /\ Forall (fun m => is_hashtag m = true)
               (match_hashtags (title ++ " " ++ excerpt))
     /\ (forall tag,
           In tag (extractTags title excerpt)
           <-> (In tag locations /\ Words.occurs tag (title ++ " " ++ excerpt))
               \/ In tag (match_hashtags (title ++ " " ++ excerpt)))
     /\ List.length (filter (fun loc => includes (toLowerCase loc)
                               (toLowerCase (title ++ " " ++ excerpt))) locations)
        <= 7)
  /\ (forall loc text,
        In loc locations ->
        includes (toLowerCase loc) (toLowerCase text) = true
        <-> Words.occurs loc text)
  /\ match_hashtags "" = []
  /\ (forall c r, c <> "#"%char ->
                  match_hashtags (String c r) = match_hashtags r)
  /\ (forall w rest,
        all_chars Words.word w = true -> Words.breaks rest ->
        match_hashtags ("#" ++ w ++ rest)
        = match w with
          | EmptyString => match_hashtags rest
          | String _ _ => ("#" ++ w) :: match_hashtags rest
          end)
  /\ uniq [] = []
  /\ (forall x l,
        uniq (x :: l) = x :: uniq (filter (fun y => negb (String.eqb x y)) l)).
Proof.
  assert (Hplain : forall loc, In loc locations -> Words.plain loc = true).
  { unfold locations. simpl. intros x H.
    repeat (destruct H as [H|H]; [subst; reflexivity|]). contradiction. }
  assert (Hocc : forall loc text,
            In loc locations ->
            includes (toLowerCase loc) (toLowerCase text) = true
            <-> Words.occurs loc text).
  { intros loc text Hin. now apply includes_occurs, Hplain. }
  split; [|split; [exact Hocc|split; [reflexivity|split; [|split; [|split]]]]].
  - intros title excerpt.
    set (text := title ++ " " ++ excerpt).
    set (f := fun loc => includes (toLowerCase loc) (toLowerCase text)).
    assert (Hh : Forall (fun m => is_hashtag m = true) (match_hashtags text))
      by (apply hashtag_scan_shape; exact I).
    assert (Hnd : NoDup locations)
      by (unfold locations; repeat constructor; simpl; intuition discriminate).
    assert (Hloc : forall x, In x locations -> is_hashtag x = false).
    { unfold locations. simpl. intros x H.
      repeat (destruct H as [H|H]; [subst; reflexivity|]). contradiction. }
    assert (Hmem : forall tag,
              In tag (extractTags title excerpt)
              <-> (In tag locations /\ Words.occurs tag text)
                  \/ In tag (match_hashtags text)).
    { intros tag. unfold extractTags, uniq. fold text. fold f.
      rewrite set_of_In, in_app_iff, filter_In. subst f. cbv beta.
      pose proof (Hocc tag text) as Ht.
      pose proof (@in_nil _ tag) as Hn. tauto. }
    split; [|split; [apply set_of_NoDup|split; [exact Hh|split; [exact Hmem|]]]].
    + unfold extractTags. fold text. fold f.
      apply uniq_two_kinds; [now apply filter_NoDup|].
      intros x Hx Hx'. apply filter_In in Hx as [Hx _]. apply Hloc in Hx.
      rewrite Forall_forall in Hh. rewrite (Hh x Hx') in Hx. discriminate.
    + etransitivity; [apply filter_length_le|]. reflexivity.
  - intros c r Hc. unfold match_hashtags. cbn [hashtag_scan].
    destruct (Ascii.eqb_spec c "#"); [contradiction|reflexivity].
  - intros w rest Hw Hb. unfold match_hashtags.
    change ("#" ++ w ++ rest) with (String "#" (w ++ rest)).
    cbn [hashtag_scan Ascii.eqb Bool.eqb].
    rewrite (hashtag_scan_word w "#" rest Hw), (hashtag_scan_break _ rest Hb).
    now destruct w.
  - reflexivity.
  - intros x l. unfold uniq. cbn [set_of existsb]. f_equal. apply set_of_drop.
Qed.

Lemma extractTags_locations_then_hashtags_witness :
  match_hashtags ("#" ++ "Storm" ++ " hits") = ["#Storm"]
  /\ (includes (toLowerCase "Foley") (toLowerCase "Storm in FOLEY #Storm hits")
      = true
      <-> Words.occurs "Foley" "Storm in FOLEY #Storm hits")
  /\ extractTags "Storm in FOLEY" "#Storm hits #Gulf_9 again, #Storm #"
     = ["Foley"; "#Storm"; "#Gulf_9"].
Proof.
  destruct extractTags_locations_then_hashtags
    as (_ & Hocc & _ & _ & Hw & _ & _).
  split.
  - rewrite (Hw "Storm" " hits"); [reflexivity|reflexivity|reflexivity].
  - split; [apply Hocc; simpl; tauto|vm_compute; reflexivity].
Defined.

End ExtractTagsFacts.

(* --------------------------------------------------------------------- *)
(** ** Article: create followed by findByUrl *)
(* --------------------------------------------------------------------- *)

Section LookupFacts.
Import Schema Article.

Lemma find_url_update_other (u u' : string) (f : article_row -> article_row)
    (rows : list article_row) :
  (forall r, a_url (f r) = a_url r) -> u' <> u ->
  find_article_by_url u' (update_by_url u f rows) = find_article_by_url u' rows.
Proof.
  intros Hf Hne. unfold find_article_by_url.
  induction rows as [|r rest IH]; simpl; [reflexivity|].
  destruct (String.eqb_spec (a_url r) u) as [E|E]; simpl.
  - rewrite Hf, IH.
    destruct (String.eqb_spec (a_url r) u') as [E'|E']; [congruence|reflexivity].
  - now rewrite IH.
Qed.

Lemma find_url_app_other (u' : string) (rows : list article_row)
    (r : article_row) :
  a_url r <> u' ->
  find_article_by_url u' (rows ++ [r])%list = find_article_by_url u' rows.
Proof.
  intros Hne. unfold find_article_by_url.
  induction rows as [|x rest IH]; simpl.
  - destruct (String.eqb_spec (a_url r) u'); [contradiction|reflexivity].
  - now rewrite IH.
Qed.

Lemma update_by_url_length (u : string) (f : article_row -> article_row)
    (rows : list article_row) :
  List.length (update_by_url u f rows) = List.length rows.
Proof.
  induction rows as [|r rest IH]; simpl; [reflexivity|].
  destruct (String.eqb (a_url r) u); simpl; now rewrite IH.
Qed.

(** What a successful create leaves in the table. *)
Lemma create_lookup (d d' : db) (data : article_data) (now : timestamp)
    (row : article_row) :
  create d data now = (Ok row, d') ->
  (exists u, url data = Some u /\ fit 1000 u = Some (a_url row))
  /\ findByUrl d' (a_url row) = Some row
  /\ (forall u, u <> a_url row -> findByUrl d' u = findByUrl d u)
  /\ List.length (articles d')
     = List.length (articles d)
       + match findByUrl d (a_url row) with Some _ => 0 | None => 1 end.
Proof.
  intros H. destruct (create_Ok _ _ _ _ _ H)
    as (t0 & u0 & Ht & Hu & _ & Hr & _ & _ & _ & _ & Hcase).
  unfold findByUrl.
  destruct Hcase as [(old & Hold & Hrow & Hd')|(Hnone & _ & _ & Hd')];
    rewrite Hd'.
  - rewrite Hold, update_by_url_length.
    split; [now exists u0|]. split; [|split; [|lia]].
    + rewrite update_by_url_find by apply conflict_update_url.
      rewrite Hold. simpl. now rewrite <- Hrow.
    + intros u' Hne. apply find_url_update_other; [apply conflict_update_url|exact Hne].
  - rewrite Hnone, length_app. simpl.
    split; [now exists u0|]. split; [|split; [|lia]].
    + now apply find_url_app_new.
    + intros u' Hne. apply find_url_app_other. congruence.
Qed.

(** X3. After a successful Article.create, the row create returned holds
    the url of the data as a VARCHAR(1000) column holds it (the url itself
    when it has at most 1000 characters, cut to 1000 characters when what
    exceeds them is spaces only); findByUrl of the url the row holds
    returns that very row, and the rows of every other url are as before;
    the table grew by one row when the url was new and kept its size when
    it was known.  In the latter case the row keeps its id, source, author,
    category, content type, platform, image and dates: only title, excerpt,
    content and updated_at are replaced. *)
Theorem create_then_findByUrl (d d' : db) (data : article_data)
    (now : timestamp) (row : article_row) :
  create d data now = (Ok row, d') ->
  (exists u, url data = Some u /\ cut 1000 u (a_url row)
             /\ (String.length u <= 1000 -> url data = Some (a_url row)))
  /\ findByUrl d' (a_url row) = Some row
  /\ (forall u, u <> a_url row -> findByUrl d' u = findByUrl d u)
  /\ List.length (articles d')
     = List.length (articles d)
       + match findByUrl d (a_url row) with Some _ => 0 | None => 1 end
  /\ (forall old,
        findByUrl d (a_url row) = Some old ->
        row = conflict_update now (a_title row) (excerpt data) (content data) old
        /\ a_id row = a_id old
        /\ a_source_id row = a_source_id old
        /\ a_author row = a_author old
        /\ a_category row = a_category old
        /\ a_content_type row = a_content_type old
        /\ a_platform row = a_platform old
        /\ a_image_url row = a_image_url old
        /\ a_published_at row = a_published_at old
        /\ a_scraped_at row = a_scraped_at old
        /\ a_created_at row = a_created_at old).
Proof.
  intros H. destruct (create_lookup _ _ _ _ _ H) as ((u & Hu & Hf) & H2 & H3 & H4).
  split.
  { exists u. split; [exact Hu|]. split; [now apply fit_cut|].
    intros Hl. rewrite Hu. f_equal. symmetry. now apply (fit_as_is 1000). }
  repeat (split; [assumption|]).
  intros old Hold.
  destruct (create_Ok _ _ _ _ _ H)
    as (t0 & u0 & _ & _ & _ & _ & _ & _ & _ & _ & Hcase).
  unfold findByUrl in Hold.
  destruct Hcase as [(old' & Hold' & Hrow & _)|(Hnone & _)]; [|congruence].
  rewrite Hold in Hold'. inversion Hold'; subst old'.
  split; [exact Hrow|]. rewrite Hrow. simpl. tauto.
Qed.

Lemma create_then_findByUrl_witness :
  exists row d',
    create fresh_db (observation "https://x.com/a" "Storm warning" "first") 10%N
    = (Ok row, d')
    /\ findByUrl d' "https://x.com/a" = Some row
    /\ findByUrl d' "https://x.com/b" = findByUrl fresh_db "https://x.com/b"
    /\ List.length (articles d') = 1.
Proof.
  destruct (create fresh_db (observation "https://x.com/a" "Storm warning" "first")
              10%N) as [[row|e] d'] eqn:E; [|vm_compute in E; discriminate].
  exists row, d'. split; [reflexivity|].
  assert (Hu : a_url row = "https://x.com/a")
    by (vm_compute in E; inversion E; reflexivity).
  destruct (create_then_findByUrl _ _ _ _ _ E) as (_ & H2 & H3 & H4 & _).
  rewrite Hu in H2, H3, H4.
  split; [exact H2|]. split; [apply H3; discriminate|exact H4].
Defined.

End LookupFacts.

(* --------------------------------------------------------------------- *)
(** ** Article: addTags repeated *)
(* --------------------------------------------------------------------- *)

Section RetagFacts.
Import Schema Tags.

Lemma tag_type_fits (n : string) :
  fit 20 (if Js.startsWith "#" n then "hashtag" else "general")
  = Some (if Js.startsWith "#" n then "hashtag" else "general").
Proof. now destruct (Js.startsWith "#" n). Qed.

Lemma tag_name_injective (rows : list tag_row) (r r' : tag_row) :
  NoDup (map t_name rows) -> In r rows -> In r' rows ->
  t_name r = t_name r' -> r = r'.
Proof.
  induction rows as [|x rows IH]; simpl; intros Hnd Hr Hr' Hn; [easy|].
  inversion Hnd as [|? ? Hx Hnd']; subst.
  destruct Hr as [Hr|Hr], Hr' as [Hr'|Hr']; subst.
  - reflexivity.
  - exfalso. apply Hx. rewrite Hn. now apply in_map.
  - exfalso. apply Hx. rewrite <- Hn. now apply in_map.
  - now apply IH.
Qed.

Lemma find_tag_of_row (rows : list tag_row) (r : tag_row) :
  NoDup (map t_name rows) -> In r rows ->
  find_tag_by_name (t_name r) rows = Some r.
Proof.
  intros Hnd Hin.
  destruct (find_tag_by_name (t_name r) rows) as [x|] eqn:E.
  - apply find_tag_Some in E as [Hx Hn]. f_equal.
    now apply (tag_name_injective rows).
  - apply find_tag_None in E. exfalso. apply E. now apply in_map.
Qed.

(** Article [a] carries the name [n] as the column holds it, under ids that
    are INTEGER values. *)
Lemma link_tag_int4 (d d2 : db) (a id : Z) :
  link_tag d a id = Ok d2 -> in_int4 a = true /\ in_int4 id = true.
Proof.
  unfold link_tag. destruct (in_int4 a && in_int4 id) eqn:E; [|discriminate].
  intros _. now apply andb_prop.
Qed.

Lemma addTags_loop_carried (names : list string) :
  forall d d' a now,
    consistent d ->
    addTags_loop d a names now = (Ok tt, d') ->
    Forall (fun n => exists v old,
                fit 100 n = Some v
                /\ find_tag_by_name v (tags d') = Some old
                /\ linked a (t_id old) (article_tags d') = true
                /\ in_int4 a = true /\ in_int4 (t_id old) = true) names.
Proof.
  induction names as [|n rest IH]; intros d d' a now Hok H; [constructor|].
  cbn [addTags_loop] in H.
  destruct (upsert_tag d n _ now) as [[id|e] d1] eqn:Eu; [|discriminate].
  destruct (link_tag d1 a id) as [d2|] eqn:El; [|discriminate].
  destruct (upsert_tag_Ok _ _ _ _ _ _ Hok Eu)
    as (v & Hv & Hok1 & _ & _ & (rn & Hfn & Hid) & _ & _ & _).
  destruct (link_tag_Ok _ _ _ _ _ _ Hok1 Hfn Hid El)
    as (Hok2 & _ & _ & Hh2 & Ht2).
  destruct (addTags_loop_Ok _ _ _ _ _ Hok2 H) as (Hok' & _ & _ & _ & Hh' & Ht').
  constructor; [|now apply (IH d2 d' a now)].
  destruct (link_tag_int4 _ _ _ _ El) as [Ha Hi].
  destruct (find_tag_Some _ _ _ Hfn) as [Hrn Hname].
  destruct (Ht2 rn Hrn) as (r2 & Hr2 & S2).
  destruct (Ht' r2 Hr2) as (r' & Hr' & S').
  destruct S2 as (I2 & N2 & _). destruct S' as (I' & N' & _).
  assert (Hf' : find_tag_by_name v (tags d') = Some r').
  { replace v with (t_name r') by congruence.
    apply find_tag_of_row; [apply Hok'|exact Hr']. }
  exists v, r'. split; [exact Hv|]. split; [exact Hf'|].
  assert (Hl : has_tag d' a v = true).
  { rewrite Hh', Hh2, String.eqb_refl. now rewrite orb_true_r. }
  unfold has_tag in Hl. rewrite Hf' in Hl.
  split; [exact Hl|]. split; [exact Ha|]. congruence.
Qed.

(** addTags on an article that carries all the names already: every
    statement meets its ON CONFLICT branch. *)
Lemma addTags_loop_again (names : list string) :
  forall d a now,
    Forall (fun n => exists v old,
                fit 100 n = Some v
                /\ find_tag_by_name v (tags d) = Some old
                /\ linked a (t_id old) (article_tags d) = true
                /\ in_int4 a = true /\ in_int4 (t_id old) = true) names ->
    match addTags_loop d a names now with
    | (Ok _, d2) =>
        tags d2 = tags d /\ article_tags d2 = article_tags d
        /\ articles d2 = articles d
        /\ tags_id_seq d2 = (tags_id_seq d + Z.of_nat (List.length names))%Z
    | (Err e, _) =>
        (int_max < tags_id_seq d + Z.of_nat (List.length names))%Z
    end.
Proof.
  induction names as [|n rest IH]; intros d a now Hall.
  - simpl. repeat split. lia.
  - inversion Hall as [|? ? Hn Hrest]; subst.
    destruct Hn as (v & old & Hv & Hold & Hl & Ha & Hi).
    cbn [addTags_loop]. unfold upsert_tag. rewrite Hv, tag_type_fits.
    cbn [List.length]. rewrite Nat2Z.inj_succ.
    destruct (int_max <? tags_id_seq d + 1)%Z eqn:Eseq.
    + apply Z.ltb_lt in Eseq. lia.
    + apply Z.ltb_ge in Eseq. rewrite Hold.
      unfold link_tag. cbn [with_tags article_tags]. rewrite Ha, Hi, Hl.
      cbn [andb negb].
      set (d1 := with_tags d (tags d) (tags_id_seq d + 1) (article_tags d)).
      specialize (IH d1 a now Hrest).
      destruct (addTags_loop d1 a rest now) as [[[]|e] d2].
      * destruct IH as (H1 & H2 & H3 & H4). subst d1. simpl in *.
        repeat split; try assumption. lia.
      * subst d1. simpl in *. lia.
Qed.

(** X4. Article.addTags repeated with the same article and names, after it
    succeeded once, inserts nothing: the tags table (with every usage
    counter) and the links are as the first call left them; every statement
    only takes a value from the sequence of tag ids, and the call succeeds
    as long as that sequence has room for one value per name. *)
Theorem addTags_twice_counts_once (d d1 : db) (a : Z) (names : list string)
    (now now' : timestamp) :
  consistent d ->
  addTags d a names now = (Ok tt, d1) ->
  tags (snd (addTags d1 a names now')) = tags d1
  /\ article_tags (snd (addTags d1 a names now')) = article_tags d1
  /\ (forall n, count_of (snd (addTags d1 a names now')) n = count_of d1 n)
  /\ ((tags_id_seq d1 + Z.of_nat (List.length names) <= int_max)%Z ->
      fst (addTags d1 a names now') = Ok tt).
Proof.
  intros Hok H. unfold addTags in H.
  destruct (addTags_loop d a names now) as [[[]|e] d1'] eqn:E; [|discriminate].
  inversion H; subst d1'; clear H.
  pose proof (addTags_loop_carried names d d1 a now Hok E) as Hall.
  pose proof (addTags_loop_again names d1 a now' Hall) as Hagain.
  unfold addTags.
  destruct (addTags_loop d1 a names now') as [[[]|e] d2]; cbn [fst snd].
  - destruct Hagain as (H1 & H2 & _ & H4).
    split; [exact H1|]. split; [exact H2|].
    split; [intros n; unfold count_of; now rewrite H1|reflexivity].
  - repeat (split; [reflexivity|]). intros Hroom. lia.
Qed.

Lemma addTags_twice_counts_once_witness :
  consistent one_article_db
  /\ addTags one_article_db 1%Z ["#Storm"; "Foley"; "#Storm"] 11%N
     = (Ok tt, tagged_db)
  /\ fst (addTags tagged_db 1%Z ["#Storm"; "Foley"; "#Storm"] 12%N) = Ok tt
  /\ count_of (snd (addTags tagged_db 1%Z ["#Storm"; "Foley"; "#Storm"] 12%N))
       "#Storm" = count_of tagged_db "#Storm".
Proof.
  assert (Hok : consistent one_article_db).
  { repeat split; simpl; try constructor. intros l []. }
  assert (E : addTags one_article_db 1%Z ["#Storm"; "Foley"; "#Storm"] 11%N
              = (Ok tt, tagged_db)) by (vm_compute; reflexivity).
  split; [exact Hok|]. split; [exact E|].
  pose proof (addTags_twice_counts_once one_article_db tagged_db 1%Z
                ["#Storm"; "Foley"; "#Storm"] 11%N 12%N Hok E)
    as (_ & _ & Hcount & Hroom).
  split; [apply Hroom; vm_compute; discriminate|apply Hcount].
Defined.

End RetagFacts.

(* --------------------------------------------------------------------- *)
(** ** BaseScraper: saveArticle *)
(* --------------------------------------------------------------------- *)

Section SaveFacts.
Import Schema Effects Web BaseScraper After.

Lemma Article_create_eq (data : Article.article_data) (w : world) :
  Article_create data w
  = match Article.create (store w) data (clock w) with
    | (Ok row, d) => (Returned row, stored w d [ArticleCreate data])
    | (Err e, d) => (Thrown (StoreError e), stored w d [ArticleCreate data])
    end.
Proof.
  unfold Article_create, bind, emit, now, on_store, logged, stored.
  cbn [store clock log].
  now destruct (Article.create (store w) data (clock w)) as [[row|e] d].
Qed.

Lemma Article_addTags_eq (id : Z) (names : list string) (w : world) :
  Article_addTags id names w
  = match Tags.addTags (store w) id names (clock w) with
    | (Ok _, d) => (Returned tt, stored w d [ArticleAddTags id names])
    | (Err e, d) => (Thrown (StoreError e), stored w d [ArticleAddTags id names])
    end.
Proof.
  unfold Article_addTags, bind, emit, stored. cbn [store clock log].
  now destruct (Tags.addTags (store w) id names (clock w)) as [[[]|e] d].
Qed.

Lemma saveArticle_eq (self : scraper) (a : articleData) (w : world) :
  saveArticle self a w
  = match Article.create (store w) (with_defaults self a) (clock w) with
    | (Err e, d) =>
        (Thrown (StoreError e),
         stored w d [ArticleCreate (with_defaults self a)])
    | (Ok row, d) =>
        match tags a with
        | [] => (Returned row, stored w d [ArticleCreate (with_defaults self a)])
        | _ :: _ =>
            match Tags.addTags d (a_id row) (tags a) (clock w) with
            | (Ok _, d2) =>
                (Returned row,
                 stored w d2 [ArticleCreate (with_defaults self a);
                              ArticleAddTags (a_id row) (tags a)])
            | (Err e, d2) =>
                (Thrown (StoreError e),
                 stored w d2 [ArticleCreate (with_defaults self a);
                              ArticleAddTags (a_id row) (tags a)])
            end
        end
    end.
Proof.
  unfold saveArticle, try_catch, bind. rewrite Article_create_eq.
  destruct (Article.create (store w) (with_defaults self a) (clock w))
    as [[row|e] d]; [|reflexivity].
  destruct (tags a) as [|t ts]; [reflexivity|].
  rewrite Article_addTags_eq. unfold stored. cbn [store clock log].
  destruct (Tags.addTags d (a_id row) (t :: ts) (clock w)) as [[[]|e] d2];
    unfold ret, throw; rewrite <- app_assoc; reflexivity.
Qed.

Lemma upsert_tag_articles (d d1 : db) (n ty : string) (now : timestamp)
    (o : result Z) :
  Tags.upsert_tag d n ty now = (o, d1) ->
  articles d1 = articles d /\ sources d1 = sources d
  /\ articles_id_seq d1 = articles_id_seq d.
Proof.
  unfold Tags.upsert_tag.
  repeat match goal with
         | |- (if ?b then _ else _) = _ -> _ => destruct b
         | |- match ?x with _ => _ end = _ -> _ => destruct x
         end; intros H; inversion H; auto.
Qed.

Lemma link_tag_articles (d d2 : db) (a id : Z) :
  Tags.link_tag d a id = Ok d2 ->
  articles d2 = articles d /\ sources d2 = sources d
  /\ articles_id_seq d2 = articles_id_seq d.
Proof.
  unfold Tags.link_tag, Schema.bind.
  repeat match goal with
         | |- (if ?b then _ else _) = _ -> _ => destruct b; try discriminate
         | |- match ?x with _ => _ end = _ -> _ => destruct x; try discriminate
         end; intros H; inversion H; auto.
Qed.

Lemma addTags_keeps_articles (names : list string) :
  forall d a now o d',
    Tags.addTags_loop d a names now = (o, d') ->
    articles d' = articles d /\ sources d' = sources d
    /\ articles_id_seq d' = articles_id_seq d.
Proof.
  induction names as [|n rest IH]; intros d a now o d' H.
  - simpl in H. now inversion H.
  - cbn [Tags.addTags_loop] in H.
    destruct (Tags.upsert_tag d n _ now) as [[id|e] d1] eqn:Eu.
    + apply upsert_tag_articles in Eu as (E1 & E2 & E3).
      destruct (Tags.link_tag d1 a id) as [d2|e] eqn:El.
      * apply link_tag_articles in El as (F1 & F2 & F3).
        destruct (IH _ _ _ _ _ H) as (G1 & G2 & G3).
        repeat split; congruence.
      * inversion H; subst. auto.
    + apply upsert_tag_articles in Eu as (E1 & E2 & E3).
      inversion H; subst. auto.
Qed.

Lemma addTags_articles (d : db) (a : Z) (names : list string) (now : timestamp) :
  articles (snd (Tags.addTags d a names now)) = articles d.
Proof.
  unfold Tags.addTags.
  destruct (Tags.addTags_loop d a names now) as [[[]|e] d'] eqn:E;
    [|reflexivity].
  now apply addTags_keeps_articles in E as (E1 & _).
Qed.

(** The store after saveArticle, by the outcome of Article.create. *)
Lemma saveArticle_after_create (self : scraper) (a : articleData) (w : world) :
  match Article.create (store w) (with_defaults self a) (clock w) with
  | (Err e, d) =>
      saveArticle self a w
      = (Thrown (StoreError e), stored w d [ArticleCreate (with_defaults self a)])
      /\ same_rows (store w) d
  | (Ok row, d) =>
      Article.findByUrl (store (snd (saveArticle self a w))) (a_url row) = Some row
      /\ articles (store (snd (saveArticle self a w))) = articles d
      /\ (fst (saveArticle self a w) = Returned row
          \/ exists e d2,
               fst (saveArticle self a w) = Thrown (StoreError e)
               /\ tags a <> []
               /\ Tags.addTags d (a_id row) (tags a) (clock w) = (Err e, d2)
               /\ store (snd (saveArticle self a w)) = d2
               /\ same_rows d d2)
  end.
Proof.
  rewrite saveArticle_eq.
  destruct (Article.create (store w) (with_defaults self a) (clock w))
    as [[row|e] d] eqn:E; [|split; [reflexivity|now apply create_Err in E]].
  destruct (create_lookup _ _ _ _ _ E) as (_ & Hfind & _).
  destruct (tags a) as [|t ts] eqn:Et; cbn [fst snd store stored].
  - split; [exact Hfind|]. split; [reflexivity|now left].
  - pose proof (addTags_articles d (a_id row) (t :: ts) (clock w)) as Ha.
    pose proof (addTags_Err d) as Herr.
    specialize (fun d2 e => Herr d2 (a_id row) (t :: ts) (clock w) e).
    destruct (Tags.addTags d (a_id row) (t :: ts) (clock w)) as [[[]|e] d2];
      cbn [fst snd store stored] in *.
    + split; [|split; [exact Ha|now left]].
      unfold Article.findByUrl in *. now rewrite Ha.
    + specialize (Herr d2 e eq_refl).
      split; [unfold Article.findByUrl in *; now rewrite Ha|].
      split; [exact Ha|].
      right. exists e, d2. repeat split; auto; try apply Herr. discriminate.
Qed.

(** X5. saveArticle is not one transaction.  When Article.create fails,
    saveArticle throws that error, addTags is not called and the rows of
    every table are as they were (the statement may have drawn an id from
    the sequence of article ids).  When create succeeds its row is in the
    store afterwards, found under its url, whatever happens next:
    saveArticle returns that row, or, when Article.addTags fails, it throws
    the error of addTags and leaves the article stored, with the rows of
    the tag tables as they were before addTags. *)
Theorem saveArticle_is_not_atomic (self : scraper) (a : articleData) (w : world) :
  (forall e d,
     Article.create (store w) (with_defaults self a) (clock w) = (Err e, d) ->
     fst (saveArticle self a w) = Thrown (StoreError e)
     /\ log (snd (saveArticle self a w))
        = (log w ++ [ArticleCreate (with_defaults self a)])%list
     /\ store (snd (saveArticle self a w)) = d
     /\ sources d = sources (store w)
     /\ articles d = articles (store w)
     /\ Schema.tags d = Schema.tags (store w)
     /\ article_tags d = article_tags (store w))
  /\ (forall row d,
        Article.create (store w) (with_defaults self a) (clock w) = (Ok row, d) ->
        Article.findByUrl (store (snd (saveArticle self a w))) (a_url row)
        = Some row
        /\ articles (store (snd (saveArticle self a w))) = articles d
        /\ (fst (saveArticle self a w) = Returned row
            \/ exists e d2,
                 fst (saveArticle self a w) = Thrown (StoreError e)
                 /\ tags a <> []
                 /\ Tags.addTags d (a_id row) (tags a) (clock w) = (Err e, d2)
                 /\ store (snd (saveArticle self a w)) = d2
                 /\ sources d2 = sources d
                 /\ articles d2 = articles d
                 /\ Schema.tags d2 = Schema.tags d
                 /\ article_tags d2 = article_tags d)).
Proof.
  pose proof (saveArticle_after_create self a w) as H.
  split.
  - intros e d E. rewrite E in H. destruct H as (H & S1 & S2 & S3 & S4).
    rewrite H. cbn [fst snd stored log store]. auto 8.
  - intros row d E. rewrite E in H. destruct H as (H1 & H2 & H3).
    split; [exact H1|]. split; [exact H2|].
    destruct H3 as [H3|(e & d2 & F1 & F2 & F3 & F4 & S1 & S2 & S3 & S4)];
      [now left|].
    right. exists e, d2. auto 10.
Qed.

Lemma saveArticle_is_not_atomic_witness :
  exists row,
    fst (saveArticle news_scraper (tagged_article long_tag) Observe.start)
    = Thrown (StoreError (StringTooLong "name"))
    /\ Article.findByUrl
         (store (snd (saveArticle news_scraper (tagged_article long_tag)
                        Observe.start)))
         "https://x.com/a" = Some row
    /\ Schema.tags
         (store (snd (saveArticle news_scraper (tagged_article long_tag)
                        Observe.start))) = [].
Proof.
  destruct (Article.create (store Observe.start)
              (with_defaults news_scraper (tagged_article long_tag))
              (clock Observe.start)) as [[row|e] d] eqn:E;
    [|vm_compute in E; discriminate].
  assert (Hu : a_url row = "https://x.com/a")
    by (vm_compute in E; inversion E; reflexivity).
  destruct (proj2 (saveArticle_is_not_atomic news_scraper
                     (tagged_article long_tag) Observe.start) row d E)
    as (Hfind & _).
  rewrite Hu in Hfind.
  exists row. split; [vm_compute; reflexivity|].
  split; [exact Hfind|vm_compute; reflexivity].
Defined.

End SaveFacts.

(* --------------------------------------------------------------------- *)
(** ** The extractors: what a scrape does to table articles *)
(* --------------------------------------------------------------------- *)

Section AppendFacts.
Import Schema Effects Web BaseScraper After.

Lemma same_article_refl (r : article_row) : same_article r r.
Proof. unfold same_article. repeat split. Qed.

Lemma same_article_trans (r1 r2 r3 : article_row) :
  same_article r1 r2 -> same_article r2 r3 -> same_article r1 r3.
Proof. unfold same_article. intuition congruence. Qed.

Lemma same_articles_refl (l : list article_row) : Forall2 same_article l l.
Proof. induction l; constructor; [apply same_article_refl|assumption]. Qed.

Lemma same_articles_trans (l1 l2 l3 : list article_row) :
  Forall2 same_article l1 l2 -> Forall2 same_article l2 l3 ->
  Forall2 same_article l1 l3.
Proof.
  intros H. revert l3. induction H as [|x y l1 l2 Hxy _ IH]; intros l3 H23.
  - inversion H23. constructor.
  - inversion H23; subst. constructor; [|now apply IH].
    now apply (same_article_trans x y).
Qed.

Lemma same_articles_urls (l l' : list article_row) :
  Forall2 same_article l l' -> map a_url l' = map a_url l.
Proof.
  induction 1 as [|x y l l' Hxy _ IH]; [reflexivity|].
  simpl. rewrite IH. f_equal. apply Hxy.
Qed.

Lemma same_articles_length (l l' : list article_row) :
  Forall2 same_article l l' -> List.length l' = List.length l.
Proof. intros H. apply Forall2_length in H. congruence. Qed.

Lemma update_by_url_same (u : string) (now : timestamp) (t : string)
    (e c : option string) (rows : list article_row) :
  Forall2 same_article rows
    (Article.update_by_url u (Article.conflict_update now t e c) rows).
Proof.
  induction rows as [|r rows IH]; simpl; [constructor|].
  destruct (String.eqb (a_url r) u); constructor; auto.
  - unfold same_article. simpl. repeat split.
  - apply same_article_refl.
Qed.

Lemma find_url_absent (u : string) (rows : list article_row) :
  ~ In u (map a_url rows) -> find_article_by_url u rows = None.
Proof.
  intros H. destruct (find_article_by_url u rows) as [r|] eqn:E; [|reflexivity].
  apply find_url_Some in E as [Hin Hu]. exfalso. apply H.
  rewrite <- Hu. now apply in_map.
Qed.

Lemma find_url_prefix (u : string) (rows more : list article_row) :
  find_article_by_url u (rows ++ more)%list = None ->
  find_article_by_url u rows = None.
Proof.
  unfold find_article_by_url. induction rows as [|r rest IH]; simpl; [reflexivity|].
  destruct (String.eqb (a_url r) u); [discriminate|exact IH].
Qed.

Lemma find_url_In (rows : list article_row) (r : article_row) :
  In r rows -> find_article_by_url (a_url r) rows <> None.
Proof.
  intros Hin Hnone. apply find_url_None in Hnone. apply Hnone.
  now apply in_map.
Qed.

(** The events of saveArticle: the call of Article.create, then at most the
    call of Article.addTags. *)
Lemma saveArticle_log (self : scraper) (a : articleData) (w : world) :
  exists ev,
    log (snd (saveArticle self a w))
    = (log w ++ ArticleCreate (with_defaults self a) :: ev)%list.
Proof.
  rewrite saveArticle_eq.
  destruct (Article.create (store w) (with_defaults self a) (clock w))
    as [[row|e] d]; [|now exists []].
  destruct (tags a) as [|t ts]; [now exists []|].
  destruct (Tags.addTags d (a_id row) (t :: ts) (clock w)) as [[[]|e] d2];
    now eexists.
Qed.

(** saveArticle on a url that findByUrl did not find. *)
Lemma saveArticle_grows (self : scraper) (a : articleData) (w : world) :
  (forall u, url a = Some u -> Article.findByUrl (store w) u = None) ->
  exists kept added ev,
    grown w (snd (saveArticle self a w)) kept added ev
    /\ List.length added <= 1
    /\ (Forall short_url ev ->
        forall row, fst (saveArticle self a w) = Returned row -> added = [row]).
Proof.
  intros Hnew.
  destruct (saveArticle_log self a w) as (ev & Hlog).
  pose proof (saveArticle_after_create self a w) as H.
  destruct (Article.create (store w) (with_defaults self a) (clock w))
    as [[row|e] d] eqn:E.
  - destruct H as (_ & Harts & Hout).
    destruct (create_Ok _ _ _ _ _ E)
      as (t0 & u0 & _ & Hu & _ & Hfit & _ & _ & _ & _ & Hcase).
    cbn [Article.url with_defaults] in Hu.
    destruct Hcase as [(old & Hold & _ & Hd)|(Hnone & _ & _ & Hd)].
    + assert (Hlong : ~ Forall short_url
                        (ArticleCreate (with_defaults self a) :: ev)).
      { intros Hshort. inversion Hshort as [|? ? Hs _]; subst.
        cbn [short_url Observe.at_most Article.url with_defaults] in Hs.
        rewrite Hu in Hs. apply Nat.leb_le in Hs.
        pose proof (fit_as_is _ _ _ Hfit Hs) as Eu.
        specialize (Hnew u0 Hu). unfold Article.findByUrl in Hnew. congruence. }
      exists (articles d), [], (ArticleCreate (with_defaults self a) :: ev).
      split; [|split; [simpl; lia|]].
      * unfold grown. split; [exact Hlog|].
        split; [now rewrite Harts, app_nil_r|].
        split; [rewrite Hd; apply update_by_url_same|].
        split; [constructor|]. split; [constructor|].
        intros Hshort. now apply Hlong in Hshort.
      * intros Hshort. now apply Hlong in Hshort.
    + exists (articles (store w)), [row],
        (ArticleCreate (with_defaults self a) :: ev).
      split; [|split; [simpl; lia|]].
      * unfold grown. split; [exact Hlog|].
        split; [now rewrite Harts|].
        split; [apply same_articles_refl|].
        split; [constructor; [exact Hnone|constructor]|].
        split; [repeat constructor; intros []|reflexivity].
      * intros _ row' Hr.
        destruct Hout as [Hout|(e & d2 & Hout & _)]; congruence.
  - destruct H as (H & S1 & S2 & S3 & S4).
    exists (articles (store w)), [], (ArticleCreate (with_defaults self a) :: ev).
    split; [|split; [simpl; lia|]].
    + unfold grown. split; [exact Hlog|].
      split; [rewrite H; cbn [snd store stored]; now rewrite app_nil_r|].
      split; [apply same_articles_refl|].
      split; [constructor|]. split; [constructor|reflexivity].
    + intros _ row Hr. rewrite H in Hr. discriminate.
Qed.

(** The last step of the three process functions:
    return await this.saveArticle(articleData). *)
Lemma save_step_grows (self : scraper) (a : articleData) (w : world) :
  (forall u, url a = Some u -> Article.findByUrl (store w) u = None) ->
  let m := bind (saveArticle self a) (fun saved => ret (Some saved)) in
  exists kept added ev,
    grown w (snd (m w)) kept added ev
    /\ List.length added <= 1
    /\ (Forall short_url ev ->
        forall row, fst (m w) = Returned (Some row) -> added = [row]).
Proof.
  intros Hnew m. subst m. unfold bind, ret.
  destruct (saveArticle_grows self a w Hnew) as (kept & added & ev & Hg & Hl & Hr).
  exists kept, added, ev.
  destruct (saveArticle self a w) as [[saved|e] w1]; cbn [fst snd] in *.
  - split; [exact Hg|]. split; [exact Hl|].
    intros Hs row E. inversion E; subst. now apply Hr.
  - split; [exact Hg|]. split; [exact Hl|]. intros _ row E. discriminate.
Qed.

(** A step that leaves the store and the log as they are. *)
Lemma idle_step (w : world) (o : outcome (option article_row)) :
  (forall row, o <> Returned (Some row)) ->
  exists kept added ev,
    grown w w kept added ev
    /\ List.length added <= 1
    /\ (Forall short_url ev -> forall row, o = Returned (Some row) -> added = [row]).
Proof.
  intros Ho. exists (articles (store w)), [], [].
  split; [|split; [simpl; lia|]].
  - unfold grown. rewrite !app_nil_r.
    repeat split; try constructor. apply same_articles_refl.
  - intros _ row E. now apply Ho in E.
Qed.

Ltac step_idle E :=
  unfold ret, throw in E; inversion E; subst;
  apply idle_step; intros ? ?; discriminate.

Lemma processArticleElement_adds (net : internet) (self : scraper)
    (el : article_element) :
  adds_at_most_one (CheerioScraper.processArticleElement net self el).
Proof.
  intros w.
  destruct (CheerioScraper.processArticleElement net self el w) as [o w'] eqn:E.
  cbn [fst snd]. unfold CheerioScraper.processArticleElement in E.
  destruct ((String.length (cleanText (title_text el)) =? 0)
            || (String.length (cleanText (title_text el)) <? 10)); [step_idle E|].
  destruct (link_href el) as [[|c href]|]; [step_idle E| |step_idle E].
  unfold bind at 1, read_store at 1 in E.
  destruct (Article.findByUrl (store w) _) eqn:Ex; [step_idle E|].
  unfold bind at 1, now at 1 in E.
  match type of E with
  | bind (saveArticle ?s ?a) _ _ = _ =>
      pose proof (save_step_grows s a w) as H
  end.
  cbv zeta in H. rewrite E in H. cbn [fst snd] in H. apply H.
  cbn [url]. intros u Hu. inversion Hu; subst. exact Ex.
Qed.

Lemma processItem_adds (net : internet) (self : RSSScraper.rss_scraper)
    (item : feed_item) :
  adds_at_most_one (RSSScraper.processItem net self item).
Proof.
  intros w.
  destruct (RSSScraper.processItem net self item w) as [o w'] eqn:E.
  cbn [fst snd]. unfold RSSScraper.processItem in E.
  unfold bind at 1, RSSScraper.checkIfExists, read_store at 1 in E.
  destruct (match item_link item with
            | Some u => match Article.findByUrl (store w) u with
                        | Some _ => true
                        | None => false
                        end
            | None => false
            end) eqn:Ex; [step_idle E|].
  unfold bind at 1, now at 1 in E.
  destruct (item_title item) as [ttl|]; [|step_idle E].
  match type of E with
  | bind (saveArticle ?s ?a) _ _ = _ =>
      pose proof (save_step_grows s a w) as H
  end.
  cbv zeta in H. rewrite E in H. cbn [fst snd] in H. apply H.
  cbn [url]. intros u Hu. rewrite Hu in Ex.
  now destruct (Article.findByUrl (store w) u).
Qed.

Lemma processTweetElement_adds (net : internet)
    (self : NitterScraper.nitter_scraper) (el : tweet_element) :
  adds_at_most_one (NitterScraper.processTweetElement net self el).
Proof.
  intros w.
  destruct (NitterScraper.processTweetElement net self el w) as [o w'] eqn:E.
  cbn [fst snd]. unfold NitterScraper.processTweetElement in E.
  destruct ((String.length (cleanText (tweet_content_text el)) =? 0)
            || (String.length (cleanText (tweet_content_text el)) <? 5));
    [step_idle E|].
  destruct (tweet_link_href el) as [[|c href]|]; [step_idle E| |step_idle E].
  unfold bind at 1, read_store at 1 in E.
  destruct (Article.findByUrl (store w) _) eqn:Ex; [step_idle E|].
  unfold bind at 1, now at 1 in E.
  match type of E with
  | bind (saveArticle ?s ?a) _ _ = _ =>
      pose proof (save_step_grows s a w) as H
  end.
  cbv zeta in H. rewrite E in H. cbn [fst snd] in H. apply H.
  cbn [url]. intros u Hu. inversion Hu; subst. exact Ex.
Qed.

Lemma collect_cons {X : Type} (process : X -> M (option article_row))
    (b : X) (rest : list X) (w : world) :
  collect process (b :: rest) w
  = match process b w with
    | (o, w1) =>
        match collect process rest w1 with
        | (Returned more, w2) =>
            (Returned match o with
                      | Returned (Some a) => a :: more
                      | _ => more
                      end, w2)
        | (Thrown e, w2) => (Thrown e, w2)
        end
    end.
Proof.
  cbn [collect]. unfold bind, try_catch, ret.
  destruct (process b w) as [[[a|]|e] w1];
    now destruct (collect process rest w1) as [[more|e'] w2].
Qed.

Lemma app_inv_length {A : Type} (l1 l2 k1 k2 : list A) :
  (l1 ++ l2 = k1 ++ k2)%list -> List.length l1 = List.length k1 ->
  l1 = k1 /\ l2 = k2.
Proof.
  revert k1. induction l1 as [|x l1 IH]; intros [|y k1] E Hl;
    simpl in *; try discriminate; [now split|].
  inversion E; subst. destruct (IH k1 H1) as [-> ->]; [lia|now split].
Qed.

(** Two stretches of growth, one after the other. *)
Lemma grown_then (w w1 w2 : world) (kept1 added1 kept2 added2 : list article_row)
    (ev1 ev2 : list event) :
  grown w w1 kept1 added1 ev1 -> grown w1 w2 kept2 added2 ev2 ->
  exists kept added1',
    grown w w2 kept (added1' ++ added2) (ev1 ++ ev2)
    /\ List.length added1' = List.length added1
    /\ (Forall short_url (ev1 ++ ev2) -> added1' = added1).
Proof.
  intros (L1 & A1 & K1 & F1 & N1 & S1) (L2 & A2 & K2 & F2 & N2 & S2).
  rewrite A1 in K2. apply Forall2_app_inv_l in K2
    as (kept & added1' & Kk & Ka & Ek).
  exists kept, added1'.
  pose proof (same_articles_urls _ _ K1) as U1.
  pose proof (same_articles_urls _ _ Ka) as Ua.
  assert (Hfresh2 : forall row, In row added2 ->
            ~ In (a_url row) (map a_url kept1)
            /\ ~ In (a_url row) (map a_url added1)).
  { intros row Hin. rewrite Forall_forall in F2. specialize (F2 row Hin).
    unfold Article.findByUrl in F2. rewrite A1 in F2.
    apply find_url_None in F2. rewrite map_app, in_app_iff in F2. tauto. }
  assert (Hsame : Forall short_url (ev1 ++ ev2) ->
            kept = articles (store w) /\ added1' = added1).
  { intros Hs. apply Forall_app in Hs as [Hs1 Hs2].
    specialize (S1 Hs1). specialize (S2 Hs2). subst kept1.
    rewrite A1 in S2. rewrite Ek in S2.
    apply app_inv_length in S2; [exact S2|].
    now apply same_articles_length in Kk. }
  split; [|split].
  - unfold grown. split; [now rewrite L2, L1, app_assoc|].
    split; [now rewrite A2, Ek, app_assoc|].
    split; [now apply (same_articles_trans _ kept1)|].
    split; [|split].
    + apply Forall_app. split.
      * apply Forall_forall. intros row Hin.
        assert (Hu : In (a_url row) (map a_url added1))
          by (rewrite <- Ua; now apply in_map).
        apply in_map_iff in Hu as (r1 & Hr1 & Hin1).
        rewrite Forall_forall in F1. rewrite <- Hr1. now apply F1.
      * apply Forall_forall. intros row Hin.
        unfold Article.findByUrl. apply find_url_absent.
        rewrite <- U1. now apply Hfresh2.
    + rewrite map_app, Ua. apply NoDup_app; [exact N1|exact N2|].
      intros u Hu1 Hu2. apply in_map_iff in Hu2 as (row & <- & Hin).
      now apply (Hfresh2 row Hin).
    + intros Hs. now apply Hsame.
  - now apply same_articles_length in Ka.
  - intros Hs. now apply Hsame.
Qed.

(** The loop of a scrape(): it never throws, and table articles grows by
    what its steps add. *)
Lemma collect_grows {X : Type} (process : X -> M (option article_row)) :
  (forall b, adds_at_most_one (process b)) ->
  forall blocks w,
    exists l kept added ev,
      fst (collect process blocks w) = Returned l
      /\ grown w (snd (collect process blocks w)) kept added ev
      /\ List.length l <= List.length blocks
      /\ List.length added <= List.length blocks
      /\ (Forall short_url ev -> incl l added).
Proof.
  intros Hstep. induction blocks as [|b rest IH]; intros w.
  - exists [], (articles (store w)), [], []. cbn [collect ret fst snd].
    split; [reflexivity|]. split.
    + unfold grown. rewrite !app_nil_r.
      repeat split; try constructor. apply same_articles_refl.
    + repeat split; auto. intros _ x [].
  - rewrite collect_cons.
    destruct (Hstep b w) as (kept1 & added1 & ev1 & G1 & L1 & R1).
    destruct (process b w) as [o w1]; cbn [fst snd] in *.
    destruct (IH w1) as (l & kept2 & added2 & ev2 & H1 & G2 & H3 & H4 & H5).
    destruct (collect process rest w1) as [[more|e'] w2]; cbn [fst snd] in *;
      [|discriminate].
    inversion H1; subst more.
    destruct (grown_then _ _ _ _ _ _ _ _ _ G1 G2) as (kept & added1' & G & La & Sa).
    eexists. exists kept, (added1' ++ added2)%list, (ev1 ++ ev2)%list.
    split; [reflexivity|]. split; [exact G|].
    split; [destruct o as [[a|]|e]; cbn [List.length]; lia|].
    split; [rewrite length_app; cbn [List.length]; lia|].
    intros Hs. pose proof (Sa Hs) as ->.
    apply Forall_app in Hs as [Hs1 Hs2]. specialize (H5 Hs2).
    destruct o as [[a|]|e].
    + rewrite (R1 Hs1 a eq_refl).
      intros x [<-|Hx]; [now left|]. apply in_or_app. right. now apply H5.
    + intros x Hx. apply in_or_app. right. now apply H5.
    + intros x Hx. apply in_or_app. right. now apply H5.
Qed.

(** A stretch in which the store stayed as it was, before a stretch of
    growth. *)
Lemma grown_after (w w1 w2 : world) (kept added : list article_row)
    (ev1 ev : list event) :
  store w1 = store w -> log w1 = (log w ++ ev1)%list ->
  grown w1 w2 kept added ev -> grown w w2 kept added (ev1 ++ ev).
Proof.
  intros Hs Hl (L & A & K & F & N & S). unfold grown.
  rewrite Hs in *.
  split; [now rewrite L, Hl, app_assoc|].
  repeat (split; [assumption|]).
  intros Hall. apply Forall_app in Hall as [_ Hall]. now apply S.
Qed.

Lemma scrape_outcome_page {X : Type} (net : internet) (self : scraper)
    (process : X -> M (option article_row)) (blocks : document -> list X)
    (w : world) :
  (forall b, adds_at_most_one (process b)) ->
  scrape_outcome w
    (try_catch
       (bind (fetchHTML net self (sourceUrl self))
             (fun page => collect process (blocks page)))
       (fun error => throw error) w)
    match axios_get net (sourceUrl self) with
    | Responded page => Responded (blocks page)
    | Failed message => Failed message
    end.
Proof.
  intros Hstep. unfold try_catch, bind. rewrite fetchHTML_run.
  destruct (axios_get net (sourceUrl self)) as [page|message].
  - set (w1 := {| store := store w;
                  clock := (clock w + Js.timer_delay (delay self))%N;
                  log := _ |}).
    destruct (collect_grows process Hstep (blocks page) w1)
      as (l & kept & added & ev & H1 & G & H3 & H4 & H5).
    destruct (collect process (blocks page) w1) as [[more|e] w2];
      cbn [fst snd] in *; [|discriminate].
    inversion H1; subst more.
    exists kept, added,
      ([HttpGet (sourceUrl self) (userAgent self) 30000%N;
        Sleep (delay self)] ++ ev)%list.
    cbn [fst snd]. split.
    + now apply (grown_after w w1).
    + exists l. repeat split; auto.
      intros Hs. apply Forall_app in Hs as [_ Hs]. now apply H5.
  - exists (articles (store w)), [],
      [HttpGet (sourceUrl self) (userAgent self) 30000%N].
    unfold throw. cbn [fst snd store log]. split; [|now split].
    unfold grown. cbn [store log]. rewrite app_nil_r.
    repeat split; try constructor. apply same_articles_refl.
Qed.

(** X6. A scrape() of each of the three extractors never removes a row of
    table articles and never changes the id, url, source, author, category,
    content type, platform, image or dates of a row: the rows the table had
    are still there, in their order, followed by the rows the scrape added,
    each under a url that was not in the table and that no other added row
    has.  When every url the scrape handed to Article.create had at most
    1000 characters, the rows the table had are exactly as they were, and
    the rows the scrape returns are rows it added.  A scrape throws exactly
    when its fetch failed, with the error of the fetch and the store as it
    was; otherwise it returns, whatever happens to single blocks, at most
    one row per block of the document, and adds at most one row per
    block. *)
Theorem scrape_only_appends_rows :
  (forall net self w,
     scrape_outcome w (CheerioScraper.scrape net self w)
       match axios_get net (sourceUrl self) with
       | Responded page => Responded (article_elements page)
       | Failed message => Failed message
       end)
  /\ (forall net self w,
        scrape_outcome w (RSSScraper.scrape net self w)
          (parseURL net (RSSScraper.rssUrl self)))
  /\ (forall net self w,
        scrape_outcome w (NitterScraper.scrape net self w)
          match axios_get net (sourceUrl (NitterScraper.base self)) with
          | Responded page => Responded (timeline_items page)
          | Failed message => Failed message
          end).
Proof.
  split; [|split].
  - intros net self w. unfold CheerioScraper.scrape.
    apply (scrape_outcome_page net self _ article_elements).
    apply processArticleElement_adds.
  - intros net self w. unfold RSSScraper.scrape, try_catch, bind, emit.
    destruct (parseURL net (RSSScraper.rssUrl self)) as [items|message].
    + set (w1 := {| store := store w; clock := clock w; log := _ |}).
      destruct (collect_grows (RSSScraper.processItem net self)
                  (processItem_adds net self) items w1)
        as (l & kept & added & ev & H1 & G & H3 & H4 & H5).
      destruct (collect (RSSScraper.processItem net self) items w1)
        as [[more|e] w2]; cbn [fst snd] in *; [|discriminate].
      inversion H1; subst more.
      exists kept, added, ([FeedFetch (RSSScraper.rssUrl self)] ++ ev)%list.
      cbn [fst snd]. split.
      * now apply (grown_after w w1).
      * exists l. repeat split; auto.
        intros Hs. apply Forall_app in Hs as [_ Hs]. now apply H5.
    + exists (articles (store w)), [], [FeedFetch (RSSScraper.rssUrl self)].
      unfold throw. cbn [fst snd store log]. split; [|now split].
      unfold grown. cbn [store log]. rewrite app_nil_r.
      repeat split; try constructor. apply same_articles_refl.
  - intros net self w. unfold NitterScraper.scrape.
    apply (scrape_outcome_page net (NitterScraper.base self) _ timeline_items).
    apply processTweetElement_adds.
Qed.

Lemma scrape_only_appends_rows_witness :
  scrape_outcome Observe.start
    (RSSScraper.scrape (Observe.one_feed [plain_item]) feed_scraper
       Observe.start)
    (Responded [plain_item])
  /\ (exists l,
        fst (RSSScraper.scrape
               (Observe.one_feed [padded_item "Storm warning issued";
                                  padded_item "Storm warning lifted"])
               feed_scraper Observe.start) = Returned l
        /\ map a_title l = ["Storm warning issued"; "Storm warning lifted"])
  /\ map a_title
       (articles
          (store (snd (RSSScraper.scrape
                         (Observe.one_feed [padded_item "Storm warning issued";
                                            padded_item "Storm warning lifted"])
                         feed_scraper Observe.start))))
     = ["Storm warning lifted"].
Proof.
  split.
  - exact (proj1 (proj2 scrape_only_appends_rows)
             (Observe.one_feed [plain_item]) feed_scraper Observe.start).
  - split; [eexists; split; vm_compute; reflexivity|vm_compute; reflexivity].
Defined.

End AppendFacts.

(* --------------------------------------------------------------------- *)
(** ** The extractors: blocks that are skipped *)
(* --------------------------------------------------------------------- *)

Section SkipFacts.
Import Schema Effects Web BaseScraper After.

Lemma save_step_Some (self : scraper) (a : articleData) (w w' : world)
    (row : article_row) :
  bind (saveArticle self a) (fun saved => ret (Some saved)) w
  = (Returned (Some row), w') ->
  (exists u, url a = Some u /\ fit 1000 u = Some (a_url row))
  /\ Article.findByUrl (store w') (a_url row) = Some row.
Proof.
  intros E. unfold bind, ret in E.
  pose proof (saveArticle_after_create self a w) as H.
  destruct (saveArticle self a w) as [[saved|e] w1] eqn:Es; [|discriminate].
  inversion E; subst saved w1; clear E. cbn [fst snd] in H.
  destruct (Article.create (store w) (with_defaults self a) (clock w))
    as [[row0|e] d] eqn:Ec.
  - destruct H as (Hf & _ & [Hr|(e & d2 & Hr & _)]); [|discriminate].
    inversion Hr; subst row0.
    destruct (create_lookup _ _ _ _ _ Ec) as ((u & Hu & Hfit) & _).
    cbn [Article.url with_defaults] in Hu.
    split; [now exists u|exact Hf].
  - destruct H as (H & _). discriminate.
Qed.

Lemma processArticleElement_skips (net : internet) (self : scraper)
    (el : article_element) (w : world) :
  String.length (cleanText (title_text el)) < 10
  \/ link_href el = None \/ link_href el = Some EmptyString
  \/ (exists href,
        link_href el = Some href
        /\ Article.findByUrl (store w)
             (getAbsoluteUrl net href (sourceUrl self)) <> None) ->
  CheerioScraper.processArticleElement net self el w = (Returned None, w).
Proof.
  intros H. unfold CheerioScraper.processArticleElement.
  destruct (String.length (cleanText (title_text el)) <? 10) eqn:Et.
  { now rewrite orb_true_r. }
  apply Nat.ltb_ge in Et.
  destruct (String.length (cleanText (title_text el)) =? 0); [reflexivity|].
  cbn [orb].
  destruct H as [H|[H|[H|(href & H & Hx)]]]; [lia| | |]; rewrite H;
    try reflexivity.
  destruct href as [|c href]; [reflexivity|].
  unfold bind, read_store.
  now destruct (Article.findByUrl (store w) _).
Qed.

Lemma processArticleElement_Some (net : internet) (self : scraper)
    (el : article_element) (w w' : world) (row : article_row) :
  CheerioScraper.processArticleElement net self el w = (Returned (Some row), w') ->
  10 <= String.length (cleanText (title_text el))
  /\ (exists href, link_href el = Some href
                   /\ fit 1000 (getAbsoluteUrl net href (sourceUrl self))
                      = Some (a_url row))
  /\ Article.findByUrl (store w') (a_url row) = Some row.
Proof.
  intros E. unfold CheerioScraper.processArticleElement in E.
  destruct (String.length (cleanText (title_text el)) <? 10) eqn:Et.
  { rewrite orb_true_r in E. discriminate. }
  apply Nat.ltb_ge in Et.
  destruct (String.length (cleanText (title_text el)) =? 0); [discriminate|].
  cbn [orb] in E.
  destruct (link_href el) as [[|c href]|]; try discriminate.
  unfold bind at 1, read_store at 1 in E.
  destruct (Article.findByUrl (store w) _) eqn:Ex; [discriminate|].
  unfold bind at 1, now at 1 in E.
  apply save_step_Some in E.
  cbn [url] in E. destruct E as ((u & Hu & Hfit) & Hf). injection Hu as Hu'.
  subst u. split; [exact Et|]. split; [now exists (String c href)|exact Hf].
Qed.

Lemma processItem_skips (net : internet) (self : RSSScraper.rss_scraper)
    (item : feed_item) (w : world) (u : string) :
  item_link item = Some u ->
  Article.findByUrl (store w) u <> None ->
  RSSScraper.processItem net self item w = (Returned None, w).
Proof.
  intros Hu Hx. unfold RSSScraper.processItem.
  unfold bind at 1, RSSScraper.checkIfExists, read_store at 1. rewrite Hu.
  now destruct (Article.findByUrl (store w) u).
Qed.

Lemma processItem_Some (net : internet) (self : RSSScraper.rss_scraper)
    (item : feed_item) (w w' : world) (row : article_row) :
  RSSScraper.processItem net self item w = (Returned (Some row), w') ->
  (exists u, item_link item = Some u /\ fit 1000 u = Some (a_url row))
  /\ item_title item <> None
  /\ Article.findByUrl (store w') (a_url row) = Some row.
Proof.
  intros E. unfold RSSScraper.processItem in E.
  unfold bind at 1, RSSScraper.checkIfExists, read_store at 1 in E.
  destruct (match item_link item with
            | Some u => match Article.findByUrl (store w) u with
                        | Some _ => true
                        | None => false
                        end
            | None => false
            end) eqn:Ex; [discriminate|].
  unfold bind at 1, now at 1 in E.
  destruct (item_title item) as [ttl|]; [|discriminate].
  apply save_step_Some in E.
  cbn [url] in E. destruct E as (Hu & Hf).
  split; [exact Hu|]. split; [discriminate|exact Hf].
Qed.

Lemma processTweetElement_skips (net : internet)
    (self : NitterScraper.nitter_scraper) (el : tweet_element) (w : world) :
  String.length (cleanText (tweet_content_text el)) < 5
  \/ tweet_link_href el = None \/ tweet_link_href el = Some EmptyString
  \/ (exists href,
        tweet_link_href el = Some href
        /\ Article.findByUrl (store w)
             ("https://twitter.com" ++ Js.replace_first "/i/web" "" href)
           <> None) ->
  NitterScraper.processTweetElement net self el w = (Returned None, w).
Proof.
  intros H. unfold NitterScraper.processTweetElement.
  destruct (String.length (cleanText (tweet_content_text el)) <? 5) eqn:Et.
  { now rewrite orb_true_r. }
  apply Nat.ltb_ge in Et.
  destruct (String.length (cleanText (tweet_content_text el)) =? 0);
    [reflexivity|].
  cbn [orb].
  destruct H as [H|[H|[H|(href & H & Hx)]]]; [lia| | |]; rewrite H;
    try reflexivity.
  destruct href as [|c href]; [reflexivity|].
  unfold bind, read_store.
  now destruct (Article.findByUrl (store w) _).
Qed.

Lemma processTweetElement_Some (net : internet)
    (self : NitterScraper.nitter_scraper) (el : tweet_element) (w w' : world)
    (row : article_row) :
  NitterScraper.processTweetElement net self el w = (Returned (Some row), w') ->
  5 <= String.length (cleanText (tweet_content_text el))
  /\ (exists href,
        tweet_link_href el = Some href
        /\ fit 1000 ("https://twitter.com" ++ Js.replace_first "/i/web" "" href)
           = Some (a_url row))
  /\ Article.findByUrl (store w') (a_url row) = Some row.
Proof.
  intros E. unfold NitterScraper.processTweetElement in E.
  destruct (String.length (cleanText (tweet_content_text el)) <? 5) eqn:Et.
  { rewrite orb_true_r in E. discriminate. }
  apply Nat.ltb_ge in Et.
  destruct (String.length (cleanText (tweet_content_text el)) =? 0);
    [discriminate|].
  cbn [orb] in E.
  destruct (tweet_link_href el) as [[|c href]|]; try discriminate.
  unfold bind at 1, read_store at 1 in E.
  destruct (Article.findByUrl (store w) _) eqn:Ex; [discriminate|].
  unfold bind at 1, now at 1 in E.
  apply save_step_Some in E.
  cbn [url] in E. destruct E as ((u & Hu & Hfit) & Hf). injection Hu as Hu'.
  subst u. split; [exact Et|]. split; [now exists (String c href)|exact Hf].
Qed.

(** X7. A block that an extractor stored is skipped from then on: once
    processArticleElement, processItem or processTweetElement returned a
    row, that row is in the store under its url, which is the url of the
    block as a VARCHAR(1000) column holds it (the url of the block itself
    when that has at most 1000 characters); and the same block, given to
    the same function in any world whose store holds the url of the block,
    makes it return null after the look-up alone: no call of
    Article.create or addTags, no event, the world as it was. *)
Theorem stored_block_is_skipped_afterwards :
  (forall net self el w w' row,
     CheerioScraper.processArticleElement net self el w
     = (Returned (Some row), w') ->
     Article.findByUrl (store w') (a_url row) = Some row
     /\ exists u,
          cut 1000 u (a_url row)
          /\ (String.length u <= 1000 -> a_url row = u)
          /\ forall w2,
               Article.findByUrl (store w2) u <> None ->
               CheerioScraper.processArticleElement net self el w2
               = (Returned None, w2))
  /\ (forall net self item w w' row,
        RSSScraper.processItem net self item w = (Returned (Some row), w') ->
        Article.findByUrl (store w') (a_url row) = Some row
        /\ exists u,
             item_link item = Some u
             /\ cut 1000 u (a_url row)
             /\ (String.length u <= 1000 -> a_url row = u)
             /\ forall w2,
                  Article.findByUrl (store w2) u <> None ->
                  RSSScraper.processItem net self item w2 = (Returned None, w2))
  /\ (forall net self el w w' row,
        NitterScraper.processTweetElement net self el w
        = (Returned (Some row), w') ->
        Article.findByUrl (store w') (a_url row) = Some row
        /\ exists u,
             cut 1000 u (a_url row)
             /\ (String.length u <= 1000 -> a_url row = u)
             /\ forall w2,
                  Article.findByUrl (store w2) u <> None ->
                  NitterScraper.processTweetElement net self el w2
                  = (Returned None, w2)).
Proof.
  split; [|split].
  - intros net self el w w' row E.
    destruct (processArticleElement_Some _ _ _ _ _ _ E)
      as (_ & (href & Hl & Hu) & Hf).
    split; [exact Hf|]. exists (getAbsoluteUrl net href (sourceUrl self)).
    split; [now apply fit_cut|].
    split; [intros Hs; now apply (fit_as_is 1000)|]. intros w2 Hx.
    apply processArticleElement_skips. right; right; right.
    exists href. split; [exact Hl|exact Hx].
  - intros net self item w w' row E.
    destruct (processItem_Some _ _ _ _ _ _ E) as ((u & Hl & Hu) & _ & Hf).
    split; [exact Hf|]. exists u. split; [exact Hl|].
    split; [now apply fit_cut|].
    split; [intros Hs; now apply (fit_as_is 1000)|]. intros w2 Hx.
    now apply (processItem_skips net self item w2 u).
  - intros net self el w w' row E.
    destruct (processTweetElement_Some _ _ _ _ _ _ E)
      as (_ & (href & Hl & Hu) & Hf).
    split; [exact Hf|].
    exists ("https://twitter.com" ++ Js.replace_first "/i/web" "" href).
    split; [now apply fit_cut|].
    split; [intros Hs; now apply (fit_as_is 1000)|]. intros w2 Hx.
    apply processTweetElement_skips. right; right; right.
    exists href. split; [exact Hl|exact Hx].
Qed.

Lemma stored_block_is_skipped_afterwards_witness :
  exists row w',
    RSSScraper.processItem (Observe.one_feed [plain_item]) feed_scraper
      plain_item Observe.start = (Returned (Some row), w')
    /\ Article.findByUrl (store w') (a_url row) = Some row
    /\ RSSScraper.processItem (Observe.one_feed [plain_item]) feed_scraper
         plain_item w' = (Returned None, w').
Proof.
  destruct (RSSScraper.processItem (Observe.one_feed [plain_item]) feed_scraper
              plain_item Observe.start) as [[[row|]|e] w'] eqn:E;
    try (vm_compute in E; discriminate).
  exists row, w'. split; [reflexivity|].
  destruct (proj1 (proj2 stored_block_is_skipped_afterwards)
              (Observe.one_feed [plain_item]) feed_scraper plain_item
              Observe.start w' row E) as (Hf & u & Hl & _ & Hs & Hskip).
  split; [exact Hf|]. apply Hskip.
  assert (Hu : u = "https://x.com/a") by (vm_compute in Hl; congruence).
  rewrite <- (Hs ltac:(subst u; vm_compute; lia)). rewrite Hf. discriminate.
Defined.

Lemma create_needs_url (d : db) (data : Article.article_data) (now : timestamp) :
  Article.url data = None ->
  exists e d', Article.create d data now = (Err e, d').
Proof.
  intros Hu. destruct (Article.create d data now) as [[row|e] d'] eqn:E;
    [|now exists e, d'].
  destruct (create_Ok _ _ _ _ _ E) as (t0 & u & _ & Hu' & _). congruence.
Qed.

(** A date that is not one is refused when the statement is bound: the
    database stays as it was. *)
Lemma create_needs_date (d : db) (data : Article.article_data) (now : timestamp) :
  Article.published_at data = Some InvalidDate ->
  exists e, Article.create d data now = (Err e, d).
Proof.
  intros Hd. unfold Article.create, Article.propose, Schema.bind. rewrite Hd.
  destruct (integer (Article.source_id data)); eexists; reflexivity.
Qed.

Lemma save_step_fails (self : scraper) (a : articleData) (w w' : world)
    (o : outcome (option article_row)) (e : pg_error) (d : db) :
  bind (saveArticle self a) (fun saved => ret (Some saved)) w = (o, w') ->
  Article.create (store w) (with_defaults self a) (clock w) = (Err e, d) ->
  (exists x, o = Thrown x) /\ store w' = d /\ same_rows (store w) d.
Proof.
  intros E He. unfold bind in E.
  pose proof (saveArticle_after_create self a w) as H. rewrite He in H.
  destruct H as (H & Hs). rewrite H in E. inversion E; subst.
  split; [now eexists|]. split; [reflexivity|exact Hs].
Qed.

(** X8. Blocks that never reach the store.  A page block whose cleaned
    title has fewer than 10 characters or whose link has no href, and a
    tweet whose cleaned text has fewer than 5 characters or that has no
    link, are skipped with the world as it was.  A feed item without a link
    makes processItem throw (the url column is NOT NULL) with the rows of
    every table as they were (the rejected statement may have drawn an id
    from the sequence of article ids), and a feed item without a title
    makes it throw or, when its link is stored, return null, with the store
    as it was. *)
Theorem unusable_blocks_are_not_stored :
  (forall net self el w,
     String.length (cleanText (title_text el)) < 10
     \/ link_href el = None \/ link_href el = Some EmptyString ->
     CheerioScraper.processArticleElement net self el w = (Returned None, w))
  /\ (forall net self el w,
        String.length (cleanText (tweet_content_text el)) < 5
        \/ tweet_link_href el = None \/ tweet_link_href el = Some EmptyString ->
        NitterScraper.processTweetElement net self el w = (Returned None, w))
  /\ (forall net self item w,
        item_link item = None ->
        (exists e, fst (RSSScraper.processItem net self item w) = Thrown e)
        /\ sources (store (snd (RSSScraper.processItem net self item w)))
           = sources (store w)
        /\ articles (store (snd (RSSScraper.processItem net self item w)))
           = articles (store w)
        /\ Schema.tags (store (snd (RSSScraper.processItem net self item w)))
           = Schema.tags (store w)
        /\ article_tags (store (snd (RSSScraper.processItem net self item w)))
           = article_tags (store w))
  /\ (forall net self item w,
        item_title item = None ->
        (fst (RSSScraper.processItem net self item w) = Returned None
         \/ exists e, fst (RSSScraper.processItem net self item w) = Thrown e)
        /\ store (snd (RSSScraper.processItem net self item w)) = store w).
Proof.
  split; [|split; [|split]].
  - intros net self el w H. apply processArticleElement_skips. tauto.
  - intros net self el w H. apply processTweetElement_skips. tauto.
  - intros net self item w Hl.
    destruct (RSSScraper.processItem net self item w) as [o w'] eqn:E.
    cbn [fst snd]. unfold RSSScraper.processItem in E.
    unfold bind at 1, RSSScraper.checkIfExists, read_store at 1 in E.
    rewrite Hl in E. unfold bind at 1, now at 1 in E.
    destruct (item_title item) as [ttl|].
    + match type of E with
      | bind (saveArticle ?s ?a) _ _ = _ =>
          destruct (create_needs_url (store w) (with_defaults s a) (clock w)
                      eq_refl) as (e & d & He);
          destruct (save_step_fails s a w w' o e d E He)
            as (Ho & Hd & S1 & S2 & S3 & S4)
      end.
      subst d. auto.
    + unfold throw in E. inversion E; subst. split; [now eexists|auto].
  - intros net self item w Ht.
    destruct (RSSScraper.processItem net self item w) as [o w'] eqn:E.
    cbn [fst snd]. unfold RSSScraper.processItem in E.
    unfold bind at 1, RSSScraper.checkIfExists, read_store at 1 in E.
    destruct (match item_link item with
              | Some u => match Article.findByUrl (store w) u with
                          | Some _ => true
                          | None => false
                          end
              | None => false
              end).
    + unfold ret in E. inversion E; subst. split; [now left|reflexivity].
    + unfold bind at 1, now at 1 in E. rewrite Ht in E.
      unfold throw in E. inversion E; subst.
      split; [right; now eexists|reflexivity].
Qed.

Lemma unusable_blocks_are_not_stored_witness :
  item_link unlinked_item = None
  /\ (exists e,
        fst (RSSScraper.processItem (Observe.one_feed [unlinked_item])
               feed_scraper unlinked_item Observe.start) = Thrown e)
  /\ articles (store (snd (RSSScraper.processItem
                             (Observe.one_feed [unlinked_item])
                             feed_scraper unlinked_item Observe.start)))
     = articles (store Observe.start)
  /\ articles_id_seq (store (snd (RSSScraper.processItem
                                    (Observe.one_feed [unlinked_item])
                                    feed_scraper unlinked_item Observe.start)))
     = (articles_id_seq (store Observe.start) + 1)%Z.
Proof.
  split; [reflexivity|].
  destruct (proj1 (proj2 (proj2 unusable_blocks_are_not_stored))
              (Observe.one_feed [unlinked_item]) feed_scraper unlinked_item
              Observe.start eq_refl) as (He & _ & Ha & _).
  split; [exact He|]. split; [exact Ha|vm_compute; reflexivity].
Defined.

(** X9. A block whose date text new Date() cannot read is not stored: the
    Invalid Date reaches Article.create as published_at, the statement
    fails, and processArticleElement, processItem and processTweetElement
    throw (or skip the block when its url is stored already) with the store
    as it was. *)
Theorem unreadable_date_drops_the_block :
  (forall net self el w c s,
     Js.or_else (date_datetime el) (Some (date_text el)) = Some (String c s) ->
     new_Date net (String c s) = InvalidDate ->
     (fst (CheerioScraper.processArticleElement net self el w) = Returned None
      \/ exists e,
           fst (CheerioScraper.processArticleElement net self el w) = Thrown e)
     /\ store (snd (CheerioScraper.processArticleElement net self el w))
        = store w)
  /\ (forall net self item w c s,
        pubDate item = Some (String c s) ->
        new_Date net (String c s) = InvalidDate ->
        (fst (RSSScraper.processItem net self item w) = Returned None
         \/ exists e, fst (RSSScraper.processItem net self item w) = Thrown e)
        /\ store (snd (RSSScraper.processItem net self item w)) = store w)
  /\ (forall net self el w c s,
        tweet_date_title el = Some (String c s) ->
        new_Date net (String c s) = InvalidDate ->
        (fst (NitterScraper.processTweetElement net self el w) = Returned None
         \/ exists e,
              fst (NitterScraper.processTweetElement net self el w) = Thrown e)
        /\ store (snd (NitterScraper.processTweetElement net self el w))
           = store w).
Proof.
  split; [|split].
  - intros net self el w c s Hd Hinv.
    destruct (CheerioScraper.processArticleElement net self el w) as [o w'] eqn:E.
    cbn [fst snd]. unfold CheerioScraper.processArticleElement in E.
    destruct ((String.length (cleanText (title_text el)) =? 0)
              || (String.length (cleanText (title_text el)) <? 10));
      [unfold ret in E; inversion E; subst; split; [now left|reflexivity]|].
    destruct (link_href el) as [[|c' href]|];
      try (unfold ret in E; inversion E; subst; split; [now left|reflexivity]).
    unfold bind at 1, read_store at 1 in E.
    destruct (Article.findByUrl (store w) _);
      [unfold ret in E; inversion E; subst; split; [now left|reflexivity]|].
    unfold bind at 1, now at 1 in E. rewrite Hd, Hinv in E.
    match type of E with
    | bind (saveArticle ?s ?a) _ _ = _ =>
        destruct (create_needs_date (store w) (with_defaults s a) (clock w)
                    eq_refl) as (e & He);
        destruct (save_step_fails s a w w' o e _ E He) as (Ho & Hst & _)
    end.
    split; [now right|exact Hst].
  - intros net self item w c s Hd Hinv.
    destruct (RSSScraper.processItem net self item w) as [o w'] eqn:E.
    cbn [fst snd]. unfold RSSScraper.processItem in E.
    unfold bind at 1, RSSScraper.checkIfExists, read_store at 1 in E.
    destruct (match item_link item with
              | Some u => match Article.findByUrl (store w) u with
                          | Some _ => true
                          | None => false
                          end
              | None => false
              end);
      [unfold ret in E; inversion E; subst; split; [now left|reflexivity]|].
    unfold bind at 1, now at 1 in E. rewrite Hd, Hinv in E.
    destruct (item_title item) as [ttl|].
    + match type of E with
      | bind (saveArticle ?s ?a) _ _ = _ =>
          destruct (create_needs_date (store w) (with_defaults s a) (clock w)
                      eq_refl) as (e & He);
          destruct (save_step_fails s a w w' o e _ E He) as (Ho & Hst & _)
      end.
      split; [now right|exact Hst].
    + unfold throw in E. inversion E; subst.
      split; [right; now eexists|reflexivity].
  - intros net self el w c s Hd Hinv.
    destruct (NitterScraper.processTweetElement net self el w) as [o w'] eqn:E.
    cbn [fst snd]. unfold NitterScraper.processTweetElement in E.
    destruct ((String.length (cleanText (tweet_content_text el)) =? 0)
              || (String.length (cleanText (tweet_content_text el)) <? 5));
      [unfold ret in E; inversion E; subst; split; [now left|reflexivity]|].
    destruct (tweet_link_href el) as [[|c' href]|];
      try (unfold ret in E; inversion E; subst; split; [now left|reflexivity]).
    unfold bind at 1, read_store at 1 in E.
    destruct (Article.findByUrl (store w) _);
      [unfold ret in E; inversion E; subst; split; [now left|reflexivity]|].
    unfold bind at 1, now at 1 in E. rewrite Hd, Hinv in E.
    match type of E with
    | bind (saveArticle ?s ?a) _ _ = _ =>
        destruct (create_needs_date (store w) (with_defaults s a) (clock w)
                    eq_refl) as (e & He);
        destruct (save_step_fails s a w w' o e _ E He) as (Ho & Hst & _)
    end.
    split; [now right|exact Hst].
Qed.

Lemma unreadable_date_drops_the_block_witness :
  Js.or_else (date_datetime (dated_block "2 hours ago"))
    (Some (date_text (dated_block "2 hours ago"))) = Some "2 hours ago"
  /\ new_Date (Observe.one_feed []) "2 hours ago" = InvalidDate
  /\ (fst (CheerioScraper.processArticleElement (Observe.one_feed [])
             news_scraper (dated_block "2 hours ago") Observe.start)
      = Returned None
      \/ exists e,
           fst (CheerioScraper.processArticleElement (Observe.one_feed [])
                  news_scraper (dated_block "2 hours ago") Observe.start)
           = Thrown e)
  /\ store (snd (CheerioScraper.processArticleElement (Observe.one_feed [])
                   news_scraper (dated_block "2 hours ago") Observe.start))
     = store Observe.start.
Proof.
  split; [reflexivity|]. split; [reflexivity|].
  exact (proj1 unreadable_date_drops_the_block (Observe.one_feed [])
           news_scraper (dated_block "2 hours ago") Observe.start _ _
           eq_refl eq_refl).
Defined.

End SkipFacts.

(* --------------------------------------------------------------------- *)
(** ** ScraperManager: initialize *)
(* --------------------------------------------------------------------- *)

Section RegistryFacts.
Import Web Registry.

Lemma get_set_same (k : Z) (v : extractor) (m : list (Z * extractor)) :
  get k (set k v m) = Some v.
Proof.
  induction m as [|[k' v'] rest IH]; simpl.
  - now rewrite Z.eqb_refl.
  - destruct (Z.eqb_spec k' k) as [->|Hne]; simpl.
    + now rewrite Z.eqb_refl.
    + destruct (Z.eqb_spec k' k); [contradiction|exact IH].
Qed.

Lemma get_set_other (k k' : Z) (v : extractor) (m : list (Z * extractor)) :
  k' <> k -> get k' (set k v m) = get k' m.
Proof.
  intros Hne. induction m as [|[k0 v0] rest IH]; simpl.
  - destruct (Z.eqb_spec k k'); [congruence|reflexivity].
  - destruct (Z.eqb_spec k0 k) as [->|Hk]; simpl.
    + destruct (Z.eqb_spec k k'); [congruence|reflexivity].
    + destruct (Z.eqb_spec k0 k'); [reflexivity|exact IH].
Qed.

Lemma get_In_keys (k : Z) (m : list (Z * extractor)) :
  get k m <> None <-> In k (map fst m).
Proof.
  induction m as [|[k' v] rest IH]; simpl; [tauto|].
  destruct (Z.eqb_spec k' k) as [->|Hne].
  - split; [now left|discriminate].
  - rewrite IH. split; [now right|]. intros [H|H]; [contradiction|exact H].
Qed.

Lemma keys_set (k : Z) (v : extractor) (m : list (Z * extractor)) :
  map fst (set k v m)
  = match get k m with
    | Some _ => map fst m
    | None => (map fst m ++ [k])%list
    end.
Proof.
  induction m as [|[k' v'] rest IH]; simpl; [reflexivity|].
  destruct (Z.eqb_spec k' k) as [->|Hne]; simpl; [reflexivity|].
  rewrite IH. now destruct (get k rest).
Qed.

Lemma createScraper_supported (env : process_env) (s : source_row) :
  createScraper env s <> None <-> supported s = true.
Proof.
  unfold createScraper, supported.
  destruct (String.eqb (s_scraper_type s) "rss"); simpl; [split; [reflexivity|discriminate]|].
  destruct (String.eqb (s_scraper_type s) "cheerio"); simpl;
    split; try reflexivity; try discriminate; tauto.
Qed.

(** What initialize makes of the rows it reads, on top of the map [m]. *)
Lemma register_get (env : process_env) (rows : list source_row) :
  forall m,
    NoDup (map s_id rows) ->
    forall k,
      get k (register env rows m)
      = match find (fun s => (s_id s =? k)%Z) rows with
        | Some s =>
            match createScraper env s with
            | Some e => Some e
            | None => get k m
            end
        | None => get k m
        end.
Proof.
  induction rows as [|s rest IH]; intros m Hnd k; [reflexivity|].
  simpl in Hnd. inversion Hnd as [|? ? Hs Hrest]; subst.
  cbn [register find]. rewrite (IH _ Hrest).
  destruct (Z.eqb_spec (s_id s) k) as [E|E].
  - assert (Hnone : find (fun s0 => (s_id s0 =? k)%Z) rest = None).
    { destruct (find _ rest) as [s'|] eqn:Ef; [|reflexivity].
      apply find_some in Ef as [Hin Hk]. apply Z.eqb_eq in Hk.
      exfalso. apply Hs. rewrite E, <- Hk. now apply in_map. }
    rewrite Hnone. destruct (createScraper env s) as [e|]; [|reflexivity].
    rewrite <- E. apply get_set_same.
  - destruct (createScraper env s) as [e|];
      [rewrite get_set_other by congruence|]; reflexivity.
Qed.

Lemma register_keys (env : process_env) (rows : list source_row) :
  forall m,
    NoDup (map s_id rows) ->
    (forall s, In s rows -> get (s_id s) m = None) ->
    map fst (register env rows m)
    = (map fst m ++ map s_id (filter supported rows))%list.
Proof.
  induction rows as [|s rest IH]; intros m Hnd Hnew.
  - simpl. now rewrite app_nil_r.
  - simpl in Hnd. inversion Hnd as [|? ? Hs Hrest]; subst.
    cbn [register filter].
    pose proof (createScraper_supported env s) as Hsup.
    destruct (createScraper env s) as [e|].
    + assert (Hyes : supported s = true) by (apply Hsup; discriminate).
      rewrite Hyes. rewrite IH; [|exact Hrest|].
      * rewrite keys_set, (Hnew s (or_introl eq_refl)), <- app_assoc.
        reflexivity.
      * intros s' Hin. rewrite get_set_other; [apply Hnew; now right|].
        intros E. apply Hs. rewrite <- E. now apply in_map.
    + assert (Hno : supported s = false).
      { destruct (supported s); [|reflexivity]. exfalso. now apply Hsup. }
      rewrite Hno. apply IH; [exact Hrest|].
      intros s' Hin. apply Hnew. now right.
Qed.

Lemma get_scrapers_of (k : Z) (m : list (Z * extractor)) :
  ScraperManager.get k (scrapers_of m) = option_map base_of (get k m).
Proof.
  induction m as [|[k' v] rest IH]; simpl; [reflexivity|].
  now destruct (k' =? k)%Z.
Qed.

Lemma find_by_id (rows : list source_row) (s : source_row) :
  NoDup (map s_id rows) -> In s rows ->
  find (fun r => (s_id r =? s_id s)%Z) rows = Some s.
Proof.
  induction rows as [|r rest IH]; intros Hnd Hin; [contradiction|].
  simpl in Hnd. inversion Hnd as [|? ? Hr Hrest]; subst. simpl.
  destruct Hin as [->|Hin]; [now rewrite Z.eqb_refl|].
  destruct (Z.eqb_spec (s_id r) (s_id s)) as [E|E]; [|now apply IH].
  exfalso. apply Hr. rewrite E. now apply in_map.
Qed.

Lemma createScraper_config (env : process_env) (s : source_row) (e : extractor) :
  createScraper env s = Some e ->
  BaseScraper.sourceId (base_of e) = Some (s_id s)
  /\ BaseScraper.sourceName (base_of e) = s_name s
  /\ BaseScraper.sourceUrl (base_of e) = s_url s
  /\ match e with
     | Feed f => s_scraper_type s = "rss" /\ RSSScraper.rssUrl f = s_url s
     | Page _ => s_scraper_type s = "cheerio"
     end.
Proof.
  unfold createScraper.
  destruct (String.eqb_spec (s_scraper_type s) "rss") as [E|E].
  - intros H. inversion H; subst e. simpl. auto.
  - destruct (String.eqb_spec (s_scraper_type s) "cheerio") as [E'|E'];
      [|discriminate].
    intros H. inversion H; subst e. simpl. auto.
Qed.

(** X16. initialize on an empty map registers a scraper for exactly the
    enabled sources whose scraper_type is 'rss' or 'cheerio', under the id
    of the source and in the order of the rows it read; a source of type
    'puppeteer' or of an unknown type gets none, so that the loops of the
    manager find no scraper for its id.  Each scraper carries the id, name
    and url of its source; a feed scraper reads the feed at the url of the
    source, table sources having no column rss_url.  When the query fails,
    initialize throws and the map is as it was. *)
Theorem initialize_registers_supported_sources
    (env : process_env) (table rows : list source_row) :
  answers table rows ->
  fst (initialize env (Responded rows) []) = ScraperManager.Done tt
  /\ (forall k e,
        get k (snd (initialize env (Responded rows) [])) = Some e
        <-> exists s, In s table /\ s_enabled s = Some true /\ s_id s = k
                      /\ createScraper env s = Some e)
  /\ map fst (snd (initialize env (Responded rows) []))
     = map s_id (filter supported rows)
  /\ (forall s,
        In s rows -> supported s = false ->
        ScraperManager.get (s_id s)
          (scrapers_of (snd (initialize env (Responded rows) []))) = None)
  /\ (forall s e,
        createScraper env s = Some e ->
        BaseScraper.sourceId (base_of e) = Some (s_id s)
        /\ BaseScraper.sourceName (base_of e) = s_name s
        /\ BaseScraper.sourceUrl (base_of e) = s_url s
        /\ match e with
           | Feed f => s_scraper_type s = "rss" /\ RSSScraper.rssUrl f = s_url s
           | Page _ => s_scraper_type s = "cheerio"
           end)
  /\ (forall message m,
        initialize env (Failed message) m = (ScraperManager.Threw message, m)).
Proof.
  intros [Hnd Hrows]. cbn [initialize fst snd].
  split; [reflexivity|]. split; [|split; [|split; [|split]]].
  - intros k e. rewrite (register_get env rows [] Hnd). cbn [get]. split.
    + destruct (find (fun s => (s_id s =? k)%Z) rows) as [s|] eqn:Ef;
        [|discriminate].
      apply find_some in Ef as [Hin Hk]. apply Z.eqb_eq in Hk.
      apply Hrows in Hin as [Hin Hen].
      destruct (createScraper env s) as [e'|] eqn:Ec; [|discriminate].
      intros H. inversion H; subst e'. now exists s.
    + intros (s & Hin & Hen & Hk & Hc). subst k.
      rewrite (find_by_id rows s Hnd) by (apply Hrows; tauto).
      now rewrite Hc.
  - rewrite (register_keys env rows [] Hnd); [reflexivity|]. reflexivity.
  - intros s Hin Hno. rewrite get_scrapers_of, (register_get env rows [] Hnd).
    rewrite (find_by_id rows s Hnd Hin).
    destruct (createScraper env s) as [e|] eqn:Ec; [|reflexivity].
    assert (supported s = true)
      by (apply (createScraper_supported env s); congruence).
    congruence.
  - intros s e. apply createScraper_config.
  - reflexivity.
Qed.

Lemma initialize_registers_supported_sources_witness :
  answers seeded seeded
  /\ map fst (snd (initialize Observe.no_env (Responded seeded) []))
     = [4%Z; 1%Z; 5%Z]
  /\ ScraperManager.get 8
       (scrapers_of (snd (initialize Observe.no_env (Responded seeded) [])))
     = None.
Proof.
  assert (H : answers seeded seeded).
  { split.
    - simpl. repeat constructor; simpl; intuition discriminate.
    - intros s. split; [|tauto]. intros Hin. split; [exact Hin|].
      simpl in Hin. intuition (subst; reflexivity). }
  destruct (initialize_registers_supported_sources Observe.no_env seeded seeded H)
    as (_ & _ & Hkeys & Hno & _).
  split; [exact H|]. split; [exact Hkeys|].
  apply (Hno (seed 8 "Gulf Coast Media" "https://www.gulfcoastmedia.com"
                "puppeteer")); [simpl; tauto|reflexivity].
Defined.

Lemma set_length (k : Z) (v : extractor) (m : list (Z * extractor)) :
  List.length m <= List.length (set k v m).
Proof.
  induction m as [|[k' v'] rest IH]; simpl; [lia|].
  destruct (k' =? k)%Z; simpl; lia.
Qed.

Lemma register_length (env : process_env) (rows : list source_row) :
  forall m, List.length m <= List.length (register env rows m).
Proof.
  induction rows as [|s rest IH]; intros m; simpl; [lia|].
  etransitivity; [|apply IH].
  destruct (createScraper env s); [apply set_length|lia].
Qed.

(** X17. initialize never removes a scraper.  Run on a map that holds
    scrapers already, it replaces the scraper of every source it reads that
    has a supported type and leaves every other entry as it is: a source
    that was disabled, deleted or given an unsupported type since the last
    initialize keeps its old scraper, and scrapeAll goes on scraping it. *)
Theorem initialize_never_forgets
    (env : process_env) (rows : list source_row) (m : list (Z * extractor)) :
  NoDup (map s_id rows) ->
  (forall k, get k m <> None ->
             get k (snd (initialize env (Responded rows) m)) <> None)
  /\ (forall k, ~ In k (map s_id (filter supported rows)) ->
                get k (snd (initialize env (Responded rows) m)) = get k m)
  /\ (forall s e, In s rows -> createScraper env s = Some e ->
                  get (s_id s) (snd (initialize env (Responded rows) m)) = Some e)
  /\ List.length m
     <= List.length (snd (initialize env (Responded rows) m))
  /\ List.length (scrapers_of m)
     <= List.length (scrapers_of (snd (initialize env (Responded rows) m))).
Proof.
  intros Hnd. cbn [initialize snd].
  assert (Hget := register_get env rows m Hnd).
  split; [|split; [|split; [|split]]].
  - intros k Hk. rewrite Hget.
    destruct (find (fun s => (s_id s =? k)%Z) rows) as [s|]; [|exact Hk].
    destruct (createScraper env s); [discriminate|exact Hk].
  - intros k Hk. rewrite Hget.
    destruct (find (fun s => (s_id s =? k)%Z) rows) as [s|] eqn:Ef; [|reflexivity].
    apply find_some in Ef as [Hin Hs]. apply Z.eqb_eq in Hs.
    destruct (createScraper env s) as [e|] eqn:Ec; [|reflexivity].
    exfalso. apply Hk. rewrite <- Hs. apply in_map. apply filter_In.
    split; [exact Hin|]. apply (createScraper_supported env s). congruence.
  - intros s e Hin Hc. rewrite Hget, (find_by_id rows s Hnd Hin). now rewrite Hc.
  - apply register_length.
  - unfold scrapers_of. rewrite !length_map. apply register_length.
Qed.

Lemma initialize_never_forgets_witness :
  NoDup (map s_id (filter enabled (map (disable 5) seeded)))
  /\ option_map (fun e => BaseScraper.sourceName (base_of e))
       (get 5 (snd (initialize Observe.no_env
                      (Responded (filter enabled (map (disable 5) seeded)))
                      (snd (initialize Observe.no_env (Responded seeded) [])))))
     = Some "Foley Observer".
Proof.
  assert (Hnd : NoDup (map s_id (filter enabled (map (disable 5) seeded)))).
  { simpl. repeat constructor; simpl; intuition discriminate. }
  split; [exact Hnd|].
  rewrite (proj1 (proj2 (initialize_never_forgets Observe.no_env
                           (filter enabled (map (disable 5) seeded))
                           (snd (initialize Observe.no_env (Responded seeded) []))
                           Hnd)) 5%Z).
  - reflexivity.
  - simpl. intuition discriminate.
Defined.

End RegistryFacts.

(* --------------------------------------------------------------------- *)
(** ** The store stays well formed *)
(* --------------------------------------------------------------------- *)

Section CountFacts.
Import Schema Tags Counts.

Lemma links_to_app (t : Z) (links : list (Z * Z)) (a t' : Z) :
  links_to t (links ++ [(a, t')])%list
  = (links_to t links + if (t' =? t)%Z then 1 else 0)%Z.
Proof.
  unfold links_to. rewrite filter_app, length_app. cbn [filter snd].
  destruct (t' =? t)%Z; simpl; lia.
Qed.

Lemma links_to_none (t : Z) (links : list (Z * Z)) :
  (forall l, In l links -> snd l <> t) -> links_to t links = 0%Z.
Proof.
  intros H. unfold links_to.
  induction links as [|l rest IH]; [reflexivity|]. cbn [filter].
  destruct (Z.eqb_spec (snd l) t) as [E|E].
  - exfalso. apply (H l); [now left|exact E].
  - apply IH. intros l' Hl'. apply H. now right.
Qed.

Lemma upsert_tag_counts (d d1 : db) (n ty : string) (now : timestamp) (id : Z) :
  consistent d -> counts_exact d ->
  upsert_tag d n ty now = (Ok id, d1) ->
  counts_exact d1.
Proof.
  intros (_ & _ & Hfk) Hc. unfold upsert_tag.
  destruct (fit 100 n) as [v|]; [|discriminate].
  destruct (fit 20 ty) as [vt|]; [|discriminate].
  destruct (int_max <? tags_id_seq d + 1)%Z; [discriminate|].
  destruct (find_tag_by_name v (tags d)) as [old|].
  - intros H; inversion H; subst; clear H. exact Hc.
  - destruct (existsb _ (tags d)) eqn:Epk; [discriminate|].
    intros H; inversion H; subst; clear H.
    intros r Hr. cbn [tags article_tags with_tags] in *.
    apply in_app_or in Hr as [Hr|[<-|[]]]; [now apply Hc|].
    cbn [t_count t_id]. symmetry. apply links_to_none.
    intros l Hl E. apply Hfk in Hl. rewrite E in Hl.
    apply in_map_iff in Hl as (r & Hid & Hin).
    assert (Hx : existsb (fun r => (t_id r =? tags_id_seq d + 1)%Z) (tags d) = true).
    { apply existsb_exists. exists r. split; [exact Hin|]. now apply Z.eqb_eq. }
    congruence.
Qed.

Lemma link_tag_counts (d d2 : db) (a id : Z) :
  counts_exact d -> link_tag d a id = Ok d2 -> counts_exact d2.
Proof.
  intros Hc. unfold link_tag.
  destruct (negb (in_int4 a && in_int4 id)); [discriminate|].
  destruct (linked a id (article_tags d));
    [intros H; inversion H; subst; exact Hc|].
  destruct (negb (existsb _ (articles d))); [discriminate|].
  destruct (negb (existsb _ (tags d))); [discriminate|].
  unfold bind.
  destruct (increment_tag_count id (tags d)) as [rows|e] eqn:Ei; [|discriminate].
  apply increment_tag_count_Ok in Ei. subst rows.
  intros H; inversion H; subst; clear H.
  intros r' Hr'. cbn [tags article_tags with_tags] in *.
  apply in_map_iff in Hr' as (r & <- & Hr).
  rewrite links_to_app. specialize (Hc r Hr). unfold bump.
  destruct (Z.eqb_spec (t_id r) id) as [E|E]; cbn [t_count t_id].
  - rewrite E, Z.eqb_refl, <- E. lia.
  - destruct (Z.eqb_spec id (t_id r)); [congruence|lia].
Qed.

Lemma addTags_loop_counts (names : list string) :
  forall d d' a now,
    consistent d -> counts_exact d ->
    addTags_loop d a names now = (Ok tt, d') ->
    counts_exact d'.
Proof.
  induction names as [|n rest IH]; intros d d' a now Hok Hc H.
  - simpl in H. inversion H; subst. exact Hc.
  - cbn [addTags_loop] in H.
    destruct (upsert_tag d n _ now) as [[id|e] d1] eqn:Eu; [|discriminate].
    destruct (link_tag d1 a id) as [d2|e] eqn:El; [|discriminate].
    pose proof (upsert_tag_counts _ _ _ _ _ _ Hok Hc Eu) as Hc1.
    destruct (upsert_tag_Ok _ _ _ _ _ _ Hok Eu)
      as (v & _ & Hok1 & _ & _ & (rn & Hrn & Hid) & _).
    pose proof (link_tag_counts _ _ _ _ Hc1 El) as Hc2.
    destruct (link_tag_Ok _ _ _ _ _ _ Hok1 Hrn Hid El) as (Hok2 & _).
    exact (IH _ _ _ _ Hok2 Hc2 H).
Qed.

(** X18. Article.addTags keeps tags.count exact: in a store in which every
    link points to a tag and the counter of every tag is the number of its
    links, the counters are again the number of links after addTags,
    whether it committed or rolled back, and the tag tables are still
    consistent (names and ids unique, links pointing to tags). *)
Theorem addTags_keeps_counts_exact (d : db) (a : Z) (names : list string)
    (now : timestamp) :
  consistent d -> counts_exact d ->
  consistent (snd (addTags d a names now))
  /\ counts_exact (snd (addTags d a names now)).
Proof.
  intros Hok Hc. unfold addTags.
  destruct (addTags_loop d a names now) as [[[]|e] d'] eqn:E; cbn [snd];
    [|split; [exact Hok|exact Hc]].
  split.
  - now destruct (addTags_loop_Ok names d d' a now Hok E).
  - exact (addTags_loop_counts names d d' a now Hok Hc E).
Qed.

Lemma addTags_keeps_counts_exact_witness :
  consistent one_article_db
  /\ counts_exact one_article_db
  /\ counts_exact (snd (addTags one_article_db 1%Z ["#Storm"; "Foley"; "#Storm"]
                          11%N)).
Proof.
  assert (Hok : consistent one_article_db).
  { repeat split; simpl; try constructor. intros l []. }
  assert (Hc : counts_exact one_article_db) by (intros r []).
  split; [exact Hok|]. split; [exact Hc|].
  exact (proj2 (addTags_keeps_counts_exact one_article_db 1%Z
                  ["#Storm"; "Foley"; "#Storm"] 11%N Hok Hc)).
Defined.

End CountFacts.

Section WellFormedFacts.
Import Schema Effects Web BaseScraper Counts.

Lemma create_well_formed (d d' : db) (data : Article.article_data)
    (now : timestamp) (o : result article_row) :
  well_formed d -> Article.create d data now = (o, d') -> well_formed d'.
Proof.
  intros (Hu & Hok & Hc) E.
  destruct (create_beside _ _ _ _ _ E) as (_ & Ht & _ & Hl & _).
  split.
  - destruct o as [row|e].
    + now destruct (create_keeps_urls_unique _ _ _ _ _ Hu E).
    + apply create_Err in E as (_ & Ha & _). now rewrite Ha.
  - unfold Tags.consistent, counts_exact in *. rewrite Ht, Hl. now split.
Qed.

Lemma addTags_well_formed (d : db) (a : Z) (names : list string)
    (now : timestamp) :
  well_formed d -> well_formed (snd (Tags.addTags d a names now)).
Proof.
  intros (Hu & Hok & Hc). split; [|split].
  - now rewrite addTags_articles.
  - unfold Tags.addTags.
    destruct (Tags.addTags_loop d a names now) as [[[]|e] d'] eqn:E; cbn [snd];
      [|exact Hok].
    now destruct (addTags_loop_Ok names d d' a now Hok E).
  - unfold Tags.addTags.
    destruct (Tags.addTags_loop d a names now) as [[[]|e] d'] eqn:E; cbn [snd];
      [|exact Hc].
    exact (addTags_loop_counts names d d' a now Hok Hc E).
Qed.

Lemma preserves_ret {A : Type} (I : db -> Prop) (a : A) : preserves I (ret a).
Proof. intros w H. exact H. Qed.

Lemma preserves_throw {A : Type} (I : db -> Prop) (e : exn) :
  preserves I (@throw A e).
Proof. intros w H. exact H. Qed.

Lemma preserves_emit (I : db -> Prop) (e : event) : preserves I (emit e).
Proof. intros w H. exact H. Qed.

Lemma preserves_pass (I : db -> Prop) (ms : N) : preserves I (pass ms).
Proof. intros w H. exact H. Qed.

Lemma preserves_now (I : db -> Prop) : preserves I now.
Proof. intros w H. exact H. Qed.

Lemma preserves_read_store {A : Type} (I : db -> Prop) (q : db -> A) :
  preserves I (read_store q).
Proof. intros w H. exact H. Qed.

Lemma preserves_bind {A B : Type} (I : db -> Prop) (m : M A) (k : A -> M B) :
  preserves I m -> (forall a, preserves I (k a)) -> preserves I (bind m k).
Proof.
  intros Hm Hk w H. unfold bind. specialize (Hm w H).
  destruct (m w) as [[a|e] w1]; cbn [snd] in *; [now apply Hk|exact Hm].
Qed.

Lemma preserves_try_catch {A : Type} (I : db -> Prop) (m : M A)
    (h : exn -> M A) :
  preserves I m -> (forall e, preserves I (h e)) -> preserves I (try_catch m h).
Proof.
  intros Hm Hh w H. unfold try_catch. specialize (Hm w H).
  destruct (m w) as [[a|e] w1]; cbn [snd] in *; [exact Hm|now apply Hh].
Qed.

Ltac keeps :=
  repeat match goal with
         | |- preserves _ (bind _ _) => apply preserves_bind; [|intros ?]
         | |- preserves _ (try_catch _ _) => apply preserves_try_catch; [|intros ?]
         | |- preserves _ (ret _) => apply preserves_ret
         | |- preserves _ (throw _) => apply preserves_throw
         | |- preserves _ (emit _) => apply preserves_emit
         | |- preserves _ now => apply preserves_now
         | |- preserves _ (pass _) => apply preserves_pass
         | |- preserves _ (read_store _) => apply preserves_read_store
         | |- preserves _ (match ?x with _ => _ end) => destruct x
         | |- preserves _ (if ?b then _ else _) => destruct b
         end.

Lemma preserves_saveArticle (self : scraper) (a : articleData) :
  preserves well_formed (saveArticle self a).
Proof.
  intros w H. rewrite saveArticle_eq.
  destruct (Article.create (store w) (with_defaults self a) (clock w))
    as [[row|e] d] eqn:E; pose proof (create_well_formed _ _ _ _ _ H E) as Hd;
    [|exact Hd].
  destruct (tags a) as [|t ts]; [exact Hd|].
  pose proof (addTags_well_formed d (a_id row) (t :: ts) (clock w) Hd) as Ht.
  now destruct (Tags.addTags d (a_id row) (t :: ts) (clock w)) as [[[]|e] d2].
Qed.

Lemma preserves_collect {X : Type} (I : db -> Prop)
    (process : X -> M (option article_row)) (blocks : list X) :
  (forall b, preserves I (process b)) -> preserves I (collect process blocks).
Proof.
  intros H. induction blocks as [|b rest IH]; cbn [collect]; keeps; auto.
Qed.

Lemma preserves_fetchHTML (I : db -> Prop) (net : internet) (self : scraper)
    (url : string) :
  preserves I (fetchHTML net self url).
Proof. intros w H. rewrite fetchHTML_run. now destruct (axios_get net url). Qed.

(** X19. Every scrape() keeps the store well formed: when the urls of the
    articles differ from one another, tag names and tag ids are unique,
    every link points to a tag and every tags.count is the number of links
    to its tag, then the same holds after a scrape of CheerioScraper,
    RSSScraper or NitterScraper, and after saveArticle alone, whatever was
    fetched and whichever statements failed. *)
Theorem scrapes_keep_the_store_well_formed :
  (forall net self, preserves well_formed (CheerioScraper.scrape net self))
  /\ (forall net self, preserves well_formed (RSSScraper.scrape net self))
  /\ (forall net self, preserves well_formed (NitterScraper.scrape net self))
  /\ (forall self a, preserves well_formed (saveArticle self a)).
Proof.
  split; [|split; [|split]].
  - intros net self. unfold CheerioScraper.scrape.
    apply preserves_try_catch; [|intros e; apply preserves_throw].
    apply preserves_bind; [apply preserves_fetchHTML|intros page].
    apply preserves_collect. intros el.
    unfold CheerioScraper.processArticleElement. keeps.
    apply preserves_saveArticle.
  - intros net self. unfold RSSScraper.scrape.
    apply preserves_try_catch; [|intros e; apply preserves_throw].
    apply preserves_bind; [apply preserves_emit|intros _].
    destruct (parseURL net (RSSScraper.rssUrl self)); [|apply preserves_throw].
    apply preserves_collect. intros item.
    unfold RSSScraper.processItem, RSSScraper.checkIfExists. keeps.
    apply preserves_saveArticle.
  - intros net self. unfold NitterScraper.scrape.
    apply preserves_try_catch; [|intros e; apply preserves_throw].
    apply preserves_bind; [apply preserves_fetchHTML|intros page].
    apply preserves_collect. intros el.
    unfold NitterScraper.processTweetElement. keeps.
    apply preserves_saveArticle.
  - exact preserves_saveArticle.
Qed.

Lemma scrapes_keep_the_store_well_formed_witness :
  well_formed (store Observe.start)
  /\ well_formed
       (store (snd (RSSScraper.scrape (Observe.one_feed [After.plain_item])
                      After.feed_scraper Observe.start))).
Proof.
  assert (H : well_formed (store Observe.start)).
  { split; [constructor|]. split; [|intros r []].
    repeat split; simpl; try constructor. intros l []. }
  split; [exact H|].
  exact (proj1 (proj2 scrapes_keep_the_store_well_formed)
           (Observe.one_feed [After.plain_item]) After.feed_scraper
           Observe.start H).
Defined.

Lemma filter_split_length {A : Type} (f : A -> bool) (l : list A) :
  List.length l
  = List.length (filter f l) + List.length (filter (fun x => negb (f x)) l).
Proof.
  induction l as [|x r IH]; simpl; [reflexivity|].
  destruct (f x); simpl; lia.
Qed.

Lemma links_to_split (t : Z) (f : Z * Z -> bool) (links : list (Z * Z)) :
  links_to t links
  = (links_to t (filter (fun l => negb (f l)) links)
     + links_to t (filter f links))%Z.
Proof.
  unfold links_to. induction links as [|l r IH]; [reflexivity|].
  cbn [filter]. destruct (f l); cbn [negb filter];
    destruct (snd l =? t)%Z; cbn [List.length]; lia.
Qed.

Lemma filter_idem {A : Type} (f : A -> bool) (l : list A) :
  filter f (filter f l) = filter f l.
Proof.
  induction l as [|x r IH]; [reflexivity|]. cbn [filter].
  destruct (f x) eqn:E; [cbn [filter]; now rewrite E, IH|exact IH].
Qed.

Lemma filter_all {A : Type} (f : A -> bool) (l : list A) :
  (forall x, f x = true) -> filter f l = l.
Proof.
  intros H. induction l as [|x r IH]; [reflexivity|].
  cbn [filter]. now rewrite H, IH.
Qed.

(** X20. Article.deleteOld returns the number of articles created before
    the cut-off and removes exactly those, with their links; the articles
    kept, their order and the links of the articles kept (article ids
    being unique) are untouched, and a second deleteOld with the same
    cut-off deletes nothing.  The tags table is not touched: no counter is
    decremented, so after a purge a counter that was exact exceeds the
    number of links of its tag by the number of links the purge removed. *)
Theorem deleteOld_leaves_tag_counts (d : db) (cutoff : timestamp) :
  fst (deleteOld d cutoff)
  = List.length (articles d) - List.length (articles (snd (deleteOld d cutoff)))
  /\ articles (snd (deleteOld d cutoff))
     = filter (fun r => (cutoff <=? a_created_at r)%N) (articles d)
  /\ Schema.tags (snd (deleteOld d cutoff)) = Schema.tags d
  /\ (forall l, In l (article_tags (snd (deleteOld d cutoff))) ->
                In l (article_tags d)
                /\ forall r, In r (articles d) -> a_id r = fst l ->
                             (cutoff <= a_created_at r)%N)
  /\ (NoDup (map a_id (articles d)) ->
      forall l r, In l (article_tags d) ->
                  In r (articles (snd (deleteOld d cutoff))) ->
                  a_id r = fst l ->
                  In l (article_tags (snd (deleteOld d cutoff))))
  /\ deleteOld (snd (deleteOld d cutoff)) cutoff = (0, snd (deleteOld d cutoff))
  /\ (counts_exact d ->
      forall r, In r (Schema.tags (snd (deleteOld d cutoff))) ->
        t_count r
        = (links_to (t_id r) (article_tags (snd (deleteOld d cutoff)))
           + links_to (t_id r)
               (filter (of_deleted (filter (expired cutoff) (articles d)))
                  (article_tags d)))%Z).
Proof.
  assert (Hneg : forall r, negb (expired cutoff r) = (cutoff <=? a_created_at r)%N).
  { intros r. unfold expired.
    destruct (N.ltb_spec (a_created_at r) cutoff);
      destruct (N.leb_spec cutoff (a_created_at r)); simpl; auto; lia. }
  unfold deleteOld. cbn [fst snd articles Schema.tags article_tags].
  split; [|split; [|split; [|split; [|split; [|split]]]]].
  - rewrite (filter_split_length (expired cutoff) (articles d)). lia.
  - apply filter_ext. exact Hneg.
  - reflexivity.
  - intros l Hl. apply filter_In in Hl as [Hl Hg]. split; [exact Hl|].
    intros r Hr Hid. apply N.leb_le. rewrite <- Hneg.
    destruct (expired cutoff r) eqn:Ex; [|reflexivity].
    exfalso. apply negb_true_iff in Hg. unfold of_deleted in Hg.
    assert (Hx : existsb (fun r => (a_id r =? fst l)%Z)
                   (filter (expired cutoff) (articles d)) = true).
    { apply existsb_exists. exists r. split; [now apply filter_In|].
      now apply Z.eqb_eq. }
    congruence.
  - intros Hnd l r Hl Hr Hid. apply filter_In. split; [exact Hl|].
    apply negb_true_iff. unfold of_deleted.
    destruct (existsb _ (filter (expired cutoff) (articles d))) eqn:Ex;
      [|reflexivity].
    apply existsb_exists in Ex as (r' & Hr' & Hid').
    apply Z.eqb_eq in Hid'. apply filter_In in Hr' as [Hin' Hold'].
    apply filter_In in Hr as [Hin Hnew].
    assert (r' = r).
    { clear - Hnd Hin Hin' Hid Hid'. rewrite <- Hid in Hid'.
      induction (articles d) as [|x rest IH]; [contradiction|].
      simpl in Hnd. inversion Hnd as [|? ? Hx Hrest]; subst.
      destruct Hin as [->|Hin], Hin' as [->|Hin']; auto.
      - exfalso. apply Hx. rewrite <- Hid'. now apply in_map.
      - exfalso. apply Hx. rewrite Hid'. now apply in_map. }
    subst r'. rewrite Hold' in Hnew. discriminate.
  - assert (Hnone : filter (expired cutoff)
                      (filter (fun r => negb (expired cutoff r)) (articles d)) = []).
    { induction (articles d) as [|x rest IH]; [reflexivity|].
      cbn [filter]. destruct (expired cutoff x) eqn:Ex; cbn [negb filter];
        [exact IH|]. now rewrite Ex. }
    rewrite Hnone, filter_idem. cbn [List.length].
    rewrite (filter_all (fun l => negb (of_deleted [] l))) by reflexivity.
    reflexivity.
  - intros Hc r Hr. rewrite (Hc r Hr).
    apply (links_to_split (t_id r)
             (of_deleted (filter (expired cutoff) (articles d)))).
Qed.

Lemma deleteOld_leaves_tag_counts_witness :
  counts_exact Tags.tagged_db
  /\ fst (deleteOld Tags.tagged_db 20%N) = 1
  /\ article_tags (snd (deleteOld Tags.tagged_db 20%N)) = []
  /\ Tags.count_of (snd (deleteOld Tags.tagged_db 20%N)) "#Storm" = 1%Z
  /\ forall r,
       In r (Schema.tags (snd (deleteOld Tags.tagged_db 20%N))) ->
       t_count r
       = (links_to (t_id r) (article_tags (snd (deleteOld Tags.tagged_db 20%N)))
          + links_to (t_id r)
              (filter (of_deleted (filter (expired 20%N)
                                     (articles Tags.tagged_db)))
                 (article_tags Tags.tagged_db)))%Z.
Proof.
  assert (Hc : counts_exact Tags.tagged_db).
  { intros r Hr. simpl in Hr. destruct Hr as [<-|[<-|[]]]; reflexivity. }
  split; [exact Hc|]. split; [reflexivity|]. split; [reflexivity|].
  split; [reflexivity|].
  exact (proj2 (proj2 (proj2 (proj2 (proj2 (proj2
           (deleteOld_leaves_tag_counts Tags.tagged_db 20%N)))))) Hc).
Defined.

End WellFormedFacts.

(* --------------------------------------------------------------------- *)
(** ** The extractors: what they hand to the store *)
(* --------------------------------------------------------------------- *)

Section HandOverFacts.
Import Schema Effects Web BaseScraper Observe After.

Ltac log_step :=
  match goal with
  | |- adds _ (bind _ _) => apply adds_bind; [|intros ?]
  | |- adds _ (try_catch _ _) => apply adds_try_catch; [|intros ?]
  | |- adds _ (ret _) => apply adds_ret
  | |- adds _ (throw _) => apply adds_throw
  | |- adds _ now => apply adds_now
  | |- adds _ (pass _) => apply adds_pass
  | |- adds _ (on_store _) => apply adds_on_store
  | |- adds _ (read_store _) => apply adds_read_store
  | |- adds _ (match ?x with _ => _ end) => destruct x
  | |- adds _ (if ?b then _ else _) => destruct b
  end.

Lemma categorizeArticle_category (title excerpt : string) :
  In (Categorize.categorizeArticle title excerpt) Categorize.categories.
Proof.
  unfold Categorize.categorizeArticle, Categorize.categories.
  repeat match goal with
         | |- In (if ?b then _ else _) _ => destruct b
         end; simpl; tauto.
Qed.

(** saveArticle calls addTags only with a list that is not empty. *)
Lemma adds_saveArticle_tagged (P : event -> Prop) (self : scraper)
    (a : articleData) :
  P (ArticleCreate (with_defaults self a)) ->
  (tags a <> [] -> forall id, P (ArticleAddTags id (tags a))) ->
  adds P (saveArticle self a).
Proof.
  intros Hc Ht. unfold saveArticle.
  apply adds_try_catch; [|intros e; apply adds_throw].
  apply adds_bind.
  - unfold Article_create. repeat log_step. now apply adds_emit.
  - intros article. apply adds_bind; [|intros _; apply adds_ret].
    destruct (tags a) as [|t ts] eqn:E; [apply adds_ret|].
    apply adds_Article_addTags. apply Ht. discriminate.
Qed.

Lemma uniq_In (l : list string) (x : string) : In x (Js.uniq l) <-> In x l.
Proof. unfold Js.uniq. rewrite set_of_In. simpl. tauto. Qed.

(** X21. What reaches the store.  CheerioScraper and RSSScraper hand every
    article to Article.create with the id of their source, content type
    'news', no platform and one of the seven categories, and call addTags
    only with a list of tags that is not empty.  NitterScraper hands every
    tweet over with content type 'social', platform 'twitter', category
    'social', an author that is not empty ('Unknown' when the page gives
    none) and a url under https://twitter.com, and always with tags: a list
    without repetitions that holds '#' followed by the hashtag of the
    scraper.  A scraper made by the constructor of NitterScraper has no
    source id, so its tweets are stored with source_id NULL. *)
Theorem what_the_extractors_hand_over :
  (forall net self el,
     adds (news_data self) (CheerioScraper.processArticleElement net self el))
  /\ (forall net self item,
        adds (news_data (RSSScraper.base self))
             (RSSScraper.processItem net self item))
  /\ (forall net self el,
        adds (tweet_data self) (NitterScraper.processTweetElement net self el))
  /\ (forall env hashtag,
        sourceId (NitterScraper.base (NitterScraper.constructor env hashtag))
        = None
        /\ sourceName (NitterScraper.base (NitterScraper.constructor env hashtag))
           = "Nitter-" ++ hashtag
        /\ sourceUrl (NitterScraper.base (NitterScraper.constructor env hashtag))
           = "https://nitter.net/search?f=tweets&q=%23" ++ hashtag).
Proof.
  split; [|split; [|split]].
  - intros net self el. unfold CheerioScraper.processArticleElement.
    repeat log_step.
    apply adds_saveArticle_tagged.
    + cbn. repeat split. eexists. split; [reflexivity|].
      apply categorizeArticle_category.
    + intros Hne id. exact Hne.
  - intros net self item.
    unfold RSSScraper.processItem, RSSScraper.checkIfExists.
    repeat log_step;
      (apply adds_saveArticle_tagged;
       [cbn; repeat split; eexists; split; [reflexivity|];
        apply categorizeArticle_category
       |intros Hne id; exact Hne]).
  - intros net self el. unfold NitterScraper.processTweetElement.
    repeat log_step;
      (apply adds_saveArticle_tagged;
       [cbn; repeat split;
        first [ now (eexists; eexists) | now eexists
              | destruct (cleanText (username_text el)); now (eexists; eexists) ]
       |intros _ id; cbn; split;
        [apply uniq_In, in_or_app; right; now left|apply set_of_NoDup]]).
  - intros env hashtag. repeat split.
Qed.






End HandOverFacts.
